(** * Grocery price tracker: scraping and reconciliation pipeline

    A shallow embedding of the parts of the price tracker that clean,
    de-duplicate, match and reconcile scraped listings:

    - [server/app/scrapers/base_scraper.py]   ([Server.BaseScraper])
    - [backend/app/scrapers/base_scraper.py]  ([Backend.BaseScraper])
    - [server/app/services/data_processor.py] ([Server.DataProcessor])
    - [server/app/utils/category_classifier.py] ([Server.CategoryClassifier])

    Conventions of the embedding.

    - A Python [str] is a list of characters ([list ascii]); the embedding
      covers 7-bit text, which is what every property below is about.
      Characters above 127 are carried along unchanged and belong to none of
      the classes [\d], [\w], [\s].
    - A Python [float] is the rational number it denotes ([Q]); comparisons
      and the arithmetic of the code are exact on it.  The two tests in
      which rounding decides at the threshold (the 5% of the price gate
      and the 1% of the change type) are given in binary64 as well
      ([Server.DataProcessor.Binary64]).
    - [datetime] values are integers (microseconds on one clock) and a
      [timedelta] is their difference.
    - A raised exception is the [Raise] branch of [result]. *)

From Stdlib Require Import List Ascii String Bool Arith ZArith QArith Qabs Qround.
From Stdlib Require Import Lia Lqa Permutation DecimalString ListSet.
From Stdlib Require NArith DecimalN Floats.
Import ListNotations.

Close Scope Q_scope.
Open Scope string_scope.
Open Scope nat_scope.
Open Scope list_scope.

Coercion list_ascii_of_string : string >-> list.

(** Python's [str]. *)
Abbreviation str := (list ascii).

(* ================================================================== *)
(** ** Python string primitives *)
(* ================================================================== *)

Module PyStr.

Definition code (c : ascii) : nat := nat_of_ascii c.

Definition str_eq_dec : forall a b : str, {a = b} + {a <> b} :=
  list_eq_dec ascii_dec.

Definition str_eqb (a b : str) : bool :=
  if str_eq_dec a b then true else false.

(** [c.isdigit()] on 7-bit text, which is also the class [\d]. *)
Definition is_digit (c : ascii) : bool :=
  (48 <=? code c) && (code c <=? 57).

Definition is_upper (c : ascii) : bool :=
  (65 <=? code c) && (code c <=? 90).

Definition is_lower (c : ascii) : bool :=
  (97 <=? code c) && (code c <=? 122).

(** The class [\w]: letters, digits and the underscore. *)
Definition is_word (c : ascii) : bool :=
  is_digit c || is_upper c || is_lower c || (code c =? 95).

(** [c.isspace()], also the class [\s]: tab, newline, vertical tab, form
    feed, carriage return, the four separators 0x1c-0x1f and the blank. *)
Definition is_space (c : ascii) : bool :=
  ((9 <=? code c) && (code c <=? 13))
  || ((28 <=? code c) && (code c <=? 31))
  || (code c =? 32).

Definition lower_char (c : ascii) : ascii :=
  if is_upper c then ascii_of_nat (code c + 32) else c.

Definition upper_char (c : ascii) : ascii :=
  if is_lower c then ascii_of_nat (code c - 32) else c.

(** [s.lower()] *)
Definition lower (s : str) : str := map lower_char s.

(** [s.isascii()]: every character is below 128. *)
Definition isascii (s : str) : bool := forallb (fun ch => code ch <? 128) s.

(** [s.lstrip()], [s.rstrip()], [s.strip()] *)
Fixpoint lstrip (s : str) : str :=
  match s with
  | c :: s' => if is_space c then lstrip s' else s
  | [] => []
  end.

Definition rstrip (s : str) : str := rev (lstrip (rev s)).

Definition strip (s : str) : str := rstrip (lstrip s).

(** [s.split()] with no argument: the maximal runs of non-blank
    characters.  [cur] is the run being read, kept in reverse. *)
Fixpoint split_ws_aux (cur : str) (s : str) : list str :=
  match s with
  | [] => match cur with [] => [] | _ => [rev cur] end
  | c :: s' =>
      if is_space c
      then match cur with
           | [] => split_ws_aux [] s'
           | _ => rev cur :: split_ws_aux [] s'
           end
      else split_ws_aux (c :: cur) s'
  end.

Definition split_ws (s : str) : list str := split_ws_aux [] s.

(** [s.split(sep)] for a one-character separator: never empty, keeps
    empty fields. *)
Fixpoint split_on_aux (sep : ascii) (cur : str) (s : str) : list str :=
  match s with
  | [] => [rev cur]
  | c :: s' =>
      if Ascii.eqb c sep
      then rev cur :: split_on_aux sep [] s'
      else split_on_aux sep (c :: cur) s'
  end.

Definition split_on (sep : ascii) (s : str) : list str :=
  split_on_aux sep [] s.

(** [sep.join(parts)] *)
Fixpoint join (sep : str) (parts : list str) : str :=
  match parts with
  | [] => []
  | [p] => p
  | p :: ps => p ++ sep ++ join sep ps
  end.

(** [s.replace(old, new)] for a one-character [old]. *)
Definition replace_char (old : ascii) (new : str) (s : str) : str :=
  flat_map (fun c => if Ascii.eqb c old then new else [c]) s.

(** [s.count(c)] and [c in s] for a character. *)
Definition count_char (c : ascii) (s : str) : nat :=
  List.length (filter (Ascii.eqb c) s).

Definition has_char (c : ascii) (s : str) : bool :=
  existsb (Ascii.eqb c) s.

(** [s.startswith(p)] *)
Fixpoint startswith (p s : str) : bool :=
  match p, s with
  | [], _ => true
  | a :: p', b :: s' => Ascii.eqb a b && startswith p' s'
  | _ :: _, [] => false
  end.

(** [p in s]: [p] occurs in [s] as a contiguous piece. *)
Fixpoint contains (p s : str) : bool :=
  startswith p s
  || match s with
     | [] => false
     | _ :: s' => contains p s'
     end.

(** Truthiness of a string and of an optional string. *)
Definition truthy (s : str) : bool :=
  match s with [] => false | _ => true end.

Definition truthy_opt (o : option str) : bool :=
  match o with Some s => truthy s | None => false end.

End PyStr.

(* ================================================================== *)
(** ** Python numbers *)
(* ================================================================== *)

Module PyNum.

Local Open Scope Q_scope.

Definition Qlt_bool (a b : Q) : bool := negb (Qle_bool b a).

Definition is_zero (q : Q) : bool := Qeq_bool q 0.

(** Truthiness of an optional number: present and not zero. *)
Definition truthy_opt (o : option Q) : bool :=
  match o with Some q => negb (is_zero q) | None => false end.

(** Nearest integer, ties to the even one. *)
Definition round_half_even (q : Q) : Z :=
  let fl := Qfloor q in
  let frac := q - inject_Z fl in
  if Qlt_bool frac (1 # 2) then fl
  else if Qlt_bool (1 # 2) frac then (fl + 1)%Z
  else if Z.even fl then fl else (fl + 1)%Z.

(** [round(x, 2)], in hundredths. *)
Definition round2_cents (q : Q) : Z := round_half_even (q * 100).

(** [round(x, 2)] *)
Definition round2 (q : Q) : Q := Qmake (round2_cents q) 100.

Definition digits_of_N (n : N) : str :=
  list_ascii_of_string (NilEmpty.string_of_uint (N.to_uint n)).

(** [str(round(x, 2))] as an f-string prints it, for magnitudes below
    1e16 (above, Python switches to the exponent form): sign, integer
    part, a dot, then one or two decimals.  The sign is the sign of [x],
    so that a small negative price prints as [-0.0]. *)
Definition repr_round2 (q : Q) : str :=
  let c := Z.abs (round2_cents q) in
  let ip := Z.to_N (c / 100)%Z in
  let fp := Z.to_N (c mod 100)%Z in
  let frac :=
    if (fp mod 10 =? 0)%N then digits_of_N (fp / 10)%N
    else digits_of_N (fp / 10)%N ++ digits_of_N (fp mod 10)%N in
  (if Qlt_bool q 0 then list_ascii_of_string "-" else [])
    ++ digits_of_N ip ++ list_ascii_of_string "." ++ frac.

(** The decimals [repr_round2] prints for a number of hundredths. *)
Definition printed_decimals (fp : N) : str :=
  if (fp mod 10 =? 0)%N then digits_of_N (fp / 10)%N
  else digits_of_N (fp / 10)%N ++ digits_of_N (fp mod 10)%N.

(** A number that [round(x, 2)] has no tie to break for: it lies
    within 0.0049 of a whole number of hundredths, as every price does
    that was read with two decimals. *)
Definition clear_of_ties (q : Q) : Prop :=
  exists cents : Z, (Qabs (q * 100 - inject_Z cents) <= 49 # 100)%Q.

End PyNum.

(* ================================================================== *)
(** ** The regular expressions of module [re] *)
(* ================================================================== *)

Module Re.

Import PyStr.

(** The patterns the code uses are built from literals, character
    classes, sequence, ordered choice, greedy repetition and the
    boundary [\b]. *)
Inductive regex : Type :=
| Eps : regex
| Chr : ascii -> regex
| Cls : (ascii -> bool) -> regex
| Seq : regex -> regex -> regex
| Alt : regex -> regex -> regex
| Star : regex -> regex
| WordB : regex.

Definition Plus (r : regex) : regex := Seq r (Star r).
Definition Opt (r : regex) : regex := Alt r Eps.

(** A literal piece of a pattern. *)
Fixpoint Lit (s : str) : regex :=
  match s with
  | [] => Eps
  | [c] => Chr c
  | c :: s' => Seq (Chr c) (Lit s')
  end.

(** [(a|b|c)] *)
Fixpoint AltOf (rs : list regex) : regex :=
  match rs with
  | [] => Cls (fun _ => false)
  | [r] => r
  | r :: rs' => Alt r (AltOf rs')
  end.

(** The flag [re.IGNORECASE]. *)
Fixpoint ignorecase (r : regex) : regex :=
  match r with
  | Eps => Eps
  | Chr c => Cls (fun x => Ascii.eqb (lower_char x) (lower_char c))
  | Cls p => Cls (fun x => p x || p (lower_char x) || p (upper_char x))
  | Seq a b => Seq (ignorecase a) (ignorecase b)
  | Alt a b => Alt (ignorecase a) (ignorecase b)
  | Star a => Star (ignorecase a)
  | WordB => WordB
  end.

Definition word_before (prev : option ascii) : bool :=
  match prev with Some c => is_word c | None => false end.

Definition word_after (s : str) : bool :=
  match s with c :: _ => is_word c | [] => false end.

(** The backtracking matcher.  A position is the character before it
    ([prev], needed by [\b]) and the text after it; [k] is what remains
    to be matched.  Choices are tried in the order Python tries them:
    the left alternative first, one more repetition before none.  A
    repetition must consume something, so [length s] rounds suffice. *)
Fixpoint run {A : Type} (r : regex) (prev : option ascii) (s : str)
    (k : option ascii -> str -> option A) {struct r} : option A :=
  match r with
  | Eps => k prev s
  | Chr c =>
      match s with
      | x :: s' => if Ascii.eqb x c then k (Some x) s' else None
      | [] => None
      end
  | Cls p =>
      match s with
      | x :: s' => if p x then k (Some x) s' else None
      | [] => None
      end
  | Seq a b => run a prev s (fun prev' s' => run b prev' s' k)
  | Alt a b =>
      match run a prev s k with
      | Some x => Some x
      | None => run b prev s k
      end
  | Star a =>
      (fix loop (n : nat) (prev : option ascii) (s : str) : option A :=
         match n with
         | O => k prev s
         | S n' =>
             match run a prev s
                     (fun prev' s' =>
                        if List.length s' <? List.length s
                        then loop n' prev' s' else None) with
             | Some x => Some x
             | None => k prev s
             end
         end) (List.length s) prev s
  | WordB => if xorb (word_before prev) (word_after s) then k prev s else None
  end.

(** A match starting exactly here: the number of characters it takes. *)
Definition match_here (r : regex) (prev : option ascii) (s : str)
  : option nat :=
  run r prev s (fun _ rest => Some (List.length s - List.length rest)).

(** [re.search(r, s)] as a truth value. *)
Fixpoint search_from (r : regex) (prev : option ascii) (s : str) : bool :=
  match match_here r prev s with
  | Some _ => true
  | None =>
      match s with
      | [] => false
      | c :: s' => search_from r (Some c) s'
      end
  end.

Definition search (r : regex) (s : str) : bool := search_from r None s.

(** [re.findall(r, s)] for a pattern without groups: the matches from
    left to right, none overlapping.  [skip] counts the characters
    still inside the match found last. *)
Fixpoint findall_from (r : regex) (prev : option ascii) (s : str)
    (skip : nat) : list str :=
  match skip with
  | S n =>
      match s with
      | [] => []
      | c :: s' => findall_from r (Some c) s' n
      end
  | O =>
      match match_here r prev s with
      | Some n =>
          firstn n s ::
          match s with
          | [] => []
          | c :: s' => findall_from r (Some c) s' (n - 1)
          end
      | None =>
          match s with
          | [] => []
          | c :: s' => findall_from r (Some c) s' 0
          end
      end
  end.

Definition findall (r : regex) (s : str) : list str :=
  findall_from r None s 0.

(** [re.sub(r, repl, s)] for a pattern that cannot match the empty
    string (all the patterns substituted in this code are such). *)
Fixpoint sub_from (r : regex) (repl : str) (prev : option ascii) (s : str)
    (skip : nat) : str :=
  match s with
  | [] => []
  | c :: s' =>
      match skip with
      | S n => sub_from r repl (Some c) s' n
      | O =>
          match match_here r prev s with
          | Some (S n) => repl ++ sub_from r repl (Some c) s' n
          | _ => c :: sub_from r repl (Some c) s' 0
          end
      end
  end.

Definition sub (r : regex) (repl : str) (s : str) : str :=
  sub_from r repl None s 0.

(** The classes used below. *)
Definition d : regex := Cls is_digit.
Definition w : regex := Cls is_word.
Definition s : regex := Cls is_space.

(** **** What a match is

    [accepts r prev t rest prev'] says that the pattern [r] matches the
    piece [t] of a text: [prev] is the character before the piece and
    [rest] the text after it (the boundary [\b] looks at both); [prev']
    is the character before the position where the piece ends. *)
Inductive accepts
  : regex -> option ascii -> str -> str -> option ascii -> Prop :=
| accepts_eps : forall prev rest, accepts Eps prev [] rest prev
| accepts_chr : forall prev c rest, accepts (Chr c) prev [c] rest (Some c)
| accepts_cls : forall prev p c rest,
    p c = true -> accepts (Cls p) prev [c] rest (Some c)
| accepts_seq : forall a b prev t1 mid t2 rest prev',
    accepts a prev t1 (t2 ++ rest) mid ->
    accepts b mid t2 rest prev' ->
    accepts (Seq a b) prev (t1 ++ t2) rest prev'
| accepts_alt_l : forall a b prev t rest prev',
    accepts a prev t rest prev' -> accepts (Alt a b) prev t rest prev'
| accepts_alt_r : forall a b prev t rest prev',
    accepts b prev t rest prev' -> accepts (Alt a b) prev t rest prev'
| accepts_star_nil : forall a prev rest, accepts (Star a) prev [] rest prev
| accepts_star_cons : forall a prev t1 mid t2 rest prev',
    t1 <> [] ->
    accepts a prev t1 (t2 ++ rest) mid ->
    accepts (Star a) mid t2 rest prev' ->
    accepts (Star a) prev (t1 ++ t2) rest prev'
| accepts_wordb : forall prev rest,
    xorb (word_before prev) (word_after rest) = true ->
    accepts WordB prev [] rest prev.

(** The rounds of a repetition, as [run] goes through them. *)
Definition star_loop {A : Type} (a : regex)
    (k : option ascii -> str -> option A)
  : nat -> option ascii -> str -> option A :=
  fix loop (n : nat) (prev : option ascii) (s : str) : option A :=
    match n with
    | O => k prev s
    | S n' =>
        match run a prev s
                (fun prev' s' =>
                   if List.length s' <? List.length s
                   then loop n' prev' s' else None) with
        | Some x => Some x
        | None => k prev s
        end
    end.

(** **** Groups

    A pattern with groups is the sequence of its pieces, those in
    parentheses marked [true]; the match backtracks through the pieces
    as through a sequence and keeps the text of each marked piece. *)
Definition pieces : Type := list (bool * regex).

Fixpoint run_pieces {A : Type} (ps : pieces) (prev : option ascii) (s : str)
    (groups : list str) (k : option ascii -> str -> list str -> option A)
  : option A :=
  match ps with
  | [] => k prev s groups
  | (captured, r) :: ps' =>
      run r prev s
        (fun prev' s' =>
           run_pieces ps' prev' s'
             (if captured
              then groups ++ [firstn (List.length s - List.length s') s]
              else groups)
             k)
  end.

(** Where [$] holds: at the end of the text and before a newline that
    ends it. *)
Definition at_end (rest : str) : bool :=
  match rest with
  | [] => true
  | [c] => Ascii.eqb c (ascii_of_nat 10)
  | _ => false
  end.

(** The groups of a match that starts exactly here; [anchored] says
    that the pattern ends in [$]. *)
Definition match_groups (ps : pieces) (anchored : bool)
    (prev : option ascii) (s : str) : option (list str) :=
  run_pieces ps prev s []
    (fun _ rest groups =>
       if anchored && negb (at_end rest) then None else Some groups).

(** [re.search(pattern, s)] for a pattern with groups: [None], or the
    texts [m.group(1)], [m.group(2)], ... of the leftmost match. *)
Fixpoint search_groups_from (ps : pieces) (anchored : bool)
    (prev : option ascii) (s : str) : option (list str) :=
  match match_groups ps anchored prev s with
  | Some groups => Some groups
  | None =>
      match s with
      | [] => None
      | c :: s' => search_groups_from ps anchored (Some c) s'
      end
  end.

Definition search_groups (ps : pieces) (anchored : bool) (s : str)
  : option (list str) :=
  search_groups_from ps anchored None s.

(** What it is for a pattern with groups to match: the text splits
    into one piece for each piece of the pattern.  [captured] keeps the
    pieces in parentheses. *)
Fixpoint accepts_pieces (ps : pieces) (prev : option ascii) (ts : list str)
    (rest : str) (prev' : option ascii) : Prop :=
  match ps, ts with
  | [], [] => prev' = prev
  | (_, r) :: ps', t :: ts' =>
      exists mid,
        accepts r prev t (List.concat ts' ++ rest) mid
        /\ accepts_pieces ps' mid ts' rest prev'
  | _, _ => False
  end.

Fixpoint captured (ps : pieces) (ts : list str) : list str :=
  match ps, ts with
  | (true, _) :: ps', t :: ts' => t :: captured ps' ts'
  | (false, _) :: ps', _ :: ts' => captured ps' ts'
  | _, _ => []
  end.

(** A pattern without [\b] does not look around the piece it matches. *)
Fixpoint no_boundary (r : regex) : bool :=
  match r with
  | Eps | Chr _ | Cls _ => true
  | Seq a b | Alt a b => no_boundary a && no_boundary b
  | Star a => no_boundary a
  | WordB => false
  end.

(** The character before the position that follows [t]. *)
Definition last_char (prev : option ascii) (t : str) : option ascii :=
  match rev t with
  | c :: _ => Some c
  | [] => prev
  end.

End Re.

(* ================================================================== *)
(** ** Exceptions *)
(* ================================================================== *)

Module Py.

Inductive exn : Type :=
| ValueError
| TypeError
| IndexError
| ZeroDivisionError
| InvalidOperation
| SQLAlchemyError.

Inductive result (A : Type) : Type :=
| Ok : A -> result A
| Raise : exn -> result A.

Arguments Ok {A} _.
Arguments Raise {A} _.

Definition bind {A B : Type} (m : result A) (f : A -> result B) : result B :=
  match m with
  | Ok a => f a
  | Raise e => Raise e
  end.

Notation "x <- m ;; k" := (bind m (fun x => k))
  (at level 61, m at next level, right associativity).

(** [try: body  except (classes): handler] *)
Definition try_except {A : Type} (body : result A) (catches : exn -> bool)
    (handler : exn -> result A) : result A :=
  match body with
  | Ok a => Ok a
  | Raise e => if catches e then handler e else Raise e
  end.

(** [except Exception]: every exception of this embedding. *)
Definition any_exception (e : exn) : bool := true.

End Py.

(* ================================================================== *)
(** ** Parsing numbers *)
(* ================================================================== *)

Module PyParse.

Import PyStr Py.

Definition digit_val (c : ascii) : Z := Z.of_nat (code c - 48).

Definition digits_val (ds : str) : Z :=
  fold_left (fun acc c => (acc * 10 + digit_val c)%Z) ds 0%Z.

Definition all_digits (ds : str) : bool := forallb is_digit ds.

Definition split_sign (t : str) : bool * str :=
  match t with
  | c :: t' =>
      if Ascii.eqb c "-" then (true, t')
      else if Ascii.eqb c "+" then (false, t')
      else (false, t)
  | [] => (false, [])
  end.

(** The decimal literals [float] and [Decimal] both accept: blanks
    around, a sign, digits with at most one dot and at least one digit.
    The other accepted forms (exponents, [inf], [nan], [_] between
    digits) contain a letter or an underscore, which the price cleaners
    remove before they convert; here they are not literals. *)
Definition decimal_literal (t : str) : option Q :=
  let (neg, body) := split_sign (strip t) in
  let value :=
    match split_on "." body with
    | [ip] =>
        if all_digits ip && truthy ip
        then Some (inject_Z (digits_val ip))
        else None
    | [ip; fp] =>
        if all_digits ip && all_digits fp && (truthy ip || truthy fp)
        then Some (Qmake (digits_val (ip ++ fp))
                         (Z.to_pos (10 ^ Z.of_nat (List.length fp))))
        else None
    | _ => None
    end in
  match value with
  | Some q => Some (if neg then Qopp q else q)
  | None => None
  end.

(** [float(t)].  The double Python builds is the one nearest to this
    rational; it has the same sign, and the embedding keeps the rational. *)
Definition float (t : str) : result Q :=
  match decimal_literal t with
  | Some q => Ok q
  | None => Raise ValueError
  end.

(** [Decimal(t)] *)
Definition Decimal (t : str) : result Q :=
  match decimal_literal t with
  | Some q => Ok q
  | None => Raise InvalidOperation
  end.

End PyParse.

(* ================================================================== *)
(** ** [difflib.SequenceMatcher] *)
(* ================================================================== *)

Module Difflib.

Fixpoint common_prefix (a b : str) : nat :=
  match a, b with
  | x :: a', y :: b' =>
      if Ascii.eqb x y then S (common_prefix a' b') else 0
  | _, _ => 0
  end.

(** The longest block of [b] that the text [a_rest] starts with: where
    it starts in [b] (counted from [j]) and its length; the first of
    the longest wins. *)
Fixpoint scan_b (a_rest b : str) (j : nat) (best : nat * nat) : nat * nat :=
  match b with
  | [] => best
  | _ :: b' =>
      let k := common_prefix a_rest b in
      scan_b a_rest b' (S j) (if snd best <? k then (j, k) else best)
  end.

Fixpoint scan_a (a b : str) (i : nat) (best : nat * nat * nat)
  : nat * nat * nat :=
  match a with
  | [] => best
  | _ :: a' =>
      let '(j, k) := scan_b a b 0 (0, 0) in
      scan_a a' b (S i) (if snd best <? k then (i, j, k) else best)
  end.

(** [find_longest_match] over the whole of [a] and [b], without junk
    (no [isjunk], and [b] shorter than the 200 characters at which the
    automatic junk heuristic starts): of the longest common blocks, the
    one that starts first in [a], and of those the one that starts
    first in [b]. *)
Definition find_longest_match (a b : str) : nat * nat * nat :=
  scan_a a b 0 (0, 0, 0).

(** The total size of the blocks [get_matching_blocks] finds: the
    longest block, then the same to its left and to its right.  Each
    round shortens [a], so [S (length a)] rounds are enough. *)
Fixpoint matching_size (fuel : nat) (a b : str) : option nat :=
  match fuel with
  | O => None
  | S fuel' =>
      let '(i, j, k) := find_longest_match a b in
      if k =? 0 then Some 0
      else
        match matching_size fuel' (firstn i a) (firstn j b),
              matching_size fuel' (skipn (i + k) a) (skipn (j + k) b) with
        | Some before, Some behind => Some (before + k + behind)
        | _, _ => None
        end
  end.

Definition matches (a b : str) : nat :=
  match matching_size (S (List.length a)) a b with
  | Some m => m
  | None => 0
  end.

(** [SequenceMatcher(None, a, b).ratio()], in lowest terms. *)
Definition ratio (a b : str) : Q :=
  let total := List.length a + List.length b in
  match total with
  | O => 1%Q
  | _ => Qred (Qmake (2 * Z.of_nat (matches a b)) (Pos.of_nat total))
  end.

End Difflib.

(* ================================================================== *)
(** ** [server/app] *)
(* ================================================================== *)

Module Server.

(** *** [scrapers/base_scraper.py] *)

Module BaseScraper.

Import PyStr PyNum Py.

(** [@dataclass class ScrapedProduct] *)
Record ScrapedProduct : Type := {
  name : str;
  price : Q;
  original_price : option Q;
  price_per_kg : option Q;
  pack_size : option str;
  pack_unit : option str;
  weight_value : option Q;
  weight_unit : option str;
  brand : option str;
  category : option str;
  subcategory : option str;
  description : option str;
  image_url : option str;
  product_url : option str;
  external_id : option str;
  is_available : bool;
  is_discounted : bool;
  is_on_sale : bool;
  discount_percentage : option Q;
  keywords : list str
}.

Definition set_original_price (v : option Q) (p : ScrapedProduct) :=
  {| name := name p; price := price p; original_price := v;
     price_per_kg := price_per_kg p; pack_size := pack_size p;
     pack_unit := pack_unit p; weight_value := weight_value p;
     weight_unit := weight_unit p; brand := brand p; category := category p;
     subcategory := subcategory p; description := description p;
     image_url := image_url p; product_url := product_url p;
     external_id := external_id p; is_available := is_available p;
     is_discounted := is_discounted p; is_on_sale := is_on_sale p;
     discount_percentage := discount_percentage p; keywords := keywords p |}.

Definition set_is_discounted (v : bool) (p : ScrapedProduct) :=
  {| name := name p; price := price p; original_price := original_price p;
     price_per_kg := price_per_kg p; pack_size := pack_size p;
     pack_unit := pack_unit p; weight_value := weight_value p;
     weight_unit := weight_unit p; brand := brand p; category := category p;
     subcategory := subcategory p; description := description p;
     image_url := image_url p; product_url := product_url p;
     external_id := external_id p; is_available := is_available p;
     is_discounted := v; is_on_sale := is_on_sale p;
     discount_percentage := discount_percentage p; keywords := keywords p |}.

(** [ScrapedProduct(name=..., price=...)]: every other field at its
    default. *)
Definition scraped (name : str) (price : Q) : ScrapedProduct :=
  {| name := name; price := price; original_price := None;
     price_per_kg := None; pack_size := None; pack_unit := None;
     weight_value := None; weight_unit := None; brand := None;
     category := None; subcategory := None; description := None;
     image_url := None; product_url := None; external_id := None;
     is_available := true; is_discounted := false; is_on_sale := false;
     discount_percentage := None; keywords := [] |}.

(** [ScrapedProduct.__post_init__]: the discount is derived when an
    original price comes without a percentage. *)
Definition __post_init__ (p : ScrapedProduct) : ScrapedProduct :=
  match original_price p with
  | Some op =>
      if negb (is_zero op) && negb (is_zero (price p))
         && negb (PyNum.truthy_opt (discount_percentage p))
      then
        let pct := (((op - price p) / op) * 100)%Q in
        {| name := name p; price := price p; original_price := Some op;
           price_per_kg := price_per_kg p; pack_size := pack_size p;
           pack_unit := pack_unit p; weight_value := weight_value p;
           weight_unit := weight_unit p; brand := brand p;
           category := category p; subcategory := subcategory p;
           description := description p; image_url := image_url p;
           product_url := product_url p; external_id := external_id p;
           is_available := is_available p;
           is_discounted := Qlt_bool 0 pct; is_on_sale := is_on_sale p;
           discount_percentage := Some pct; keywords := keywords p |}
      else p
  | None => p
  end.

(** The pattern [[^\d.,]]. *)
Definition not_price_char : Re.regex :=
  Re.Cls (fun c => negb (is_digit c || Ascii.eqb c "." || Ascii.eqb c ",")).

(** The characters it leaves. *)
Definition price_char (c : ascii) : bool :=
  is_digit c || Ascii.eqb c "." || Ascii.eqb c ",".

(** [cleaned.split(',')[1]] *)
Definition after_comma (cleaned : str) : result str :=
  match nth_error (split_on "," cleaned) 1 with
  | Some part => Ok part
  | None => Raise IndexError
  end.

(** [BaseScraper.clean_price] *)
Definition clean_price (price_text : str) : result Q :=
  if negb (truthy price_text) then Ok 0%Q
  else
    try_except
      (let cleaned := Re.sub not_price_char [] (strip price_text) in
       cleaned <-
         (if has_char "," cleaned && has_char "." cleaned
          then Ok (replace_char "," [] cleaned)
          else if has_char "," cleaned && (count_char "," cleaned =? 1)
          then (part <- after_comma cleaned ;;
                if List.length part <=? 2
                then Ok (replace_char "," (list_ascii_of_string ".") cleaned)
                else Ok cleaned)
          else Ok cleaned) ;;
       x <- PyParse.float cleaned ;;
       Ok (round2 x))
      (fun e => match e with ValueError | TypeError => true | _ => false end)
      (fun _ => Ok 0%Q).

(** [BaseScraper.validate_product], for a product that is not [None].
    The product is an object the caller shares: the result carries the
    record as the call leaves it. *)
Definition validate_product (product : ScrapedProduct)
  : bool * ScrapedProduct :=
  if negb (truthy (name product)) || negb (truthy (strip (name product)))
  then (false, product)
  else if Qle_bool (price product) 0
  then (false, product)
  else
    match original_price product with
    | Some op =>
        if negb (is_zero op) && Qlt_bool op (price product)
        then (true, set_is_discounted false (set_original_price None product))
        else (true, product)
    | None => (true, product)
    end.

(** The validation loop of [BaseScraper.run_scraping]: the records that
    pass, as validation left them, and one error per record dropped. *)
Fixpoint run_scraping_validate (products : list ScrapedProduct)
  : list ScrapedProduct * nat :=
  match products with
  | [] => ([], 0)
  | p :: rest =>
      let '(ok, p') := validate_product p in
      let '(valid, dropped) := run_scraping_validate rest in
      if ok then (p' :: valid, dropped) else (valid, S dropped)
  end.

(** [BaseScraper.clean_text]; a missing text ([None]) is the empty
    one. *)
Definition clean_text (text : str) : str :=
  if negb (truthy text) then []
  else join " " (split_ws (strip text)).

(** [d.get(key, default)] *)
Fixpoint dict_get {V : Type} (key : str) (default : V)
    (table : list (string * V)) : V :=
  match table with
  | [] => default
  | (k, v) :: rest =>
      if str_eqb (list_ascii_of_string k) key then v
      else dict_get key default rest
  end.

(** The group [(\d+(?:\.\d+)?)]. *)
Definition quantity : Re.regex :=
  Re.Seq (Re.Plus Re.d) (Re.Opt (Re.Seq (Re.Chr ".") (Re.Plus Re.d))).

Definition units (names : list string) : Re.regex :=
  Re.AltOf (map (fun u => Re.Lit (list_ascii_of_string u)) names).

(** The two patterns of [extract_weight_info]:
    [(\d+(?:\.\d+)?)\s*(kg|kilogram|g|gram|l|liter|ml|milliliter)s?] and
    [(\d+(?:\.\d+)?)\s*(oz|pound|lb)s?]. *)
Definition weight_patterns : list Re.pieces :=
  [ [(true, quantity); (false, Re.Star Re.s);
     (true, units ["kg"; "kilogram"; "g"; "gram"; "l"; "liter"; "ml";
                   "milliliter"]);
     (false, Re.Opt (Re.Chr "s"))];
    [(true, quantity); (false, Re.Star Re.s);
     (true, units ["oz"; "pound"; "lb"]);
     (false, Re.Opt (Re.Chr "s"))] ].

Definition unit_mapping : list (string * str) :=
  [("kilogram", list_ascii_of_string "kg");
   ("gram", list_ascii_of_string "g");
   ("liter", list_ascii_of_string "l");
   ("milliliter", list_ascii_of_string "ml");
   ("pound", list_ascii_of_string "lb");
   ("lb", list_ascii_of_string "lb");
   ("oz", list_ascii_of_string "oz")].

(** The loop of [extract_weight_info] over its patterns. *)
Fixpoint first_weight (patterns : list Re.pieces) (text_lower : str)
  : result (option Q * option str) :=
  match patterns with
  | [] => Ok (None, None)
  | pattern :: rest =>
      match Re.search_groups pattern false text_lower with
      | Some [group1; group2] =>
          value <- PyParse.float group1 ;;
          Ok (Some value, Some (dict_get group2 group2 unit_mapping))
      | Some _ => Raise IndexError
      | None => first_weight rest text_lower
      end
  end.

(** [BaseScraper.extract_weight_info] *)
Definition extract_weight_info (text : str)
  : result (option Q * option str) :=
  if negb (truthy text) then Ok (None, None)
  else first_weight weight_patterns (lower text).

(** The patterns of [extract_product_id], each with whether it ends in
    [$]: [/products?/(\d+)], [/item/(\d+)], [id=(\d+)], [/(\d+)/?$]. *)
Definition product_id_patterns : list (Re.pieces * bool) :=
  [ ([(false, Re.Lit "/product"); (false, Re.Opt (Re.Chr "s"));
      (false, Re.Chr "/"); (true, Re.Plus Re.d)], false);
    ([(false, Re.Lit "/item/"); (true, Re.Plus Re.d)], false);
    ([(false, Re.Lit "id="); (true, Re.Plus Re.d)], false);
    ([(false, Re.Chr "/"); (true, Re.Plus Re.d);
      (false, Re.Opt (Re.Chr "/"))], true) ].

Fixpoint first_product_id (patterns : list (Re.pieces * bool)) (url : str)
  : result (option str) :=
  match patterns with
  | [] => Ok None
  | (pattern, anchored) :: rest =>
      match Re.search_groups pattern anchored url with
      | Some (group1 :: _) => Ok (Some group1)
      | Some [] => Raise IndexError
      | None => first_product_id rest url
      end
  end.

(** [BaseScraper.extract_product_id] *)
Definition extract_product_id (url : str) : result (option str) :=
  if negb (truthy url) then Ok None
  else first_product_id product_id_patterns url.

(** What one call of [page.goto] comes to: a response with its status,
    no response, a Playwright timeout, or another exception. *)
Inductive goto_outcome : Type :=
| Response : Z -> goto_outcome
| NoResponse : goto_outcome
| PlaywrightTimeoutError : goto_outcome
| OtherError : goto_outcome.

(** How [navigate_to_url] ends. *)
Inductive navigation : Type :=
| Returns : bool -> navigation
| ScraperTimeoutError : navigation
| ScraperNavigationError : navigation.

(** The loop of [navigate_to_url] over [range(retries + 1)]; [goto]
    tells what the page does at each attempt.  The result comes with the
    number of calls of [page.goto] and the seconds slept between them
    ([2 ** attempt] after each attempt that did not end the loop). *)
Fixpoint navigate_attempts (goto : nat -> goto_outcome) (retries : Z)
    (attempts : list nat) (calls : nat) (slept : Z)
  : navigation * nat * Z :=
  match attempts with
  | [] => (Returns false, calls, slept)
  | attempt :: rest =>
      let again :=
        navigate_attempts goto retries rest (S calls)
          (slept + 2 ^ Z.of_nat attempt)%Z in
      match goto attempt with
      | Response status =>
          if (status <? 400)%Z then (Returns true, S calls, slept)
          else again
      | NoResponse => again
      | PlaywrightTimeoutError =>
          if (Z.of_nat attempt =? retries)%Z
          then (ScraperTimeoutError, S calls, slept)
          else again
      | OtherError =>
          if (Z.of_nat attempt =? retries)%Z
          then (ScraperNavigationError, S calls, slept)
          else again
      end
  end.

(** [BaseScraper.navigate_to_url] with [retries] given. *)
Definition navigate_to_url (goto : nat -> goto_outcome) (retries : Z)
  : navigation * nat * Z :=
  navigate_attempts goto retries (seq 0 (Z.to_nat (retries + 1))) 0 0%Z.

End BaseScraper.

(** *** [models/]: the rows of the catalog

    Only the columns the data processor reads or writes are kept; the
    surrogate keys of [prices] and [price_history] and the bookkeeping
    columns [created_at] are left out. *)

Module Product.
Record t : Type := {
  id : Z;
  name : str;
  category : str;
  subcategory : option str;
  keywords : option str;
  description : option str;
  image_url : option str;
  unit : option str;
  weight : option Q;
  brand : option str;
  is_organic : bool;
  is_active : bool;
  store_id : Z;
  external_id : option str;
  updated_at : option Z
}.
End Product.

Module Price.
Record t : Type := {
  product_id : Z;
  store_id : Z;
  price : Q;
  original_price : option Q;
  price_per_kg : option Q;
  discount_percentage : option Q;
  pack_size : option str;
  pack_unit : option str;
  weight_value : option Q;
  weight_unit : option str;
  is_available : bool;
  is_discounted : bool;
  is_on_sale : bool;
  product_url : option str;
  image_url : option str;
  scraped_at : Z
}.
End Price.

Module PriceHistory.
(** The values written to the column [change_type]. *)
Inductive change : Type := stable | increase | decrease | unavailable | new.

Record t : Type := {
  product_id : Z;
  store_id : Z;
  price : Q;
  original_price : option Q;
  price_per_kg : option Q;
  discount_percentage : option Q;
  pack_size : option str;
  pack_unit : option str;
  is_available : bool;
  is_discounted : bool;
  change_type : change;
  change_amount : Q;
  change_percentage : Q;
  recorded_at : Z
}.
End PriceHistory.

Module Store.
Record t : Type := {
  id : Z;
  last_scraped : option Z;
  success_rate : Q;
  total_scrapes : Z;
  failed_scrapes : Z
}.
End Store.

(** *** The database session

    [Db] is the content of the four tables.  A session is a state
    transformer over it that may raise; what was written before an
    exception stays pending in the session, as with the ORM.  A query
    sees what the session has written so far.  The sessions of this
    application do not flush on their own, so a price row added earlier
    in the same pass would in fact stay unseen until the next flush;
    such a row is stamped with the clock of the pass, and the
    properties of the price gate and of the history row are stated for
    a current price record observed before it. *)

Module Session.

Import Py.

Record Db : Type := {
  products : list Product.t;
  prices : list Price.t;
  price_history : list PriceHistory.t;
  stores : list Store.t
}.

(** A computation over a state [St] that returns an [A] or raises. *)
Definition M (St A : Type) : Type := St -> result A * St.

Definition ret {St A : Type} (a : A) : M St A := fun st => (Ok a, st).

Definition raise {St A : Type} (e : exn) : M St A := fun st => (Raise e, st).

Definition bind {St A B : Type} (m : M St A) (f : A -> M St B) : M St B :=
  fun st =>
    match m st with
    | (Ok a, st') => f a st'
    | (Raise e, st') => (Raise e, st')
    end.

Definition get {St : Type} : M St St := fun st => (Ok st, st).

Definition modify {St : Type} (f : St -> St) : M St unit :=
  fun st => (Ok tt, f st).

Definition lift {St A : Type} (r : result A) : M St A := fun st => (r, st).

(** [try: body  except Exception as e: handler(e)] *)
Definition try_except {St A : Type} (body : M St A)
    (handler : exn -> M St A) : M St A :=
  fun st =>
    match body st with
    | (Ok a, st') => (Ok a, st')
    | (Raise e, st') => handler e st'
    end.

(** [for x in xs: body(x)] *)
Fixpoint for_each {St X : Type} (xs : list X) (body : X -> M St unit)
  : M St unit :=
  match xs with
  | [] => ret tt
  | x :: xs' => bind (body x) (fun _ => for_each xs' body)
  end.

(** The [i]-th row of a table, and its replacement. *)
Fixpoint update_at {A : Type} (i : nat) (f : A -> A) (l : list A) : list A :=
  match l, i with
  | [], _ => []
  | x :: l', O => f x :: l'
  | x :: l', S i' => x :: update_at i' f l'
  end.

(** [query.filter(cond).first()], as the position of the row: rows are
    scanned in table order. *)
Fixpoint first_index {A : Type} (cond : A -> bool) (l : list A)
  : option nat :=
  match l with
  | [] => None
  | x :: l' =>
      if cond x then Some O
      else match first_index cond l' with
           | Some i => Some (S i)
           | None => None
           end
  end.

End Session.

(** *** [utils/price_calculator.py] *)

Module PriceCalculator.

Import PyStr PyNum.
Local Open Scope Q_scope.

Definition UNIT_CONVERSIONS_TO_KG : list (string * Q) :=
  [("g", 0.001); ("gram", 0.001); ("grams", 0.001);
   ("kg", 1.0); ("kilogram", 1.0); ("kilograms", 1.0);
   ("lb", 0.453592); ("pound", 0.453592); ("pounds", 0.453592);
   ("oz", 0.0283495); ("ounce", 0.0283495); ("ounces", 0.0283495)]%string.

Definition UNIT_CONVERSIONS_TO_L : list (string * Q) :=
  [("ml", 0.001); ("milliliter", 0.001); ("milliliters", 0.001);
   ("l", 1.0); ("liter", 1.0); ("liters", 1.0);
   ("fl oz", 0.0295735); ("fluid ounce", 0.0295735)]%string.

(** [table.get(key)] *)
Fixpoint lookup {V : Type} (key : str) (table : list (string * V))
  : option V :=
  match table with
  | [] => None
  | (k, v) :: rest =>
      if str_eqb (list_ascii_of_string k) key then Some v else lookup key rest
  end.

(** [PriceCalculator.convert_to_standard_unit] *)
Definition convert_to_standard_unit (value : Q) (unit : str) : option Q :=
  if negb (truthy unit) then None
  else
    let unit := strip (lower unit) in
    match lookup unit UNIT_CONVERSIONS_TO_KG with
    | Some factor => Some (value * factor)
    | None =>
        match lookup unit UNIT_CONVERSIONS_TO_L with
        | Some factor => Some (value * factor)
        | None => None
        end
    end.

(** [PriceCalculator.calculate_price_per_unit] *)
Definition calculate_price_per_unit (price weight : Q) (unit : str)
  : option Q :=
  if is_zero weight || Qle_bool weight 0 then None
  else
    match convert_to_standard_unit weight unit with
    | Some standard_weight =>
        if is_zero standard_weight then None
        else Some (round2 (price / standard_weight))
    | None => None
    end.

(** The pattern [[^\d.]]. *)
Definition not_size_char : Re.regex :=
  Re.Cls (fun c => negb (is_digit c || Ascii.eqb c ".")).

(** [PriceCalculator.calculate_price_per_kg]; whatever is raised
    inside is caught and gives [None]. *)
Definition calculate_price_per_kg (price : Q) (size unit : str) : option Q :=
  match PyParse.float (Re.sub not_size_char [] size) with
  | Py.Raise _ => None
  | Py.Ok size_value =>
      match lookup (lower unit) UNIT_CONVERSIONS_TO_KG with
      | None => None
      | Some conversion_factor =>
          if is_zero conversion_factor || Qle_bool size_value 0 then None
          else
            let weight_in_kg := size_value * conversion_factor in
            if is_zero weight_in_kg then None
            else Some (round2 (price / weight_in_kg))
      end
  end.

(** [PriceCalculator.calculate_discount_percentage] *)
Definition calculate_discount_percentage (original_price current_price : Q)
  : Q :=
  if Qle_bool original_price 0 || Qle_bool original_price current_price
  then 0
  else round2 (((original_price - current_price) / original_price) * 100).

End PriceCalculator.

(** *** [services/data_processor.py]: cleaning and matching of names *)

Module DataProcessor.

Import PyStr PyNum Py.
Export BaseScraper.

(** [self.similarity_threshold] and [self.price_change_threshold] *)
Definition similarity_threshold : Q := 8 # 10.
Definition price_change_threshold : Q := 5 # 100.

(** The pattern [\b(pack|pcs|pieces|kg|g|ml|l)\b]. *)
Definition unit_word : Re.regex :=
  Re.Seq Re.WordB
    (Re.Seq
       (Re.AltOf [Re.Lit "pack"; Re.Lit "pcs"; Re.Lit "pieces"; Re.Lit "kg";
                  Re.Lit "g"; Re.Lit "ml"; Re.Lit "l"])
       Re.WordB).

(** The pattern [[^\w\s]]. *)
Definition special_char : Re.regex :=
  Re.Cls (fun c => negb (is_word c || is_space c)).

(** [DataProcessor._normalize_product_name] *)
Definition _normalize_product_name (name : str) : str :=
  if negb (truthy name) then []
  else
    let normalized := join " " (split_ws (strip (lower name))) in
    let normalized := Re.sub unit_word [] normalized in
    let normalized := Re.sub special_char [] normalized in
    strip (Re.sub (Re.Plus Re.s) " " normalized).

(** [set(name.split())]: the words without repetition. *)
Definition word_set (name : str) : list str :=
  nodup str_eq_dec (split_ws name).

(** [len(a) / len(b)] for a non-empty [b]. *)
Definition len_ratio (a b : list str) : Q :=
  Qmake (Z.of_nat (List.length a)) (Pos.of_nat (List.length b)).

(** [DataProcessor._calculate_similarity] *)
Definition _calculate_similarity (name1 name2 : str) : Q :=
  if negb (truthy name1) || negb (truthy name2) then 0%Q
  else
    let words1 := word_set name1 in
    let words2 := word_set name2 in
    match words1, words2 with
    | [], [] => 1%Q
    | _, _ =>
        let intersection := set_inter str_eq_dec words1 words2 in
        let union := set_union str_eq_dec words1 words2 in
        match union with
        | [] => 0%Q
        | _ => len_ratio intersection union
        end
    end.

(** The fuzzy test of [_find_matching_product]. *)
Definition fuzzy_match (scraped_name product_name : str) : bool :=
  Qle_bool similarity_threshold
    (_calculate_similarity (_normalize_product_name scraped_name)
                           (_normalize_product_name product_name)).

(** [f"{normalized_name}_{price_key}"] *)
Definition product_key (product : ScrapedProduct) : str :=
  let normalized_name := _normalize_product_name (name product) in
  normalized_name ++ list_ascii_of_string "_" ++ repr_round2 (price product).

(** One round of the loop of [_remove_duplicates], which carries
    [unique_products] and [seen_products]. *)
Definition dedup_step (acc : list ScrapedProduct * list str)
    (product : ScrapedProduct) : list ScrapedProduct * list str :=
  let '(unique_products, seen_products) := acc in
  let key := product_key product in
  if existsb (str_eqb key) seen_products
  then (unique_products, seen_products)
  else (unique_products ++ [product], key :: seen_products).

(** [DataProcessor._remove_duplicates] *)
Definition _remove_duplicates (products : list ScrapedProduct)
  : list ScrapedProduct :=
  fst (fold_left dedup_step products ([], [])).

(** **** Reconciliation against the catalog *)

Import Session.

Definition opt_str_eqb (a b : option str) : bool :=
  match a, b with
  | Some x, Some y => str_eqb x y
  | _, _ => false
  end.

(** [DataProcessor._validate_scraped_product] *)
Definition _validate_scraped_product (product : ScrapedProduct) : bool :=
  if negb (truthy (name product))
     || (List.length (strip (name product)) =? 0)
  then false
  else if Qle_bool (price product) 0
  then false
  else if PyNum.truthy_opt (original_price product)
          && match original_price product with
             | Some op => Qlt_bool op (price product)
             | None => false
             end
  then false
  else true.

(** What can go wrong underneath the processor: the persistence layer
    may fail while one record is processed (at one of its lookups, or
    at the flush of the product it adds), while the store row is read,
    or at commit.  The failure of a record is raised at its first
    query. *)
Record Faults : Type := {
  record_fault : ScrapedProduct -> bool;
  store_stats_fault : bool;
  commit_fault : bool
}.

Definition no_faults : Faults :=
  {| record_fault := fun _ => false;
     store_stats_fault := false;
     commit_fault := false |}.

(** [timedelta(hours=24)], in microseconds. *)
Definition hours_24 : Z := (24 * 3600 * 1000000)%Z.

Section Pass.

(** The faults of this pass and the reading of the clock
    ([datetime.now()], taken as one instant for the pass; the database
    stamps [scraped_at] from the same clock). *)
Variable faults : Faults.
Variable now : Z.

Definition same_store (store_id : Z) (p : Product.t) : bool :=
  Z.eqb (Product.store_id p) store_id.

(** The three filters of [_find_matching_product]. *)
Definition matches_external_id (store_id : Z)
    (scraped_product : ScrapedProduct) (p : Product.t) : bool :=
  same_store store_id p
  && opt_str_eqb (Product.external_id p) (external_id scraped_product).

Definition matches_name (store_id : Z) (scraped_product : ScrapedProduct)
    (p : Product.t) : bool :=
  same_store store_id p && str_eqb (Product.name p) (name scraped_product).

Definition matches_fuzzy (store_id : Z) (scraped_product : ScrapedProduct)
    (p : Product.t) : bool :=
  let normalized_name := _normalize_product_name (name scraped_product) in
  same_store store_id p
  && Qle_bool similarity_threshold
       (_calculate_similarity normalized_name
          (_normalize_product_name (Product.name p))).

(** The three lookups in their order: external id (when the record has
    one), exact name, then the first product of the store that is
    similar enough. *)
Definition find_row (store_id : Z) (scraped_product : ScrapedProduct)
    (rows : list Product.t) : option nat :=
  let by_external_id :=
    if PyStr.truthy_opt (external_id scraped_product)
    then first_index (matches_external_id store_id scraped_product) rows
    else None in
  match by_external_id with
  | Some i => Some i
  | None =>
      match first_index (matches_name store_id scraped_product) rows with
      | Some i => Some i
      | None => first_index (matches_fuzzy store_id scraped_product) rows
      end
  end.

(** [DataProcessor._find_matching_product]: the matching row, as its
    position in [products] together with its content. *)
Definition _find_matching_product (store_id : Z)
    (scraped_product : ScrapedProduct) : M Db (option (nat * Product.t)) :=
  if record_fault faults scraped_product then raise SQLAlchemyError
  else
    bind get (fun db =>
    match find_row store_id scraped_product (products db) with
    | Some i =>
        match nth_error (products db) i with
        | Some p => ret (Some (i, p))
        | None => ret None
        end
    | None => ret None
    end).

(** The row [_create_price_entry] builds. *)
Definition price_row (product_id store_id : Z)
    (scraped_product : ScrapedProduct) : Price.t :=
  let price_per_kg :=
    match weight_value scraped_product, weight_unit scraped_product with
    | Some wv, Some wu =>
        if negb (is_zero wv) && truthy wu
        then PriceCalculator.calculate_price_per_unit
               (price scraped_product) wv wu
        else None
    | _, _ => None
    end in
  {| Price.product_id := product_id;
     Price.store_id := store_id;
     Price.price := price scraped_product;
     Price.original_price := original_price scraped_product;
     Price.price_per_kg := price_per_kg;
     Price.discount_percentage := discount_percentage scraped_product;
     Price.pack_size := pack_size scraped_product;
     Price.pack_unit := pack_unit scraped_product;
     Price.weight_value := weight_value scraped_product;
     Price.weight_unit := weight_unit scraped_product;
     Price.is_available := is_available scraped_product;
     Price.is_discounted := is_discounted scraped_product;
     Price.is_on_sale := is_on_sale scraped_product;
     Price.product_url := product_url scraped_product;
     Price.image_url := image_url scraped_product;
     Price.scraped_at := now |}.

(** [DataProcessor._create_price_entry] *)
Definition _create_price_entry (product_id store_id : Z)
    (scraped_product : ScrapedProduct) : M Db Price.t :=
  let row := price_row product_id store_id scraped_product in
  bind (modify (fun db =>
          {| products := products db;
             prices := prices db ++ [row];
             price_history := price_history db;
             stores := stores db |}))
       (fun _ => ret row).

(** The change classification of [_create_price_history_entry]. *)
Definition change_percentage_of (old_price new_price : Q) : Q :=
  if Qlt_bool 0 old_price
  then (((new_price - old_price) / old_price) * 100)%Q
  else 0%Q.

Definition change_type_of (old_price : Price.t)
    (scraped_product : ScrapedProduct) : PriceHistory.change :=
  let price_change := (price scraped_product - Price.price old_price)%Q in
  let change_percentage :=
    change_percentage_of (Price.price old_price) (price scraped_product) in
  let change_type :=
    if Qle_bool 1 (Qabs change_percentage)
    then if Qlt_bool 0 price_change
         then PriceHistory.increase else PriceHistory.decrease
    else PriceHistory.stable in
  if negb (is_available scraped_product) then PriceHistory.unavailable
  else if negb (Price.is_available old_price) && is_available scraped_product
  then PriceHistory.new
  else change_type.

Definition history_row (old_price : Price.t)
    (scraped_product : ScrapedProduct) : PriceHistory.t :=
  {| PriceHistory.product_id := Price.product_id old_price;
     PriceHistory.store_id := Price.store_id old_price;
     PriceHistory.price := Price.price old_price;
     PriceHistory.original_price := Price.original_price old_price;
     PriceHistory.price_per_kg := Price.price_per_kg old_price;
     PriceHistory.discount_percentage := Price.discount_percentage old_price;
     PriceHistory.pack_size := Price.pack_size old_price;
     PriceHistory.pack_unit := Price.pack_unit old_price;
     PriceHistory.is_available := Price.is_available old_price;
     PriceHistory.is_discounted := Price.is_discounted old_price;
     PriceHistory.change_type := change_type_of old_price scraped_product;
     PriceHistory.change_amount :=
       (price scraped_product - Price.price old_price)%Q;
     PriceHistory.change_percentage :=
       change_percentage_of (Price.price old_price) (price scraped_product);
     PriceHistory.recorded_at := Price.scraped_at old_price |}.

(** [DataProcessor._create_price_history_entry] *)
Definition _create_price_history_entry (old_price : Price.t)
    (scraped_product : ScrapedProduct) : M Db PriceHistory.t :=
  let history := history_row old_price scraped_product in
  bind (modify (fun db =>
          {| products := products db;
             prices := prices db;
             price_history := price_history db ++ [history];
             stores := stores db |}))
       (fun _ => ret history).

(** [DataProcessor._should_update_price] *)
Definition _should_update_price (current_price : Price.t)
    (scraped_product : ScrapedProduct) : result bool :=
  if (now - Price.scraped_at current_price >? hours_24)%Z then Ok true
  else if is_zero (Price.price current_price) then Raise ZeroDivisionError
  else
    let price_change :=
      (Qabs (Price.price current_price - price scraped_product)
       / Price.price current_price)%Q in
    if Qle_bool price_change_threshold price_change then Ok true
    else if negb (Bool.eqb (Price.is_available current_price)
                           (is_available scraped_product))
    then Ok true
    else if negb (Bool.eqb (Price.is_discounted current_price)
                           (is_discounted scraped_product))
    then Ok true
    else Ok false.

(** [.order_by(Price.scraped_at.desc()).first()]: the row observed
    last; of two rows with one timestamp, the one stored first. *)
Fixpoint latest (rows : list Price.t) : option Price.t :=
  match rows with
  | [] => None
  | r :: rest =>
      match latest rest with
      | Some r' =>
          if (Price.scraped_at r' >? Price.scraped_at r)%Z
          then Some r' else Some r
      | None => Some r
      end
  end.

(** The query for the current price of a product in its store. *)
Definition current_price_of (product_id store_id : Z) (db : Db)
  : option Price.t :=
  latest
    (filter (fun r => Z.eqb (Price.product_id r) product_id
                      && Z.eqb (Price.store_id r) store_id)
            (prices db)).

Definition fill_str (scraped existing : option str) : option str :=
  if PyStr.truthy_opt scraped && negb (PyStr.truthy_opt existing)
  then scraped else existing.

Definition fill_num (scraped existing : option Q) : option Q :=
  if PyNum.truthy_opt scraped && negb (PyNum.truthy_opt existing)
  then scraped else existing.

(** The six conditional assignments at the head of
    [_update_existing_product]. *)
Definition merge_fields (product : Product.t)
    (scraped_product : ScrapedProduct) : Product.t :=
  {| Product.id := Product.id product;
     Product.name := Product.name product;
     Product.category := Product.category product;
     Product.subcategory := Product.subcategory product;
     Product.keywords := Product.keywords product;
     Product.description :=
       fill_str (description scraped_product) (Product.description product);
     Product.image_url :=
       fill_str (image_url scraped_product) (Product.image_url product);
     Product.unit :=
       fill_str (pack_unit scraped_product) (Product.unit product);
     Product.weight :=
       fill_num (weight_value scraped_product) (Product.weight product);
     Product.brand :=
       fill_str (brand scraped_product) (Product.brand product);
     Product.is_organic := Product.is_organic product;
     Product.is_active := Product.is_active product;
     Product.store_id := Product.store_id product;
     Product.external_id :=
       fill_str (external_id scraped_product) (Product.external_id product);
     Product.updated_at := Product.updated_at product |}.

Definition touch (product : Product.t) : Product.t :=
  {| Product.id := Product.id product;
     Product.name := Product.name product;
     Product.category := Product.category product;
     Product.subcategory := Product.subcategory product;
     Product.keywords := Product.keywords product;
     Product.description := Product.description product;
     Product.image_url := Product.image_url product;
     Product.unit := Product.unit product;
     Product.weight := Product.weight product;
     Product.brand := Product.brand product;
     Product.is_organic := Product.is_organic product;
     Product.is_active := Product.is_active product;
     Product.store_id := Product.store_id product;
     Product.external_id := Product.external_id product;
     Product.updated_at := Some now |}.

Definition write_product (row : nat) (f : Product.t -> Product.t)
  : M Db unit :=
  modify (fun db =>
    {| products := update_at row f (products db);
       prices := prices db;
       price_history := price_history db;
       stores := stores db |}).

(** [DataProcessor._update_existing_product]; [product] is the object
    held in row [row] of the session. *)
Definition _update_existing_product (row : nat) (product : Product.t)
    (scraped_product : ScrapedProduct) : M Db bool :=
  bind (write_product row (fun _ => merge_fields product scraped_product))
  (fun _ =>
  bind get (fun db =>
  let current_price :=
    current_price_of (Product.id product) (Product.store_id product) db in
  bind
    (match current_price with
     | None =>
         bind (_create_price_entry (Product.id product)
                 (Product.store_id product) scraped_product)
              (fun _ => ret true)
     | Some current =>
         bind (lift (_should_update_price current scraped_product))
         (fun update =>
            if update
            then
              bind (_create_price_entry (Product.id product)
                      (Product.store_id product) scraped_product)
              (fun _ =>
              bind (_create_price_history_entry current scraped_product)
              (fun _ => ret true))
            else ret false)
     end)
  (fun price_updated =>
  bind (write_product row touch)
  (fun _ => ret price_updated)))).

(** The key [db.flush()] gives a new row of [products]. *)
Definition next_product_id (db : Db) : Z :=
  (1 + fold_right Z.max 0 (map Product.id (products db)))%Z.

(** The row [_create_new_product] builds; [db.flush()] gives it its
    key. *)
Definition new_product (id store_id : Z) (scraped_product : ScrapedProduct)
  : Product.t :=
  {| Product.id := id;
     Product.name := name scraped_product;
     Product.category :=
       match category scraped_product with
       | Some c => if truthy c then c else list_ascii_of_string "pantry"
       | None => list_ascii_of_string "pantry"
       end;
     Product.subcategory := subcategory scraped_product;
     Product.keywords :=
       match keywords scraped_product with
       | [] => None
       | ks => Some (join " " ks)
       end;
     Product.description := description scraped_product;
     Product.image_url := image_url scraped_product;
     Product.unit := pack_unit scraped_product;
     Product.weight := weight_value scraped_product;
     Product.brand := brand scraped_product;
     Product.is_organic := false;
     Product.is_active := true;
     Product.store_id := store_id;
     Product.external_id := external_id scraped_product;
     Product.updated_at := None |}.

(** [DataProcessor._create_new_product] *)
Definition _create_new_product (store_id : Z)
    (scraped_product : ScrapedProduct) : M Db Product.t :=
  bind get (fun db =>
  let product := new_product (next_product_id db) store_id scraped_product in
  bind (modify (fun db =>
          {| products := products db ++ [product];
             prices := prices db;
             price_history := price_history db;
             stores := stores db |}))
  (fun _ =>
  bind (_create_price_entry (Product.id product) store_id scraped_product)
  (fun _ => ret product))).

(** The [result] dictionary of [_process_single_product]. *)
Inductive action : Type := created | updated | invalid.

Record single_result : Type := {
  result_action : action;
  result_product_id : option Z;
  result_price_updated : bool
}.

(** [DataProcessor._process_single_product] *)
Definition _process_single_product (store_id : Z)
    (scraped_product : ScrapedProduct) : M Db single_result :=
  if negb (_validate_scraped_product scraped_product)
  then ret {| result_action := invalid; result_product_id := None;
              result_price_updated := false |}
  else
    bind (_find_matching_product store_id scraped_product)
    (fun existing_product =>
       match existing_product with
       | Some (row, product) =>
           bind (_update_existing_product row product scraped_product)
           (fun price_updated =>
              ret {| result_action := updated;
                     result_product_id := Some (Product.id product);
                     result_price_updated := price_updated |})
       | None =>
           bind (_create_new_product store_id scraped_product)
           (fun new_product =>
              ret {| result_action := created;
                     result_product_id := Some (Product.id new_product);
                     result_price_updated := false |})
       end).

(** The [stats] dictionary.  An error message is kept as what it
    reports: the record it names, if any, and the exception. *)
Inductive error_msg : Type :=
| ProductError : str -> exn -> error_msg
| RunError : exn -> error_msg.

(** The messages the inner [except] writes. *)
Definition is_product_error (m : error_msg) : bool :=
  match m with
  | ProductError _ _ => true
  | RunError _ => false
  end.

Record Stats : Type := {
  total_scraped : nat;
  products_created : nat;
  products_updated : nat;
  prices_added : nat;
  prices_updated : nat;
  duplicates_removed : nat;
  invalid_products : nat;
  errors : list error_msg
}.

(** A run holds the database as last committed, the session on top of
    it, and the statistics it fills in. *)
Record Run : Type := {
  committed : Db;
  pending : Db;
  stats : Stats
}.

(** Run a computation of the session inside the run. *)
Definition in_session {A : Type} (m : M Db A) : M Run A :=
  fun run =>
    match m (pending run) with
    | (r, db') =>
        (r, {| committed := committed run; pending := db';
               stats := stats run |})
    end.

Definition update_stats (f : Stats -> Stats) : M Run unit :=
  modify (fun run =>
    {| committed := committed run; pending := pending run;
       stats := f (stats run) |}).

(** [db.commit()] and [db.rollback()] *)
Definition commit : M Run unit :=
  if commit_fault faults then raise SQLAlchemyError
  else modify (fun run =>
         {| committed := pending run; pending := pending run;
            stats := stats run |}).

Definition rollback : M Run unit :=
  modify (fun run =>
    {| committed := committed run; pending := committed run;
       stats := stats run |}).

(** The counting of one [result] in the loop of
    [process_scraped_products]. *)
Definition count_result (r : single_result) (st : Stats) : Stats :=
  match result_action r with
  | created =>
      {| total_scraped := total_scraped st;
         products_created := S (products_created st);
         products_updated := products_updated st;
         prices_added := S (prices_added st);
         prices_updated := prices_updated st;
         duplicates_removed := duplicates_removed st;
         invalid_products := invalid_products st;
         errors := errors st |}
  | updated =>
      {| total_scraped := total_scraped st;
         products_created := products_created st;
         products_updated := S (products_updated st);
         prices_added :=
           if result_price_updated r then prices_added st
           else S (prices_added st);
         prices_updated :=
           if result_price_updated r then S (prices_updated st)
           else prices_updated st;
         duplicates_removed := duplicates_removed st;
         invalid_products := invalid_products st;
         errors := errors st |}
  | invalid =>
      {| total_scraped := total_scraped st;
         products_created := products_created st;
         products_updated := products_updated st;
         prices_added := prices_added st;
         prices_updated := prices_updated st;
         duplicates_removed := duplicates_removed st;
         invalid_products := S (invalid_products st);
         errors := errors st |}
  end.

Definition add_error (msg : error_msg) (also_invalid : bool) (st : Stats)
  : Stats :=
  {| total_scraped := total_scraped st;
     products_created := products_created st;
     products_updated := products_updated st;
     prices_added := prices_added st;
     prices_updated := prices_updated st;
     duplicates_removed := duplicates_removed st;
     invalid_products :=
       if also_invalid then S (invalid_products st) else invalid_products st;
     errors := errors st ++ [msg] |}.

Definition set_duplicates_removed (n : nat) (st : Stats) : Stats :=
  {| total_scraped := total_scraped st;
     products_created := products_created st;
     products_updated := products_updated st;
     prices_added := prices_added st;
     prices_updated := prices_updated st;
     duplicates_removed := n;
     invalid_products := invalid_products st;
     errors := errors st |}.

(** The update of one store row in [_update_store_stats]. *)
Definition scraped_once (failed : bool) (store : Store.t) : Store.t :=
  let total := (Store.total_scrapes store + 1)%Z in
  let failed_scrapes :=
    if failed then (Store.failed_scrapes store + 1)%Z
    else Store.failed_scrapes store in
  {| Store.id := Store.id store;
     Store.last_scraped := Some now;
     Store.success_rate :=
       if (total >? 0)%Z
       then ((inject_Z (total - failed_scrapes) / inject_Z total) * 100)%Q
       else Store.success_rate store;
     Store.total_scrapes := total;
     Store.failed_scrapes := failed_scrapes |}.

(** [DataProcessor._update_store_stats] *)
Definition _update_store_stats (store_id : Z) (st : Stats) : M Db unit :=
  if store_stats_fault faults then raise SQLAlchemyError
  else
    bind get (fun db =>
    match first_index (fun s => Z.eqb (Store.id s) store_id) (stores db) with
    | None => ret tt
    | Some row =>
        let failed := match errors st with [] => false | _ => true end in
        modify (fun db =>
          {| products := products db;
             prices := prices db;
             price_history := price_history db;
             stores := update_at row (scraped_once failed) (stores db) |})
    end).

(** One round of the loop of [process_scraped_products]: the inner
    [try] with its [except Exception]. *)
Definition process_one (store_id : Z) (scraped_product : ScrapedProduct)
  : M Run unit :=
  try_except
    (bind (in_session (_process_single_product store_id scraped_product))
          (fun r => update_stats (count_result r)))
    (fun e =>
       update_stats
         (add_error (ProductError (name scraped_product) e) true)).

(** The statements under the outer [try]. *)
Definition reconcile (store_id : Z) (scraped_products : list ScrapedProduct)
  : M Run unit :=
  let unique_products := _remove_duplicates scraped_products in
  bind (update_stats
          (set_duplicates_removed
             (List.length scraped_products - List.length unique_products)))
  (fun _ =>
  bind (for_each unique_products (process_one store_id))
  (fun _ =>
  bind get (fun run =>
  bind (in_session (_update_store_stats store_id (stats run)))
  (fun _ => commit)))).

(** The outer [except Exception]. *)
Definition on_failure (e : exn) : M Run unit :=
  bind rollback (fun _ => update_stats (add_error (RunError e) false)).

Definition initial_stats (scraped_products : list ScrapedProduct) : Stats :=
  {| total_scraped := List.length scraped_products;
     products_created := 0; products_updated := 0;
     prices_added := 0; prices_updated := 0;
     duplicates_removed := 0; invalid_products := 0;
     errors := [] |}.

(** [DataProcessor.process_scraped_products], from the database as
    last committed: what the call gives back to its caller and the
    database as committed when it ends. *)
Definition process_scraped_products (store_id : Z)
    (scraped_products : list ScrapedProduct) (db : Db)
  : result Stats * Db :=
  match try_except (reconcile store_id scraped_products) on_failure
          {| committed := db; pending := db;
             stats := initial_stats scraped_products |} with
  | (Ok _, run) => (Ok (stats run), committed run)
  | (Raise e, run) => (Raise e, committed run)
  end.

End Pass.

(** One round of the loop of [process_scraped_products], seen from
    outside the session: what it does to the pending tables and to the
    statistics. *)
Definition loop_round (faults : Faults) (now store_id : Z) (acc : Db * Stats)
    (scraped_product : ScrapedProduct) : Db * Stats :=
  match _process_single_product faults now store_id scraped_product
          (fst acc) with
  | (Ok r, db') => (db', count_result r (snd acc))
  | (Raise e, db') =>
      (db', add_error (ProductError (name scraped_product) e) true (snd acc))
  end.

(** The columns of a product that reconciliation never rewrites. *)
Definition same_product (p p' : Product.t) : Prop :=
  Product.id p' = Product.id p
  /\ Product.name p' = Product.name p
  /\ Product.category p' = Product.category p
  /\ Product.subcategory p' = Product.subcategory p
  /\ Product.keywords p' = Product.keywords p
  /\ Product.is_organic p' = Product.is_organic p
  /\ Product.is_active p' = Product.is_active p
  /\ Product.store_id p' = Product.store_id p.

(** [db'] holds what [db] held and possibly more: the same products in
    the same rows, then new ones; the same prices and history, then new
    ones. *)
Definition extends (db db' : Db) : Prop :=
  (exists kept added,
      products db' = kept ++ added /\ Forall2 same_product (products db) kept)
  /\ (exists added, prices db' = prices db ++ added)
  /\ (exists added, price_history db' = price_history db ++ added).

(** A catalog in good order: the keys of the products are distinct,
    every stored price is above zero and belongs to a product of the
    catalog, in that product's store. *)
Definition well_formed (db : Db) : Prop :=
  NoDup (map Product.id (products db))
  /\ Forall (fun row => (0 < Price.price row)%Q) (prices db)
  /\ Forall (fun row =>
               exists p, In p (products db)
                         /\ Product.id p = Price.product_id row
                         /\ Product.store_id p = Price.store_id row)
            (prices db).

(** **** The trend of a price list *)

(** [sum(values)]: from 0, left to right. *)
Definition sum_Z (values : list Z) : Z := fold_left Z.add values 0%Z.

Definition sum_Q (values : list Q) : Q := fold_left Qplus values 0%Q.

(** The local values of [_analyze_price_trend]. *)
Definition x_values (prices : list Q) : list Z :=
  map Z.of_nat (seq 0 (List.length prices)).

Definition sum_x (prices : list Q) : Z := sum_Z (x_values prices).

Definition sum_y (prices : list Q) : Q := sum_Q prices.

Definition sum_xy (prices : list Q) : Q :=
  sum_Q (map (fun xy => (inject_Z (fst xy) * snd xy)%Q)
             (combine (x_values prices) prices)).

Definition sum_x2 (prices : list Q) : Z :=
  sum_Z (map (fun x => (x * x)%Z) (x_values prices)).

(** The two sides of the division that gives [slope]; the divisor is an
    [int]. *)
Definition slope_dividend (prices : list Q) : Q :=
  let n := Z.of_nat (List.length prices) in
  (inject_Z n * sum_xy prices - inject_Z (sum_x prices) * sum_y prices)%Q.

Definition slope_divisor (prices : list Q) : Z :=
  let n := Z.of_nat (List.length prices) in
  (n * sum_x2 prices - sum_x prices * sum_x prices)%Z.

(** [DataProcessor._analyze_price_trend] *)
Definition _analyze_price_trend (prices : list Q) : result str :=
  if List.length prices <? 3
  then Ok (list_ascii_of_string "insufficient_data")
  else
    if (slope_divisor prices =? 0)%Z then Raise ZeroDivisionError
    else
      let slope :=
        (slope_dividend prices / inject_Z (slope_divisor prices))%Q in
      if Qlt_bool (1 # 10) slope
      then Ok (list_ascii_of_string "increasing")
      else if Qlt_bool slope (- (1 # 10))
      then Ok (list_ascii_of_string "decreasing")
      else Ok (list_ascii_of_string "stable").

(** **** The session after a failure

    Once a database operation of a run has failed while the session
    flushed, the ORM refuses further work until the session is rolled
    back: the records that come after the failure fail at their first
    query, and so does the store update.  [Faults] leaves the three
    kinds of failure free; this is the rule that ties them together
    for such a session. *)
Definition unusable_after_failure (faults : Faults)
    (unique_products : list ScrapedProduct) : Prop :=
  forall before sp after,
    unique_products = before ++ sp :: after ->
    _validate_scraped_product sp = true ->
    record_fault faults sp = true ->
    (forall sp', In sp' after ->
                 _validate_scraped_product sp' = true ->
                 record_fault faults sp' = true)
    /\ store_stats_fault faults = true.

(** **** The two thresholds in binary64

    The quotient of [_should_update_price] and the percentage of
    [_create_price_history_entry] are computed on binary64 numbers.
    The exact quotient and the computed one differ by a rounding error
    that is far below [rounding_margin] at any price a store asks, so
    the two readings take the same side of a threshold unless the exact
    value lies within that margin of it; there the computed value
    decides, and [Binary64] gives it. *)
Definition rounding_margin : Q := 1 # 1000000000.

Module Binary64.

Import Floats.PrimFloat.
#[local] Set Warnings "-inexact-float".
Local Open Scope float_scope.

(** [self.price_change_threshold] *)
Definition price_change_threshold : float := 0.05.

(** [DataProcessor._should_update_price], given the clock, the
    observation time of the current record, the two prices and the two
    pairs of flags. *)
Definition _should_update_price (now scraped_at : Z)
    (current_price scraped_price : float)
    (current_available scraped_available : bool)
    (current_discounted scraped_discounted : bool) : result bool :=
  if (now - scraped_at >? hours_24)%Z then Ok true
  else if current_price =? 0 then Raise ZeroDivisionError
  else
    let price_change := abs (current_price - scraped_price) / current_price in
    if price_change_threshold <=? price_change then Ok true
    else if negb (Bool.eqb current_available scraped_available) then Ok true
    else if negb (Bool.eqb current_discounted scraped_discounted) then Ok true
    else Ok false.

(** [change_percentage] in [_create_price_history_entry] *)
Definition change_percentage (old_price new_price : float) : float :=
  let price_change := new_price - old_price in
  if 0 <? old_price then (price_change / old_price) * 100 else 0.

(** [change_type] in [_create_price_history_entry] *)
Definition change_type (old_available new_available : bool)
    (old_price new_price : float) : PriceHistory.change :=
  let price_change := new_price - old_price in
  let change_type :=
    if 1 <=? abs (change_percentage old_price new_price)
    then if 0 <? price_change
         then PriceHistory.increase else PriceHistory.decrease
    else PriceHistory.stable in
  if negb new_available then PriceHistory.unavailable
  else if negb old_available && new_available then PriceHistory.new
  else change_type.

End Binary64.

End DataProcessor.

(** *** [utils/category_classifier.py] *)

Module CategoryClassifier.

Import PyStr PyNum Py.

(** [class ProductCategory(Enum)] *)
Inductive ProductCategory : Type :=
| VEGETABLES | FRUITS | MEAT | DAIRY | BAKERY | BEVERAGES | PANTRY | SNACKS
| FROZEN | HOUSEHOLD | PERSONAL_CARE | BABY_CARE | HEALTH | PET
| ELECTRONICS | CLOTHING | UNKNOWN.

Definition value (c : ProductCategory) : string :=
  match c with
  | VEGETABLES => "vegetables" | FRUITS => "fruits" | MEAT => "meat"
  | DAIRY => "dairy" | BAKERY => "bakery" | BEVERAGES => "beverages"
  | PANTRY => "pantry" | SNACKS => "snacks" | FROZEN => "frozen"
  | HOUSEHOLD => "household" | PERSONAL_CARE => "personal-care"
  | BABY_CARE => "baby-care" | HEALTH => "health" | PET => "pet"
  | ELECTRONICS => "electronics" | CLOTHING => "clothing"
  | UNKNOWN => "unknown"
  end.

Definition category_eq_dec (a b : ProductCategory) : {a = b} + {a <> b}.
Proof. decide equality. Defined.

Definition category_eqb (a b : ProductCategory) : bool :=
  if category_eq_dec a b then true else false.

(** **** The tables built by [__init__]

    The keyword dictionaries of the source hold, between the Latin
    keywords and the context words of each category, a block of Arabic
    keywords whose text the source file no longer has; that block is a
    parameter of the classifier below. *)

Module Tables.

Local Open Scope Q_scope.

Definition vegetables_keywords : list (string * Q) :=
  [("tomato", 1.0); ("tomatoes", 1.0); ("potato", 1.0); ("potatoes", 1.0);
    ("onion", 1.0); ("onions", 1.0); ("carrot", 1.0); ("carrots", 1.0);
    ("cucumber", 1.0); ("lettuce", 1.0); ("spinach", 1.0); ("cabbage", 1.0);
    ("pepper", 0.8); ("peppers", 0.8); ("bell", 0.7); ("capsicum", 1.0);
    ("broccoli", 1.0); ("cauliflower", 1.0); ("zucchini", 1.0);
    ("eggplant", 1.0); ("garlic", 1.0); ("ginger", 1.0); ("celery", 1.0);
    ("radish", 1.0); ("beetroot", 1.0); ("turnip", 1.0); ("leek", 1.0);
    ("corn", 0.8); ("peas", 0.8); ("beans", 0.7); ("okra", 1.0);
    ("artichoke", 1.0); ("asparagus", 1.0); ("mushroom", 0.9);
    ("mushrooms", 0.9)].

Definition vegetables_context_words : list (string * Q) :=
  [("fresh", 0.6); ("organic", 0.6); ("local", 0.5); ("seasonal", 0.5);
    ("vegetable", 0.9); ("vegetables", 0.9); ("veggie", 0.8);
    ("produce", 0.7)].

Definition fruits_keywords : list (string * Q) :=
  [("apple", 1.0); ("apples", 1.0); ("banana", 1.0); ("bananas", 1.0);
    ("orange", 1.0); ("oranges", 1.0); ("grape", 1.0); ("grapes", 1.0);
    ("strawberry", 1.0); ("strawberries", 1.0); ("mango", 1.0);
    ("mangoes", 1.0); ("pineapple", 1.0); ("watermelon", 1.0);
    ("melon", 1.0); ("cantaloupe", 1.0); ("peach", 1.0); ("peaches", 1.0);
    ("pear", 1.0); ("pears", 1.0); ("cherry", 1.0); ("cherries", 1.0);
    ("plum", 1.0); ("plums", 1.0); ("kiwi", 1.0); ("avocado", 1.0);
    ("lemon", 1.0); ("lemons", 1.0); ("lime", 1.0); ("limes", 1.0);
    ("grapefruit", 1.0); ("pomegranate", 1.0); ("blueberry", 1.0);
    ("blueberries", 1.0); ("raspberry", 1.0); ("blackberry", 1.0);
    ("coconut", 1.0); ("dates", 1.0); ("figs", 1.0); ("apricot", 1.0)].

Definition fruits_context_words : list (string * Q) :=
  [("fruit", 0.9); ("fruits", 0.9); ("citrus", 0.8); ("berry", 0.8);
    ("berries", 0.8); ("tropical", 0.7); ("seasonal", 0.5); ("fresh", 0.6);
    ("ripe", 0.6)].

Definition meat_keywords : list (string * Q) :=
  [("chicken", 1.0); ("beef", 1.0); ("lamb", 1.0); ("mutton", 1.0);
    ("pork", 1.0); ("turkey", 1.0); ("duck", 1.0); ("veal", 1.0);
    ("goat", 1.0); ("rabbit", 0.9); ("venison", 1.0); ("breast", 0.7);
    ("thigh", 0.7); ("wing", 0.7); ("drumstick", 0.8); ("steak", 0.9);
    ("chops", 0.9); ("roast", 0.8); ("mince", 0.9); ("ground", 0.8);
    ("fillet", 0.8); ("cutlet", 0.8); ("ribs", 0.9); ("sausage", 0.9);
    ("bacon", 1.0); ("ham", 1.0); ("salami", 1.0); ("pepperoni", 1.0);
    ("bratwurst", 1.0); ("chorizo", 1.0); ("fish", 0.9); ("salmon", 1.0);
    ("tuna", 1.0); ("cod", 1.0); ("shrimp", 1.0); ("prawns", 1.0);
    ("lobster", 1.0); ("crab", 1.0); ("oyster", 1.0); ("mussels", 1.0);
    ("scallops", 1.0); ("calamari", 1.0); ("sardines", 1.0);
    ("mackerel", 1.0); ("sea bass", 1.0); ("tilapia", 1.0)].

Definition meat_context_words : list (string * Q) :=
  [("meat", 0.9); ("poultry", 0.9); ("seafood", 0.9); ("protein", 0.7);
    ("fresh", 0.6); ("frozen", 0.6); ("organic", 0.5); ("halal", 0.6);
    ("butcher", 0.8); ("deli", 0.7)].

Definition dairy_keywords : list (string * Q) :=
  [("milk", 1.0); ("cheese", 1.0); ("butter", 1.0); ("cream", 0.8);
    ("yogurt", 1.0); ("yoghurt", 1.0); ("kefir", 1.0); ("sour cream", 1.0);
    ("cottage cheese", 1.0); ("mozzarella", 1.0); ("cheddar", 1.0);
    ("feta", 1.0); ("parmesan", 1.0); ("gouda", 1.0); ("brie", 1.0);
    ("camembert", 1.0); ("ricotta", 1.0); ("mascarpone", 1.0);
    ("cream cheese", 1.0); ("whipped cream", 1.0); ("heavy cream", 1.0);
    ("half and half", 1.0); ("eggs", 1.0); ("egg", 1.0); ("dozen", 0.7);
    ("quail", 0.8); ("almond milk", 0.9); ("soy milk", 0.9);
    ("oat milk", 0.9); ("coconut milk", 0.8); ("rice milk", 0.9);
    ("cashew milk", 0.9)].

Definition dairy_context_words : list (string * Q) :=
  [("dairy", 1.0); ("lactose", 0.7); ("calcium", 0.6);
    ("pasteurized", 0.6); ("full fat", 0.6); ("low fat", 0.6);
    ("skim", 0.7); ("whole", 0.5)].

Definition bakery_keywords : list (string * Q) :=
  [("bread", 1.0); ("loaf", 0.9); ("baguette", 1.0); ("roll", 0.8);
    ("rolls", 0.8); ("pita", 1.0); ("naan", 1.0); ("tortilla", 1.0);
    ("bagel", 1.0); ("croissant", 1.0); ("muffin", 1.0); ("scone", 1.0);
    ("biscuit", 0.8); ("toast", 0.8); ("sandwich", 0.7);
    ("burger bun", 0.9); ("hot dog bun", 0.9); ("cake", 1.0);
    ("cupcake", 1.0); ("pie", 0.8); ("tart", 0.9); ("pastry", 1.0);
    ("donut", 1.0); ("danish", 1.0); ("strudel", 1.0); ("eclair", 1.0);
    ("profiterole", 1.0); ("macaron", 1.0); ("cookie", 0.8);
    ("brownie", 1.0)].

Definition bakery_context_words : list (string * Q) :=
  [("bakery", 1.0); ("baked", 0.8); ("fresh", 0.6); ("artisan", 0.7);
    ("whole grain", 0.7); ("multigrain", 0.7); ("sourdough", 0.8);
    ("gluten free", 0.7); ("organic", 0.5)].

Definition beverages_keywords : list (string * Q) :=
  [("water", 0.9); ("juice", 1.0); ("soda", 1.0); ("cola", 1.0);
    ("pepsi", 1.0); ("sprite", 1.0); ("fanta", 1.0); ("tea", 1.0);
    ("coffee", 1.0); ("cappuccino", 1.0); ("latte", 1.0); ("espresso", 1.0);
    ("americano", 1.0); ("energy drink", 1.0); ("sports drink", 1.0);
    ("smoothie", 1.0); ("milkshake", 1.0); ("lemonade", 1.0);
    ("iced tea", 1.0); ("kombucha", 1.0); ("coconut water", 1.0);
    ("sparkling water", 1.0); ("beer", 1.0); ("wine", 1.0);
    ("whiskey", 1.0); ("vodka", 1.0); ("rum", 1.0); ("gin", 1.0);
    ("tequila", 1.0); ("brandy", 1.0); ("champagne", 1.0);
    ("cocktail", 1.0); ("liqueur", 1.0)].

Definition beverages_context_words : list (string * Q) :=
  [("drink", 0.8); ("beverage", 1.0); ("refreshing", 0.6); ("cold", 0.5);
    ("hot", 0.5); ("iced", 0.6); ("fizzy", 0.7); ("carbonated", 0.7);
    ("bottle", 0.5); ("can", 0.5); ("pack", 0.4); ("liter", 0.5);
    ("ml", 0.4)].

Definition pantry_keywords : list (string * Q) :=
  [("rice", 1.0); ("pasta", 1.0); ("noodles", 1.0); ("cereal", 1.0);
    ("oats", 1.0); ("quinoa", 1.0); ("barley", 1.0); ("wheat", 1.0);
    ("flour", 1.0); ("breadcrumbs", 1.0); ("couscous", 1.0);
    ("canned", 0.8); ("can", 0.6); ("tomato sauce", 1.0); ("paste", 0.8);
    ("beans", 0.8); ("lentils", 1.0); ("chickpeas", 1.0); ("corn", 0.7);
    ("soup", 0.9); ("broth", 1.0); ("stock", 1.0); ("sauce", 0.7);
    ("salt", 1.0); ("pepper", 0.7); ("sugar", 1.0); ("honey", 1.0);
    ("oil", 0.9); ("olive oil", 1.0); ("vinegar", 1.0); ("mustard", 1.0);
    ("ketchup", 1.0); ("mayonnaise", 1.0); ("soy sauce", 1.0);
    ("hot sauce", 1.0); ("bbq sauce", 1.0); ("salad dressing", 1.0);
    ("herbs", 0.8); ("spices", 0.9); ("seasoning", 0.9); ("marinade", 1.0);
    ("baking powder", 1.0); ("baking soda", 1.0); ("vanilla", 1.0);
    ("yeast", 1.0); ("cocoa", 1.0); ("chocolate chips", 0.9)].

Definition pantry_context_words : list (string * Q) :=
  [("pantry", 1.0); ("staple", 0.8); ("ingredient", 0.7); ("cooking", 0.6);
    ("dry goods", 0.8); ("shelf stable", 0.7); ("preserves", 0.8)].

Definition snacks_keywords : list (string * Q) :=
  [("chips", 1.0); ("crisps", 1.0); ("crackers", 1.0); ("pretzels", 1.0);
    ("popcorn", 1.0); ("tortilla chips", 1.0); ("corn chips", 1.0);
    ("rice cakes", 1.0); ("wafers", 1.0); ("biscuits", 0.8); ("nuts", 1.0);
    ("almonds", 1.0); ("walnuts", 1.0); ("cashews", 1.0); ("peanuts", 1.0);
    ("pistachios", 1.0); ("hazelnuts", 1.0); ("sunflower seeds", 1.0);
    ("pumpkin seeds", 1.0); ("trail mix", 1.0); ("chocolate", 1.0);
    ("candy", 1.0); ("gummy", 1.0); ("lollipop", 1.0); ("marshmallow", 1.0);
    ("cookie", 0.8); ("granola bar", 1.0); ("protein bar", 1.0);
    ("energy bar", 1.0); ("fruit snacks", 1.0)].

Definition snacks_context_words : list (string * Q) :=
  [("snack", 1.0); ("snacks", 1.0); ("crunchy", 0.7); ("crispy", 0.7);
    ("sweet", 0.6); ("salty", 0.6); ("healthy", 0.5); ("organic", 0.5);
    ("pack", 0.5); ("bag", 0.5); ("portion", 0.5)].

Definition frozen_keywords : list (string * Q) :=
  [("frozen", 1.0); ("ice cream", 1.0); ("sorbet", 1.0); ("gelato", 1.0);
    ("popsicle", 1.0); ("frozen yogurt", 1.0); ("sherbet", 1.0);
    ("frozen meal", 1.0); ("tv dinner", 1.0); ("frozen pizza", 1.0);
    ("frozen vegetables", 1.0); ("frozen fruits", 1.0);
    ("frozen berries", 1.0); ("ice", 0.8); ("freezer", 0.7); ("thaw", 0.7);
    ("defrost", 0.7)].

Definition frozen_context_words : list (string * Q) :=
  [("keep frozen", 0.8); ("freezer section", 0.8); ("frost", 0.6);
    ("temperature", 0.5); ("cold", 0.5)].

Definition household_keywords : list (string * Q) :=
  [("detergent", 1.0); ("soap", 0.8); ("cleaner", 1.0);
    ("disinfectant", 1.0); ("bleach", 1.0); ("fabric softener", 1.0);
    ("stain remover", 1.0); ("dishwashing", 1.0); ("laundry", 1.0);
    ("floor cleaner", 1.0); ("glass cleaner", 1.0);
    ("bathroom cleaner", 1.0); ("kitchen cleaner", 1.0);
    ("toilet paper", 1.0); ("paper towels", 1.0); ("tissues", 1.0);
    ("napkins", 1.0); ("plates", 0.8); ("cups", 0.7); ("utensils", 0.8);
    ("aluminum foil", 1.0); ("plastic wrap", 1.0); ("garbage bags", 1.0);
    ("storage bags", 1.0); ("containers", 0.7); ("batteries", 1.0);
    ("light bulbs", 1.0); ("candles", 1.0); ("matches", 1.0)].

Definition household_context_words : list (string * Q) :=
  [("cleaning", 1.0); ("household", 1.0); ("home", 0.6); ("kitchen", 0.6);
    ("bathroom", 0.7); ("laundry room", 0.8); ("supplies", 0.8)].

Definition personal_care_keywords : list (string * Q) :=
  [("shampoo", 1.0); ("conditioner", 1.0); ("body wash", 1.0);
    ("soap", 0.7); ("toothpaste", 1.0); ("toothbrush", 1.0);
    ("mouthwash", 1.0); ("deodorant", 1.0); ("antiperspirant", 1.0);
    ("perfume", 1.0); ("cologne", 1.0); ("lotion", 1.0);
    ("moisturizer", 1.0); ("sunscreen", 1.0); ("face wash", 1.0);
    ("cleanser", 1.0); ("toner", 1.0); ("serum", 1.0); ("cream", 0.7);
    ("mask", 0.8); ("razor", 1.0); ("shaving cream", 1.0);
    ("aftershave", 1.0); ("nail polish", 1.0); ("makeup", 1.0);
    ("lipstick", 1.0); ("foundation", 0.9); ("mascara", 1.0);
    ("eyeshadow", 1.0)].

Definition personal_care_context_words : list (string * Q) :=
  [("personal care", 1.0); ("hygiene", 1.0); ("beauty", 0.9);
    ("skincare", 1.0); ("hair care", 1.0); ("oral care", 1.0);
    ("cosmetics", 1.0); ("grooming", 1.0)].

Definition baby_care_keywords : list (string * Q) :=
  [("baby", 1.0); ("infant", 1.0); ("newborn", 1.0); ("toddler", 0.8);
    ("diapers", 1.0); ("nappies", 1.0); ("wipes", 1.0); ("baby wipes", 1.0);
    ("baby food", 1.0); ("formula", 1.0); ("baby milk", 1.0);
    ("baby bottle", 1.0); ("pacifier", 1.0); ("teething", 1.0);
    ("baby shampoo", 1.0); ("baby soap", 1.0); ("baby lotion", 1.0);
    ("baby powder", 1.0); ("rash cream", 1.0); ("baby oil", 1.0);
    ("stroller", 1.0); ("car seat", 1.0); ("high chair", 1.0);
    ("baby carrier", 1.0); ("crib", 1.0); ("bassinet", 1.0)].

Definition baby_care_context_words : list (string * Q) :=
  [("pediatric", 1.0); ("child", 0.7); ("kids", 0.6); ("nursery", 0.8);
    ("months", 0.6); ("years", 0.5); ("gentle", 0.6);
    ("hypoallergenic", 0.7)].

Definition health_keywords : list (string * Q) :=
  [("medicine", 1.0); ("medication", 1.0); ("pills", 1.0);
    ("tablets", 1.0); ("capsules", 1.0); ("syrup", 0.9); ("drops", 0.8);
    ("ointment", 1.0); ("cream", 0.7); ("gel", 0.8); ("spray", 0.7);
    ("patch", 0.8); ("vitamin", 1.0); ("supplement", 1.0); ("protein", 0.8);
    ("calcium", 1.0); ("iron", 0.9); ("zinc", 1.0); ("magnesium", 1.0);
    ("omega", 1.0); ("probiotics", 1.0); ("multivitamin", 1.0);
    ("pain relief", 1.0); ("aspirin", 1.0); ("ibuprofen", 1.0);
    ("acetaminophen", 1.0); ("antibiotic", 1.0); ("antacid", 1.0);
    ("cough", 1.0); ("cold", 0.7); ("allergy", 1.0); ("fever", 0.8);
    ("thermometer", 1.0); ("bandage", 1.0); ("first aid", 1.0)].

Definition health_context_words : list (string * Q) :=
  [("pharmacy", 1.0); ("medical", 1.0); ("health", 1.0); ("wellness", 1.0);
    ("prescription", 0.8); ("over-the-counter", 1.0); ("otc", 1.0);
    ("therapeutic", 0.9); ("clinical", 0.8)].

(** [_build_brand_categories] *)
Definition brand_categories : list (string * ProductCategory) :=
  [("almarai", DAIRY); ("juhayna", DAIRY); ("domty", DAIRY);
    ("beyti", DAIRY); ("nada", DAIRY); ("dannon", DAIRY);
    ("chobani", DAIRY); ("yoplait", DAIRY); ("philadelphia", DAIRY);
    ("coca-cola", BEVERAGES); ("pepsi", BEVERAGES); ("sprite", BEVERAGES);
    ("fanta", BEVERAGES); ("nestle", BEVERAGES); ("tropicana", BEVERAGES);
    ("fresh", BEVERAGES); ("baraka", BEVERAGES); ("hayat", BEVERAGES);
    ("aquafina", BEVERAGES); ("lays", SNACKS); ("pringles", SNACKS);
    ("doritos", SNACKS); ("cheetos", SNACKS); ("oreo", SNACKS);
    ("kitkat", SNACKS); ("snickers", SNACKS); ("twix", SNACKS);
    ("mars", SNACKS); ("cadbury", SNACKS); ("ariel", HOUSEHOLD);
    ("tide", HOUSEHOLD); ("persil", HOUSEHOLD); ("fairy", HOUSEHOLD);
    ("mr clean", HOUSEHOLD); ("lysol", HOUSEHOLD); ("clorox", HOUSEHOLD);
    ("downy", HOUSEHOLD); ("bounce", HOUSEHOLD); ("johnson", PERSONAL_CARE);
    ("nivea", PERSONAL_CARE); ("dove", PERSONAL_CARE);
    ("olay", PERSONAL_CARE); ("pantene", PERSONAL_CARE);
    ("head shoulders", PERSONAL_CARE); ("loreal", PERSONAL_CARE);
    ("garnier", PERSONAL_CARE); ("colgate", PERSONAL_CARE);
    ("oral-b", PERSONAL_CARE); ("pampers", BABY_CARE);
    ("huggies", BABY_CARE); ("johnson baby", BABY_CARE);
    ("mustela", BABY_CARE); ("sebamed", BABY_CARE);
    ("baby dove", BABY_CARE); ("chicco", BABY_CARE); ("avent", BABY_CARE);
    ("panadol", HEALTH); ("advil", HEALTH); ("centrum", HEALTH);
    ("pfizer", HEALTH); ("gsk", HEALTH); ("bayer", HEALTH);
    ("tylenol", HEALTH); ("aspirin", HEALTH); ("voltaren", HEALTH)].

(** The mappings of [_classify_by_store_category]. *)
Definition category_mappings : list (string * ProductCategory) :=
  [("dairy", DAIRY); ("meat", MEAT); ("poultry", MEAT); ("seafood", MEAT);
   ("produce", VEGETABLES); ("vegetables", VEGETABLES); ("fruits", FRUITS);
   ("bakery", BAKERY); ("bread", BAKERY); ("beverages", BEVERAGES);
   ("drinks", BEVERAGES); ("pantry", PANTRY); ("grocery", PANTRY);
   ("snacks", SNACKS); ("frozen", FROZEN); ("household", HOUSEHOLD);
   ("cleaning", HOUSEHOLD); ("personal care", PERSONAL_CARE);
   ("beauty", PERSONAL_CARE); ("baby", BABY_CARE); ("health", HEALTH);
   ("pharmacy", HEALTH); ("pet", PET)].

End Tables.

Import Tables.

(** Pieces of the patterns. *)
Definition number : Re.regex := Re.Plus Re.d.
Definition blanks : Re.regex := Re.Star Re.s.
Definition some_blanks : Re.regex := Re.Plus Re.s.

Fixpoint seq (rs : list Re.regex) : Re.regex :=
  match rs with
  | [] => Re.Eps
  | [r] => r
  | r :: rs' => Re.Seq r (seq rs')
  end.

Definition lit (t : string) : Re.regex := Re.Lit (list_ascii_of_string t).

(** [\d+\s*unit] and [\d+\s*unit\b] *)
Definition amount (unit : string) : Re.regex := seq [number; blanks; lit unit].
Definition amount_b (unit : string) : Re.regex :=
  seq [number; blanks; lit unit; Re.WordB].

(** [a\s+b] *)
Definition two_words (a b : string) : Re.regex :=
  seq [lit a; some_blanks; lit b].

(** [\d+\s*(u1|u2|...)] *)
Definition amount_of (units : list string) : Re.regex :=
  seq [number; blanks; Re.AltOf (map lit units)].

(** [\b(w1|w2|...)\b] *)
Definition one_of_words (ws : list string) : Re.regex :=
  seq [Re.WordB; Re.AltOf (map lit ws); Re.WordB].

(** [_build_unit_patterns] *)
Definition unit_patterns : list (ProductCategory * list Re.regex) :=
  [(MEAT, [amount "kg"; amount_b "g"; amount "lb"; amount "oz";
           two_words "per" "kg"; two_words "per" "lb";
           lit "frozen"; lit "fresh"]);
   (VEGETABLES, [amount "kg"; amount_b "g"; lit "bunch"; lit "head";
                 lit "piece"; lit "organic"; lit "fresh"; lit "local"]);
   (DAIRY, [amount "ml"; amount_b "l"; amount "oz"; two_words "low" "fat";
            two_words "full" "fat"; lit "skim"; lit "whole"; lit "dozen"]);
   (BEVERAGES, [amount "ml"; amount_b "l"; amount "oz"; lit "bottle";
                lit "can"; lit "pack"; lit "case"; lit "carbonated";
                lit "still"]);
   (PANTRY, [amount_b "g"; amount "kg"; amount "oz"; amount "lb";
             lit "jar"; lit "bottle"; lit "can"; lit "pack"; lit "bag"])].

(** [_build_exclusion_patterns] *)
Definition exclusion_patterns : list (ProductCategory * list Re.regex) :=
  [(MEAT, [lit "soap"; lit "shampoo"; lit "detergent"; lit "cleaner"]);
   (BEVERAGES, [lit "soap"; lit "shampoo"; lit "lotion"; lit "cream"]);
   (PERSONAL_CARE, [lit "food"; lit "drink"; lit "eat"; lit "meal"])].

(** **** Scores

    A [defaultdict(float)] keyed by category, in insertion order. *)
Definition scores : Type := list (ProductCategory * Q).

(** [scores[category] += x] *)
Fixpoint add_score (category : ProductCategory) (x : Q) (sc : scores)
  : scores :=
  match sc with
  | [] => [(category, (0 + x)%Q)]
  | (c, v) :: rest =>
      if category_eqb c category then (c, (v + x)%Q) :: rest
      else (c, v) :: add_score category x rest
  end.

(** [max(xs)] of a non-empty sequence [x :: xs]: the first of the
    largest. *)
Definition qmax (x : Q) (xs : list Q) : Q :=
  fold_left (fun best y => if Qlt_bool best y then y else best) xs x.

(** [max(scores.items(), key=lambda x: x[1])] *)
Definition best_item (first : ProductCategory * Q) (rest : scores)
  : ProductCategory * Q :=
  fold_left (fun best y => if Qlt_bool (snd best) (snd y) then y else best)
            rest first.

(** [sorted(scores.items(), key=lambda x: x[1], reverse=True)]: stable,
    so equal scores stay in insertion order. *)
Fixpoint insert_desc (x : ProductCategory * Q) (sorted : scores) : scores :=
  match sorted with
  | [] => [x]
  | y :: rest =>
      if Qlt_bool (snd y) (snd x) then x :: y :: rest
      else y :: insert_desc x rest
  end.

Definition sorted_desc (sc : scores) : scores :=
  fold_left (fun acc x => insert_desc x acc) sc [].

Definition Qmin (a b : Q) : Q := if Qle_bool a b then a else b.

Section Classifier.

(** The Arabic keywords of each category, and the order in which a
    [set] of words hands out its elements (it depends on the hashes of
    the run). *)
Variable arabic_keywords : ProductCategory -> list (str * Q).
Variable set_iter : list str -> list str.

Definition latin (table : list (string * Q)) : list (str * Q) :=
  map (fun kw => (list_ascii_of_string (fst kw), snd kw)) table.

Definition with_arabic (category : ProductCategory)
    (keywords context_words : list (string * Q)) : list (str * Q) :=
  latin keywords ++ arabic_keywords category ++ latin context_words.

(** [_build_category_keywords] *)
Definition category_keywords : list (ProductCategory * list (str * Q)) :=
  [
     (VEGETABLES, with_arabic VEGETABLES vegetables_keywords vegetables_context_words);
     (FRUITS, with_arabic FRUITS fruits_keywords fruits_context_words);
     (MEAT, with_arabic MEAT meat_keywords meat_context_words);
     (DAIRY, with_arabic DAIRY dairy_keywords dairy_context_words);
     (BAKERY, with_arabic BAKERY bakery_keywords bakery_context_words);
     (BEVERAGES, with_arabic BEVERAGES beverages_keywords beverages_context_words);
     (PANTRY, with_arabic PANTRY pantry_keywords pantry_context_words);
     (SNACKS, with_arabic SNACKS snacks_keywords snacks_context_words);
     (FROZEN, with_arabic FROZEN frozen_keywords frozen_context_words);
     (HOUSEHOLD, with_arabic HOUSEHOLD household_keywords household_context_words);
     (PERSONAL_CARE, with_arabic PERSONAL_CARE personal_care_keywords personal_care_context_words);
     (BABY_CARE, with_arabic BABY_CARE baby_care_keywords baby_care_context_words);
     (HEALTH, with_arabic HEALTH health_keywords health_context_words)
  ].

(** The pattern [\b\w+\b]. *)
Definition word_pattern : Re.regex :=
  seq [Re.WordB; Re.Plus Re.w; Re.WordB].

(** What one keyword adds to the score of its category in
    [_classify_by_keywords]; [max()] of no word raises. *)
Definition keyword_gain (text : str) (words : list str) (keyword : str)
    (weight : Q) : result (option Q) :=
  if contains keyword text then Ok (Some weight)
  else if existsb (fun word => str_eqb word keyword) words
  then Ok (Some (weight * 0.8)%Q)
  else if existsb (fun word => contains keyword word || contains word keyword)
                  words
  then
    match map (Difflib.ratio keyword)
              (filter (fun word => 2 <? List.length word) words) with
    | [] => Raise ValueError
    | r :: rs =>
        let similarity := qmax r rs in
        if Qlt_bool 0.7 similarity
        then Ok (Some (weight * similarity * 0.6)%Q)
        else Ok None
    end
  else Ok None.

Fixpoint score_keywords (text : str) (words : list str)
    (category : ProductCategory) (keywords : list (str * Q)) (sc : scores)
  : result scores :=
  match keywords with
  | [] => Ok sc
  | (keyword, weight) :: rest =>
      Py.bind (keyword_gain text words keyword weight) (fun gain =>
      score_keywords text words category rest
        (match gain with
         | Some x => add_score category x sc
         | None => sc
         end))
  end.

Fixpoint score_categories (text : str) (words : list str)
    (table : list (ProductCategory * list (str * Q))) (sc : scores)
  : result scores :=
  match table with
  | [] => Ok sc
  | (category, keywords) :: rest =>
      Py.bind (score_keywords text words category keywords sc) (fun sc' =>
      score_categories text words rest sc')
  end.

(** [CategoryClassifier._classify_by_keywords] *)
Definition _classify_by_keywords (text : str)
  : result (ProductCategory * Q) :=
  let text := lower text in
  let words := set_iter (Re.findall word_pattern text) in
  Py.bind (score_categories text words category_keywords []) (fun sc =>
  match sc with
  | [] => Ok (UNKNOWN, 0%Q)
  | (c, v) :: rest =>
      let max_score := qmax v (map snd rest) in
      let sc :=
        if Qlt_bool 0 max_score
        then map (fun cv => (fst cv, (snd cv / max_score)%Q)) sc
        else sc in
      match sc with
      | [] => Ok (UNKNOWN, 0%Q)
      | first :: rest => Ok (best_item first rest)
      end
  end).

(** [CategoryClassifier._classify_by_patterns] *)
Definition _classify_by_patterns (text : str) : ProductCategory * Q :=
  let sc :=
    fold_left
      (fun sc entry =>
         fold_left
           (fun sc pattern =>
              match List.length (Re.findall (Re.ignorecase pattern) text) with
              | O => sc
              | n => add_score (fst entry) (inject_Z (Z.of_nat n) * 0.5)%Q sc
              end)
           (snd entry) sc)
      unit_patterns [] in
  match sc with
  | [] => (UNKNOWN, 0%Q)
  | (c, v) :: rest =>
      let max_score := qmax v (map snd rest) in
      match map (fun cv => (fst cv, Qmin (snd cv / max_score) 1.0)%Q) sc with
      | [] => (UNKNOWN, 0%Q)
      | first :: rest => best_item first rest
      end
  end.

(** [CategoryClassifier._classify_by_context] *)
Definition _classify_by_context (name text : str) : ProductCategory * Q :=
  let when (pattern : Re.regex) (adds : list (ProductCategory * Q))
           (sc : scores) : scores :=
    if Re.search pattern text
    then fold_left (fun sc cv => add_score (fst cv) (snd cv) sc) adds sc
    else sc in
  let sc := [] in
  let sc := when (amount_of ["ml"; "l"; "liter"]%string)
                 [(BEVERAGES, 0.3); (DAIRY, 0.2)]%Q sc in
  let sc := when (amount_of ["kg"; "g"; "gram"; "lb"; "pound"]%string)
                 [(MEAT, 0.3); (VEGETABLES, 0.2); (PANTRY, 0.2)]%Q sc in
  let sc := when (amount_of ["oz"; "ounce"]%string)
                 [(BEVERAGES, 0.2); (PERSONAL_CARE, 0.2)]%Q sc in
  let sc := when (one_of_words ["bottle"; "jar"; "can"; "pack"; "bag"]%string)
                 [(PANTRY, 0.2); (BEVERAGES, 0.1)]%Q sc in
  let sc := when (one_of_words ["fresh"; "organic"; "natural"; "farm"]%string)
                 [(VEGETABLES, 0.3); (FRUITS, 0.3); (MEAT, 0.2)]%Q sc in
  let sc := when (one_of_words ["frozen"; "canned"; "dried"; "baked"]%string)
                 [(FROZEN, 0.4); (PANTRY, 0.2)]%Q sc in
  match sc with
  | [] => (UNKNOWN, 0%Q)
  | first :: rest => best_item first rest
  end.

(** [table.get(key)] and the partial match of a key. *)
Fixpoint lookup {V : Type} (key : str) (table : list (string * V))
  : option V :=
  match table with
  | [] => None
  | (k, v) :: rest =>
      if str_eqb (list_ascii_of_string k) key then Some v
      else lookup key rest
  end.

(** [CategoryClassifier._classify_by_brand] *)
Definition _classify_by_brand (brand : str) : ProductCategory * Q :=
  let brand := lower (strip brand) in
  match lookup brand brand_categories with
  | Some category => (category, 0.9%Q)
  | None =>
      (fix partial (table : list (string * ProductCategory)) :=
         match table with
         | [] => (UNKNOWN, 0%Q)
         | (known, category) :: rest =>
             let known_brand := list_ascii_of_string known in
             if contains known_brand brand || contains brand known_brand
             then
               let similarity := Difflib.ratio brand known_brand in
               if Qlt_bool 0.8 similarity
               then (category, (0.8 * similarity)%Q)
               else partial rest
             else partial rest
         end) brand_categories
  end.

(** [CategoryClassifier._classify_by_store_category] *)
Definition _classify_by_store_category (store_category : str)
  : ProductCategory * Q :=
  let store_category := lower (strip store_category) in
  match lookup store_category category_mappings with
  | Some category => (category, 0.8%Q)
  | None =>
      (fix partial (table : list (string * ProductCategory)) :=
         match table with
         | [] => (UNKNOWN, 0%Q)
         | (category_name, product_category) :: rest =>
             let category_name := list_ascii_of_string category_name in
             if contains category_name store_category
                || contains store_category category_name
             then (product_category, 0.7%Q)
             else partial rest
         end) category_mappings
  end.

(** [CategoryClassifier._is_excluded] *)
Definition _is_excluded (text : str) (category : ProductCategory) : bool :=
  match find (fun entry => category_eqb (fst entry) category)
             exclusion_patterns with
  | None => false
  | Some (_, patterns) =>
      existsb (fun pattern => Re.search (Re.ignorecase pattern) text) patterns
  end.

(** The lowered text of an optional argument, if it has any. *)
Definition lowered (o : option str) : list str :=
  match o with
  | Some t => if truthy t then [lower t] else []
  | None => []
  end.

(** [combined_text] in [classify_product] *)
Definition combined (name : str) (description brand
    store_category : option str) : str :=
  let text_parts :=
    [lower name] ++ lowered description ++ lowered brand
      ++ lowered store_category in
  join " " text_parts.

(** [CategoryClassifier.classify_product] *)
Definition classify_product (name : str) (description brand
    store_category : option str) : result (ProductCategory * Q) :=
  if negb (truthy name) then Ok (UNKNOWN, 0%Q)
  else
    let combined_text := combined name description brand store_category in
    let brand_result :=
      match lowered brand with
      | [b] => Some (_classify_by_brand b)
      | _ => None
      end in
    let store_result :=
      match lowered store_category with
      | [s] => Some (_classify_by_store_category s)
      | _ => None
      end in
    let brand_short :=
      match brand_result with
      | Some (c, conf) => if Qlt_bool 0.8 conf then Some (c, conf) else None
      | None => None
      end in
    let store_short :=
      match store_result with
      | Some (c, conf) => if Qlt_bool 0.7 conf then Some (c, conf) else None
      | None => None
      end in
    match brand_short, store_short with
    | Some r, _ => Ok r
    | None, Some r => Ok r
    | None, None =>
        Py.bind (_classify_by_keywords combined_text) (fun keyword_result =>
        let pattern_result := _classify_by_patterns combined_text in
        let context_result :=
          _classify_by_context (lower name) combined_text in
        let candidates : scores := [] in
        let candidates :=
          if Qlt_bool 0.3 (snd keyword_result)
          then add_score (fst keyword_result) (snd keyword_result * 0.4)%Q
                         candidates
          else candidates in
        let candidates :=
          if Qlt_bool 0.3 (snd pattern_result)
          then add_score (fst pattern_result) (snd pattern_result * 0.3)%Q
                         candidates
          else candidates in
        let candidates :=
          if Qlt_bool 0.3 (snd context_result)
          then add_score (fst context_result) (snd context_result * 0.2)%Q
                         candidates
          else candidates in
        let candidates :=
          match brand_result with
          | Some (c, conf) =>
              if Qlt_bool 0.3 conf
              then add_score c (conf * 0.1)%Q candidates
              else candidates
          | None => candidates
          end in
        match candidates with
        | [] => Ok (UNKNOWN, 0%Q)
        | first :: rest =>
            let best_category := best_item first rest in
            if _is_excluded combined_text (fst best_category)
            then
              match sorted_desc candidates with
              | _ :: second :: _ => Ok second
              | _ => Ok (UNKNOWN, 0%Q)
              end
            else Ok (fst best_category, Qmin (snd best_category) 1.0%Q)
        end)
    end.

End Classifier.

(** What is assumed of the two parameters.  A keyword of the Arabic
    blocks starts with a character outside the 7-bit range and holds
    only such characters and blanks; a set hands out exactly its
    elements, in an order of its own. *)
Definition non_latin (keyword : str) : bool :=
  match keyword with
  | [] => false
  | a :: _ =>
      (128 <=? code a)
      && forallb (fun ch => (128 <=? code ch) || Ascii.eqb ch " ") keyword
  end.

(** A word of 7-bit text that does not start with a blank. *)
Definition latin_word (word : str) : bool :=
  match word with
  | [] => false
  | c :: _ =>
      negb (Ascii.eqb c " ") && forallb (fun ch => code ch <? 128) word
  end.

Definition arabic_only (arabic_keywords : ProductCategory -> list (str * Q))
  : Prop :=
  forall category keyword weight,
    In (keyword, weight) (arabic_keywords category) ->
    non_latin keyword = true.

Definition enumerates (set_iter : list str -> list str) : Prop :=
  forall words word, In word (set_iter words) <-> In word words.

(** The classifier without its Arabic keywords, and sets that keep the
    order in which their elements came. *)
Definition no_arabic (category : ProductCategory) : list (str * Q) := [].

Definition in_order (words : list str) : list str :=
  nodup str_eq_dec words.

End CategoryClassifier.

End Server.

(* ================================================================== *)
(** ** [backend/app] *)
(* ================================================================== *)

Module Backend.

(** *** [scrapers/base_scraper.py] *)

Module BaseScraper.

Import PyStr Py.

(** The pattern [[^\d.,]]. *)
Definition not_price_char : Re.regex :=
  Re.Cls (fun c => negb (is_digit c || Ascii.eqb c "." || Ascii.eqb c ",")).

(** [BaseScraper.clean_price]; the result is a [Decimal]. *)
Definition clean_price (price_text : str) : result Q :=
  try_except
    (let price_text := Re.sub not_price_char [] price_text in
     let price_text := replace_char "," (list_ascii_of_string ".") price_text in
     let parts := split_on "." price_text in
     let price_text :=
       if 2 <? List.length parts
       then List.concat (removelast parts)
              ++ list_ascii_of_string "." ++ last parts []
       else price_text in
     PyParse.Decimal price_text)
    any_exception
    (fun _ => Ok 0%Q).

(** [class ProductData], the fields the scrapers below fill in; a new
    one has an empty name, price 0, no size, and is available. *)
Record ProductData : Type := {
  name : str;
  price : Q;
  pack_size : str;
  pack_unit : str;
  price_per_kg : option Q;
  is_available : bool;
  store_name : str
}.

Definition new_ProductData : ProductData :=
  {| name := []; price := 0%Q; pack_size := []; pack_unit := [];
     price_per_kg := None; is_available := true; store_name := [] |}.

(** An entry of [products_to_track].  The Arabic keywords are the bytes
    of the source file; no letter of theirs has a lower case. *)
Record tracked : Type := {
  tracked_name : string;
  category : string;
  keywords : list string
}.

(** [BaseScraper._load_products_list] *)
Definition _load_products_list : list tracked :=
  [ {| tracked_name := "Cucumbers"; category := "A";
       keywords := ["cucumber"; "خيار"] |};
    {| tracked_name := "Tomatoes"; category := "A";
       keywords := ["tomato"; "tomatoes"; "طماطم"] |};
    {| tracked_name := "Cherry Tomatoes"; category := "A";
       keywords := ["cherry tomato"; "طماطم كرزية"] |};
    {| tracked_name := "Capsicum Red and Yellow Mix"; category := "A";
       keywords := ["capsicum mix"; "pepper mix"] |};
    {| tracked_name := "Capsicum Red"; category := "A";
       keywords := ["red capsicum"; "red pepper"; "فلفل أحمر"] |};
    {| tracked_name := "Capsicum Yellow"; category := "A";
       keywords := ["yellow capsicum"; "yellow pepper"; "فلفل أصفر"] |};
    {| tracked_name := "Chili Pepper"; category := "A";
       keywords := ["chili"; "hot pepper"; "فلفل حار"] |};
    {| tracked_name := "Arugula"; category := "A";
       keywords := ["arugula"; "rocket"; "جرجير"] |};
    {| tracked_name := "Parsley"; category := "A";
       keywords := ["parsley"; "بقدونس"] |};
    {| tracked_name := "Coriander"; category := "A";
       keywords := ["coriander"; "cilantro"; "كزبرة"] |};
    {| tracked_name := "Mint"; category := "A";
       keywords := ["mint"; "نعناع"] |};
    {| tracked_name := "Tuscan Kale"; category := "A";
       keywords := ["tuscan kale"; "lacinato kale"; "dinosaur kale"] |};
    {| tracked_name := "Italian Basil"; category := "A";
       keywords := ["basil"; "italian basil"; "ريحان"] |};
    {| tracked_name := "Colored Cherry Tomatoes"; category := "B";
       keywords := ["colored cherry"; "rainbow tomatoes"] |};
    {| tracked_name := "Capsicum Green"; category := "B";
       keywords := ["green capsicum"; "green pepper"; "فلفل أخضر"] |};
    {| tracked_name := "Italian Arugula"; category := "B";
       keywords := ["italian arugula"; "wild arugula"] |};
    {| tracked_name := "Chives"; category := "B";
       keywords := ["chives"; "ثوم معمر"] |};
    {| tracked_name := "Curly Kale"; category := "B";
       keywords := ["curly kale"; "kale"] |};
    {| tracked_name := "Batavia Lettuce"; category := "B";
       keywords := ["batavia"; "batavia lettuce"] |};
    {| tracked_name := "Ice Berg Lettuce"; category := "B";
       keywords := ["iceberg"; "iceberg lettuce"; "خس آيسبرغ"] |};
    {| tracked_name := "Oak Leaf Lettuce"; category := "B";
       keywords := ["oak leaf"; "oakleaf lettuce"] |};
    {| tracked_name := "Romain Lettuce"; category := "B";
       keywords := ["romaine"; "romain lettuce"; "خس روماني"] |} ].

(** [any(keyword.lower() in product_text_lower for keyword in ...)],
    the inner loop of [match_product]. *)
Definition has_keyword (product_text_lower : str) (product : tracked) : bool :=
  existsb (fun keyword : string => contains (lower keyword) product_text_lower)
          (keywords product).

(** [BaseScraper.match_product], over the list [self.products_to_track]. *)
Definition match_product (products_to_track : list tracked)
    (product_text : str) : option tracked :=
  let product_text_lower := lower product_text in
  find (has_keyword product_text_lower) products_to_track.

(** [x in [a, b, ...]] for strings. *)
Definition one_of (x : str) (names : list string) : bool :=
  existsb (fun name : string => str_eqb x name) names.

(** [a / b] on [Decimal]: dividing by zero raises [DivisionByZero]
    (a [ZeroDivisionError]), and 0 by 0 [InvalidOperation].  The
    quotient is kept exact; Python rounds it to 28 digits. *)
Definition decimal_div (a b : Q) : result Q :=
  if PyNum.is_zero b
  then (if PyNum.is_zero a then Raise InvalidOperation
        else Raise ZeroDivisionError)
  else Ok (a / b)%Q.

(** The pattern [(\d+(?:\.\d+)?)]. *)
Definition size_pattern : Re.pieces :=
  [(true, Server.BaseScraper.quantity)].

(** [BaseScraper.calculate_price_per_kg] *)
Definition calculate_price_per_kg (price : Q) (size unit : str)
  : result (option Q) :=
  try_except
    (match Re.search_groups size_pattern false size with
     | None => Ok None
     | Some groups =>
         group1 <- match groups with
                   | g :: _ => Ok g
                   | [] => Raise IndexError
                   end ;;
         size_value <- PyParse.Decimal group1 ;;
         if one_of (lower unit) ["kg"; "كجم"; "كيلو"]
         then (q <- decimal_div price size_value ;; Ok (Some q))
         else if one_of (lower unit) ["g"; "جم"; "جرام"; "gram"]
         then (per <- decimal_div size_value 1000 ;;
               q <- decimal_div price per ;; Ok (Some q))
         else if one_of (lower unit) ["lb"; "pound"]
         then (q <- decimal_div price (size_value * 0.453592)%Q ;;
               Ok (Some q))
         else if one_of (lower unit) ["piece"; "pcs"; "قطعة"]
         then Ok None
         else Ok None
     end)
    any_exception
    (fun _ => Ok None).

End BaseScraper.

(** *** [scrapers/rabbit_scraper.py] *)

Module RabbitScraper.

Import PyStr Py BaseScraper.

(** The patterns of [_parse_size]: [(\d+(?:\.\d+)?)\s*(kg|g|gm|kilo|gram)]
    and [(\d+)\s*(piece|pcs)]. *)
Definition size_patterns : list Re.pieces :=
  [ [(true, Server.BaseScraper.quantity); (false, Re.Star Re.s);
     (true, Server.BaseScraper.units ["kg"; "g"; "gm"; "kilo"; "gram"])];
    [(true, Re.Plus Re.d); (false, Re.Star Re.s);
     (true, Server.BaseScraper.units ["piece"; "pcs"])] ].

(** The loop of [_parse_size] over its patterns. *)
Fixpoint first_size (patterns : list Re.pieces) (text_lower : str)
  : result (str * str) :=
  match patterns with
  | [] => Ok ([], [])
  | pattern :: rest =>
      match Re.search_groups pattern false text_lower with
      | Some [group1; group2] => Ok (group1, group2)
      | Some _ => Raise IndexError
      | None => first_size rest text_lower
      end
  end.

(** [RabbitScraper._parse_size] *)
Definition _parse_size (text : str) : result (str * str) :=
  first_size size_patterns (lower text).

(** What [_extract_product_data] reads from a product element: the
    inner text of each selector that is there, and whether the
    out-of-stock label is. *)
Record element : Type := {
  product_name : option str;
  price_after_discount : option str;
  product_price : option str;
  product_weight : option str;
  out_of_stock_label : bool
}.

(** [price_element]: the first of the two selectors that is there. *)
Definition price_element (e : element) : option str :=
  match price_after_discount e with
  | Some t => Some t
  | None => product_price e
  end.

(** [RabbitScraper._extract_product_data], the reads of the page done. *)
Definition _extract_product_data (e : element) : option ProductData :=
  let body :=
    let name :=
      match product_name e with
      | Some t => strip t
      | None => name new_ProductData
      end in
    if negb (truthy name) then Ok None
    else
      price <- match price_element e with
               | Some price_text => clean_price price_text
               | None => Ok (price new_ProductData)
               end ;;
      size <- match product_weight e with
              | Some size_text => _parse_size size_text
              | None => Ok (pack_size new_ProductData,
                            pack_unit new_ProductData)
              end ;;
      per_kg <- (if truthy (fst size) && truthy (snd size)
                 then calculate_price_per_kg price (fst size) (snd size)
                 else Ok (price_per_kg new_ProductData)) ;;
      Ok (Some {| name := name;
                  price := price;
                  pack_size := fst size;
                  pack_unit := snd size;
                  price_per_kg := per_kg;
                  is_available := negb (out_of_stock_label e);
                  store_name := list_ascii_of_string "Rabbit" |}) in
  match try_except body any_exception (fun _ => Ok None) with
  | Ok product => product
  | Raise _ => None
  end.

End RabbitScraper.

(** *** [services/data_processor.py] *)

Module DataProcessor.

Import PyStr.

(** [DataProcessor._clean_text]: [re.sub(r'\s+', ' ', text).strip()] *)
Definition _clean_text (text : str) : str :=
  strip (Re.sub (Re.Plus Re.s) (list_ascii_of_string " ") text).

End DataProcessor.

End Backend.

(* ================================================================== *)
(** ** A small catalog to run the code on *)
(* ================================================================== *)

Module Example.

Import Server Server.Session Server.DataProcessor.

(** One store, one product, one price of 20.00 observed at time 0. *)
Definition tomato : Product.t :=
  {| Product.id := 1; Product.name := list_ascii_of_string "Tomato";
     Product.category := list_ascii_of_string "vegetables";
     Product.subcategory := None; Product.keywords := None;
     Product.description := Some (list_ascii_of_string "Vine tomatoes");
     Product.image_url := None; Product.unit := None;
     Product.weight := None; Product.brand := None;
     Product.is_organic := false; Product.is_active := true;
     Product.store_id := 1; Product.external_id := None;
     Product.updated_at := None |}.

Definition tomato_price (available : bool) : Price.t :=
  {| Price.product_id := 1; Price.store_id := 1; Price.price := 20;
     Price.original_price := None; Price.price_per_kg := None;
     Price.discount_percentage := None; Price.pack_size := None;
     Price.pack_unit := None; Price.weight_value := None;
     Price.weight_unit := None; Price.is_available := available;
     Price.is_discounted := false; Price.is_on_sale := false;
     Price.product_url := None; Price.image_url := None;
     Price.scraped_at := 0 |}.

Definition store : Store.t :=
  {| Store.id := 1; Store.last_scraped := None; Store.success_rate := 0;
     Store.total_scrapes := 0; Store.failed_scrapes := 0 |}.

Definition catalog (available : bool) : Db :=
  {| products := [tomato]; prices := [tomato_price available];
     price_history := []; stores := [store] |}.

Definition empty_catalog : Db :=
  {| products := []; prices := []; price_history := []; stores := [store] |}.

(** One hour and two days after time 0. *)
Definition one_hour : Z := (3600 * 1000000)%Z.
Definition two_days : Z := (48 * 3600 * 1000000)%Z.

(** A commit that fails. *)
Definition commit_fails : Faults :=
  {| record_fault := fun _ => false;
     store_stats_fault := false;
     commit_fault := true |}.

(** The same catalog with a stored price of 0, which the processor
    itself never writes. *)
Definition free_tomato_catalog : Db :=
  {| products := [tomato];
     prices :=
       [{| Price.product_id := 1; Price.store_id := 1; Price.price := 0;
           Price.original_price := None; Price.price_per_kg := None;
           Price.discount_percentage := None; Price.pack_size := None;
           Price.pack_unit := None; Price.weight_value := None;
           Price.weight_unit := None; Price.is_available := true;
           Price.is_discounted := false; Price.is_on_sale := false;
           Price.product_url := None; Price.image_url := None;
           Price.scraped_at := 0 |}];
     price_history := []; stores := [store] |}.

(** A flush that fails for the record named "Broken": the session is
    then unusable, so that the record named "Basil", which comes after
    it, and the store update fail as well. *)
Definition broken_session : Faults :=
  {| record_fault :=
       fun p => PyStr.str_eqb (name p) (list_ascii_of_string "Broken")
                || PyStr.str_eqb (name p) (list_ascii_of_string "Basil");
     store_stats_fault := true;
     commit_fault := false |}.

End Example.

(* ================================================================== *)
(** * Properties *)
(* ================================================================== *)

(** ** Strings and patterns *)

Section StringFacts.

Import PyStr.

Lemma lstrip_incl (t : str) (c : ascii) : In c (lstrip t) -> In c t.
Proof.
  induction t as [|x t IH]; simpl; auto.
  destruct (is_space x); simpl; auto.
Qed.

Lemma strip_incl (t : str) (c : ascii) : In c (strip t) -> In c t.
Proof.
  unfold strip, rstrip. intro H.
  apply lstrip_incl. apply in_rev in H. apply lstrip_incl in H.
  now apply in_rev.
Qed.

Lemma has_char_In (c : ascii) (t : str) : has_char c t = true <-> In c t.
Proof.
  unfold has_char. rewrite existsb_exists. split.
  - intros (x & Hx & E). apply Ascii.eqb_eq in E. now subst.
  - intro H. exists c. split; auto. apply Ascii.eqb_refl.
Qed.

Lemma split_on_aux_length (sep : ascii) (t cur : str) :
  List.length (split_on_aux sep cur t) = S (count_char sep t).
Proof.
  revert cur. induction t as [|x t IH]; intro cur; simpl; auto.
  unfold count_char in *. simpl.
  rewrite (Ascii.eqb_sym sep x).
  destruct (Ascii.eqb x sep); simpl; now rewrite IH.
Qed.

Lemma split_on_length (sep : ascii) (t : str) :
  List.length (split_on sep t) = S (count_char sep t).
Proof. apply split_on_aux_length. Qed.

Lemma replace_char_Forall (P : ascii -> Prop) (old : ascii) (new t : str) :
  Forall P new -> Forall P t -> Forall P (replace_char old new t).
Proof.
  intros Hn Ht. unfold replace_char. induction Ht as [|x t Hx Ht IH]; simpl.
  - constructor.
  - apply Forall_app. split; auto.
    destruct (Ascii.eqb x old); auto.
Qed.

Lemma match_here_class (p : ascii -> bool) (prev : option ascii) (x : ascii)
    (t : str) :
  Re.match_here (Re.Cls p) prev (x :: t) = if p x then Some 1 else None.
Proof.
  unfold Re.match_here. cbn [Re.run].
  destruct (p x); auto. f_equal. cbn [List.length]. lia.
Qed.

(** Substituting the empty string for a character class filters the
    class out. *)
Lemma sub_class_filter (p : ascii -> bool) (t : str) (prev : option ascii) :
  Re.sub_from (Re.Cls p) [] prev t 0 = filter (fun c => negb (p c)) t.
Proof.
  revert prev. induction t as [|x t IH]; intro prev; auto.
  cbn [Re.sub_from filter]. rewrite match_here_class.
  destruct (p x); cbn [negb app]; now rewrite IH.
Qed.

Lemma split_on_aux_incl (sep : ascii) (t cur part : str) (c : ascii) :
  In part (split_on_aux sep cur t) -> In c part -> In c cur \/ In c t.
Proof.
  revert cur. induction t as [|x t IH]; intros cur Hp Hc; simpl in *.
  - destruct Hp as [<-|[]]. left. now apply in_rev.
  - destruct (Ascii.eqb x sep).
    + destruct Hp as [<-|Hp].
      * left. now apply in_rev.
      * destruct (IH _ Hp Hc) as [[]|H]. auto.
    + destruct (IH _ Hp Hc) as [[->|H]|H]; auto.
Qed.

Lemma split_on_incl (sep : ascii) (t part : str) (c : ascii) :
  In part (split_on sep t) -> In c part -> In c t.
Proof.
  intros Hp Hc. destruct (split_on_aux_incl _ _ _ _ _ Hp Hc) as [[]|H]; auto.
Qed.

Lemma removelast_incl {A : Type} (l : list A) (x : A) :
  In x (removelast l) -> In x l.
Proof.
  induction l as [|a l IH]; [intros []|].
  destruct l as [|b l]; [intros []|].
  intros [->|H]; [now left|right; now apply IH].
Qed.

Lemma last_In_or_default {A : Type} (l : list A) (dflt : A) :
  In (last l dflt) l \/ last l dflt = dflt.
Proof.
  induction l as [|a l IH]; [now right|].
  destruct l as [|b l]; [left; now left|].
  destruct IH as [H|H]; [left; now right|now right].
Qed.

End StringFacts.

(** ** Numbers *)

Section NumberFacts.

Import PyStr PyNum PyParse Py.

Lemma digits_val_from_nonneg (ds : str) (acc : Z) :
  (0 <= acc)%Z ->
  (0 <= fold_left (fun a c => (a * 10 + digit_val c)%Z) ds acc)%Z.
Proof.
  revert acc. induction ds as [|d ds IH]; intros acc Hacc; simpl; auto.
  apply IH. unfold digit_val. lia.
Qed.

Lemma digits_val_nonneg (ds : str) : (0 <= digits_val ds)%Z.
Proof. apply digits_val_from_nonneg. lia. Qed.

(** A literal without a minus sign is not negative. *)
Lemma decimal_literal_nonneg (t : str) (q : Q) :
  decimal_literal t = Some q -> ~ In "-"%char t -> (0 <= q)%Q.
Proof.
  unfold decimal_literal. intros H Hminus.
  assert (Hs : ~ In "-"%char (strip t))
    by (intro Hin; apply Hminus; now apply strip_incl).
  destruct (strip t) as [|c body] eqn:Est; cbn [split_sign] in H.
  - cbn in H. discriminate.
  - destruct (Ascii.eqb c "-") eqn:Ec.
    + apply Ascii.eqb_eq in Ec. subst c. exfalso. apply Hs. now left.
    + assert (Hval : forall v, match v with
                               | Some x => Some (if false then Qopp x else x)
                               | None => None
                               end = Some q -> v = Some q)
        by (intros [x|]; auto).
      match type of H with
      | (let (neg, body) := ?sg in _) = _ =>
          assert (Hneg : fst sg = false)
            by (destruct (Ascii.eqb c "+"); reflexivity);
          destruct sg as [neg b']; cbn [fst] in Hneg; subst neg
      end.
      apply Hval in H. clear Hval.
      destruct (split_on "." b') as [|ip [|fp [|? ?]]]; try discriminate.
      * destruct (all_digits ip && truthy ip); inversion H; subst.
        unfold Qle; cbn. pose proof (digits_val_nonneg ip). lia.
      * destruct (all_digits ip && all_digits fp && (truthy ip || truthy fp));
          inversion H; subst.
        unfold Qle; cbn. pose proof (digits_val_nonneg (ip ++ fp)). lia.
Qed.

(** A literal has a digit. *)
Lemma decimal_literal_needs_digit (t : str) :
  (forall c, In c t -> is_digit c = false) -> decimal_literal t = None.
Proof.
  intro Hnd. unfold decimal_literal.
  assert (Hs : forall c, In c (strip t) -> is_digit c = false)
    by (intros c Hc; apply Hnd; now apply strip_incl).
  assert (Hb : forall c, In c (snd (split_sign (strip t))) -> is_digit c = false).
  { destruct (strip t) as [|x b]; cbn [split_sign]; [intros c []|].
    destruct (Ascii.eqb x "-"); [|destruct (Ascii.eqb x "+")]; cbn [snd];
      intros c Hc; apply Hs; simpl; auto. }
  destruct (split_sign (strip t)) as [neg body]. cbn [snd] in Hb.
  assert (Hpart : forall part, In part (split_on "." body) ->
                               all_digits part && truthy part = false).
  { intros [|x part] Hp; [apply andb_false_r|].
    unfold all_digits. cbn [forallb].
    rewrite (Hb x); auto. eapply split_on_incl; eauto. now left. }
  destruct (split_on "." body) as [|ip [|fp [|? ?]]] eqn:Es; auto.
  - rewrite Hpart; simpl; auto.
  - assert (H1 := Hpart ip (or_introl eq_refl)).
    assert (H2 := Hpart fp (or_intror (or_introl eq_refl))).
    destruct (all_digits ip), (all_digits fp), (truthy ip), (truthy fp);
      simpl in *; congruence.
Qed.

Lemma Qlt_bool_iff (a b : Q) : Qlt_bool a b = true <-> (a < b)%Q.
Proof.
  unfold Qlt_bool. rewrite negb_true_iff.
  split; intro H.
  - apply Qnot_le_lt. intro Hle. apply Qle_bool_iff in Hle. congruence.
  - destruct (Qle_bool b a) eqn:E; auto.
    apply Qle_bool_iff in E. exfalso. now apply (Qlt_not_le a b).
Qed.

Lemma Qlt_bool_comp (a a' b b' : Q) :
  (a == a')%Q -> (b == b')%Q -> Qlt_bool a b = Qlt_bool a' b'.
Proof. intros Ha Hb. unfold Qlt_bool. now rewrite Ha, Hb. Qed.

Lemma round_half_even_nonneg (q : Q) : (0 <= q)%Q -> (0 <= round_half_even q)%Z.
Proof.
  intro H. unfold round_half_even.
  assert (Hfl : (0 <= Qfloor q)%Z).
  { change 0%Z with (Qfloor 0). now apply Qfloor_resp_le. }
  repeat match goal with |- context [if ?b then _ else _] => destruct b end; lia.
Qed.

Lemma round2_nonneg (q : Q) : (0 <= q)%Q -> (0 <= round2 q)%Q.
Proof.
  intro H. unfold round2, round2_cents.
  assert (0 <= round_half_even (q * 100))%Z.
  { apply round_half_even_nonneg.
    setoid_replace 0%Q with (0 * 100)%Q by reflexivity.
    apply Qmult_le_compat_r; auto. discriminate. }
  unfold Qle; cbn. lia.
Qed.

End NumberFacts.

(** ** Price text *)

Section CleanPrice.

Import PyStr PyNum PyParse Py.

Import Server.BaseScraper.

Lemma price_char_not_minus (t : str) :
  Forall (fun c => price_char c = true) t -> ~ In "-"%char t.
Proof.
  intros H Hin. rewrite Forall_forall in H. apply H in Hin. discriminate.
Qed.

Lemma cleaned_price_chars (t : str) :
  Forall (fun c => price_char c = true)
         (Re.sub Server.BaseScraper.not_price_char [] t).
Proof.
  unfold Re.sub, Server.BaseScraper.not_price_char.
  rewrite sub_class_filter. apply Forall_forall. intros c Hc.
  apply filter_In in Hc. destruct Hc as [_ Hc].
  rewrite negb_involutive in Hc. exact Hc.
Qed.

Lemma cleaned_incl (t : str) (c : ascii) :
  In c (Re.sub Server.BaseScraper.not_price_char [] t) -> In c t.
Proof.
  unfold Re.sub, Server.BaseScraper.not_price_char.
  rewrite sub_class_filter. intro H. now apply filter_In in H.
Qed.

Lemma after_comma_ok (t : str) :
  count_char "," t = 1 ->
  exists part, Server.BaseScraper.after_comma t = Ok part.
Proof.
  intro H. unfold Server.BaseScraper.after_comma.
  pose proof (split_on_length "," t) as Hl. rewrite H in Hl.
  destruct (split_on "," t) as [|a [|b l]]; try discriminate.
  now exists b.
Qed.

(** What [float] is applied to in the server's [clean_price]. *)
Lemma server_float_arg (cleaned : str) :
  Forall (fun c => price_char c = true) cleaned ->
  exists arg,
    (if has_char "," cleaned && has_char "." cleaned
     then Ok (replace_char "," [] cleaned)
     else if has_char "," cleaned && (count_char "," cleaned =? 1)
     then Py.bind (Server.BaseScraper.after_comma cleaned)
            (fun part =>
               if List.length part <=? 2
               then Ok (replace_char "," (list_ascii_of_string ".") cleaned)
               else Ok cleaned)
     else Ok cleaned) = Ok arg
    /\ Forall (fun c => price_char c = true) arg
    /\ ((forall c, In c cleaned -> is_digit c = false) ->
        forall c, In c arg -> is_digit c = false).
Proof.
  intro Hc.
  assert (Hdot : Forall (fun c => price_char c = true)
                        (list_ascii_of_string "."))
    by (repeat constructor).
  assert (Hrep : forall new,
             (forall c, In c new -> is_digit c = false) ->
             (forall c, In c cleaned -> is_digit c = false) ->
             forall c, In c (replace_char "," new cleaned) ->
                       is_digit c = false).
  { intros new Hn Hd c Hin. unfold replace_char in Hin.
    apply in_flat_map in Hin. destruct Hin as (x & Hx & Hin).
    destruct (Ascii.eqb x ","); [now apply Hn|].
    destruct Hin as [<-|[]]. now apply Hd. }
  destruct (has_char "," cleaned && has_char "." cleaned).
  - eexists; split; [reflexivity|]. split.
    + apply replace_char_Forall; auto.
    + apply Hrep. intros c [].
  - destruct (has_char "," cleaned); cbn [andb];
      [|eexists; split; [reflexivity|]; split; auto].
    destruct (count_char "," cleaned =? 1) eqn:E;
      [|eexists; split; [reflexivity|]; split; auto].
    apply Nat.eqb_eq in E. destruct (after_comma_ok _ E) as [part ->].
    cbn [Py.bind].
    destruct (List.length part <=? 2);
      eexists; (split; [reflexivity|]); split; auto.
    + apply replace_char_Forall; auto.
    + apply Hrep. intros c [<-|[]]. reflexivity.
Qed.

Lemma backend_decimal_arg_nodigit (t : str) :
  (forall c, In c t -> is_digit c = false) ->
  let parts := split_on "." t in
  forall c,
    In c (if 2 <? List.length parts
          then List.concat (removelast parts)
                 ++ list_ascii_of_string "." ++ last parts []
          else t) ->
    is_digit c = false.
Proof.
  intros Hd parts c. destruct (2 <? List.length parts); auto.
  rewrite !in_app_iff. intros [H|[H|H]].
  - apply in_concat in H. destruct H as (part & Hp & Hc).
    apply Hd. apply (split_on_incl "." t part c); auto.
    now apply removelast_incl.
  - destruct H as [<-|[]]. reflexivity.
  - destruct (last_In_or_default parts []) as [Hl|Hl].
    + apply Hd. now apply (split_on_incl "." t (last parts []) c).
    + rewrite Hl in H. destruct H.
Qed.

Lemma backend_decimal_arg_chars (t : str) :
  Forall (fun c => price_char c = true) t ->
  let parts := split_on "." t in
  Forall (fun c => price_char c = true)
    (if 2 <? List.length parts
     then List.concat (removelast parts)
            ++ list_ascii_of_string "." ++ last parts []
     else t).
Proof.
  intros Hc parts. destruct (2 <? List.length parts); auto.
  rewrite Forall_forall in Hc. apply Forall_forall. intros c.
  rewrite !in_app_iff. intros [H|[H|H]].
  - apply in_concat in H. destruct H as (part & Hp & Hin).
    apply Hc. apply (split_on_incl "." t part c); auto.
    now apply removelast_incl.
  - destruct H as [<-|[]]. reflexivity.
  - destruct (last_In_or_default parts []) as [Hl|Hl].
    + apply Hc. now apply (split_on_incl "." t (last parts []) c).
    + rewrite Hl in H. destruct H.
Qed.

End CleanPrice.

(** C10.  Whatever text they are given, both [clean_price] functions
    return (no exception escapes them) and what they return is not
    negative.  A 7-bit text without any digit, which cannot be parsed,
    gives 0 in both; a minus sign is dropped with the other symbols,
    and the server rounds what it read to two decimals where the
    backend keeps the decimal as written. *)
Theorem clean_price_total_nonneg (price_text : str) :
  (exists q, Server.BaseScraper.clean_price price_text = Py.Ok q
             /\ (0 <= q)%Q)
  /\ (exists q, Backend.BaseScraper.clean_price price_text = Py.Ok q
                /\ (0 <= q)%Q)
  /\ (PyStr.isascii price_text = true ->
      (forall c, In c price_text -> PyStr.is_digit c = false) ->
      Server.BaseScraper.clean_price price_text = Py.Ok 0%Q
      /\ Backend.BaseScraper.clean_price price_text = Py.Ok 0%Q)
  /\ Server.BaseScraper.clean_price "-12.3456 EGP" = Py.Ok 12.35%Q
  /\ Backend.BaseScraper.clean_price "-12.3456 EGP" = Py.Ok 12.3456%Q.
Proof.
  split; [|split; [|split]].
  - unfold Server.BaseScraper.clean_price.
    destruct (PyStr.truthy price_text); cbn [negb];
      [|exists 0%Q; split; [reflexivity|apply Qle_refl]].
    destruct (server_float_arg _ (cleaned_price_chars (PyStr.strip price_text)))
      as (arg & -> & Hchars & _).
    cbn [Py.bind]. unfold PyParse.float.
    destruct (PyParse.decimal_literal arg) as [x|] eqn:Ex; cbn.
    + exists (PyNum.round2 x). split; [reflexivity|].
      apply round2_nonneg.
      apply (decimal_literal_nonneg arg); auto.
      now apply price_char_not_minus.
    + exists 0%Q. split; [reflexivity|apply Qle_refl].
  - unfold Backend.BaseScraper.clean_price, PyParse.Decimal.
    match goal with
    | |- context [PyParse.decimal_literal ?a] =>
        destruct (PyParse.decimal_literal a) as [x|] eqn:Ex;
        [assert (Hchars : Forall (fun c => Server.BaseScraper.price_char c = true) a)|]
    end.
    + apply backend_decimal_arg_chars.
      apply replace_char_Forall; [repeat constructor|].
      apply cleaned_price_chars.
    + cbn. exists x. split; [reflexivity|].
      eapply decimal_literal_nonneg; eauto.
      now apply price_char_not_minus.
    + cbn. exists 0%Q. split; [reflexivity|apply Qle_refl].
  - intros _ Hnd. split.
    + unfold Server.BaseScraper.clean_price.
      destruct (PyStr.truthy price_text); cbn [negb]; [|reflexivity].
      destruct (server_float_arg _
                  (cleaned_price_chars (PyStr.strip price_text)))
        as (arg & -> & _ & Hkeep).
      cbn [Py.bind]. unfold PyParse.float.
      rewrite decimal_literal_needs_digit; [reflexivity|].
      apply Hkeep. intros c Hc. apply Hnd.
      apply strip_incl. now apply cleaned_incl.
    + unfold Backend.BaseScraper.clean_price, PyParse.Decimal.
      rewrite decimal_literal_needs_digit; [reflexivity|].
      apply backend_decimal_arg_nodigit.
      intros c Hc. unfold PyStr.replace_char in Hc.
      apply in_flat_map in Hc. destruct Hc as (x & Hx & Hc).
      destruct (Ascii.eqb x ",").
      * destruct Hc as [<-|[]]. reflexivity.
      * destruct Hc as [<-|[]]. apply Hnd. now apply cleaned_incl.
  - split; vm_compute; reflexivity.
Qed.

Lemma clean_price_total_nonneg_witness :
  Server.BaseScraper.clean_price "N/A" = Py.Ok 0%Q
  /\ Backend.BaseScraper.clean_price "N/A" = Py.Ok 0%Q.
Proof.
  apply (clean_price_total_nonneg "N/A"); [reflexivity|].
  intros c H. simpl in H.
  destruct H as [<-|[<-|[<-|[]]]]; reflexivity.
Defined.


(** ** Names: normalisation, similarity, duplicates *)

Section Names.

Import PyStr PyNum Py.
Import Server.DataProcessor.

(** C1, as stated, fails on its first pair: normalisation leaves
    [500g] in one piece (there is no word boundary inside it) and drops
    the lone [g] of the other name, so the two names share one word out
    of five; taken as already normalised they share one out of six. *)
Lemma cherry_tomatoes_500g_below_threshold :
  ~ (similarity_threshold <=
     _calculate_similarity (_normalize_product_name "cherry tomatoes 500g")
                           (_normalize_product_name "cherry tomato 500 g"))%Q
  /\ ~ (similarity_threshold <=
        _calculate_similarity "cherry tomatoes 500g" "cherry tomato 500 g")%Q.
Proof. split; vm_compute; intro H; apply H; reflexivity. Qed.

(** C1, amended.  The similarity of the normalised names is 1/5 for
    "cherry tomatoes 500g" / "cherry tomato 500 g" and 1/3 for
    "cherry tomatoes" / "beef tomatoes"; both are below the threshold
    0.8, so neither pair is a fuzzy match. *)
Theorem fuzzy_match_boundary :
  _normalize_product_name "cherry tomatoes 500g"
    = list_ascii_of_string "cherry tomatoes 500g"
  /\ _normalize_product_name "cherry tomato 500 g"
     = list_ascii_of_string "cherry tomato 500"
  /\ _calculate_similarity (_normalize_product_name "cherry tomatoes 500g")
                           (_normalize_product_name "cherry tomato 500 g")
     = (1 # 5)%Q
  /\ fuzzy_match "cherry tomatoes 500g" "cherry tomato 500 g" = false
  /\ _calculate_similarity (_normalize_product_name "cherry tomatoes")
                           (_normalize_product_name "beef tomatoes")
     = (1 # 3)%Q
  /\ fuzzy_match "cherry tomatoes" "beef tomatoes" = false
  /\ ((1 # 5) < similarity_threshold)%Q
  /\ ((1 # 3) < similarity_threshold)%Q.
Proof. repeat split; vm_compute; reflexivity. Qed.

(** *** Duplicates *)

Lemma remove_duplicates_fold (products : list ScrapedProduct) :
  _remove_duplicates products = fst (fold_left dedup_step products ([], [])).
Proof. reflexivity. Qed.

Lemma str_eqb_eq (a b : str) : str_eqb a b = true <-> a = b.
Proof.
  unfold str_eqb. destruct (str_eq_dec a b); split; intro; congruence.
Qed.

Lemma str_eqb_refl (a : str) : str_eqb a a = true.
Proof. now apply str_eqb_eq. Qed.

(** The keys seen are the keys of the records read so far. *)
Lemma dedup_seen (products : list ScrapedProduct)
    (acc : list ScrapedProduct * list str) (k : str) :
  existsb (str_eqb k) (snd (fold_left dedup_step products acc))
  = existsb (str_eqb k) (snd acc)
    || existsb (str_eqb k) (map product_key products).
Proof.
  revert acc. induction products as [|p products IH]; intros [u seen].
  - cbn. now rewrite orb_false_r.
  - cbn [fold_left map existsb]. rewrite IH. cbn [dedup_step].
    destruct (existsb (str_eqb (product_key p)) seen) eqn:E;
      cbn [snd existsb].
    + destruct (str_eqb k (product_key p)) eqn:Ek; cbn [orb]; auto.
      apply str_eqb_eq in Ek. subst k. rewrite E. reflexivity.
    + destruct (str_eqb k (product_key p)), (existsb (str_eqb k) seen);
        reflexivity.
Qed.

Lemma remove_duplicates_snoc (products : list ScrapedProduct)
    (p : ScrapedProduct) :
  _remove_duplicates (products ++ [p])
  = _remove_duplicates products
    ++ (if existsb (str_eqb (product_key p)) (map product_key products)
        then [] else [p]).
Proof.
  rewrite !remove_duplicates_fold, fold_left_app. cbn [fold_left].
  pose proof (dedup_seen products ([], []) (product_key p)) as Hs.
  cbn [snd existsb orb] in Hs.
  destruct (fold_left dedup_step products ([], [])) as [u seen].
  cbn [snd] in Hs. cbn [dedup_step fst]. rewrite Hs.
  destruct (existsb (str_eqb (product_key p)) (map product_key products));
    cbn [fst]; auto using app_nil_r.
Qed.

(** The printed price holds no underscore, so the key determines the
    normalised name and the printed price. *)
Lemma string_of_uint_digits (u : Decimal.uint) (c : ascii) :
  In c (list_ascii_of_string (NilEmpty.string_of_uint u)) ->
  is_digit c = true.
Proof.
  induction u; simpl; try (intros [<-|H]; [reflexivity|auto]).
  intros [].
Qed.

Lemma repr_round2_chars (q : Q) (c : ascii) :
  In c (repr_round2 q) -> c <> "_"%char.
Proof.
  unfold repr_round2, digits_of_N. intros H E. subst c.
  repeat match goal with
         | H : In _ (_ ++ _) |- _ => apply in_app_or in H; destruct H as [H|H]
         | H : In _ (if ?b then _ else _) |- _ => destruct b
         | H : In _ (list_ascii_of_string (NilEmpty.string_of_uint _)) |- _ =>
             apply string_of_uint_digits in H; discriminate
         | H : In _ (list_ascii_of_string _) |- _ =>
             simpl in H; decompose [or] H; try discriminate; try contradiction
         | H : In _ [] |- _ => destruct H
         end.
Qed.

Lemma key_split (n1 n2 r1 r2 : str) :
  ~ In "_"%char r1 -> ~ In "_"%char r2 ->
  n1 ++ "_"%char :: r1 = n2 ++ "_"%char :: r2 -> n1 = n2 /\ r1 = r2.
Proof.
  intros H1 H2 E.
  assert (Er : rev r1 ++ "_"%char :: rev n1 = rev r2 ++ "_"%char :: rev n2).
  { apply (f_equal (@rev ascii)) in E.
    rewrite !rev_app_distr in E. simpl in E.
    now rewrite <- !app_assoc in E. }
  assert (H1' : ~ In "_"%char (rev r1)) by (now rewrite <- in_rev).
  assert (H2' : ~ In "_"%char (rev r2)) by (now rewrite <- in_rev).
  clear E H1 H2.
  assert (rev r1 = rev r2 /\ rev n1 = rev n2) as [Ea Eb].
  { revert Er H1' H2'. generalize (rev r2) as b. generalize (rev r1) as a.
    induction a as [|x a IH]; intros [|y b] E Ha Hb; simpl in *.
    - inversion E. auto.
    - inversion E; subst. exfalso. apply Hb. now left.
    - inversion E; subst. exfalso. apply Ha. now left.
    - inversion E; subst. destruct (IH b) as [-> ->]; auto. }
  split.
  - rewrite <- (rev_involutive n1), <- (rev_involutive n2). now f_equal.
  - rewrite <- (rev_involutive r1), <- (rev_involutive r2). now f_equal.
Qed.

Lemma product_key_pair (p q : ScrapedProduct) :
  product_key p = product_key q
  <-> _normalize_product_name (name p) = _normalize_product_name (name q)
      /\ repr_round2 (price p) = repr_round2 (price q).
Proof.
  unfold product_key. split.
  - intro E. apply key_split; auto;
      intro H; now apply repr_round2_chars in H.
  - intros [-> ->]. reflexivity.
Qed.

Lemma digits_of_N_inj (a b : N) : digits_of_N a = digits_of_N b -> a = b.
Proof.
  unfold digits_of_N. intro H.
  apply (f_equal string_of_list_ascii) in H.
  rewrite !string_of_list_ascii_of_string in H.
  apply DecimalN.Unsigned.to_uint_inj.
  assert (E : Some (N.to_uint a) = Some (N.to_uint b)).
  { rewrite <- !NilEmpty.usu. now rewrite H. }
  now injection E.
Qed.

Lemma digits_of_N_digits (n : N) (c : ascii) :
  In c (digits_of_N n) -> is_digit c = true.
Proof. apply string_of_uint_digits. Qed.

(** Two texts cut at the first occurrence of a character. *)
Lemma cut_at_first (sep : ascii) (a b ra rb : str) :
  ~ In sep a -> ~ In sep b ->
  a ++ sep :: ra = b ++ sep :: rb -> a = b /\ ra = rb.
Proof.
  revert b. induction a as [|x a IH]; intros [|y b] Ha Hb E; cbn in E.
  - injection E as E. auto.
  - injection E as E1 E2. subst y. exfalso. apply Hb. now left.
  - injection E as E1 E2. subst x. exfalso. apply Ha. now left.
  - injection E as E1 E2. subst y.
    destruct (IH b) as [-> ->]; auto.
    + intro H. apply Ha. now right.
    + intro H. apply Hb. now right.
Qed.

Lemma printed_decimals_inj (a b : N) :
  (a < 100)%N -> (b < 100)%N ->
  printed_decimals a = printed_decimals b -> a = b.
Proof.
  intros Ha Hb E.
  assert (Hall : forallb (fun x => forallb (fun y =>
                    implb (str_eqb (printed_decimals x) (printed_decimals y))
                          (N.eqb x y))
                    (map N.of_nat (seq 0 100)))
                  (map N.of_nat (seq 0 100)) = true)
    by (vm_compute; reflexivity).
  assert (Hin : forall n, (n < 100)%N -> In n (map N.of_nat (seq 0 100))).
  { intros n Hn. apply in_map_iff. exists (N.to_nat n).
    split; [apply Nnat.N2Nat.id|]. apply in_seq. lia. }
  rewrite forallb_forall in Hall. specialize (Hall a (Hin a Ha)).
  rewrite forallb_forall in Hall. specialize (Hall b (Hin b Hb)).
  rewrite E in Hall. unfold str_eqb in Hall.
  destruct (str_eq_dec (printed_decimals b) (printed_decimals b));
    [|congruence].
  cbn in Hall. now apply N.eqb_eq.
Qed.

Lemma repr_round2_nonneg (q : Q) :
  (0 <= q)%Q ->
  repr_round2 q
  = digits_of_N (Z.to_N (round2_cents q / 100))
      ++ list_ascii_of_string "."
      ++ printed_decimals (Z.to_N (round2_cents q mod 100)).
Proof.
  intro H. unfold repr_round2, printed_decimals.
  assert (Hc : (0 <= round2_cents q)%Z).
  { unfold round2_cents. apply round_half_even_nonneg.
    apply Qmult_le_0_compat; [exact H|discriminate]. }
  rewrite (Z.abs_eq _ Hc).
  assert (Hs : Qlt_bool q 0 = false).
  { destruct (Qlt_bool q 0) eqn:E; [|reflexivity].
    apply Qlt_bool_iff in E. exfalso. exact (Qlt_not_le _ _ E H). }
  rewrite Hs. reflexivity.
Qed.

(** Prices that are not negative print alike exactly when they round
    to the same hundredth. *)
Lemma repr_round2_inj (p q : Q) :
  (0 <= p)%Q -> (0 <= q)%Q ->
  (repr_round2 p = repr_round2 q <-> round2 p = round2 q).
Proof.
  intros Hp Hq.
  assert (Hcp : (0 <= round2_cents p)%Z).
  { unfold round2_cents. apply round_half_even_nonneg.
    apply Qmult_le_0_compat; [exact Hp|discriminate]. }
  assert (Hcq : (0 <= round2_cents q)%Z).
  { unfold round2_cents. apply round_half_even_nonneg.
    apply Qmult_le_0_compat; [exact Hq|discriminate]. }
  rewrite (repr_round2_nonneg p Hp), (repr_round2_nonneg q Hq).
  unfold round2. split; intro E.
  - cbn [list_ascii_of_string app] in E.
    apply cut_at_first in E.
    2,3: intro Hc; apply digits_of_N_digits in Hc; discriminate Hc.
    destruct E as [Hi Hf].
    apply digits_of_N_inj in Hi.
    apply printed_decimals_inj in Hf.
    2,3: apply N2Z.inj_lt; rewrite Z2N.id by (apply Z.mod_pos_bound; lia);
         apply Z.mod_pos_bound; lia.
    apply Z2N.inj in Hi, Hf;
      try (apply Z.mod_pos_bound; lia);
      try (apply Z.div_pos; lia).
    f_equal.
    rewrite (Z.div_mod (round2_cents p) 100), (Z.div_mod (round2_cents q) 100)
      by lia.
    now rewrite Hi, Hf.
  - injection E as E. now rewrite E.
Qed.

Lemma product_key_of_prices (p q : ScrapedProduct) :
  (0 <= price p)%Q -> (0 <= price q)%Q ->
  (product_key p = product_key q
   <-> _normalize_product_name (name p) = _normalize_product_name (name q)
       /\ round2 (price p) = round2 (price q)).
Proof.
  intros Hp Hq. rewrite product_key_pair.
  now rewrite (repr_round2_inj _ _ Hp Hq).
Qed.

(** A number of hundredths, or a number close to one, rounds to it. *)
Lemma round2_clear (q : Q) (cents : Z) :
  (Qabs (q * 100 - inject_Z cents) <= 49 # 100)%Q ->
  round2 q = Qmake cents 100.
Proof.
  intro H. unfold round2. f_equal. unfold round2_cents, round_half_even.
  apply Qabs_Qle_condition in H. destruct H as [Hlo Hhi].
  set (x := (q * 100)%Q) in *.
  pose proof (Qfloor_le x) as Hf1. pose proof (Qlt_floor x) as Hf2.
  rewrite inject_Z_plus in Hf2. change (inject_Z 1) with 1%Q in Hf2.
  assert (Hfl : (cents - 1 <= Qfloor x <= cents)%Z).
  { split.
    - apply Zlt_succ_le. unfold Z.succ, Z.sub. rewrite Zlt_Qlt.
      rewrite !inject_Z_plus, inject_Z_opp.
      change (inject_Z 1) with 1%Q. lra.
    - apply Zlt_succ_le. unfold Z.succ. rewrite Zlt_Qlt.
      rewrite inject_Z_plus.
      change (inject_Z 1) with 1%Q. lra. }
  assert (Hcase : Qfloor x = (cents - 1)%Z \/ Qfloor x = cents) by lia.
  destruct Hcase as [E|E]; rewrite E.
  - assert (Hfrac : (1 # 2 < x - inject_Z (cents - 1))%Q).
    { unfold Z.sub. rewrite inject_Z_plus, inject_Z_opp.
      change (inject_Z 1) with 1%Q. lra. }
    assert (H1 : Qlt_bool (x - inject_Z (cents - 1)) (1 # 2) = false).
    { destruct (Qlt_bool _ (1 # 2)) eqn:Eb; [|reflexivity].
      apply Qlt_bool_iff in Eb. lra. }
    rewrite H1. rewrite (proj2 (Qlt_bool_iff _ _) Hfrac). lia.
  - assert (Hfrac : (x - inject_Z cents < 1 # 2)%Q) by lra.
    now rewrite (proj2 (Qlt_bool_iff _ _) Hfrac).
Qed.


End Names.


(** ** Validation *)

Section Validation.

Import PyStr PyNum Py.
Import Server.DataProcessor.

Lemma Qeq_bool_false (a b : Q) : ~ (a == b)%Q -> Qeq_bool a b = false.
Proof.
  intro H. destruct (Qeq_bool a b) eqn:E; auto.
  apply Qeq_bool_iff in E. contradiction.
Qed.

Lemma Qle_bool_false (a b : Q) : (b < a)%Q -> Qle_bool a b = false.
Proof.
  intro H. destruct (Qle_bool a b) eqn:E; auto.
  apply Qle_bool_iff in E. exfalso. now apply (Qlt_not_le b a).
Qed.

Lemma Qlt_bool_true (a b : Q) : (a < b)%Q -> Qlt_bool a b = true.
Proof. apply Qlt_bool_iff. Qed.

(** C2, as stated, fails in three places.  The data processor's own
    validation drops the record with price 30 and original price 25;
    the scraper's validation drops such a record when its name is
    blank; and it leaves an original price of 0 in place. *)
Lemma discount_self_correction_counterexamples :
  _validate_scraped_product
    (set_original_price (Some 25%Q) (scraped "Tomato" 30)) = false
  /\ fst (validate_product
            (set_original_price (Some 25%Q) (scraped "  " 30))) = false
  /\ original_price
       (snd (validate_product
               (set_original_price (Some 0%Q) (scraped "Tomato" 30))))
     = Some 0%Q.
Proof. repeat split; vm_compute; reflexivity. Qed.

(** C2, amended.  A record with a name that is not blank, a positive
    price and an original price that is not zero and is below the price
    passes [BaseScraper.validate_product], which clears its original
    price and its discount flag and changes nothing else; the record so
    corrected is kept by [run_scraping] and passes the data processor's
    validation, which would have dropped the record as scraped. *)
Theorem validate_product_clears_low_original_price
    (product : ScrapedProduct) (op : Q) :
  truthy (strip (name product)) = true ->
  (0 < price product)%Q ->
  original_price product = Some op ->
  ~ (op == 0)%Q ->
  (op < price product)%Q ->
  let corrected := set_is_discounted false (set_original_price None product) in
  validate_product product = (true, corrected)
  /\ original_price corrected = None
  /\ is_discounted corrected = false
  /\ run_scraping_validate [product] = ([corrected], 0)
  /\ _validate_scraped_product corrected = true
  /\ _validate_scraped_product product = false.
Proof.
  intros Hname Hprice Hop Hnz Hlt corrected.
  assert (Hn : truthy (name product) = true).
  { destruct (name product); [discriminate Hname|reflexivity]. }
  assert (Hlen : (List.length (strip (name product)) =? 0) = false).
  { destruct (strip (name product)); [discriminate Hname|reflexivity]. }
  assert (Hv : validate_product product = (true, corrected)).
  { unfold validate_product. rewrite Hn, Hname. cbn [negb orb].
    rewrite (Qle_bool_false _ _ Hprice), Hop.
    unfold is_zero. rewrite (Qeq_bool_false _ _ Hnz).
    now rewrite (Qlt_bool_true _ _ Hlt). }
  repeat split; auto.
  - cbn [run_scraping_validate]. now rewrite Hv.
  - unfold _validate_scraped_product. cbn [corrected name set_is_discounted
      set_original_price price original_price].
    rewrite Hn, Hlen. cbn [negb orb].
    now rewrite (Qle_bool_false _ _ Hprice).
  - unfold _validate_scraped_product.
    rewrite Hn, Hlen. cbn [negb orb].
    rewrite (Qle_bool_false _ _ Hprice), Hop.
    cbn [PyNum.truthy_opt]. unfold is_zero.
    rewrite (Qeq_bool_false _ _ Hnz).
    now rewrite (Qlt_bool_true _ _ Hlt).
Qed.

Lemma validate_product_clears_low_original_price_witness :
  let product :=
    __post_init__ (set_original_price (Some 25%Q) (scraped "Tomato" 30)) in
  let corrected := set_is_discounted false (set_original_price None product) in
  validate_product product = (true, corrected)
  /\ original_price corrected = None
  /\ is_discounted corrected = false
  /\ run_scraping_validate [product] = ([corrected], 0)
  /\ _validate_scraped_product corrected = true
  /\ _validate_scraped_product product = false.
Proof.
  intro product.
  apply (validate_product_clears_low_original_price product 25%Q).
  - reflexivity.
  - reflexivity.
  - reflexivity.
  - intro H. discriminate H.
  - reflexivity.
Defined.

End Validation.


(** ** The price gate and the history *)

Section Prices.

Import PyStr PyNum Py Server Server.Session.
Import Server.DataProcessor.

Variable now : Z.

Lemma eqb_false_neq (a b : bool) : negb (Bool.eqb a b) = true <-> a <> b.
Proof. destruct a, b; simpl; split; intro H; congruence. Qed.

(** The four tests of [_should_update_price], for a stored price that
    is not zero. *)
Lemma should_update_price_spec (current : Price.t) (sp : ScrapedProduct) :
  ~ (Price.price current == 0)%Q ->
  exists update,
    _should_update_price now current sp = Ok update
    /\ (update = true <->
        (hours_24 < now - Price.scraped_at current)%Z
        \/ (price_change_threshold
            <= Qabs (Price.price current - price sp) / Price.price current)%Q
        \/ Price.is_available current <> is_available sp
        \/ Price.is_discounted current <> is_discounted sp).
Proof.
  intro Hnz. unfold _should_update_price.
  destruct (now - Price.scraped_at current >? hours_24)%Z eqn:Eage.
  - exists true. split; auto. split; auto. intros _. left.
    apply Z.gtb_lt in Eage. exact Eage.
  - assert (Hage : ~ (hours_24 < now - Price.scraped_at current)%Z).
    { intro H. apply Z.gtb_lt in H. congruence. }
    unfold is_zero. rewrite (Qeq_bool_false _ _ Hnz).
    destruct (Qle_bool price_change_threshold _) eqn:Echg.
    + exists true. split; auto. split; auto. intros _. right. left.
      now apply Qle_bool_iff.
    + assert (Hchg : ~ (price_change_threshold
                        <= Qabs (Price.price current - price sp)
                           / Price.price current)%Q).
      { intro H. apply Qle_bool_iff in H. congruence. }
      destruct (negb (Bool.eqb (Price.is_available current)
                               (is_available sp))) eqn:Eav.
      * exists true. split; auto. split; auto. intros _. right. right. left.
        now apply eqb_false_neq.
      * assert (Hav : ~ Price.is_available current <> is_available sp).
        { intro H. apply eqb_false_neq in H. congruence. }
        destruct (negb (Bool.eqb (Price.is_discounted current)
                                 (is_discounted sp))) eqn:Edi.
        -- exists true. split; auto. split; auto. intros _.
           right. right. right. now apply eqb_false_neq.
        -- exists false. split; auto. split; [discriminate|].
           intros [H|[H|[H|H]]]; try contradiction.
           apply eqb_false_neq in H. congruence.
Qed.

(** [_update_existing_product], run. *)
Lemma update_existing_product_run (row : nat) (product : Product.t)
    (sp : ScrapedProduct) (db : Db) :
  let pid := Product.id product in
  let sid := Product.store_id product in
  let merged := update_at row (fun _ => merge_fields product sp) (products db) in
  _update_existing_product now row product sp db =
  match current_price_of pid sid db with
  | None =>
      (Ok true,
       {| products := update_at row (touch now) merged;
          prices := prices db ++ [price_row now pid sid sp];
          price_history := price_history db;
          stores := stores db |})
  | Some current =>
      match _should_update_price now current sp with
      | Ok true =>
          (Ok true,
           {| products := update_at row (touch now) merged;
              prices := prices db ++ [price_row now pid sid sp];
              price_history := price_history db ++ [history_row current sp];
              stores := stores db |})
      | Ok false =>
          (Ok false,
           {| products := update_at row (touch now) merged;
              prices := prices db;
              price_history := price_history db;
              stores := stores db |})
      | Raise e =>
          (Raise e,
           {| products := merged;
              prices := prices db;
              price_history := price_history db;
              stores := stores db |})
      end
  end.
Proof.
  intros pid sid merged. subst pid sid merged.
  unfold _update_existing_product, write_product, bind, modify, get, lift,
    current_price_of.
  cbn [fst snd products prices price_history stores].
  destruct (latest _) as [current|]; [|reflexivity].
  destruct (_should_update_price now current sp) as [[|]|e]; reflexivity.
Qed.

(** The change type, by cases. *)
Lemma change_type_cases (old_price : Price.t) (sp : ScrapedProduct) :
  let pct := change_percentage_of (Price.price old_price) (price sp) in
  (is_available sp = false ->
   change_type_of old_price sp = PriceHistory.unavailable)
  /\ (is_available sp = true -> Price.is_available old_price = false ->
      change_type_of old_price sp = PriceHistory.new)
  /\ (is_available sp = true -> Price.is_available old_price = true ->
      (1 <= Qabs pct)%Q -> (Price.price old_price < price sp)%Q ->
      change_type_of old_price sp = PriceHistory.increase)
  /\ (is_available sp = true -> Price.is_available old_price = true ->
      (1 <= Qabs pct)%Q -> (price sp < Price.price old_price)%Q ->
      change_type_of old_price sp = PriceHistory.decrease)
  /\ (is_available sp = true -> Price.is_available old_price = true ->
      (Qabs pct < 1)%Q ->
      change_type_of old_price sp = PriceHistory.stable).
Proof.
  intro pct. unfold change_type_of. fold pct.
  repeat split.
  - intros ->. reflexivity.
  - intros -> ->. reflexivity.
  - intros -> -> Hpct Hlt. cbn [negb andb].
    apply Qle_bool_iff in Hpct. rewrite Hpct.
    rewrite Qlt_bool_true; auto.
    unfold Qminus. now rewrite <- Qlt_minus_iff.
  - intros -> -> Hpct Hlt. cbn [negb andb].
    apply Qle_bool_iff in Hpct. rewrite Hpct.
    unfold Qlt_bool.
    assert (H : Qle_bool (price sp - Price.price old_price) 0 = true).
    { apply Qle_bool_iff. apply Qlt_le_weak.
      apply Qlt_minus_iff. unfold Qminus.
      setoid_replace (0 + - (price sp + - Price.price old_price))%Q
        with (Price.price old_price + - price sp)%Q by ring.
      now rewrite <- Qlt_minus_iff. }
    now rewrite H.
  - intros -> -> Hpct. cbn [negb andb].
    now rewrite Qle_bool_false.
Qed.

(** A change of at least 1% is a change. *)
Lemma change_percentage_nonzero (old_price new_price : Q) :
  (1 <= Qabs (change_percentage_of old_price new_price))%Q ->
  ~ (new_price == old_price)%Q.
Proof.
  unfold change_percentage_of. intros H E.
  destruct (Qlt_bool 0 old_price).
  - assert (Hz : ((new_price - old_price) / old_price * 100 == 0)%Q).
    { rewrite E. unfold Qminus. rewrite Qplus_opp_r.
      unfold Qdiv. now rewrite !Qmult_0_l. }
    rewrite Hz in H. apply (Qle_not_lt _ _ H). reflexivity.
  - apply (Qle_not_lt _ _ H). reflexivity.
Qed.

End Prices.

Section PriceClaims.

Import PyStr PyNum Py Server Server.Session.
Import Server.DataProcessor.
Import Floats.PrimFloat.
#[local] Set Warnings "-inexact-float".





End PriceClaims.


(** ** Merging a record into a product *)

Section Merge.

Import PyStr PyNum Py Server Server.Session.
Import Server.DataProcessor.

Lemma update_at_same {A : Type} (i : nat) (f : A -> A) (l : list A) :
  nth_error (update_at i f l) i = option_map f (nth_error l i).
Proof.
  revert i. induction l as [|x l IH]; intros [|i]; simpl; auto.
Qed.

Lemma update_at_other {A : Type} (i j : nat) (f : A -> A) (l : list A) :
  i <> j -> nth_error (update_at i f l) j = nth_error l j.
Proof.
  revert i j. induction l as [|x l IH]; intros [|i] [|j] H; simpl; auto.
  congruence.
Qed.

Lemma update_at_length {A : Type} (i : nat) (f : A -> A) (l : list A) :
  List.length (update_at i f l) = List.length l.
Proof.
  revert i. induction l as [|x l IH]; intros [|i]; simpl; auto.
Qed.

(** The products table once [_update_existing_product] has run: only the row
    of the product changes; it holds the merged product, touched unless
    the price step raised. *)
Lemma update_existing_product_products (now : Z) (row : nat)
    (product : Product.t) (sp : ScrapedProduct) (db : Db) :
  let table := products (snd (_update_existing_product now row product sp db)) in
  (forall j, j <> row -> nth_error table j = nth_error (products db) j)
  /\ List.length table = List.length (products db)
  /\ (forall old, nth_error (products db) row = Some old ->
        nth_error table row = Some (merge_fields product sp)
        \/ nth_error table row = Some (touch now (merge_fields product sp))).
Proof.
  intro table. subst table. rewrite update_existing_product_run.
  destruct (current_price_of _ _ db) as [cur|];
    [destruct (_should_update_price now cur sp) as [[|]|e]|];
    cbn [snd products]; (split; [|split]);
    try (intros j Hj; rewrite ?update_at_other by auto; reflexivity);
    try (now rewrite ?update_at_length);
    intros old Hold; rewrite ?update_at_same, Hold; cbn; auto.
Qed.

(** C9.  After a scraped record is merged into the product it matched,
    each of description, image_url, brand, weight, unit and external_id
    that was populated (not [None], not empty, not zero) holds its
    prior value, and each that was empty holds the scraped value if
    there is one and its prior value otherwise; the identifying fields
    and every other product are untouched. *)
Theorem merge_keeps_populated_fields
    (now : Z) (row : nat) (product : Product.t) (sp : ScrapedProduct)
    (db : Db) :
  nth_error (products db) row = Some product ->
  let table := products (snd (_update_existing_product now row product sp db)) in
  (forall j, j <> row -> nth_error table j = nth_error (products db) j)
  /\ exists merged,
      nth_error table row = Some merged
      /\ Product.description merged
         = (if PyStr.truthy_opt (Product.description product)
            then Product.description product
            else if PyStr.truthy_opt (description sp) then description sp
                 else Product.description product)
      /\ Product.image_url merged
         = (if PyStr.truthy_opt (Product.image_url product)
            then Product.image_url product
            else if PyStr.truthy_opt (image_url sp) then image_url sp
                 else Product.image_url product)
      /\ Product.brand merged
         = (if PyStr.truthy_opt (Product.brand product)
            then Product.brand product
            else if PyStr.truthy_opt (brand sp) then brand sp
                 else Product.brand product)
      /\ Product.weight merged
         = (if PyNum.truthy_opt (Product.weight product)
            then Product.weight product
            else if PyNum.truthy_opt (weight_value sp) then weight_value sp
                 else Product.weight product)
      /\ Product.unit merged
         = (if PyStr.truthy_opt (Product.unit product)
            then Product.unit product
            else if PyStr.truthy_opt (pack_unit sp) then pack_unit sp
                 else Product.unit product)
      /\ Product.external_id merged
         = (if PyStr.truthy_opt (Product.external_id product)
            then Product.external_id product
            else if PyStr.truthy_opt (external_id sp) then external_id sp
                 else Product.external_id product)
      /\ Product.id merged = Product.id product
      /\ Product.name merged = Product.name product
      /\ Product.category merged = Product.category product
      /\ Product.subcategory merged = Product.subcategory product
      /\ Product.keywords merged = Product.keywords product
      /\ Product.is_organic merged = Product.is_organic product
      /\ Product.is_active merged = Product.is_active product
      /\ Product.store_id merged = Product.store_id product.
Proof.
  intros Hrow table.
  destruct (update_existing_product_products now row product sp db)
    as (Hother & _ & Hsame).
  split; [exact Hother|].
  assert (Hfill_s : forall s e,
             fill_str s e
             = (if PyStr.truthy_opt e then e
                else if PyStr.truthy_opt s then s else e)).
  { intros s e. unfold fill_str.
    destruct (PyStr.truthy_opt s), (PyStr.truthy_opt e); reflexivity. }
  assert (Hfill_n : forall s e,
             fill_num s e
             = (if PyNum.truthy_opt e then e
                else if PyNum.truthy_opt s then s else e)).
  { intros s e. unfold fill_num.
    destruct (PyNum.truthy_opt s), (PyNum.truthy_opt e); reflexivity. }
  destruct (Hsame product Hrow) as [H|H];
    [exists (merge_fields product sp)
    |exists (touch now (merge_fields product sp))];
    (split; [exact H|]);
    cbn [touch merge_fields Product.description Product.image_url
         Product.brand Product.weight Product.unit Product.external_id
         Product.id Product.name Product.category Product.subcategory
         Product.keywords Product.is_organic Product.is_active
         Product.store_id];
    rewrite <- !Hfill_s, <- Hfill_n; repeat split; reflexivity.
Qed.

Lemma merge_keeps_populated_fields_witness :
  exists merged,
    nth_error
      (products
         (snd (_update_existing_product Example.one_hour 0 Example.tomato
                 (set_original_price None
                    (scraped "Tomato" 20))
                 (Example.catalog true)))) 0 = Some merged
    /\ Product.description merged
       = Some (list_ascii_of_string "Vine tomatoes").
Proof.
  destruct (merge_keeps_populated_fields Example.one_hour 0 Example.tomato
              (set_original_price None (scraped "Tomato" 20))
              (Example.catalog true) eq_refl)
    as (_ & merged & H & Hd & _).
  exists merged. split; [exact H|exact Hd].
Defined.

End Merge.


(** ** The run as a transaction *)

Section Transaction.

Import PyStr PyNum Py Server Server.Session.
Import Server.DataProcessor.

Variable faults : Faults.
Variable now : Z.
Variable store_id : Z.

(** The session never touches the [stores] table while it processes a
    record. *)
Lemma process_single_product_stores (sp : ScrapedProduct) (db : Db) :
  stores (snd (_process_single_product faults now store_id sp db)) = stores db.
Proof.
  unfold _process_single_product.
  destruct (negb (_validate_scraped_product sp)); [reflexivity|].
  unfold bind at 1. unfold _find_matching_product.
  destruct (record_fault faults sp); [reflexivity|].
  unfold bind at 1. unfold get at 1.
  assert (Hm : exists o,
             match find_row store_id sp (products db) with
             | Some i =>
                 match nth_error (products db) i with
                 | Some p => ret (Some (i, p))
                 | None => ret None
                 end
             | None => ret None
             end db = (Ok o, db)).
  { destruct (find_row store_id sp (products db)) as [i|];
      [destruct (nth_error (products db) i)|]; eexists; reflexivity. }
  destruct Hm as (o & ->).
  destruct o as [[row product]|].
  - unfold bind at 1. rewrite update_existing_product_run.
    destruct (current_price_of _ _ db) as [cur|];
      [destruct (_should_update_price now cur sp) as [[|]|e]|]; reflexivity.
  - reflexivity.
Qed.

(** One round of the loop returns; it leaves the committed database and
    the [stores] table alone and adds at most an error about its
    record. *)
Lemma process_one_ok (sp : ScrapedProduct) (run : Run) :
  exists run',
    process_one faults now store_id sp run = (Ok tt, run')
    /\ committed run' = committed run
    /\ stores (pending run') = stores (pending run)
    /\ (errors (stats run') = errors (stats run)
        \/ exists e, errors (stats run')
                     = errors (stats run) ++ [ProductError (name sp) e]).
Proof.
  unfold process_one, try_except, bind, in_session, update_stats, modify.
  pose proof (process_single_product_stores sp (pending run)) as Hst.
  destruct (_process_single_product faults now store_id sp (pending run))
    as [[r|e] db'] eqn:E; cbn [snd] in Hst.
  - eexists. split; [reflexivity|]. cbn. repeat split; auto.
    left. unfold count_result. destruct (result_action r); reflexivity.
  - eexists. split; [reflexivity|]. cbn. repeat split; auto.
    right. now exists e.
Qed.

Lemma loop_ok (unique_products : list ScrapedProduct) (run : Run) :
  Forall (fun m => is_product_error m = true) (errors (stats run)) ->
  exists run',
    for_each unique_products (process_one faults now store_id) run
    = (Ok tt, run')
    /\ committed run' = committed run
    /\ stores (pending run') = stores (pending run)
    /\ Forall (fun m => is_product_error m = true) (errors (stats run')).
Proof.
  revert run. induction unique_products as [|sp rest IH]; intros run Herr.
  - exists run. repeat split; auto.
  - cbn [for_each]. unfold bind at 1.
    destruct (process_one_ok sp run) as (run1 & -> & Hc & Hs & He).
    destruct (IH run1) as (run2 & -> & Hc2 & Hs2 & He2).
    { destruct He as [->|(e & ->)]; auto.
      apply Forall_app. split; auto. }
    exists run2. repeat split; try congruence; auto.
Qed.

End Transaction.


Section TransactionClaims.

Import PyStr PyNum Py Server Server.Session.
Import Server.DataProcessor.

(** A record whose lookup fails is reported and kept reported. *)
Lemma process_one_fault (faults : Faults) (now store_id : Z)
    (sp : ScrapedProduct) (run : Run) :
  _validate_scraped_product sp = true ->
  record_fault faults sp = true ->
  exists run',
    process_one faults now store_id sp run = (Ok tt, run')
    /\ errors (stats run')
       = errors (stats run) ++ [ProductError (name sp) SQLAlchemyError].
Proof.
  intros Hv Hf.
  unfold process_one, try_except, bind, in_session, update_stats, modify.
  unfold _process_single_product, _find_matching_product.
  rewrite Hv, Hf. cbn. eexists. split; reflexivity.
Qed.

Lemma loop_keeps_errors (faults : Faults) (now store_id : Z)
    (unique_products : list ScrapedProduct) (run run' : Run) (m : error_msg) :
  for_each unique_products (process_one faults now store_id) run
  = (Ok tt, run') ->
  In m (errors (stats run)) -> In m (errors (stats run')).
Proof.
  revert run. induction unique_products as [|sp rest IH]; intros run E Hm.
  - cbn in E. unfold ret in E. injection E as <-. exact Hm.
  - cbn [for_each] in E. unfold bind at 1 in E.
    destruct (process_one_ok faults now store_id sp run)
      as (run1 & E1 & _ & _ & He).
    rewrite E1 in E. apply (IH run1 E).
    destruct He as [->|(e & ->)]; [exact Hm|].
    apply in_or_app. now left.
Qed.

Lemma loop_reports_fault (faults : Faults) (now store_id : Z)
    (unique_products : list ScrapedProduct) (run run' : Run)
    (sp : ScrapedProduct) :
  for_each unique_products (process_one faults now store_id) run
  = (Ok tt, run') ->
  In sp unique_products ->
  _validate_scraped_product sp = true ->
  record_fault faults sp = true ->
  In (ProductError (name sp) SQLAlchemyError) (errors (stats run')).
Proof.
  revert run. induction unique_products as [|x rest IH]; intros run E Hin Hv Hf.
  - destruct Hin.
  - cbn [for_each] in E. unfold bind at 1 in E.
    destruct Hin as [->|Hin].
    + destruct (process_one_fault faults now store_id sp run Hv Hf)
        as (run1 & E1 & He).
      rewrite E1 in E.
      apply (loop_keeps_errors faults now store_id rest run1 run' _ E).
      rewrite He. apply in_or_app. right. now left.
    + destruct (process_one_ok faults now store_id x run)
        as (run1 & E1 & _).
      rewrite E1 in E. now apply (IH run1).
Qed.

(** [process_scraped_products], run: [run1] is the run as the loop
    leaves it. *)
Lemma process_scraped_products_run (faults : Faults) (now store_id : Z)
    (scraped_products : list ScrapedProduct) (db : Db) :
  exists run1,
    committed run1 = db
    /\ stores (pending run1) = stores db
    /\ Forall (fun m => is_product_error m = true) (errors (stats run1))
    /\ (forall sp,
           In sp (_remove_duplicates scraped_products) ->
           _validate_scraped_product sp = true ->
           record_fault faults sp = true ->
           In (ProductError (name sp) SQLAlchemyError)
              (errors (stats run1)))
    /\ process_scraped_products faults now store_id scraped_products db
       = if store_stats_fault faults
         then (Ok (add_error (RunError SQLAlchemyError) false (stats run1)),
               db)
         else if commit_fault faults
         then (Ok (add_error (RunError SQLAlchemyError) false (stats run1)),
               db)
         else
           (Ok (stats run1),
            match first_index (fun s => Z.eqb (Store.id s) store_id)
                    (stores (pending run1)) with
            | Some row =>
                {| products := products (pending run1);
                   prices := prices (pending run1);
                   price_history := price_history (pending run1);
                   stores :=
                     update_at row
                       (scraped_once now
                          (match errors (stats run1) with
                           | [] => false
                           | _ => true
                           end))
                       (stores (pending run1)) |}
            | None => pending run1
            end).
Proof.
  unfold process_scraped_products, try_except, reconcile.
  unfold bind at 1. unfold update_stats at 1. unfold modify at 1.
  cbn [committed pending stats].
  unfold bind at 1.
  match goal with
  | |- context [for_each ?u ?f ?r] =>
      destruct (loop_ok faults now store_id u r) as (run1 & E & Hc & Hs & He);
      [constructor|];
      pose proof (fun sp => loop_reports_fault faults now store_id u r run1 sp E)
        as Hrep;
      rewrite E; clear E
  end.
  cbn [committed pending stats] in Hc, Hs.
  exists run1. split; [exact Hc|]. split; [exact Hs|]. split; [exact He|].
  split; [exact Hrep|].
  unfold bind at 1. unfold get at 1. unfold bind at 1.
  unfold in_session, _update_store_stats.
  destruct (store_stats_fault faults).
  - cbn. now rewrite Hc.
  - unfold bind at 1. unfold get at 1.
    destruct (first_index _ (stores (pending run1))) as [row|];
      unfold modify, ret, commit;
      destruct (commit_fault faults); cbn; rewrite ?Hc; reflexivity.
Qed.




(** A record whose processing raises on its own (here the division by
    a stored price of 0) does not stop the others: the run commits, the
    other record is created, and the store row counts a failed
    scrape. *)
Example zero_price_does_not_abort :
  let out :=
    process_scraped_products no_faults Example.one_hour 1
      [scraped "Tomato" 3; scraped "Basil" 5] Example.free_tomato_catalog in
  (exists st,
      fst out = Ok st
      /\ errors st = [ProductError (list_ascii_of_string "Tomato")
                                   ZeroDivisionError]
      /\ products_created st = 1
      /\ invalid_products st = 1)
  /\ map Product.name (products (snd out))
     = [list_ascii_of_string "Tomato"; list_ascii_of_string "Basil"]
  /\ map Store.failed_scrapes (stores (snd out)) = [1%Z]
  /\ map Store.total_scrapes (stores (snd out)) = [1%Z].
Proof.
  vm_compute. split; [|repeat split].
  eexists. repeat split.
Qed.

(** A flush that fails breaks the session: the record that failed and
    the one after it are reported, the store update fails, and the run
    is rolled back, the record processed before the failure
    included. *)
Example broken_session_rolls_back :
  let records := [scraped "Tomato" 21.5; scraped "Broken" 3; scraped "Basil" 5] in
  let out :=
    process_scraped_products Example.broken_session Example.one_hour 1
      records (Example.catalog true) in
  unusable_after_failure Example.broken_session (_remove_duplicates records)
  /\ snd out = Example.catalog true
  /\ exists st,
       fst out = Ok st
       /\ errors st = [ProductError (list_ascii_of_string "Broken")
                                    SQLAlchemyError;
                       ProductError (list_ascii_of_string "Basil")
                                    SQLAlchemyError;
                       RunError SQLAlchemyError]
       /\ prices_updated st = 1.
Proof.
  cbv zeta. split; [|split].
  - intros before sp after Hs Hv Hf. split; [|reflexivity].
    change (_remove_duplicates
              [scraped "Tomato" 21.5; scraped "Broken" 3; scraped "Basil" 5])
      with [scraped "Tomato" 21.5; scraped "Broken" 3; scraped "Basil" 5] in Hs.
    destruct before as [|b0 [|b1 [|b2 before]]]; cbn in Hs.
    + injection Hs as <- <-. vm_compute in Hf. discriminate Hf.
    + injection Hs as _ <- <-. intros sp' [<-|[]] _. vm_compute. reflexivity.
    + injection Hs as _ _ <- <-. intros sp' [].
    + destruct before; discriminate Hs.
  - vm_compute. reflexivity.
  - vm_compute. eexists. repeat split.
Qed.

End TransactionClaims.


(** ** Processing a record again *)

Section Lookup.

Import PyStr PyNum Py Server Server.Session.
Import Server.DataProcessor.

Context {A : Type}.
Variable cond : A -> bool.

Lemma first_index_some (l : list A) (i : nat) :
  first_index cond l = Some i <->
  (exists x, nth_error l i = Some x /\ cond x = true)
  /\ (forall j y, j < i -> nth_error l j = Some y -> cond y = false).
Proof.
  revert i. induction l as [|a l IH]; intro i; cbn [first_index].
  - split; [discriminate|]. intros [(x & H & _) _]. destruct i; discriminate.
  - destruct (cond a) eqn:Ea.
    + split.
      * intro H. injection H as <-. split; [exists a; auto|].
        intros j y Hj. lia.
      * intros [(x & Hx & Hc) Hbefore]. destruct i as [|i]; auto.
        specialize (Hbefore 0 a (Nat.lt_0_succ i) eq_refl). congruence.
    + destruct (first_index cond l) as [k|].
      * split.
        -- intro H. injection H as <-.
           destruct (proj1 (IH k) eq_refl) as [Hx Hb].
           split; [exact Hx|].
           intros [|j] y Hj Hy; [cbn in Hy; congruence|].
           apply (Hb j); auto. lia.
        -- intros [(x & Hx & Hc) Hb]. destruct i as [|i];
             [cbn in Hx; congruence|].
           assert (H : Some k = Some i); [|congruence].
           apply IH. split; [exists x; auto|].
           intros j y Hj Hy. apply (Hb (S j)); auto. lia.
      * split; [discriminate|].
        intros [(x & Hx & Hc) Hb]. destruct i as [|i];
          [cbn in Hx; congruence|].
        assert (H : @None nat = Some i); [|discriminate].
        apply IH. split; [exists x; auto|].
        intros j y Hj Hy. apply (Hb (S j)); auto. lia.
Qed.

Lemma first_index_none (l : list A) :
  first_index cond l = None <->
  (forall j y, nth_error l j = Some y -> cond y = false).
Proof.
  induction l as [|a l IH]; cbn [first_index].
  - split; auto. intros _ [|j] y H; discriminate.
  - destruct (cond a) eqn:Ea.
    + split; [discriminate|]. intro H.
      specialize (H 0 a eq_refl). congruence.
    + destruct (first_index cond l) as [k|].
      * split; [discriminate|]. intro H.
        assert (Hn : Some k = None); [|discriminate].
        apply IH. intros j y Hy. apply (H (S j)). exact Hy.
      * split; auto. intros _ [|j] y Hy.
        -- cbn in Hy. congruence.
        -- apply (proj1 IH eq_refl j). exact Hy.
Qed.

Lemma first_index_app_last (l : list A) (x : A) :
  first_index cond (l ++ [x])
  = match first_index cond l with
    | Some i => Some i
    | None => if cond x then Some (List.length l) else None
    end.
Proof.
  induction l as [|a l IH]; cbn [first_index app List.length].
  - destruct (cond x); reflexivity.
  - destruct (cond a); auto. rewrite IH.
    destruct (first_index cond l); auto. destruct (cond x); auto.
Qed.

(** Two tables that differ in one row. *)
Section OneRow.

Variables (l l' : list A) (row : nat) (p p' : A).
Hypothesis Hother : forall j, j <> row -> nth_error l' j = nth_error l j.
Hypothesis Hrow : nth_error l row = Some p.
Hypothesis Hrow' : nth_error l' row = Some p'.

Lemma first_index_same_cond :
  cond p' = cond p -> first_index cond l' = first_index cond l.
Proof.
  intro Hc. destruct (first_index cond l) as [i|] eqn:E.
  - apply first_index_some in E. destruct E as [(x & Hx & Hcx) Hb].
    apply first_index_some. split.
    + destruct (Nat.eq_dec i row) as [->|Hne].
      * exists p'. split; auto. rewrite Hc. congruence.
      * exists x. rewrite Hother; auto.
    + intros j y Hj Hy. destruct (Nat.eq_dec j row) as [->|Hne].
      * assert (y = p') by congruence. subst y. rewrite Hc.
        now apply (Hb row p).
      * rewrite Hother in Hy; auto. now apply (Hb j).
  - apply first_index_none. intros j y Hy.
    pose proof (proj1 (first_index_none l) E) as Hn.
    destruct (Nat.eq_dec j row) as [->|Hne].
    + assert (y = p') by congruence. subst y. rewrite Hc.
      now apply (Hn row).
    + rewrite Hother in Hy; auto. now apply (Hn j).
Qed.

Lemma first_index_new_match :
  first_index cond l = None -> cond p' = true ->
  first_index cond l' = Some row.
Proof.
  intros E Hc. pose proof (proj1 (first_index_none l) E) as Hn.
  apply first_index_some. split; [exists p'; auto|].
  intros j y Hj Hy. rewrite Hother in Hy by lia. now apply (Hn j).
Qed.

End OneRow.

End Lookup.

Section Matching.

Import PyStr PyNum Py Server Server.Session.
Import Server.DataProcessor.

Variable store_id : Z.
Variable sp : ScrapedProduct.

Lemma opt_str_eqb_eq (a b : option str) :
  opt_str_eqb a b = true -> a = b.
Proof.
  destruct a, b; cbn; try discriminate.
  intro H. apply str_eqb_eq in H. now subst.
Qed.

Lemma opt_str_eqb_refl (a : option str) :
  PyStr.truthy_opt a = true -> opt_str_eqb a a = true.
Proof. destruct a; cbn; [intros _; apply str_eqb_refl|discriminate]. Qed.

(** The product a record matched is matched again once the record has
    been merged into it. *)
Lemma find_row_stable (l l' : list Product.t) (row : nat)
    (p p' : Product.t) :
  (forall j, j <> row -> nth_error l' j = nth_error l j) ->
  nth_error l row = Some p ->
  nth_error l' row = Some p' ->
  Product.name p' = Product.name p ->
  Product.store_id p' = Product.store_id p ->
  Product.external_id p'
    = fill_str (external_id sp) (Product.external_id p) ->
  find_row store_id sp l = Some row ->
  find_row store_id sp l' = Some row.
Proof.
  intros Hother Hrow Hrow' Hname Hstore Hext Hfind.
  assert (Hn : matches_name store_id sp p' = matches_name store_id sp p)
    by (unfold matches_name, same_store; now rewrite Hname, Hstore).
  assert (Hf : matches_fuzzy store_id sp p' = matches_fuzzy store_id sp p)
    by (unfold matches_fuzzy, same_store; now rewrite Hname, Hstore).
  assert (He : matches_external_id store_id sp p = true ->
               matches_external_id store_id sp p' = true).
  { unfold matches_external_id, same_store. rewrite Hstore, Hext.
    intro H. apply andb_true_iff in H. destruct H as [Hs Hx].
    rewrite Hs. cbn [andb]. pose proof (opt_str_eqb_eq _ _ Hx) as Heq.
    rewrite Heq in Hx |- *. unfold fill_str.
    now destruct (PyStr.truthy_opt (external_id sp) && _). }
  assert (Hrest :
            match first_index (matches_name store_id sp) l' with
            | Some i => Some i
            | None => first_index (matches_fuzzy store_id sp) l'
            end
            = match first_index (matches_name store_id sp) l with
              | Some i => Some i
              | None => first_index (matches_fuzzy store_id sp) l
              end).
  { rewrite (first_index_same_cond _ l l' row p p' Hother Hrow Hrow' Hn).
    now rewrite (first_index_same_cond _ l l' row p p' Hother Hrow Hrow' Hf). }
  unfold find_row in *.
  destruct (PyStr.truthy_opt (external_id sp)); [|now rewrite Hrest].
  destruct (first_index (matches_external_id store_id sp) l) as [i|] eqn:Ei.
  - injection Hfind as ->.
    pose proof (proj1 (first_index_some _ _ _) Ei) as [(x & Hx & Hcx) _].
    assert (x = p) by congruence. subst x.
    rewrite (first_index_same_cond _ l l' row p p' Hother Hrow Hrow').
    + now rewrite Ei.
    + rewrite Hcx. now apply He.
  - destruct (matches_external_id store_id sp p') eqn:Ep'.
    + now rewrite (first_index_new_match _ l l' row p' Hother Hrow' Ei Ep').
    + pose proof (proj1 (first_index_none _ _) Ei row p Hrow) as Ep.
      rewrite (first_index_same_cond _ l l' row p p' Hother Hrow Hrow');
        [|congruence].
      rewrite Ei, Hrest. exact Hfind.
Qed.

(** A product created for a record is matched by it. *)
Lemma find_row_created (l : list Product.t) (created : Product.t) :
  find_row store_id sp l = None ->
  Product.name created = name sp ->
  Product.store_id created = store_id ->
  Product.external_id created = external_id sp ->
  find_row store_id sp (l ++ [created]) = Some (List.length l).
Proof.
  intros Hfind Hname Hstore Hext. unfold find_row in *.
  rewrite !first_index_app_last.
  assert (Hn : matches_name store_id sp created = true).
  { unfold matches_name, same_store. rewrite Hname, Hstore, Z.eqb_refl.
    apply str_eqb_refl. }
  destruct (PyStr.truthy_opt (external_id sp)) eqn:Et.
  - destruct (first_index (matches_external_id store_id sp) l);
      [discriminate|].
    assert (He : matches_external_id store_id sp created = true).
    { unfold matches_external_id, same_store.
      rewrite Hext, Hstore, Z.eqb_refl. now apply opt_str_eqb_refl. }
    now rewrite He.
  - destruct (first_index (matches_name store_id sp) l); [discriminate|].
    now rewrite Hn.
Qed.

Lemma find_row_in_range (l : list Product.t) (row : nat) :
  find_row store_id sp l = Some row ->
  exists p, nth_error l row = Some p
            /\ Product.store_id p = store_id.
Proof.
  unfold find_row. intro H.
  assert (Hs : forall c,
             (forall q, c q = true -> same_store store_id q = true) ->
             first_index c l = Some row ->
             exists p, nth_error l row = Some p
                       /\ Product.store_id p = store_id).
  { intros c Hc Hi. apply first_index_some in Hi.
    destruct Hi as [(x & Hx & Hcx) _]. exists x. split; auto.
    apply Hc in Hcx. now apply Z.eqb_eq in Hcx. }
  assert (Hand : forall a b, a && b = true -> a = true)
    by (intros [|] b; auto).
  destruct (PyStr.truthy_opt (external_id sp));
    [destruct (first_index (matches_external_id store_id sp) l) eqn:E1|].
  - injection H as ->. eapply Hs; [|exact E1].
    intros q Hq. now apply Hand in Hq.
  - destruct (first_index (matches_name store_id sp) l) eqn:E2.
    + injection H as ->. eapply Hs; [|exact E2].
      intros q Hq. now apply Hand in Hq.
    + eapply Hs; [|exact H]. intros q Hq. now apply Hand in Hq.
  - destruct (first_index (matches_name store_id sp) l) eqn:E2.
    + injection H as ->. eapply Hs; [|exact E2].
      intros q Hq. now apply Hand in Hq.
    + eapply Hs; [|exact H]. intros q Hq. now apply Hand in Hq.
Qed.

End Matching.

Section SecondPass.

Import PyStr PyNum Py Server Server.Session.
Import Server.DataProcessor.

Lemma latest_newest (rows : list Price.t) (r : Price.t) :
  (forall r', In r' rows -> (Price.scraped_at r' < Price.scraped_at r)%Z) ->
  latest (rows ++ [r]) = Some r.
Proof.
  induction rows as [|a rows IH]; intro H; cbn [app latest]; auto.
  rewrite IH by (intros r' Hr'; apply H; now right).
  assert (Ha : (Price.scraped_at a < Price.scraped_at r)%Z)
    by (apply H; now left).
  apply Z.gtb_lt in Ha. now rewrite Ha.
Qed.

(** The price a pass has just written is the current one. *)
Lemma current_price_after_write (now pid sid : Z) (sp : ScrapedProduct)
    (db db1 : Db) :
  (forall r, In r (prices db) -> (Price.scraped_at r < now)%Z) ->
  prices db1 = prices db ++ [price_row now pid sid sp] ->
  current_price_of pid sid db1 = Some (price_row now pid sid sp).
Proof.
  intros Hpast Hp. unfold current_price_of. rewrite Hp, filter_app.
  cbn [filter price_row Price.product_id Price.store_id].
  rewrite !Z.eqb_refl. cbn [andb].
  apply latest_newest. intros r' Hr'. apply filter_In in Hr'.
  cbn [Price.scraped_at]. apply Hpast. tauto.
Qed.

Lemma valid_price_positive (sp : ScrapedProduct) :
  _validate_scraped_product sp = true -> (0 < price sp)%Q.
Proof.
  unfold _validate_scraped_product.
  destruct (negb (truthy (name sp)) || _); [discriminate|].
  destruct (Qle_bool (price sp) 0) eqn:E; [discriminate|].
  intros _. apply Qnot_le_lt. intro H. apply Qle_bool_iff in H. congruence.
Qed.

(** Against the price it has itself written, a record asks for no
    update within 24 hours. *)
Lemma no_update_against_own_price (now1 now2 pid sid : Z)
    (sp : ScrapedProduct) :
  (0 < price sp)%Q ->
  (now2 - now1 <= hours_24)%Z ->
  _should_update_price now2 (price_row now1 pid sid sp) sp = Ok false.
Proof.
  intros Hpos Hage. unfold _should_update_price.
  cbn [price_row Price.scraped_at Price.price Price.is_available
       Price.is_discounted].
  assert (Ea : (now2 - now1 >? hours_24)%Z = false).
  { destruct (now2 - now1 >? hours_24)%Z eqn:E; auto.
    apply Z.gtb_lt in E. lia. }
  rewrite Ea. unfold is_zero. rewrite Qeq_bool_false.
  2:{ intro H. rewrite H in Hpos. discriminate Hpos. }
  rewrite Qle_bool_false.
  2:{ assert (Hz : (Qabs (price sp - price sp) / price sp == 0)%Q).
      { unfold Qminus. rewrite Qplus_opp_r. reflexivity. }
      rewrite Hz. reflexivity. }
  now rewrite !Bool.eqb_reflx.
Qed.

(** What held an update back holds it back again within 24 hours. *)
Lemma no_update_again (now1 now2 : Z) (current : Price.t)
    (sp : ScrapedProduct) :
  _should_update_price now1 current sp = Ok false ->
  (now2 - Price.scraped_at current <= hours_24)%Z ->
  _should_update_price now2 current sp = Ok false.
Proof.
  unfold _should_update_price. intros H Hage.
  assert (Ea : (now2 - Price.scraped_at current >? hours_24)%Z = false).
  { destruct (now2 - Price.scraped_at current >? hours_24)%Z eqn:E; auto.
    apply Z.gtb_lt in E. lia. }
  rewrite Ea.
  destruct (now1 - Price.scraped_at current >? hours_24)%Z;
    [discriminate|exact H].
Qed.

(** [_process_single_product], run, in its three cases. *)
Lemma process_invalid (faults : Faults) (now store_id : Z)
    (sp : ScrapedProduct) (db : Db) :
  _validate_scraped_product sp = false ->
  _process_single_product faults now store_id sp db
  = (Ok {| result_action := invalid; result_product_id := None;
           result_price_updated := false |}, db).
Proof.
  intro Hv. unfold _process_single_product. now rewrite Hv.
Qed.

Lemma process_matched (faults : Faults) (now store_id : Z)
    (sp : ScrapedProduct) (db : Db) (row : nat) (product : Product.t) :
  _validate_scraped_product sp = true ->
  record_fault faults sp = false ->
  find_row store_id sp (products db) = Some row ->
  nth_error (products db) row = Some product ->
  _process_single_product faults now store_id sp db
  = match _update_existing_product now row product sp db with
    | (Ok price_updated, db') =>
        (Ok {| result_action := updated;
               result_product_id := Some (Product.id product);
               result_price_updated := price_updated |}, db')
    | (Raise e, db') => (Raise e, db')
    end.
Proof.
  intros Hv Hf Hfind Hrow.
  unfold _process_single_product, _find_matching_product.
  rewrite Hv, Hf. cbn [negb]. unfold bind at 1. unfold bind at 1.
  unfold get at 1. rewrite Hfind, Hrow. unfold ret at 1.
  unfold bind at 1.
  destruct (_update_existing_product now row product sp db) as [[b|e] db'];
    reflexivity.
Qed.

Lemma process_created (faults : Faults) (now store_id : Z)
    (sp : ScrapedProduct) (db : Db) :
  _validate_scraped_product sp = true ->
  record_fault faults sp = false ->
  find_row store_id sp (products db) = None ->
  _process_single_product faults now store_id sp db
  = (Ok {| result_action := created;
           result_product_id := Some (next_product_id db);
           result_price_updated := false |},
     {| products :=
          products db ++ [new_product (next_product_id db) store_id sp];
        prices := prices db
                  ++ [price_row now (next_product_id db) store_id sp];
        price_history := price_history db;
        stores := stores db |}).
Proof.
  intros Hv Hf Hfind.
  unfold _process_single_product, _find_matching_product.
  rewrite Hv, Hf. cbn [negb]. unfold bind at 1. unfold bind at 1.
  unfold get at 1. rewrite Hfind. reflexivity.
Qed.

Lemma process_fault (faults : Faults) (now store_id : Z)
    (sp : ScrapedProduct) (db : Db) :
  _validate_scraped_product sp = true ->
  record_fault faults sp = true ->
  _process_single_product faults now store_id sp db
  = (Raise SQLAlchemyError, db).
Proof.
  intros Hv Hf. unfold _process_single_product, _find_matching_product.
  now rewrite Hv, Hf.
Qed.

(** A pass over a record that matches a product whose current price
    asks for no update writes nothing but the product's [updated_at]. *)
Lemma quiet_pass (faults : Faults) (now store_id : Z) (sp : ScrapedProduct)
    (db : Db) (row : nat) (product : Product.t) (current : Price.t) :
  _validate_scraped_product sp = true ->
  find_row store_id sp (products db) = Some row ->
  nth_error (products db) row = Some product ->
  current_price_of (Product.id product) (Product.store_id product) db
    = Some current ->
  _should_update_price now current sp = Ok false ->
  List.length
    (products (snd (_process_single_product faults now store_id sp db)))
  = List.length (products db)
  /\ price_history (snd (_process_single_product faults now store_id sp db))
     = price_history db
  /\ prices (snd (_process_single_product faults now store_id sp db))
     = prices db
  /\ (record_fault faults sp = false ->
      fst (_process_single_product faults now store_id sp db)
      = Ok {| result_action := updated;
              result_product_id := Some (Product.id product);
              result_price_updated := false |}).
Proof.
  intros Hv Hfind Hrow Hcur Hgate.
  destruct (record_fault faults sp) eqn:Ef.
  - rewrite process_fault by auto. cbn. repeat split; auto. discriminate.
  - rewrite (process_matched _ _ _ _ _ row product) by auto.
    rewrite update_existing_product_run, Hcur, Hgate.
    cbn [fst snd products prices price_history].
    rewrite !update_at_length. repeat split; auto.
Qed.

End SecondPass.

Section Idempotence.

Import PyStr PyNum Py Server Server.Session.
Import Server.DataProcessor.

Ltac invert_run res1 db1 H :=
  let E1 := fresh "E" in
  let E2 := fresh "E" in
  injection H as E1 E2; try (injection E1 as E1); subst res1 db1.




End Idempotence.


(** ** The classifier *)

Section SequenceMatcher.

Import Difflib.

Lemma scan_a_in_range (a b : str) (i : nat) (best : nat * nat * nat) :
  snd best = 0 \/ fst (fst best) < i + List.length a ->
  snd (scan_a a b i best) = 0
  \/ fst (fst (scan_a a b i best)) < i + List.length a.
Proof.
  revert i best. induction a as [|x a IH]; intros i best H; cbn [scan_a].
  - exact H.
  - destruct (scan_b (x :: a) b 0 (0, 0)) as [j k].
    cbn [List.length]. rewrite Nat.add_succ_r, <- Nat.add_succ_l.
    apply IH. destruct (snd best <? k).
    + right. cbn. lia.
    + cbn [List.length] in H. lia.
Qed.

Lemma find_longest_match_in_range (a b : str) :
  snd (find_longest_match a b) = 0
  \/ fst (fst (find_longest_match a b)) < List.length a.
Proof. apply (scan_a_in_range a b 0 (0, 0, 0)). now left. Qed.

(** The rounds given to [matching_size] are enough. *)
Lemma matching_size_total (fuel : nat) (a b : str) :
  List.length a < fuel -> exists m, matching_size fuel a b = Some m.
Proof.
  revert a b. induction fuel as [|fuel IH]; intros a b H; [lia|].
  cbn [matching_size].
  pose proof (find_longest_match_in_range a b) as Hr.
  destruct (find_longest_match a b) as [[i j] k]. cbn [fst snd] in Hr.
  destruct (k =? 0) eqn:Ek; [now exists 0|].
  apply Nat.eqb_neq in Ek.
  destruct Hr as [Hr|Hr]; [contradiction|].
  destruct (IH (firstn i a) (firstn j b)) as [l ->].
  { rewrite length_firstn. lia. }
  destruct (IH (skipn (i + k) a) (skipn (j + k) b)) as [r ->].
  { rewrite length_skipn. lia. }
  now eexists.
Qed.

Lemma matches_spec (a b : str) :
  matching_size (S (List.length a)) a b = Some (matches a b).
Proof.
  unfold matches.
  destruct (matching_size_total (S (List.length a)) a b) as [m ->]; auto.
Qed.

Lemma ratio_lowest_terms (a b : str) : Qred (ratio a b) = ratio a b.
Proof.
  unfold ratio. destruct (List.length a + List.length b); [reflexivity|].
  apply Qred_complete, Qred_correct.
Qed.

End SequenceMatcher.

Section SetOrder.

Import PyStr PyNum Py Server.CategoryClassifier.

Lemma existsb_same_elements {A : Type} (f : A -> bool) (l1 l2 : list A) :
  (forall x, In x l1 <-> In x l2) -> existsb f l1 = existsb f l2.
Proof.
  intro H. destruct (existsb f l1) eqn:E1; symmetry.
  - apply existsb_exists in E1. destruct E1 as (x & Hx & Hf).
    apply existsb_exists. exists x. split; auto. now apply H.
  - destruct (existsb f l2) eqn:E2; auto.
    apply existsb_exists in E2. destruct E2 as (x & Hx & Hf).
    assert (existsb f l1 = true); [|congruence].
    apply existsb_exists. exists x. split; auto. now apply H.
Qed.

Lemma qmax_spec (x : Q) (xs : list Q) :
  In (qmax x xs) (x :: xs)
  /\ forall y, In y (x :: xs) -> (y <= qmax x xs)%Q.
Proof.
  unfold qmax. revert x. induction xs as [|z xs IH]; intro x; cbn [fold_left].
  - split; [now left|]. intros y [<-|[]]. apply Qle_refl.
  - destruct (IH (if Qlt_bool x z then z else x)) as [Hin Hle].
    split.
    + destruct Hin as [Hin|Hin]; [|right; now right].
      rewrite <- Hin. destruct (Qlt_bool x z); [right|]; now left.
    + intros y Hy.
      assert (Hstep : (x <= (if Qlt_bool x z then z else x))%Q
                      /\ (z <= (if Qlt_bool x z then z else x))%Q).
      { destruct (Qlt_bool x z) eqn:E.
        - apply Qlt_bool_iff in E. split; [now apply Qlt_le_weak|apply Qle_refl].
        - split; [apply Qle_refl|].
          apply Qnot_lt_le. intro Hlt. apply Qlt_bool_iff in Hlt. congruence. }
      destruct Hy as [<-|[<-|Hy]].
      * eapply Qle_trans; [apply Hstep|]. apply Hle. now left.
      * eapply Qle_trans; [apply Hstep|]. apply Hle. now left.
      * apply Hle. now right.
Qed.

(** The largest of a collection of fractions in lowest terms does not
    depend on the order in which they come. *)
Lemma qmax_same_elements (x y : Q) (xs ys : list Q) :
  (forall q, In q (x :: xs) <-> In q (y :: ys)) ->
  (forall q, In q (x :: xs) -> Qred q = q) ->
  qmax x xs = qmax y ys.
Proof.
  intros Hsame Hred.
  destruct (qmax_spec x xs) as [Hin1 Hle1].
  destruct (qmax_spec y ys) as [Hin2 Hle2].
  assert (E : (qmax x xs == qmax y ys)%Q).
  { apply Qle_antisym.
    - apply Hle2. now apply Hsame.
    - apply Hle1. now apply Hsame. }
  rewrite <- (Hred _ Hin1), <- (Hred (qmax y ys)) by (now apply Hsame).
  now apply Qred_complete.
Qed.

Variable arabic_keywords : ProductCategory -> list (str * Q).

Lemma keyword_gain_same_elements (text : str) (ws1 ws2 : list str)
    (keyword : str) (weight : Q) :
  (forall x, In x ws1 <-> In x ws2) ->
  keyword_gain text ws1 keyword weight = keyword_gain text ws2 keyword weight.
Proof.
  intro H. unfold keyword_gain.
  rewrite (existsb_same_elements _ ws1 ws2 H).
  rewrite (existsb_same_elements
             (fun word => contains keyword word || contains word keyword)
             ws1 ws2 H).
  assert (Hl : forall q,
             In q (map (Difflib.ratio keyword)
                       (filter (fun word => 2 <? List.length word) ws1))
             <-> In q (map (Difflib.ratio keyword)
                           (filter (fun word => 2 <? List.length word) ws2))).
  { intro q. rewrite !in_map_iff. split; intros (w & Hw & Hin);
      exists w; (split; [exact Hw|]); apply filter_In in Hin;
      apply filter_In; (split; [apply H|]); tauto. }
  assert (Hred : forall q,
             In q (map (Difflib.ratio keyword)
                       (filter (fun word => 2 <? List.length word) ws1)) ->
             Qred q = q).
  { intros q Hq. apply in_map_iff in Hq. destruct Hq as (w & <- & _).
    apply ratio_lowest_terms. }
  destruct (map (Difflib.ratio keyword)
                (filter (fun word => 2 <? List.length word) ws1))
    as [|r rs];
    destruct (map (Difflib.ratio keyword)
                  (filter (fun word => 2 <? List.length word) ws2))
    as [|r' rs'].
  - reflexivity.
  - exfalso. apply (proj2 (Hl r')). now left.
  - exfalso. apply (proj1 (Hl r)). now left.
  - now rewrite (qmax_same_elements r r' rs rs' Hl Hred).
Qed.

Lemma score_keywords_same_elements (text : str) (ws1 ws2 : list str)
    (category : ProductCategory) (keywords : list (str * Q)) (sc : scores) :
  (forall x, In x ws1 <-> In x ws2) ->
  score_keywords text ws1 category keywords sc
  = score_keywords text ws2 category keywords sc.
Proof.
  intro H. revert sc.
  induction keywords as [|[k w] rest IH]; intro sc; cbn [score_keywords]; auto.
  rewrite (keyword_gain_same_elements text ws1 ws2 k w H).
  destruct (keyword_gain text ws2 k w) as [g|e]; cbn [Py.bind]; auto.
Qed.

Lemma score_categories_same_elements (text : str) (ws1 ws2 : list str)
    (table : list (ProductCategory * list (str * Q))) (sc : scores) :
  (forall x, In x ws1 <-> In x ws2) ->
  score_categories text ws1 table sc = score_categories text ws2 table sc.
Proof.
  intro H. revert sc.
  induction table as [|[c kws] rest IH]; intro sc; cbn [score_categories]; auto.
  rewrite (score_keywords_same_elements text ws1 ws2 c kws sc H).
  destruct (score_keywords text ws2 c kws sc) as [sc'|e]; cbn [Py.bind]; auto.
Qed.

(** The order in which the set of words is walked does not matter. *)
Lemma classify_by_keywords_any_order (s1 s2 : list str -> list str)
    (text : str) :
  enumerates s1 -> enumerates s2 ->
  _classify_by_keywords arabic_keywords s1 text
  = _classify_by_keywords arabic_keywords s2 text.
Proof.
  intros H1 H2. unfold _classify_by_keywords.
  rewrite (score_categories_same_elements _
             (s1 (Re.findall word_pattern (lower text)))
             (s2 (Re.findall word_pattern (lower text)))); auto.
  intro x. now rewrite (H1 _ x), (H2 _ x).
Qed.

End SetOrder.

Section ArabicKeywords.

Import PyStr PyNum Py Server.CategoryClassifier.

Lemma startswith_head (a : ascii) (p t : str) :
  startswith (a :: p) t = true -> exists t', t = a :: t'.
Proof.
  destruct t as [|b t]; cbn; [discriminate|].
  destruct (Ascii.eqb a b) eqn:E; [|discriminate].
  apply Ascii.eqb_eq in E. subst. now eexists.
Qed.

Lemma contains_head (a : ascii) (p t : str) :
  contains (a :: p) t = true -> In a t.
Proof.
  induction t as [|b t IH]; cbn [contains].
  - cbn. discriminate.
  - intro H. apply orb_true_iff in H. destruct H as [H|H].
    + apply startswith_head in H. destruct H as (t' & E).
      injection E as -> _. now left.
    + right. now apply IH.
Qed.

Variable text : str.
Variable words : list str.
Hypothesis text_7bit : forallb (fun ch => code ch <? 128) text = true.
Hypothesis words_latin : forall word, In word words -> latin_word word = true.

(** An Arabic keyword adds nothing to the score of a 7-bit text. *)
Lemma keyword_gain_non_latin (keyword : str) (weight : Q) :
  non_latin keyword = true ->
  keyword_gain text words keyword weight = Ok None.
Proof.
  intro Hk. unfold non_latin in Hk.
  destruct keyword as [|a rest]; [discriminate|].
  apply andb_true_iff in Hk. destruct Hk as [Ha Hall].
  apply Nat.leb_le in Ha.
  assert (Hnot7 : forall t, forallb (fun ch => code ch <? 128) t = true ->
                            contains (a :: rest) t = false).
  { intros t Ht. destruct (contains (a :: rest) t) eqn:E; auto.
    apply contains_head in E. rewrite forallb_forall in Ht.
    apply Ht in E. apply Nat.ltb_lt in E. lia. }
  assert (Hword : forall word, In word words ->
                    str_eqb word (a :: rest) = false
                    /\ contains (a :: rest) word = false
                    /\ contains word (a :: rest) = false).
  { intros word Hw. apply words_latin in Hw. unfold latin_word in Hw.
    destruct word as [|c word]; [discriminate|].
    apply andb_true_iff in Hw. destruct Hw as [Hc H7].
    repeat split.
    - destruct (str_eqb (c :: word) (a :: rest)) eqn:E; auto.
      apply str_eqb_eq in E. injection E as -> _.
      cbn [forallb] in H7. apply andb_true_iff in H7. destruct H7 as [H7 _].
      apply Nat.ltb_lt in H7. lia.
    - now apply Hnot7.
    - destruct (contains (c :: word) (a :: rest)) eqn:E; auto.
      apply contains_head in E. rewrite forallb_forall in Hall.
      apply Hall in E. apply orb_true_iff in E. destruct E as [E|E].
      + apply Nat.leb_le in E. cbn [forallb] in H7.
        apply andb_true_iff in H7. destruct H7 as [H7 _].
        apply Nat.ltb_lt in H7. lia.
      + rewrite E in Hc. discriminate. }
  unfold keyword_gain. rewrite (Hnot7 text text_7bit).
  assert (E1 : existsb (fun word => str_eqb word (a :: rest)) words = false).
  { match goal with |- ?e = false => destruct e eqn:E; auto end.
    apply existsb_exists in E. destruct E as (w & Hw & E).
    destruct (Hword w Hw) as (H1 & _). cbv beta in E. congruence. }
  assert (E2 : existsb (fun word => contains (a :: rest) word
                                    || contains word (a :: rest)) words
               = false).
  { match goal with |- ?e = false => destruct e eqn:E; auto end.
    apply existsb_exists in E. destruct E as (w & Hw & E).
    destruct (Hword w Hw) as (_ & H2 & H3). cbv beta in E.
    rewrite H2, H3 in E. discriminate. }
  now rewrite E1, E2.
Qed.

Lemma score_keywords_app (category : ProductCategory)
    (l1 l2 : list (str * Q)) (sc : scores) :
  score_keywords text words category (l1 ++ l2) sc
  = Py.bind (score_keywords text words category l1 sc)
            (fun sc' => score_keywords text words category l2 sc').
Proof.
  revert sc. induction l1 as [|[k w] l1 IH]; intro sc;
    cbn [app score_keywords]; auto.
  destruct (keyword_gain text words k w) as [g|e]; cbn [Py.bind]; auto.
Qed.

Lemma score_keywords_non_latin (category : ProductCategory)
    (l : list (str * Q)) (sc : scores) :
  (forall k w, In (k, w) l -> non_latin k = true) ->
  score_keywords text words category l sc = Ok sc.
Proof.
  induction l as [|[k w] l IH]; intro H; cbn [score_keywords]; auto.
  rewrite keyword_gain_non_latin by (apply (H k w); now left).
  cbn [Py.bind]. apply IH. intros k' w' Hin. apply (H k' w'). now right.
Qed.

Variable arabic_keywords : ProductCategory -> list (str * Q).
Hypothesis arabic_ok : arabic_only arabic_keywords.

Lemma score_keywords_without_arabic (category : ProductCategory)
    (keywords context_words : list (string * Q)) (sc : scores) :
  score_keywords text words category
    (with_arabic arabic_keywords category keywords context_words) sc
  = score_keywords text words category
      (with_arabic no_arabic category keywords context_words) sc.
Proof.
  unfold with_arabic. rewrite !score_keywords_app.
  destruct (score_keywords text words category (latin keywords) sc)
    as [sc'|e]; cbn [Py.bind]; auto.
  rewrite !score_keywords_app.
  rewrite (score_keywords_non_latin category (arabic_keywords category))
    by (intros k w Hin; now apply (arabic_ok category k w)).
  reflexivity.
Qed.

Lemma score_categories_ext
    (t1 t2 : list (ProductCategory * list (str * Q))) :
  Forall2 (fun e1 e2 =>
             fst e1 = fst e2
             /\ forall sc, score_keywords text words (fst e1) (snd e1) sc
                           = score_keywords text words (fst e2) (snd e2) sc)
          t1 t2 ->
  forall sc, score_categories text words t1 sc
             = score_categories text words t2 sc.
Proof.
  induction 1 as [|[c1 k1] [c2 k2] t1 t2 [Hc Hk] _ IH]; intro sc;
    cbn [score_categories]; auto.
  cbn [fst snd] in Hc, Hk. subst c2. rewrite Hk.
  destruct (score_keywords text words c1 k2 sc); cbn [Py.bind]; auto.
Qed.

Lemma score_categories_without_arabic (sc : scores) :
  score_categories text words (category_keywords arabic_keywords) sc
  = score_categories text words (category_keywords no_arabic) sc.
Proof.
  apply score_categories_ext. unfold category_keywords.
  repeat (constructor;
          [split; [reflexivity
                  |intro; apply score_keywords_without_arabic]|]).
  constructor.
Qed.

End ArabicKeywords.

Section ClassifierClaims.

Import PyStr PyNum Py Server.CategoryClassifier.

Lemma classify_product_ext
    (arabic1 arabic2 : ProductCategory -> list (str * Q))
    (s1 s2 : list str -> list str)
    (name : str) (description brand store_category : option str) :
  _classify_by_keywords arabic1 s1
    (combined name description brand store_category)
  = _classify_by_keywords arabic2 s2
      (combined name description brand store_category) ->
  classify_product arabic1 s1 name description brand store_category
  = classify_product arabic2 s2 name description brand store_category.
Proof.
  intro H. unfold classify_product. now rewrite H.
Qed.

Lemma no_arabic_only : arabic_only no_arabic.
Proof. intros c k w H. destruct H. Qed.

Lemma in_order_enumerates : enumerates in_order.
Proof. intros l x. unfold in_order. apply nodup_In. Qed.

(** C8, as stated, fails: called with the name alone, the classifier
    answers dairy with confidence 0.7 (0.4 for the keywords and 0.3 for
    the unit patterns); the brand table is consulted only for a [brand]
    argument. *)
Lemma almarai_milk_confidence_below_threshold :
  exists confidence,
    classify_product no_arabic in_order "Almarai Full Fat Milk 1L"
      None None None = Ok (DAIRY, confidence)
    /\ ~ (0.8 < confidence)%Q.
Proof.
  eexists. split; [vm_compute; reflexivity|].
  intro H. vm_compute in H. discriminate H.
Qed.

(** C8, amended.  Whatever the Arabic keywords are and in whatever
    order the set of words is walked, [classify_product] called with the
    name "Almarai Full Fat Milk 1L" alone returns the category [dairy]
    with confidence 0.7; called with the brand "Almarai" as well it
    returns [dairy] with confidence 0.9; and for every input the result
    is the same whatever the order of the set, so repeated calls with
    identical inputs return identical results. *)
Theorem classify_almarai_milk
    (arabic_keywords : ProductCategory -> list (str * Q))
    (set_iter : list str -> list str) :
  arabic_only arabic_keywords ->
  enumerates set_iter ->
  (exists confidence,
      classify_product arabic_keywords set_iter "Almarai Full Fat Milk 1L"
        None None None = Ok (DAIRY, confidence)
      /\ (confidence == 0.7)%Q)
  /\ value DAIRY = "dairy"%string
  /\ classify_product arabic_keywords set_iter "Almarai Full Fat Milk 1L"
       None (Some (list_ascii_of_string "Almarai")) None
     = Ok (DAIRY, 0.9%Q)
  /\ (forall set_iter', enumerates set_iter' ->
      forall name description brand store_category,
        classify_product arabic_keywords set_iter' name description brand
          store_category
        = classify_product arabic_keywords set_iter name description brand
            store_category).
Proof.
  intros Harabic Hset. split; [|split; [reflexivity|split]].
  - rewrite (classify_product_ext arabic_keywords no_arabic set_iter in_order).
    + eexists. split; [vm_compute; reflexivity|reflexivity].
    + assert (Ht : combined "Almarai Full Fat Milk 1L" None None None
                   = list_ascii_of_string "almarai full fat milk 1l")
        by (vm_compute; reflexivity).
      rewrite Ht.
      rewrite (classify_by_keywords_any_order arabic_keywords set_iter
                 in_order) by (auto using in_order_enumerates).
      unfold _classify_by_keywords.
      rewrite (score_categories_without_arabic _ _) with
        (arabic_keywords := arabic_keywords);
        [reflexivity|reflexivity| |exact Harabic].
      intros word Hw. vm_compute in Hw.
      decompose [or] Hw; subst; try reflexivity; contradiction.
  - unfold classify_product. reflexivity.
  - intros set_iter' Hset' name description brand store_category.
    apply classify_product_ext.
    now apply classify_by_keywords_any_order.
Qed.

Lemma classify_almarai_milk_witness :
  exists confidence,
    classify_product no_arabic in_order "Almarai Full Fat Milk 1L"
      None None None = Ok (DAIRY, confidence)
    /\ (confidence == 0.7)%Q.
Proof.
  exact (proj1 (classify_almarai_milk no_arabic in_order no_arabic_only
                  in_order_enumerates)).
Defined.

End ClassifierClaims.


(** ** Limits of the properties above *)

Section Limits.

Import PyStr PyNum Py Server Server.Session.
Import Server.DataProcessor Server.CategoryClassifier.

(** The gate divides by the stored price: a stored price of 0 that is
    less than 24 hours old makes [_should_update_price] raise, which
    [process_scraped_products] reports as an error of that record. *)
Remark zero_stored_price_raises :
  let current :=
    {| Price.product_id := 1; Price.store_id := 1; Price.price := 0;
       Price.original_price := None; Price.price_per_kg := None;
       Price.discount_percentage := None; Price.pack_size := None;
       Price.pack_unit := None; Price.weight_value := None;
       Price.weight_unit := None; Price.is_available := true;
       Price.is_discounted := false; Price.is_on_sale := false;
       Price.product_url := None; Price.image_url := None;
       Price.scraped_at := 0 |} in
  _should_update_price Example.one_hour current (scraped "Tomato" 20)
  = Raise ZeroDivisionError.
Proof. reflexivity. Qed.

(** [classify_product] is not total: for the name "ab" the only word
    is too short for the similarity step, whose [max()] then has nothing
    to choose from. *)
Remark classify_product_can_raise :
  classify_product no_arabic in_order "ab" None None None = Raise ValueError.
Proof. vm_compute. reflexivity. Qed.

End Limits.


(** ** The price cleaners at work *)

Section CleanPriceExamples.

Import Py.

Example server_clean_price_examples :
  Server.BaseScraper.clean_price "EGP 1,234.50" = Ok 1234.50%Q
  /\ Server.BaseScraper.clean_price "-12,5 LE" = Ok 12.50%Q
  /\ Server.BaseScraper.clean_price "12,345" = Ok 0%Q
  /\ Server.BaseScraper.clean_price "1.2.3" = Ok 0%Q
  /\ Server.BaseScraper.clean_price "" = Ok 0%Q.
Proof. repeat split; vm_compute; reflexivity. Qed.

Example backend_clean_price_examples :
  Backend.BaseScraper.clean_price "EGP 1,234.50" = Ok 1234.50%Q
  /\ Backend.BaseScraper.clean_price "-12,5 LE" = Ok 12.5%Q
  /\ Backend.BaseScraper.clean_price ".." = Ok 0%Q
  /\ Backend.BaseScraper.clean_price "" = Ok 0%Q.
Proof. repeat split; vm_compute; reflexivity. Qed.

End CleanPriceExamples.

(* ================================================================== *)
(** * More of the code *)
(* ================================================================== *)

(** ** The matcher finds a match exactly when there is one *)

Section Matcher.

Import PyStr Re.

Lemma run_star {A : Type} (a : regex) (prev : option ascii) (s : str)
    (k : option ascii -> str -> option A) :
  run (Star a) prev s k = star_loop a k (List.length s) prev s.
Proof. reflexivity. Qed.

Lemma run_sound {A : Type} (r : regex) :
  forall (prev : option ascii) (s : str) (k : option ascii -> str -> option A)
         (x : A),
    run r prev s k = Some x ->
    exists t rest prev',
      s = t ++ rest /\ accepts r prev t rest prev' /\ k prev' rest = Some x.
Proof.
  induction r as [| c | p | a IHa b IHb | a IHa b IHb | a IHa |];
    intros prev s k x H.
  - exists [], s, prev. repeat split; [constructor | exact H].
  - destruct s as [| y s']; [discriminate |]. cbn in H.
    destruct (Ascii.eqb y c) eqn:E; [| discriminate].
    apply Ascii.eqb_eq in E; subst y.
    exists [c], s', (Some c). repeat split; [constructor | exact H].
  - destruct s as [| y s']; [discriminate |]. cbn in H.
    destruct (p y) eqn:E; [| discriminate].
    exists [y], s', (Some y). repeat split; [constructor; exact E | exact H].
  - cbn in H. apply IHa in H. destruct H as (t1 & rest1 & mid & -> & Ha & H).
    apply IHb in H. destruct H as (t2 & rest & prev' & -> & Hb & H).
    exists (t1 ++ t2), rest, prev'. rewrite <- app_assoc.
    repeat split; [econstructor; eassumption | exact H].
  - cbn in H. destruct (run a prev s k) eqn:E.
    + injection H as ->. apply IHa in E.
      destruct E as (t & rest & prev' & -> & Ha & E).
      exists t, rest, prev'. repeat split; [apply accepts_alt_l; exact Ha | exact E].
    + apply IHb in H. destruct H as (t & rest & prev' & -> & Hb & H).
      exists t, rest, prev'. repeat split; [apply accepts_alt_r; exact Hb | exact H].
  - rewrite run_star in H.
    remember (List.length s) as n eqn:En in H. clear En. revert prev s H.
    induction n as [| n IHn]; intros prev s H.
    + exists [], s, prev. repeat split; [constructor | exact H].
    + cbn [star_loop] in H.
      destruct (run a prev s _) eqn:E.
      * injection H as ->. apply IHa in E.
        destruct E as (t1 & rest1 & mid & -> & Ha & E).
        destruct (List.length rest1 <? List.length (t1 ++ rest1)) eqn:L;
          [| discriminate].
        apply IHn in E. destruct E as (t2 & rest & prev' & -> & Hs & E).
        exists (t1 ++ t2), rest, prev'. rewrite <- app_assoc.
        repeat split; [| exact E].
        apply accepts_star_cons with (mid := mid); try assumption.
        intros ->. apply Nat.ltb_lt in L. cbn in L. lia.
      * exists [], s, prev. repeat split; [constructor | exact H].
  - cbn in H. destruct (xorb _ _) eqn:E; [| discriminate].
    exists [], s, prev. repeat split; [constructor; exact E | exact H].
Qed.

Lemma run_none {A : Type} (r : regex) :
  forall (prev : option ascii) (s : str) (k : option ascii -> str -> option A),
    (forall prev' s', k prev' s' = None) -> run r prev s k = None.
Proof.
  induction r as [| c | p | a IHa b IHb | a IHa b IHb | a IHa |];
    intros prev s k H; cbn.
  - apply H.
  - destruct s; [reflexivity |]. destruct (Ascii.eqb _ _); [apply H | reflexivity].
  - destruct s; [reflexivity |]. destruct (p _); [apply H | reflexivity].
  - apply IHa. intros. apply IHb. exact H.
  - rewrite IHa by exact H. apply IHb. exact H.
  - change (star_loop a k (List.length s) prev s = None).
    generalize (List.length s) at 1. intro n. revert prev s.
    induction n as [| n IHn]; intros prev s; cbn [star_loop]; [apply H |].
    rewrite IHa; [apply H |].
    intros. destruct (_ <? _); [apply IHn | reflexivity].
  - destruct (xorb _ _); [apply H | reflexivity].
Qed.

Lemma run_complete_star {A : Type} (r : regex) (prev : option ascii)
    (t rest : str) (prev' : option ascii) :
  accepts r prev t rest prev' ->
  (forall (k : option ascii -> str -> option A) (x : A),
      k prev' rest = Some x ->
      exists y, run r prev (t ++ rest) k = Some y)
  /\ (forall a, r = Star a ->
      forall n (k : option ascii -> str -> option A) (x : A),
        List.length (t ++ rest) <= n ->
        k prev' rest = Some x ->
        exists y, star_loop a k n prev (t ++ rest) = Some y).
Proof.
  intro Hacc.
  induction Hacc as
    [prev rest | prev c rest | prev p c rest Hp
    | a b prev t1 mid t2 rest prev' Ha [IHa _] Hb [IHb _]
    | a b prev t rest prev' Ha [IHa _]
    | a b prev t rest prev' Hb [IHb _]
    | a prev rest
    | a prev t1 mid t2 rest prev' Hne Ha [IHa _] Hs [_ IHs]
    | prev rest Hw].
  - split; [| discriminate]. intros k x Hk. cbn. eauto.
  - split; [| discriminate]. intros k x Hk. cbn. rewrite Ascii.eqb_refl. eauto.
  - split; [| discriminate]. intros k x Hk. cbn. rewrite Hp. eauto.
  - split; [| discriminate]. intros k x Hk.
    rewrite <- app_assoc. cbn [run].
    destruct (IHb k x Hk) as [y Hy]. apply (IHa _ y). exact Hy.
  - split; [| discriminate]. intros k x Hk.
    cbn [run]. destruct (IHa k x Hk) as [y Hy]. rewrite Hy. eauto.
  - split; [| discriminate]. intros k x Hk.
    cbn [run]. destruct (run a prev (t ++ rest) k); [eauto |].
    apply (IHb k x Hk).
  - assert (Hloop : forall n (k : option ascii -> str -> option A) (x : A),
               k prev rest = Some x ->
               exists y, star_loop a k n prev ([] ++ rest) = Some y).
    { intros n k x Hk. destruct n as [| n]; cbn [star_loop app]; [eauto |].
      destruct (run a prev rest _); eauto. }
    split.
    + intros k x Hk. rewrite run_star. eapply Hloop; eassumption.
    + intros a0 Ea n k x _ Hk. injection Ea as <-. eapply Hloop; eassumption.
  - assert (Hloop : forall n (k : option ascii -> str -> option A) (x : A),
               List.length ((t1 ++ t2) ++ rest) <= n ->
               k prev' rest = Some x ->
               exists y, star_loop a k n prev ((t1 ++ t2) ++ rest) = Some y).
    { intros n k x Hn Hk. destruct n as [| n].
      - exfalso. rewrite !length_app in Hn.
        destruct t1; [congruence | cbn in Hn; lia].
      - cbn [star_loop].
        destruct (run a prev ((t1 ++ t2) ++ rest) _) eqn:E; [eauto |].
        exfalso.
        destruct (IHs a eq_refl n k x) as [y Hy].
        { rewrite !length_app in *. destruct t1; [congruence | cbn in Hn; lia]. }
        { exact Hk. }
        rewrite <- app_assoc in E.
        destruct (IHa
                    (fun prev' s' =>
                       if List.length s' <? List.length (t1 ++ t2 ++ rest)
                       then star_loop a k n prev' s' else None) y) as [z Hz].
        { replace (List.length (t2 ++ rest) <? List.length (t1 ++ t2 ++ rest))
            with true; [exact Hy |].
          symmetry. apply Nat.ltb_lt. rewrite (length_app t1).
          destruct t1; [congruence | cbn; lia]. }
        congruence. }
    split.
    + intros k x Hk. rewrite run_star. eapply Hloop; [lia | eassumption].
    + intros a0 Ea n k x Hn Hk. injection Ea as <-. eapply Hloop; eassumption.
  - split; [| discriminate]. intros k x Hk. cbn. rewrite Hw. eauto.
Qed.

Lemma run_complete {A : Type} (r : regex) (prev : option ascii) (t rest : str)
    (prev' : option ascii) (k : option ascii -> str -> option A) (x : A) :
  accepts r prev t rest prev' ->
  k prev' rest = Some x ->
  exists y, run r prev (t ++ rest) k = Some y.
Proof.
  intros Hacc Hk. apply (proj1 (run_complete_star r prev t rest prev' Hacc) k x Hk).
Qed.

Lemma accepts_last_char (r : regex) (prev : option ascii) (t rest : str)
    (prev' : option ascii) :
  accepts r prev t rest prev' -> prev' = last_char prev t.
Proof.
  assert (Hl : forall p t1 t2, last_char (last_char p t1) t2 = last_char p (t1 ++ t2)).
  { intros p t1 t2. unfold last_char. rewrite rev_app_distr.
    destruct (rev t2); reflexivity. }
  induction 1; try reflexivity.
  - subst. apply Hl.
  - assumption.
  - assumption.
  - subst. apply Hl.
Qed.

(** Without [\b], a match does not depend on what surrounds it. *)
Lemma accepts_anywhere (r : regex) (prev : option ascii) (t rest : str)
    (prev' : option ascii) :
  accepts r prev t rest prev' ->
  no_boundary r = true ->
  forall prev2 rest2, accepts r prev2 t rest2 (last_char prev2 t).
Proof.
  assert (Hl : forall p t1 t2, last_char (last_char p t1) t2 = last_char p (t1 ++ t2)).
  { intros p t1 t2. unfold last_char. rewrite rev_app_distr.
    destruct (rev t2); reflexivity. }
  induction 1; cbn [no_boundary]; intros Hnb prev2 rest2;
    try (apply andb_prop in Hnb; destruct Hnb as [Hna Hnb]).
  - constructor.
  - constructor.
  - constructor; assumption.
  - rewrite <- Hl. econstructor; [apply IHaccepts1 | apply IHaccepts2]; assumption.
  - apply accepts_alt_l. now apply IHaccepts.
  - apply accepts_alt_r. now apply IHaccepts.
  - constructor.
  - rewrite <- Hl.
    eapply accepts_star_cons;
      [assumption | apply IHaccepts1 | apply IHaccepts2]; assumption.
  - discriminate.
Qed.

Lemma accepts_lit (u : str) (prev : option ascii) (t rest : str)
    (prev' : option ascii) :
  accepts (Lit u) prev t rest prev' -> t = u.
Proof.
  revert prev t. induction u as [| c u IH]; intros prev t H.
  - inversion H; reflexivity.
  - destruct u as [| c' u'].
    + inversion H; reflexivity.
    + change (Lit (c :: c' :: u')) with (Seq (Chr c) (Lit (c' :: u'))) in H.
      inversion H; subst.
      match goal with Hc : accepts (Chr c) _ _ _ _ |- _ => inversion Hc; subst end.
      match goal with Hl : accepts _ (Some c) _ _ _ |- _ => apply IH in Hl; subst end.
      reflexivity.
Qed.

Lemma lit_accepts (u : str) (prev : option ascii) (rest : str) :
  accepts (Lit u) prev u rest (last_char prev u).
Proof.
  revert prev. induction u as [| c u IH]; intro prev.
  - constructor.
  - destruct u as [| c' u'].
    + constructor.
    + change (Lit (c :: c' :: u')) with (Seq (Chr c) (Lit (c' :: u'))).
      replace (last_char prev (c :: c' :: u'))
        with (last_char (Some c) (c' :: u')).
      * change (c :: c' :: u') with ([c] ++ c' :: u').
        econstructor; [constructor | apply IH].
      * unfold last_char. cbn [rev].
        destruct (rev u') ; cbn; reflexivity.
Qed.

Lemma accepts_altof (rs : list regex) (prev : option ascii) (t rest : str)
    (prev' : option ascii) :
  accepts (AltOf rs) prev t rest prev' ->
  exists r, In r rs /\ accepts r prev t rest prev'.
Proof.
  induction rs as [| r rs IH]; intro H.
  - inversion H; subst. discriminate.
  - destruct rs as [| r' rs'].
    + exists r. split; [now left | exact H].
    + change (AltOf (r :: r' :: rs')) with (Alt r (AltOf (r' :: rs'))) in H.
      inversion H; subst.
      * exists r. split; [now left | assumption].
      * destruct IH as (r0 & Hin & Hr); [assumption |].
        exists r0. split; [now right | assumption].
Qed.

Lemma altof_accepts (rs : list regex) (r : regex) (prev : option ascii)
    (t rest : str) (prev' : option ascii) :
  In r rs -> accepts r prev t rest prev' ->
  accepts (AltOf rs) prev t rest prev'.
Proof.
  induction rs as [| r0 rs IH]; intros Hin H; [destruct Hin |].
  destruct rs as [| r' rs'].
  - destruct Hin as [-> | []]. exact H.
  - change (AltOf (r0 :: r' :: rs')) with (Alt r0 (AltOf (r' :: rs'))).
    destruct Hin as [-> | Hin].
    + now apply accepts_alt_l.
    + apply accepts_alt_r. now apply IH.
Qed.

Lemma accepts_star_cls (p : ascii -> bool) (prev : option ascii)
    (t rest : str) (prev' : option ascii) :
  accepts (Star (Cls p)) prev t rest prev' -> forallb p t = true.
Proof.
  intro H. remember (Star (Cls p)) as r eqn:Er. revert Er.
  induction H; intro Er; try discriminate; injection Er as ->.
  - reflexivity.
  - match goal with Hc : accepts (Cls p) _ _ _ _ |- _ => inversion Hc; subst end.
    cbn. rewrite IHaccepts2 by reflexivity.
    match goal with Hp : p _ = true |- _ => rewrite Hp end. reflexivity.
Qed.

Lemma star_cls_accepts (p : ascii -> bool) (t : str) (prev : option ascii)
    (rest : str) :
  forallb p t = true -> accepts (Star (Cls p)) prev t rest (last_char prev t).
Proof.
  revert prev. induction t as [| c t IH]; intros prev H.
  - constructor.
  - cbn in H. apply andb_prop in H. destruct H as [Hc Ht].
    replace (last_char prev (c :: t)) with (last_char (Some c) t).
    + change (c :: t) with ([c] ++ t).
      eapply accepts_star_cons; [discriminate | now constructor | now apply IH].
    + unfold last_char. cbn [rev]. destruct (rev t); reflexivity.
Qed.

Lemma accepts_plus_cls (p : ascii -> bool) (prev : option ascii)
    (t rest : str) (prev' : option ascii) :
  accepts (Plus (Cls p)) prev t rest prev' ->
  t <> [] /\ forallb p t = true.
Proof.
  intro H. inversion H; subst.
  match goal with Hc : accepts (Cls p) _ _ _ _ |- _ => inversion Hc; subst end.
  match goal with Hs : accepts (Star _) _ _ _ _ |- _ =>
    apply accepts_star_cls in Hs end.
  split; [discriminate |]. cbn.
  match goal with Hp : p _ = true |- _ => rewrite Hp end. assumption.
Qed.

Lemma plus_cls_accepts (p : ascii -> bool) (t : str) (prev : option ascii)
    (rest : str) :
  t <> [] -> forallb p t = true ->
  accepts (Plus (Cls p)) prev t rest (last_char prev t).
Proof.
  intros Hne H. destruct t as [| c t]; [congruence |].
  cbn in H. apply andb_prop in H. destruct H as [Hc Ht].
  replace (last_char prev (c :: t)) with (last_char (Some c) t).
  - change (c :: t) with ([c] ++ t).
    econstructor; [now constructor | now apply star_cls_accepts].
  - unfold last_char. cbn [rev]. destruct (rev t); reflexivity.
Qed.

(** *** Patterns with groups *)

Lemma firstn_consumed (t rest : str) :
  firstn (List.length (t ++ rest) - List.length rest) (t ++ rest) = t.
Proof.
  rewrite length_app. replace (_ + _ - _) with (List.length t + 0) by lia.
  rewrite firstn_app_2. cbn. apply app_nil_r.
Qed.

Lemma captured_cons (c : bool) (r : regex) (ps : pieces) (t : str)
    (ts : list str) :
  captured ((c, r) :: ps) (t :: ts)
  = (if c then [t] else []) ++ captured ps ts.
Proof. destruct c; reflexivity. Qed.

Lemma run_pieces_sound {A : Type} (ps : pieces) :
  forall (prev : option ascii) (s : str) (groups : list str)
         (k : option ascii -> str -> list str -> option A) (x : A),
    run_pieces ps prev s groups k = Some x ->
    exists ts rest prev',
      s = List.concat ts ++ rest
      /\ accepts_pieces ps prev ts rest prev'
      /\ k prev' rest (groups ++ captured ps ts) = Some x.
Proof.
  induction ps as [| [c r] ps IH]; intros prev s groups k x H.
  - exists [], s, prev. cbn. rewrite app_nil_r. auto.
  - cbn [run_pieces] in H. apply run_sound in H.
    destruct H as (t & rest1 & mid & -> & Hr & H).
    apply IH in H. destruct H as (ts & rest & prev' & -> & Hps & H).
    exists (t :: ts), rest, prev'. cbn [List.concat accepts_pieces].
    rewrite <- app_assoc. repeat split.
    + exists mid. split; assumption.
    + rewrite captured_cons. rewrite firstn_consumed in H.
      destruct c; cbn [app]; [rewrite <- app_assoc in H |]; exact H.
Qed.

Lemma run_pieces_complete {A : Type} (ps : pieces) :
  forall (prev : option ascii) (ts : list str) (rest : str)
         (prev' : option ascii) (groups : list str)
         (k : option ascii -> str -> list str -> option A) (x : A),
    accepts_pieces ps prev ts rest prev' ->
    k prev' rest (groups ++ captured ps ts) = Some x ->
    exists y, run_pieces ps prev (List.concat ts ++ rest) groups k = Some y.
Proof.
  induction ps as [| [c r] ps IH]; intros prev ts rest prev' groups k x Hacc Hk.
  - destruct ts; [| destruct Hacc]. cbn in *. subst prev'.
    rewrite app_nil_r in Hk. eauto.
  - destruct ts as [| t ts]; [destruct Hacc |].
    destruct Hacc as (mid & Hr & Hps).
    cbn [List.concat run_pieces]. rewrite <- app_assoc.
    rewrite captured_cons in Hk.
    destruct (IH mid ts rest prev'
                (if c then groups ++ [t] else groups) k x Hps) as [y Hy].
    { destruct c; cbn [app] in Hk; [rewrite <- app_assoc |]; exact Hk. }
    eapply run_complete; [exact Hr |].
    rewrite firstn_consumed. exact Hy.
Qed.

Lemma search_groups_from_sound (ps : pieces) (anchored : bool) (s : str) :
  forall (prev : option ascii) (groups : list str),
    search_groups_from ps anchored prev s = Some groups ->
    exists before ts rest prev',
      s = before ++ List.concat ts ++ rest
      /\ accepts_pieces ps (last_char prev before) ts rest prev'
      /\ groups = captured ps ts
      /\ (anchored = true -> at_end rest = true).
Proof.
  induction s as [| c s IH]; intros prev groups H; cbn [search_groups_from] in H.
  - destruct (match_groups ps anchored prev []) as [gs |] eqn:E; [| discriminate].
    injection H as ->. unfold match_groups in E. apply run_pieces_sound in E.
    destruct E as (ts & rest & prev' & Hs & Hacc & Hk).
    exists [], ts, rest, prev'. cbn [app]. repeat split; try assumption.
    + destruct (anchored && negb (at_end rest)); [discriminate |].
      now injection Hk as <-.
    + intros ->. destruct (at_end rest); [reflexivity | discriminate].
  - destruct (match_groups ps anchored prev (c :: s)) as [gs |] eqn:E.
    + injection H as ->. unfold match_groups in E. apply run_pieces_sound in E.
      destruct E as (ts & rest & prev' & Hs & Hacc & Hk).
      exists [], ts, rest, prev'. cbn [app]. repeat split; try assumption.
      * destruct (anchored && negb (at_end rest)); [discriminate |].
        now injection Hk as <-.
      * intros ->. destruct (at_end rest); [reflexivity | discriminate].
    + apply IH in H.
      destruct H as (before & ts & rest & prev' & -> & Hacc & Hg & Hend).
      exists (c :: before), ts, rest, prev'. repeat split; try assumption.
      replace (last_char prev (c :: before))
        with (last_char (Some c) before); [assumption |].
      unfold last_char. cbn [rev]. destruct (rev before); reflexivity.
Qed.

Lemma search_groups_from_complete (ps : pieces) (anchored : bool)
    (before : str) :
  forall (prev : option ascii) (ts : list str) (rest : str)
         (prev' : option ascii),
    accepts_pieces ps (last_char prev before) ts rest prev' ->
    (anchored = true -> at_end rest = true) ->
    exists groups,
      search_groups_from ps anchored prev (before ++ List.concat ts ++ rest)
      = Some groups.
Proof.
  induction before as [| c before IH]; intros prev ts rest prev' Hacc Hend.
  - cbn [app]. 
    assert (Hm : exists gs, match_groups ps anchored prev
                              (List.concat ts ++ rest) = Some gs).
    { unfold match_groups.
      eapply run_pieces_complete with (x := captured ps ts); [exact Hacc |].
      cbn [app]. destruct anchored; cbn [andb]; [| reflexivity].
      rewrite Hend; reflexivity. }
    destruct Hm as [gs Hm].
    destruct (List.concat ts ++ rest); cbn [search_groups_from];
      rewrite Hm; eauto.
  - cbn [app search_groups_from].
    destruct (match_groups ps anchored prev _); [eauto |].
    apply IH with (prev' := prev'); [| assumption].
    replace (last_char (Some c) before) with (last_char prev (c :: before));
      [assumption |].
    unfold last_char. cbn [rev]. destruct (rev before); reflexivity.
Qed.

End Matcher.

(** ** Text helpers of the scraper *)

Section Words.

Import PyStr.

(** A word: not empty, no blank in it. *)
Lemma lstrip_split (t : str) :
  exists blanks, t = blanks ++ lstrip t /\ forallb is_space blanks = true.
Proof.
  induction t as [| c t IH].
  - exists []. auto.
  - cbn [lstrip]. destruct (is_space c) eqn:E.
    + destruct IH as (b & Hb & Hs). exists (c :: b). cbn. rewrite E, Hs.
      split; [f_equal; exact Hb | reflexivity].
    + exists []. auto.
Qed.

Lemma rstrip_split (t : str) :
  exists blanks, t = rstrip t ++ blanks /\ forallb is_space blanks = true.
Proof.
  unfold rstrip. destruct (lstrip_split (rev t)) as (b & Hb & Hs).
  exists (rev b). split.
  - rewrite <- rev_app_distr, <- Hb. symmetry. apply rev_involutive.
  - rewrite forallb_forall in *. intros c Hc. apply Hs. now apply in_rev.
Qed.

Lemma lstrip_id (c : ascii) (t : str) :
  is_space c = false -> lstrip (c :: t) = c :: t.
Proof. intro H. cbn. now rewrite H. Qed.

Lemma rstrip_id (t : str) (c : ascii) :
  is_space c = false -> rstrip (t ++ [c]) = t ++ [c].
Proof.
  intro H. unfold rstrip. rewrite rev_app_distr. cbn [rev app].
  rewrite lstrip_id by exact H. cbn [rev]. now rewrite rev_involutive.
Qed.

(** A text with no blank at either end is its own [strip]. *)
Lemma strip_id (t : str) :
  (forall c u, t = c :: u -> is_space c = false) ->
  (forall u c, t = u ++ [c] -> is_space c = false) ->
  strip t = t.
Proof.
  intros Hfirst Hlast. unfold strip.
  destruct t as [| c u]; [reflexivity |].
  rewrite lstrip_id by (eapply Hfirst; reflexivity).
  destruct (exists_last (l := c :: u)) as (u' & c' & E); [discriminate |].
  rewrite E. apply rstrip_id. eapply Hlast. exact E.
Qed.

Lemma split_ws_aux_blanks (blanks cur : str) :
  forallb is_space blanks = true ->
  split_ws_aux cur blanks = match cur with [] => [] | _ => [rev cur] end.
Proof.
  revert cur. induction blanks as [| c b IH]; intros cur H; [reflexivity |].
  cbn in H. apply andb_prop in H. destruct H as [Hc Hb].
  cbn [split_ws_aux]. rewrite Hc. rewrite (IH [] Hb).
  destruct cur; reflexivity.
Qed.

Lemma split_ws_aux_app_blanks (t blanks cur : str) :
  forallb is_space blanks = true ->
  split_ws_aux cur (t ++ blanks) = split_ws_aux cur t.
Proof.
  intro H. revert cur. induction t as [| c t IH]; intro cur.
  - cbn [app]. now rewrite split_ws_aux_blanks.
  - cbn [app split_ws_aux]. destruct (is_space c); [| apply IH].
    rewrite (IH []). reflexivity.
Qed.

Lemma split_ws_blanks_app (blanks t : str) :
  forallb is_space blanks = true ->
  split_ws (blanks ++ t) = split_ws t.
Proof.
  unfold split_ws. induction blanks as [| c b IH]; intro H; [reflexivity |].
  cbn in H. apply andb_prop in H. destruct H as [Hc Hb].
  cbn [app split_ws_aux]. rewrite Hc. now apply IH.
Qed.

Lemma split_ws_strip (t : str) : split_ws (strip t) = split_ws t.
Proof.
  unfold strip.
  destruct (lstrip_split t) as (b1 & H1 & Hb1).
  destruct (rstrip_split (lstrip t)) as (b2 & H2 & Hb2).
  rewrite H1 at 2. rewrite split_ws_blanks_app by exact Hb1.
  rewrite H2 at 2. unfold split_ws.
  now rewrite split_ws_aux_app_blanks.
Qed.

(** The words [split] gives are not empty and hold no blank. *)
Lemma split_ws_aux_words (t cur : str) :
  forallb (fun c => negb (is_space c)) cur = true ->
  Forall (fun word => word <> [] /\
                      forallb (fun c => negb (is_space c)) word = true)
         (split_ws_aux cur t).
Proof.
  revert cur. induction t as [| c t IH]; intros cur Hcur; cbn [split_ws_aux].
  - destruct cur as [| x cur']; constructor; [| constructor].
    split.
    + intro E. apply (f_equal (@List.length ascii)) in E.
      rewrite length_rev in E. discriminate.
    + rewrite forallb_forall in *. intros y Hy. apply Hcur. now apply in_rev.
  - destruct (is_space c) eqn:E.
    + destruct cur as [| x cur']; [now apply IH |].
      constructor; [| now apply IH].
      split.
      * intro E'. apply (f_equal (@List.length ascii)) in E'.
        rewrite length_rev in E'. discriminate.
      * rewrite forallb_forall in *. intros y Hy. apply Hcur. now apply in_rev.
    + apply IH. cbn. now rewrite E, Hcur.
Qed.

Lemma split_ws_words (t : str) :
  Forall (fun word => word <> [] /\
                      forallb (fun c => negb (is_space c)) word = true)
         (split_ws t).
Proof. now apply split_ws_aux_words. Qed.

Lemma split_ws_aux_word (word rest cur : str) :
  forallb (fun c => negb (is_space c)) word = true ->
  split_ws_aux cur (word ++ rest) = split_ws_aux (rev word ++ cur) rest.
Proof.
  revert cur. induction word as [| c word IH]; intros cur H; [reflexivity |].
  cbn in H. apply andb_prop in H. destruct H as [Hc Hw].
  cbn [app split_ws_aux]. apply negb_true_iff in Hc. rewrite Hc.
  rewrite (IH (c :: cur) Hw). cbn [rev]. now rewrite <- app_assoc.
Qed.

(** Splitting what was joined by single blanks gives the words back. *)
Lemma split_ws_join (words : list str) :
  Forall (fun word => word <> [] /\
                      forallb (fun c => negb (is_space c)) word = true)
         words ->
  split_ws (join " " words) = words.
Proof.
  unfold split_ws. induction 1 as [| word words [Hne Hw] Hrest IH];
    [reflexivity |].
  destruct words as [| word' words'].
  - cbn [join]. rewrite <- (app_nil_r word) at 1.
    rewrite split_ws_aux_word by exact Hw. cbn [split_ws_aux].
    rewrite app_nil_r.
    destruct (rev word) eqn:E.
    + apply (f_equal (@List.length ascii)) in E. rewrite length_rev in E.
      destruct word; [congruence | discriminate].
    + rewrite <- E. now rewrite rev_involutive.
  - change (join " " (word :: word' :: words'))
      with (word ++ list_ascii_of_string " " ++ join " " (word' :: words')).
    rewrite split_ws_aux_word by exact Hw. rewrite app_nil_r.
    cbn [list_ascii_of_string app split_ws_aux]. 
    change (is_space " ") with true. cbn iota.
    destruct (rev word) eqn:E.
    + apply (f_equal (@List.length ascii)) in E. rewrite length_rev in E.
      destruct word; [congruence | discriminate].
    + rewrite <- E, rev_involutive. f_equal. exact IH.
Qed.

End Words.

Section CleanText.

Import PyStr Server.BaseScraper.

Lemma clean_text_words (text : str) :
  clean_text text = join " " (split_ws text).
Proof.
  unfold clean_text. destruct text as [| c t]; [reflexivity |].
  cbn [truthy negb]. now rewrite split_ws_strip.
Qed.

(** X1.  [clean_text] keeps the words of a text, in their order, and
    puts exactly one blank between two of them; cleaning a cleaned text
    changes nothing. *)
Theorem clean_text_keeps_the_words (text : str) :
  clean_text text = join " " (split_ws text)
  /\ split_ws (clean_text text) = split_ws text
  /\ clean_text (clean_text text) = clean_text text.
Proof.
  assert (H2 : split_ws (clean_text text) = split_ws text).
  { rewrite clean_text_words. apply split_ws_join, split_ws_words. }
  repeat split.
  - apply clean_text_words.
  - exact H2.
  - rewrite (clean_text_words (clean_text text)), H2.
    symmetry. apply clean_text_words.
Qed.

End CleanText.

Section Quantities.

Import PyStr PyNum PyParse Py Re.

Lemma digit_not_space (c : ascii) : is_digit c = true -> is_space c = false.
Proof.
  unfold is_digit, is_space. generalize (code c). intros n H.
  apply andb_prop in H. destruct H as [H1 H2].
  apply Nat.leb_le in H1. apply Nat.leb_le in H2.
  repeat rewrite orb_false_iff. repeat split.
  - apply andb_false_iff. right. apply Nat.leb_gt. lia.
  - apply andb_false_iff. right. apply Nat.leb_gt. lia.
  - apply Nat.eqb_neq. lia.
Qed.

Lemma digit_not_char (c x : ascii) :
  is_digit c = true -> is_digit x = false -> Ascii.eqb c x = false.
Proof.
  intros Hc Hx. destruct (Ascii.eqb c x) eqn:E; [| reflexivity].
  apply Ascii.eqb_eq in E. congruence.
Qed.

Lemma split_on_aux_no_sep (sep : ascii) (t cur : str) :
  forallb (fun c => negb (Ascii.eqb c sep)) t = true ->
  split_on_aux sep cur t = [rev cur ++ t].
Proof.
  revert cur. induction t as [| c t IH]; intros cur H; cbn [split_on_aux].
  - now rewrite app_nil_r.
  - cbn in H. apply andb_prop in H. destruct H as [Hc Ht].
    apply negb_true_iff in Hc. rewrite Hc. rewrite IH by exact Ht.
    cbn [rev]. now rewrite <- app_assoc.
Qed.

Lemma split_on_aux_one_sep (sep : ascii) (a b cur : str) :
  forallb (fun c => negb (Ascii.eqb c sep)) a = true ->
  split_on_aux sep cur (a ++ sep :: b)
  = (rev cur ++ a) :: split_on_aux sep [] b.
Proof.
  revert cur. induction a as [| c a IH]; intros cur H; cbn [app split_on_aux].
  - rewrite Ascii.eqb_refl. now rewrite app_nil_r.
  - cbn in H. apply andb_prop in H. destruct H as [Hc Ha].
    apply negb_true_iff in Hc. rewrite Hc. rewrite IH by exact Ha.
    cbn [rev]. now rewrite <- app_assoc.
Qed.

Lemma digits_no_dot (ds : str) :
  forallb is_digit ds = true ->
  forallb (fun c => negb (Ascii.eqb c ".")) ds = true.
Proof.
  intro H. rewrite forallb_forall in *. intros c Hc.
  apply negb_true_iff. apply digit_not_char; [now apply H | reflexivity].
Qed.

(** A text that starts and ends with a digit is read as it stands. *)
Lemma literal_body (t : str) (c : ascii) (u : str) (u' : str) (c' : ascii) :
  t = c :: u -> t = u' ++ [c'] -> is_digit c = true -> is_digit c' = true ->
  split_sign (strip t) = (false, t).
Proof.
  intros E E' Hc Hc'.
  rewrite strip_id.
  - rewrite E. cbn [split_sign].
    rewrite (digit_not_char c "-" Hc eq_refl).
    now rewrite (digit_not_char c "+" Hc eq_refl).
  - intros x y Ex. rewrite E in Ex. injection Ex as <- _.
    now apply digit_not_space.
  - intros y x Ex. rewrite E' in Ex. apply app_inj_tail in Ex.
    destruct Ex as [_ <-]. now apply digit_not_space.
Qed.

Lemma float_of_digits (ds : str) :
  ds <> [] -> forallb is_digit ds = true ->
  PyParse.float ds = Ok (inject_Z (digits_val ds)).
Proof.
  intros Hne Hd. unfold PyParse.float, decimal_literal.
  destruct ds as [| c u] eqn:E; [congruence |]. rewrite <- E in *.
  destruct (exists_last (l := ds)) as (u' & c' & E'); [now rewrite E |].
  assert (Hc : is_digit c = true).
  { rewrite forallb_forall in Hd. apply Hd. rewrite E. now left. }
  assert (Hc' : is_digit c' = true).
  { rewrite forallb_forall in Hd. apply Hd. rewrite E'.
    apply in_or_app. right. now left. }
  rewrite (literal_body ds c u u' c' E E' Hc Hc').
  unfold split_on. rewrite split_on_aux_no_sep by now apply digits_no_dot.
  cbn [rev app]. unfold all_digits. rewrite Hd.
  rewrite E at 1. reflexivity.
Qed.

Lemma float_of_decimal (ip fp : str) :
  ip <> [] -> fp <> [] ->
  forallb is_digit ip = true -> forallb is_digit fp = true ->
  PyParse.float (ip ++ "."%char :: fp)
  = Ok (Qmake (digits_val (ip ++ fp))
              (Z.to_pos (10 ^ Z.of_nat (List.length fp)))).
Proof.
  intros Hni Hnf Hi Hf. unfold PyParse.float, decimal_literal.
  destruct ip as [| c u] eqn:E; [congruence |]. rewrite <- E in *.
  destruct (exists_last (l := fp)) as (u' & c' & E'); [assumption |].
  assert (Hc : is_digit c = true).
  { rewrite forallb_forall in Hi. apply Hi. rewrite E. now left. }
  assert (Hc' : is_digit c' = true).
  { rewrite forallb_forall in Hf. apply Hf. rewrite E'.
    apply in_or_app. right. now left. }
  rewrite (literal_body (ip ++ "."%char :: fp) c (u ++ "."%char :: fp)
             ((ip ++ "."%char :: u')) c').
  - unfold split_on. rewrite split_on_aux_one_sep by now apply digits_no_dot.
    rewrite split_on_aux_no_sep by now apply digits_no_dot.
    cbn [rev app]. unfold all_digits. rewrite Hi, Hf.
    rewrite E at 1. reflexivity.
  - rewrite E. reflexivity.
  - rewrite E'. rewrite <- app_assoc. reflexivity.
  - exact Hc.
  - exact Hc'.
Qed.

(** What the group [(\d+(?:\.\d+)?)] holds. *)
Lemma accepts_quantity (prev : option ascii) (t rest : str)
    (prev' : option ascii) :
  accepts Server.BaseScraper.quantity prev t rest prev' ->
  (t <> [] /\ forallb is_digit t = true)
  \/ exists ip fp, t = ip ++ "."%char :: fp
                   /\ ip <> [] /\ fp <> []
                   /\ forallb is_digit ip = true
                   /\ forallb is_digit fp = true.
Proof.
  unfold Server.BaseScraper.quantity, Opt. intro H.
  inversion H as [| | | a b p t1 mid t2 r p' H1 H2 | | | | |]; subst.
  apply accepts_plus_cls in H1. destruct H1 as [Hne Hd].
  inversion H2 as [| | | | a b p t r p' H3 | a b p t r p' H3 | | |]; subst.
  - inversion H3 as [| | | a b p t3 mid3 t4 r p' H4 H5 | | | | |]; subst.
    inversion H4; subst.
    apply accepts_plus_cls in H5. destruct H5 as [Hne' Hd'].
    right. exists t1, t4. auto.
  - inversion H3; subst. left. rewrite app_nil_r. auto.
Qed.

Lemma quantity_float (prev : option ascii) (t rest : str)
    (prev' : option ascii) :
  accepts Server.BaseScraper.quantity prev t rest prev' ->
  exists q, PyParse.float t = Ok q /\ (0 <= q)%Q.
Proof.
  intro H. apply accepts_quantity in H.
  destruct H as [[Hne Hd] | (ip & fp & -> & Hni & Hnf & Hi & Hf)].
  - rewrite float_of_digits by assumption. eexists. split; [reflexivity |].
    unfold Qle. cbn. pose proof (digits_val_nonneg t). lia.
  - rewrite float_of_decimal by assumption. eexists. split; [reflexivity |].
    unfold Qle. cbn. pose proof (digits_val_nonneg (ip ++ fp)). lia.
Qed.

Lemma accepts_units (names : list string) (prev : option ascii)
    (t rest : str) (prev' : option ascii) :
  accepts (Server.BaseScraper.units names) prev t rest prev' ->
  In t (map list_ascii_of_string names).
Proof.
  unfold Server.BaseScraper.units. intro H. apply accepts_altof in H.
  destruct H as (r & Hin & Hr). apply in_map_iff in Hin.
  destruct Hin as (u & <- & Hu). apply accepts_lit in Hr. subst t.
  apply in_map_iff. now exists u.
Qed.

End Quantities.

Section WeightInfo.

Import PyStr PyNum PyParse Py Re Server.BaseScraper.

(** A match of [(\d+(?:\.\d+)?)\s*(u1|u2|...)s?], piece by piece. *)
Lemma weight_pattern_sound (names : list string) (text : str)
    (groups : list str) :
  search_groups
    [(true, quantity); (false, Star Re.s); (true, units names);
     (false, Opt (Chr "s"))] false text = Some groups ->
  exists before number blanks unit plural rest,
    text = before ++ number ++ blanks ++ unit ++ plural ++ rest
    /\ groups = [number; unit]
    /\ accepts quantity (last_char None before) number
         (blanks ++ unit ++ plural ++ rest) (last_char None (before ++ number))
    /\ forallb is_space blanks = true
    /\ In unit (map list_ascii_of_string names).
Proof.
  intro H. apply search_groups_from_sound in H.
  destruct H as (before & ts & rest & prev' & -> & Hacc & -> & _).
  cbn [accepts_pieces] in Hacc.
  destruct ts as [| number ts]; [contradiction |].
  destruct Hacc as (m1 & Hq & Hacc).
  destruct ts as [| blanks ts]; [contradiction |].
  destruct Hacc as (m2 & Hb & Hacc).
  destruct ts as [| unit ts]; [contradiction |].
  destruct Hacc as (m3 & Hu & Hacc).
  destruct ts as [| plural ts]; [contradiction |].
  destruct Hacc as (m4 & Hp & Hacc).
  destruct ts as [| ? ?]; [| contradiction].
  exists before, number, blanks, unit, plural, rest.
  cbn [List.concat captured] in *. rewrite app_nil_r in *.
  repeat rewrite <- app_assoc in *. cbn [app] in *.
  split; [reflexivity |]. split; [reflexivity |]. split; [| split].
  - pose proof (accepts_last_char _ _ _ _ _ Hq) as E. rewrite E in Hq.
    replace (last_char None (before ++ number))
      with (last_char (last_char None before) number); [exact Hq |].
    unfold last_char. rewrite rev_app_distr. destruct (rev number); reflexivity.
  - now apply accepts_star_cls in Hb.
  - now apply accepts_units in Hu.
Qed.

Lemma weight_pattern_complete (names : list string) (u : string)
    (before number blanks rest : str) (prev prev' : option ascii) (r0 : str) :
  accepts quantity prev number r0 prev' ->
  forallb is_space blanks = true ->
  In u names ->
  exists groups,
    search_groups
      [(true, quantity); (false, Star Re.s); (true, units names);
       (false, Opt (Chr "s"))] false
      (before ++ number ++ blanks ++ list_ascii_of_string u ++ rest)
    = Some groups.
Proof.
  intros Hq Hb Hu.
  pose proof (search_groups_from_complete
                [(true, quantity); (false, Star Re.s); (true, units names);
                 (false, Opt (Chr "s"))] false before None
                [number; blanks; list_ascii_of_string u; []] rest) as H.
  cbn [List.concat] in H. rewrite !app_nil_r in H.
  cbn [app] in H. rewrite <- !app_assoc in H.
  eapply H; [| discriminate]. clear H.
  cbn [accepts_pieces List.concat]. rewrite !app_nil_r. cbn [app].
  eexists. split.
  { eapply accepts_anywhere; [exact Hq | reflexivity]. }
  eexists. split.
  { now apply star_cls_accepts. }
  eexists. split.
  { unfold units. eapply altof_accepts.
    - apply in_map_iff. exists u. split; [reflexivity | exact Hu].
    - apply lit_accepts. }
  eexists. split.
  { unfold Opt. apply accepts_alt_r. constructor. }
  reflexivity.
Qed.

(** What [extract_weight_info] can return. *)
Lemma extract_weight_info_cases (text : str) :
  exists value_unit,
    extract_weight_info text = Ok value_unit
    /\ (value_unit = (None, None)
        \/ exists value unit,
             value_unit = (Some value, Some unit)
             /\ (0 <= value)%Q
             /\ In unit (map list_ascii_of_string
                           ["kg"; "g"; "l"; "ml"; "oz"; "lb"])).
Proof.
  unfold extract_weight_info.
  destruct (negb (truthy text)); [eexists; split; [reflexivity | now left] |].
  generalize (lower text) as text_lower. intro text_lower.
  unfold weight_patterns. cbn [first_weight].
  destruct (search_groups _ false text_lower) as [groups |] eqn:E1.
  { apply weight_pattern_sound in E1.
    destruct E1 as (before & number & blanks & unit & plural & rest
                    & _ & -> & Hq & _ & Hu).
    apply quantity_float in Hq. destruct Hq as (q & Hf & Hq).
    cbv iota beta. eexists. rewrite Hf. cbn [Py.bind].
    split; [reflexivity |]. right.
    eexists. eexists. split; [reflexivity |]. split; [exact Hq |].
    cbn [map] in Hu.
    repeat (destruct Hu as [<- | Hu]; [vm_compute; tauto |]).
    destruct Hu. }
  match goal with
  | |- context [search_groups ?p false text_lower] =>
      destruct (search_groups p false text_lower) as [groups |] eqn:E2
  end.
  { apply weight_pattern_sound in E2.
    destruct E2 as (before & number & blanks & unit & plural & rest
                    & _ & -> & Hq & _ & Hu).
    apply quantity_float in Hq. destruct Hq as (q & Hf & Hq).
    cbv iota beta. eexists. rewrite Hf. cbn [Py.bind].
    split; [reflexivity |]. right.
    eexists. eexists. split; [reflexivity |]. split; [exact Hq |].
    cbn [map] in Hu.
    repeat (destruct Hu as [<- | Hu]; [vm_compute; tauto |]).
    destruct Hu. }
  eexists. split; [reflexivity | now left].
Qed.

(** X2.  [extract_weight_info] never raises; it returns either no
    weight at all or a value that is not negative together with one of
    the units kg, g, l, ml, oz and lb. *)
Theorem extract_weight_info_range (text : str) :
  exists value_unit,
    extract_weight_info text = Ok value_unit
    /\ (value_unit = (None, None)
        \/ exists value unit,
             value_unit = (Some value, Some unit)
             /\ (0 <= value)%Q
             /\ In unit (map list_ascii_of_string
                           ["kg"; "g"; "l"; "ml"; "oz"; "lb"])).
Proof. exact (extract_weight_info_cases text). Qed.

End WeightInfo.

Section Pounds.

Import PyStr PyNum PyParse Py Re Server.BaseScraper.

Lemma startswith_app (p rest : str) : startswith p (p ++ rest) = true.
Proof.
  induction p as [| c p IH]; [reflexivity |].
  cbn. now rewrite Ascii.eqb_refl, IH.
Qed.

Lemma contains_app (p before behind : str) :
  contains p (before ++ p ++ behind) = true.
Proof.
  induction before as [| c before IH].
  - cbn [app]. destruct (p ++ behind) eqn:E.
    + destruct p; [reflexivity | discriminate].
    + cbn [contains]. rewrite <- E. now rewrite startswith_app.
  - cbn [app contains]. rewrite IH. apply orb_true_r.
Qed.

Lemma digits_accept_quantity (number : str) (prev : option ascii)
    (rest : str) :
  number <> [] -> forallb is_digit number = true ->
  accepts quantity prev number rest (last_char prev number).
Proof.
  intros Hne Hd. unfold quantity.
  rewrite <- (app_nil_r number) at 1.
  econstructor.
  - apply plus_cls_accepts; eassumption.
  - unfold Opt. apply accepts_alt_r. constructor.
Qed.

(** X3.  A weight written with "lb" is not read as pounds: the first
    pattern takes the "l" for litres.  A text in which a number is
    followed by "lb" gets a metric unit, and the unit "lb" is returned
    only for texts that spell out "pound". *)
Theorem extract_weight_info_reads_lb_as_litres
    (text before number blanks rest : str) :
  lower text = before ++ number ++ blanks ++ list_ascii_of_string "lb" ++ rest ->
  number <> [] ->
  forallb is_digit number = true ->
  forallb is_space blanks = true ->
  (exists value unit,
      extract_weight_info text = Ok (Some value, Some unit)
      /\ In unit (map list_ascii_of_string ["kg"; "g"; "l"; "ml"]))
  /\ (forall any value,
         extract_weight_info any
         = Ok (Some value, Some (list_ascii_of_string "lb")) ->
         contains (list_ascii_of_string "pound") (lower any) = true).
Proof.
  intros Htext Hne Hd Hb. split.
  - unfold extract_weight_info.
    destruct text as [| c text'].
    { exfalso. cbn in Htext.
      destruct before; [destruct number; [congruence | discriminate] |
                        discriminate]. }
    cbn [truthy negb]. rewrite Htext. clear Htext.
    unfold weight_patterns. cbn [first_weight].
    destruct (weight_pattern_complete
                ["kg"; "kilogram"; "g"; "gram"; "l"; "liter"; "ml";
                 "milliliter"] "l" before number blanks
                (list_ascii_of_string "b" ++ rest) None
                (last_char None number)
                []) as [groups Hg].
    { now apply digits_accept_quantity. }
    { exact Hb. }
    { cbn. tauto. }
    cbn [list_ascii_of_string app] in *. rewrite Hg.
    apply weight_pattern_sound in Hg.
    destruct Hg as (before' & number' & blanks' & unit & plural & rest'
                    & _ & -> & Hq & _ & Hu).
    apply quantity_float in Hq. destruct Hq as (q & Hf & Hq).
    rewrite Hf. cbn [Py.bind]. eexists. eexists. split; [reflexivity |].
    cbn [map] in Hu.
    repeat (destruct Hu as [<- | Hu]; [vm_compute; tauto |]).
    destruct Hu.
  - clear. intros text value. unfold extract_weight_info.
    destruct (negb (truthy text)); [discriminate |].
    generalize (lower text) as text_lower. intro text_lower.
    unfold weight_patterns. cbn [first_weight].
    destruct (search_groups _ false text_lower) as [groups |] eqn:E1.
    { apply weight_pattern_sound in E1.
      destruct E1 as (before & number & blanks & unit & plural & rest
                      & _ & -> & Hq & _ & Hu).
      apply quantity_float in Hq. destruct Hq as (q & Hf & Hq).
      rewrite Hf. cbn [Py.bind]. intro H. exfalso.
      cbn [map] in Hu.
      repeat (destruct Hu as [<- | Hu]; [vm_compute in H; discriminate |]).
      destruct Hu. }
    match goal with
    | |- context [search_groups ?p false text_lower] =>
        destruct (search_groups p false text_lower) as [groups |] eqn:E2
    end; [| discriminate].
    apply weight_pattern_sound in E2.
    destruct E2 as (before & number & blanks & unit & plural & rest
                    & -> & -> & Hq & Hb & Hu).
    pose proof Hq as Hq'.
    apply quantity_float in Hq'. destruct Hq' as (q & Hf & _).
    rewrite Hf. cbn [Py.bind]. intro H.
    cbn [map] in Hu.
    destruct Hu as [<- | [<- | [<- | []]]].
    + vm_compute in H. discriminate.
    + replace (before ++ number ++ blanks
                 ++ list_ascii_of_string "pound" ++ plural ++ rest)
        with ((before ++ number ++ blanks)
                ++ list_ascii_of_string "pound" ++ (plural ++ rest))
        by (now rewrite <- !app_assoc).
      apply contains_app.
    + exfalso.
      destruct (weight_pattern_complete
                  ["kg"; "kilogram"; "g"; "gram"; "l"; "liter"; "ml";
                   "milliliter"] "l" before number blanks
                  (list_ascii_of_string "b" ++ plural ++ rest) _ _ _
                  Hq Hb) as [groups Hg].
      { cbn. tauto. }
      cbn [list_ascii_of_string app] in *. congruence.
Qed.
Lemma extract_weight_info_reads_lb_as_litres_witness :
  (exists value unit,
      extract_weight_info (list_ascii_of_string "Beef 2 lb")
      = Ok (Some value, Some unit)
      /\ In unit (map list_ascii_of_string ["kg"; "g"; "l"; "ml"]))
  /\ (forall any value,
         extract_weight_info any
         = Ok (Some value, Some (list_ascii_of_string "lb")) ->
         contains (list_ascii_of_string "pound") (lower any) = true).
Proof.
  apply (extract_weight_info_reads_lb_as_litres
           (list_ascii_of_string "Beef 2 lb") (list_ascii_of_string "beef ")
           (list_ascii_of_string "2") (list_ascii_of_string " ") []).
  - reflexivity.
  - discriminate.
  - reflexivity.
  - reflexivity.
Defined.

End Pounds.

Section ProductId.

Import PyStr PyNum PyParse Py Re Server.BaseScraper.

(** In a pattern whose groups are all [(\d+)], every group of a match
    is a run of digits of the text matched. *)
Lemma digit_groups (ps : pieces) :
  Forall (fun p => fst p = true -> snd p = Plus Re.d) ps ->
  forall prev ts rest prev',
    accepts_pieces ps prev ts rest prev' ->
    Forall (fun group =>
              group <> [] /\ forallb is_digit group = true
              /\ exists before behind,
                   List.concat ts = before ++ group ++ behind)
           (captured ps ts).
Proof.
  induction 1 as [| [c r] ps Hp Hps IH]; intros prev ts rest prev' Hacc.
  - destruct ts; [constructor | destruct Hacc].
  - destruct ts as [| t ts]; [destruct Hacc |].
    destruct Hacc as (mid & Hr & Hacc).
    specialize (IH _ _ _ _ Hacc).
    assert (Htail : Forall (fun group =>
                group <> [] /\ forallb is_digit group = true
                /\ exists before behind,
                     List.concat (t :: ts) = before ++ group ++ behind)
              (captured ps ts)).
    { eapply Forall_impl; [| exact IH].
      intros g (Hne & Hd & before & behind & E).
      repeat split; try assumption.
      exists (t ++ before), behind. cbn [List.concat]. rewrite E.
      now rewrite app_assoc. }
    destruct c; cbn [captured]; [| exact Htail].
    constructor; [| exact Htail].
    cbn [fst snd] in Hp. rewrite (Hp eq_refl) in Hr.
    apply accepts_plus_cls in Hr. destruct Hr as [Hne Hd].
    repeat split; try assumption.
    exists [], (List.concat ts). reflexivity.
Qed.

Lemma some_group (ps : pieces) :
  existsb fst ps = true ->
  forall prev ts rest prev',
    accepts_pieces ps prev ts rest prev' -> captured ps ts <> [].
Proof.
  induction ps as [| [c r] ps IH]; intros He prev ts rest prev' Hacc;
    [discriminate |].
  destruct ts as [| t ts]; [destruct Hacc |].
  destruct Hacc as (mid & _ & Hacc).
  destruct c; cbn [captured]; [discriminate |].
  cbn in He. eapply IH; eassumption.
Qed.

Lemma first_product_id_digits (patterns : list (pieces * bool)) (url : str) :
  Forall (fun pattern =>
            Forall (fun p => fst p = true -> snd p = Plus Re.d) (fst pattern)
            /\ existsb fst (fst pattern) = true) patterns ->
  exists found,
    first_product_id patterns url = Ok found
    /\ forall id, found = Some id ->
         id <> [] /\ forallb is_digit id = true /\ contains id url = true.
Proof.
  induction 1 as [| [ps anchored] patterns [Hd Hg] _ IH]; cbn [first_product_id].
  - exists None. split; [reflexivity | discriminate].
  - cbn [fst] in *.
    destruct (search_groups ps anchored url) as [groups |] eqn:E; [| exact IH].
    apply search_groups_from_sound in E.
    destruct E as (before & ts & rest & prev' & -> & Hacc & -> & _).
    pose proof (some_group ps Hg _ _ _ _ Hacc) as Hne.
    pose proof (digit_groups ps Hd _ _ _ _ Hacc) as Hall.
    destruct (captured ps ts) as [| group1 others]; [congruence |].
    exists (Some group1). split; [reflexivity |].
    intros id Eid. injection Eid as <-.
    apply Forall_inv in Hall.
    destruct Hall as (Hn & Hdig & b1 & b2 & Ec).
    repeat split; try assumption.
    rewrite Ec.
    replace (before ++ (b1 ++ group1 ++ b2) ++ rest)
      with ((before ++ b1) ++ group1 ++ (b2 ++ rest))
      by (now rewrite <- !app_assoc).
    apply contains_app.
Qed.

(** X4.  [extract_product_id] never raises, and an id it returns is a
    run of digits, not empty, that stands in the URL. *)
Theorem extract_product_id_is_a_number_of_the_url (url : str) :
  exists found,
    extract_product_id url = Ok found
    /\ forall id, found = Some id ->
         id <> [] /\ forallb is_digit id = true /\ contains id url = true.
Proof.
  unfold extract_product_id. destruct (negb (truthy url)).
  - exists None. split; [reflexivity | discriminate].
  - apply first_product_id_digits. unfold product_id_patterns.
    repeat constructor; cbn [fst snd]; intros; try reflexivity;
      discriminate.
Qed.

End ProductId.

Section Navigation.

Import Server.BaseScraper.

Lemma navigate_attempts_success (goto : nat -> goto_outcome) (retries : Z)
    (count : nat) :
  forall (start calls : nat) (slept status : Z),
    goto (start + count) = Response status ->
    (status < 400)%Z ->
    (forall j, start <= j < start + count ->
               match goto j with
               | Response st => (400 <= st)%Z
               | NoResponse => True
               | _ => Z.of_nat j <> retries
               end) ->
    forall more,
      navigate_attempts goto retries (seq start (S count + more)) calls slept
      = (Returns true, calls + count + 1,
         (slept + 2 ^ Z.of_nat (start + count) - 2 ^ Z.of_nat start)%Z).
Proof.
  induction count as [| count IH];
    intros start calls slept status Hok Hst Hbefore more.
  - cbn [seq Nat.add navigate_attempts]. rewrite Nat.add_0_r in *.
    rewrite Hok. replace (status <? 400)%Z with true
      by (symmetry; now apply Z.ltb_lt).
    rewrite ?Nat.add_0_r. f_equal; [f_equal; lia | lia].
  - change (seq start (S (S count) + more))
      with (start :: seq (S start) (S count + more)).
    cbn [navigate_attempts].
    specialize (IH (S start) (S calls) (slept + 2 ^ Z.of_nat start)%Z status).
    replace (S start + count) with (start + S count) in IH by lia.
    rewrite IH; try assumption.
    + pose proof (Hbefore start ltac:(lia)) as Hs.
      assert (E : (2 ^ Z.of_nat (S start) = 2 * 2 ^ Z.of_nat start)%Z).
      { rewrite Nat2Z.inj_succ. rewrite Z.pow_succ_r by lia. reflexivity. }
      destruct (goto start) as [st | | |].
      * replace (st <? 400)%Z with false
          by (symmetry; apply Z.ltb_ge; lia).
        f_equal; [f_equal; lia | lia].
      * f_equal; [f_equal; lia | lia].
      * replace (Z.of_nat start =? retries)%Z with false
          by (symmetry; now apply Z.eqb_neq).
        f_equal; [f_equal; lia | lia].
      * replace (Z.of_nat start =? retries)%Z with false
          by (symmetry; now apply Z.eqb_neq).
        f_equal; [f_equal; lia | lia].
    + intros j Hj. apply Hbefore. lia.
Qed.

Lemma navigate_attempts_failure (goto : nat -> goto_outcome) (retries : Z)
    (count : nat) :
  forall (start calls : nat) (slept : Z),
    Z.of_nat (start + count) = retries ->
    (forall j, start <= j <= start + count ->
               match goto j with
               | Response st => (400 <= st)%Z
               | _ => True
               end) ->
    navigate_attempts goto retries (seq start (S count)) calls slept
    = match goto (start + count) with
      | PlaywrightTimeoutError =>
          (ScraperTimeoutError, calls + count + 1,
           (slept + 2 ^ Z.of_nat (start + count) - 2 ^ Z.of_nat start)%Z)
      | OtherError =>
          (ScraperNavigationError, calls + count + 1,
           (slept + 2 ^ Z.of_nat (start + count) - 2 ^ Z.of_nat start)%Z)
      | _ =>
          (Returns false, calls + count + 1,
           (slept + 2 ^ Z.of_nat (S (start + count)) - 2 ^ Z.of_nat start)%Z)
      end.
Proof.
  induction count as [| count IH]; intros start calls slept Hlast Hfail.
  - rewrite Nat.add_0_r in *. cbn [seq navigate_attempts].
    pose proof (Hfail start ltac:(lia)) as Hs.
    assert (E : (2 ^ Z.of_nat (S start) = 2 * 2 ^ Z.of_nat start)%Z).
    { rewrite Nat2Z.inj_succ. rewrite Z.pow_succ_r by lia. reflexivity. }
    replace (Z.of_nat start =? retries)%Z with true
      by (symmetry; now apply Z.eqb_eq).
    destruct (goto start) as [st | | |].
    + replace (st <? 400)%Z with false by (symmetry; apply Z.ltb_ge; lia).
      f_equal; [f_equal; lia | lia].
    + f_equal; [f_equal; lia | lia].
    + f_equal; [f_equal; lia | lia].
    + f_equal; [f_equal; lia | lia].
  - change (seq start (S (S count))) with (start :: seq (S start) (S count)).
    cbn [navigate_attempts].
    specialize (IH (S start) (S calls) (slept + 2 ^ Z.of_nat start)%Z).
    replace (S start + count) with (start + S count) in IH by lia.
    rewrite IH; [| assumption | intros j Hj; apply Hfail; lia].
    pose proof (Hfail start ltac:(lia)) as Hs.
    assert (E : (2 ^ Z.of_nat (S start) = 2 * 2 ^ Z.of_nat start)%Z).
    { rewrite Nat2Z.inj_succ. rewrite Z.pow_succ_r by lia. reflexivity. }
    assert (Hne : (Z.of_nat start =? retries)%Z = false).
    { apply Z.eqb_neq. lia. }
    rewrite Hne.
    destruct (goto start) as [st | | |];
      [replace (st <? 400)%Z with false by (symmetry; apply Z.ltb_ge; lia)
      | | | ];
      (destruct (goto (start + S count)); (f_equal; [f_equal; lia | lia])).
Qed.

(** X5.  [navigate_to_url] stops at the first attempt that is answered
    with a status below 400 and returns [True]; the seconds slept
    before are 1, 2, 4, ...  When none of the [retries + 1] attempts is
    answered so, the last attempt decides: a timeout raises
    [ScraperTimeoutError], another exception raises
    [ScraperNavigationError], and an answer with status 400 or more (or
    no answer) makes it sleep once more and return [False].  Exceptions
    of earlier attempts are not reported. *)
Theorem navigate_to_url_outcome (goto : nat -> goto_outcome) (retries : Z) :
  (0 <= retries)%Z ->
  let last := Z.to_nat retries in
  let answered (attempt : nat) : bool :=
    match goto attempt with
    | Response status => (status <? 400)%Z
    | _ => false
    end in
  (forall first,
      first <= last -> answered first = true ->
      (forall j, j < first -> answered j = false) ->
      navigate_to_url goto retries
      = (Returns true, first + 1, (2 ^ Z.of_nat first - 1)%Z))
  /\ ((forall j, j <= last -> answered j = false) ->
      navigate_to_url goto retries
      = match goto last with
        | PlaywrightTimeoutError =>
            (ScraperTimeoutError, last + 1, (2 ^ Z.of_nat last - 1)%Z)
        | OtherError =>
            (ScraperNavigationError, last + 1, (2 ^ Z.of_nat last - 1)%Z)
        | _ =>
            (Returns false, last + 1, (2 ^ Z.of_nat (S last) - 1)%Z)
        end).
Proof.
  intros Hr last answered. unfold navigate_to_url.
  replace (Z.to_nat (retries + 1)) with (S last) by (unfold last; lia).
  split.
  - intros first Hle Hok Hbefore.
    replace (S last) with (S first + (last - first)) by lia.
    unfold answered in Hok.
    destruct (goto first) as [status | | |] eqn:E; try discriminate.
    rewrite (navigate_attempts_success goto retries first 0 0 0%Z status).
    + cbn [Nat.add]. change (Z.of_nat 0) with 0%Z. rewrite Z.pow_0_r.
      f_equal; lia.
    + exact E.
    + now apply Z.ltb_lt.
    + intros j Hj. cbn [Nat.add] in Hj.
      pose proof (Hbefore j ltac:(lia)) as Hj'. unfold answered in Hj'.
      destruct (goto j) as [st | | |].
      * apply Z.ltb_ge. exact Hj'.
      * exact I.
      * unfold last in Hle. lia.
      * unfold last in Hle. lia.
  - intros Hnone.
    rewrite (navigate_attempts_failure goto retries last 0 0 0%Z).
    + cbn [Nat.add]. change (Z.of_nat 0) with 0%Z. rewrite Z.pow_0_r.
      destruct (goto last); (f_equal; lia).
    + unfold last. cbn [Nat.add]. lia.
    + intros j Hj. cbn [Nat.add] in Hj.
      pose proof (Hnone j ltac:(lia)) as Hj'. unfold answered in Hj'.
      destruct (goto j) as [st | | |]; try exact I.
      apply Z.ltb_ge. exact Hj'.
Qed.

Lemma navigate_to_url_outcome_witness :
  navigate_to_url
    (fun attempt => if attempt <? 2 then PlaywrightTimeoutError
                    else Response 200) 3
  = (Returns true, 3, 3%Z).
Proof.
  apply (proj1 (navigate_to_url_outcome
                  (fun attempt => if attempt <? 2 then PlaywrightTimeoutError
                                  else Response 200) 3 ltac:(lia)) 2).
  - cbn. lia.
  - reflexivity.
  - intros j Hj. destruct j as [| [| j]]; [reflexivity | reflexivity | lia].
Defined.

End Navigation.

(** ** Discounts *)

Section Discounts.

Import PyStr PyNum Py Server Server.BaseScraper.

Lemma Qle_bool_true (a b : Q) : (a <= b)%Q -> Qle_bool a b = true.
Proof. intro H. now apply Qle_bool_iff. Qed.

Lemma is_zero_false (q : Q) : ~ (q == 0)%Q -> is_zero q = false.
Proof. intro H. unfold is_zero. now apply Qeq_bool_false. Qed.

Lemma Qlt_bool_false (a b : Q) : (b <= a)%Q -> Qlt_bool a b = false.
Proof.
  intro H. unfold Qlt_bool. rewrite (Qle_bool_true _ _ H). reflexivity.
Qed.

(** The share of the original price that was taken off. *)
Lemma discount_share (op p : Q) :
  (0 < op)%Q -> (0 < p)%Q ->
  ((((op - p) / op) * 100 < 100)%Q)
  /\ ((0 < ((op - p) / op) * 100)%Q <-> (p < op)%Q).
Proof.
  intros Hop Hp.
  assert (Hne : ~ (op == 0)%Q) by (intro E; rewrite E in Hop; discriminate).
  assert (E : (((op - p) / op) * 100 == 100 - 100 * (p / op))%Q)
    by (field; exact Hne).
  assert (Hy : (0 < p / op)%Q).
  { unfold Qdiv. apply Qmult_lt_0_compat;
      [exact Hp | now apply Qinv_lt_0_compat]. }
  assert (H100 : (0 < 100 * (p / op))%Q)
    by (apply Qmult_lt_0_compat; [reflexivity | exact Hy]).
  rewrite E. split.
  - apply Qlt_minus_iff.
    setoid_replace (100 + - (100 - 100 * (p / op)))%Q
      with (100 * (p / op))%Q by ring.
    exact H100.
  - split; intro H.
    + assert (Hlt : (p / op < 1)%Q).
      { apply Qlt_minus_iff.
        apply Qmult_lt_r with (z := 100%Q); [reflexivity |].
        setoid_replace (0 * 100)%Q with 0%Q by ring.
        setoid_replace ((1 + - (p / op)) * 100)%Q
          with (100 - 100 * (p / op))%Q by ring.
        exact H. }
      apply (Qmult_lt_r _ _ op Hop) in Hlt.
      setoid_replace (p / op * op)%Q with p in Hlt by (field; exact Hne).
      setoid_replace (1 * op)%Q with op in Hlt by ring.
      exact Hlt.
    + assert (Hlt : (p / op < 1)%Q).
      { apply Qlt_shift_div_r; [exact Hop |].
        setoid_replace (1 * op)%Q with op by ring. exact H. }
      apply Qlt_minus_iff in Hlt.
      setoid_replace (100 - 100 * (p / op))%Q
        with ((1 + - (p / op)) * 100)%Q by ring.
      apply Qmult_lt_0_compat; [exact Hlt | reflexivity].
Qed.

(** X6.  A record built with an original price above zero, a price
    above zero and no percentage gets its percentage from
    [__post_init__]: the share taken off the original price, which is
    below 100, and the record counts as discounted exactly when its
    price is below the original one. *)
Theorem post_init_derives_the_discount (p : ScrapedProduct) (op : Q) :
  original_price p = Some op ->
  (0 < op)%Q ->
  (0 < price p)%Q ->
  discount_percentage p = None ->
  let built := __post_init__ p in
  let share := (((op - price p) / op) * 100)%Q in
  discount_percentage built = Some share
  /\ (share < 100)%Q
  /\ (is_discounted built = true <-> (price p < op)%Q)
  /\ original_price built = Some op
  /\ price built = price p
  /\ name built = name p.
Proof.
  intros Hop Hpos Hprice Hpct built share.
  assert (Hb : built = __post_init__ p) by reflexivity.
  unfold __post_init__ in Hb. rewrite Hop, Hpct in Hb.
  rewrite is_zero_false in Hb
    by (intro E; rewrite E in Hpos; discriminate).
  rewrite is_zero_false in Hb
    by (intro E; rewrite E in Hprice; discriminate).
  cbn [negb andb PyNum.truthy_opt] in Hb.
  destruct (discount_share op (price p) Hpos Hprice) as [Hlt Hiff].
  rewrite Hb. cbn [discount_percentage is_discounted original_price price name].
  repeat split; try assumption.
  - intro H. apply Hiff. now apply Qlt_bool_iff.
  - intro H. apply Qlt_bool_iff. now apply Hiff.
Qed.

Lemma post_init_derives_the_discount_witness :
  let p := set_original_price (Some 25%Q)
             (scraped (list_ascii_of_string "Milk") 20%Q) in
  let built := __post_init__ p in
  let share := (((25 - price p) / 25) * 100)%Q in
  discount_percentage built = Some share
  /\ (share < 100)%Q
  /\ (is_discounted built = true <-> (price p < 25)%Q)
  /\ original_price built = Some 25%Q
  /\ price built = price p
  /\ name built = name p.
Proof.
  apply (post_init_derives_the_discount
           (set_original_price (Some 25%Q)
              (scraped (list_ascii_of_string "Milk") 20%Q)) 25%Q);
    reflexivity.
Defined.

(** X7.  When the original price of a record is below its price, the
    percentage [__post_init__] derived is negative, and the validation
    of the scraper, which clears the original price and the discount
    flag, leaves that percentage on the record: the record passes both
    validations and its price row is stored with a negative
    [discount_percentage] and no original price. *)
Theorem negative_percentage_survives_validation
    (p : ScrapedProduct) (op : Q) :
  truthy (strip (name p)) = true ->
  original_price p = Some op ->
  (0 < op)%Q ->
  (op < price p)%Q ->
  discount_percentage p = None ->
  let checked := snd (validate_product (__post_init__ p)) in
  fst (validate_product (__post_init__ p)) = true
  /\ original_price checked = None
  /\ is_discounted checked = false
  /\ (exists share,
         discount_percentage checked = Some share /\ (share < 0)%Q)
  /\ DataProcessor._validate_scraped_product checked = true
  /\ forall now product_id store_id,
       let row := DataProcessor.price_row now product_id store_id checked in
       Price.discount_percentage row = discount_percentage checked
       /\ Price.original_price row = None
       /\ Price.is_discounted row = false.
Proof.
  intros Hname Hop Hpos Hlt Hpct checked.
  assert (Hprice : (0 < price p)%Q) by (eapply Qlt_trans; eassumption).
  assert (Hnz : ~ (op == 0)%Q) by (intro E; rewrite E in Hpos; discriminate).
  assert (Hb : __post_init__ p = __post_init__ p) by reflexivity.
  unfold __post_init__ in Hb at 2. rewrite Hop, Hpct in Hb.
  rewrite (is_zero_false _ Hnz) in Hb.
  rewrite is_zero_false in Hb
    by (intro E; rewrite E in Hprice; discriminate).
  cbn [negb andb PyNum.truthy_opt] in Hb.
  assert (Hshare : ((((op - price p) / op) * 100) < 0)%Q).
  { assert (Hx : (0 < ((price p + - op) * / op) * 100)%Q).
    { apply Qmult_lt_0_compat; [| reflexivity].
      apply Qmult_lt_0_compat; [| now apply Qinv_lt_0_compat].
      now apply Qlt_minus_iff in Hlt. }
    apply Qlt_minus_iff.
    setoid_replace (0 + - (((op - price p) / op) * 100))%Q
      with (((price p + - op) * / op) * 100)%Q by (field; exact Hnz).
    exact Hx. }
  assert (Hn : truthy (name p) = true).
  { destruct (name p); [discriminate Hname | reflexivity]. }
  assert (Hlen : (List.length (strip (name p)) =? 0) = false).
  { destruct (strip (name p)); [discriminate Hname | reflexivity]. }
  assert (Hv : validate_product (__post_init__ p)
               = (true, set_is_discounted false
                          (set_original_price None (__post_init__ p)))).
  { rewrite Hb. unfold validate_product.
    cbn [name price original_price]. rewrite Hn, Hname. cbn [negb orb].
    rewrite (Qle_bool_false _ _ Hprice).
    rewrite (is_zero_false _ Hnz).
    now rewrite (Qlt_bool_true _ _ Hlt). }
  unfold checked. rewrite Hv. cbn [fst snd]. rewrite Hb.
  cbn [set_is_discounted set_original_price original_price is_discounted
       discount_percentage name price].
  repeat split.
  - eexists. split; [reflexivity | exact Hshare].
  - unfold DataProcessor._validate_scraped_product.
    cbn [name price original_price set_is_discounted set_original_price].
    rewrite Hn, Hlen. cbn [negb orb].
    now rewrite (Qle_bool_false _ _ Hprice).
Qed.

Lemma negative_percentage_survives_validation_witness :
  let p := set_original_price (Some 25%Q)
             (scraped (list_ascii_of_string "Milk") 30%Q) in
  let checked := snd (validate_product (__post_init__ p)) in
  fst (validate_product (__post_init__ p)) = true
  /\ original_price checked = None
  /\ is_discounted checked = false
  /\ (exists share,
         discount_percentage checked = Some share /\ (share < 0)%Q)
  /\ DataProcessor._validate_scraped_product checked = true
  /\ forall now product_id store_id,
       let row := DataProcessor.price_row now product_id store_id checked in
       Price.discount_percentage row = discount_percentage checked
       /\ Price.original_price row = None
       /\ Price.is_discounted row = false.
Proof.
  apply (negative_percentage_survives_validation
           (set_original_price (Some 25%Q)
              (scraped (list_ascii_of_string "Milk") 30%Q)) 25%Q);
    reflexivity.
Defined.

(** What the scraper's validation accepts, the data processor's
    validation accepts too, and a second validation changes nothing. *)
Lemma validate_product_settles (p checked : ScrapedProduct) :
  validate_product p = (true, checked) ->
  DataProcessor._validate_scraped_product checked = true
  /\ validate_product checked = (true, checked).
Proof.
  unfold validate_product, DataProcessor._validate_scraped_product.
  destruct (truthy (name p)) eqn:Hn; cbn [negb orb]; [| discriminate].
  destruct (truthy (strip (name p))) eqn:Hs; cbn [negb]; [| discriminate].
  destruct (Qle_bool (price p) 0) eqn:Hp; [discriminate |].
  assert (Hlen : (List.length (strip (name p)) =? 0) = false).
  { destruct (strip (name p)); [discriminate Hs | reflexivity]. }
  destruct (original_price p) as [op |] eqn:Hop.
  - destruct (negb (is_zero op) && Qlt_bool op (price p)) eqn:Hc;
      intro H; injection H as <-.
    + cbn [name price original_price set_is_discounted set_original_price].
      rewrite Hn, Hs, Hlen, Hp. cbn. auto.
    + rewrite Hn, Hs, Hlen, Hp, Hop. cbn [negb orb PyNum.truthy_opt].
      rewrite Hc. auto.
  - intro H; injection H as <-.
    rewrite Hn, Hs, Hlen, Hp, Hop. cbn. auto.
Qed.

(** X8.  The validation loop of [run_scraping] accounts for every
    record, keeps the accepted ones in their order, and hands on only
    records that the data processor's validation accepts as well and
    that a second validation leaves as they are. *)
Theorem run_scraping_keeps_only_valid_records
    (products : list ScrapedProduct) :
  let valid_products := fst (run_scraping_validate products) in
  let dropped := snd (run_scraping_validate products) in
  List.length valid_products + dropped = List.length products
  /\ Forall (fun product =>
               DataProcessor._validate_scraped_product product = true
               /\ validate_product product = (true, product))
            valid_products
  /\ run_scraping_validate valid_products = (valid_products, 0).
Proof.
  induction products as [| p products IH]; cbn zeta.
  - cbn. auto.
  - cbn [run_scraping_validate].
    destruct (validate_product p) as [ok checked] eqn:Hv.
    destruct (run_scraping_validate products) as [valid dropped] eqn:Hr.
    cbn [fst snd] in IH. destruct IH as (Hlen & Hall & Hagain).
    destruct ok; cbn [fst snd List.length].
    + destruct (validate_product_settles _ _ Hv) as [Hd Hs].
      repeat split.
      * lia.
      * constructor; [split; assumption | exact Hall].
      * cbn [run_scraping_validate]. rewrite Hs, Hagain. reflexivity.
    + repeat split; [lia | exact Hall | exact Hagain].
Qed.

End Discounts.

(** ** Prices per unit *)

Section PerUnit.

Import PyStr PyNum Py Server Server.BaseScraper Server.PriceCalculator.

Lemma round_half_even_le (q : Q) (n : Z) :
  (q <= inject_Z n)%Q -> (round_half_even q <= n)%Z.
Proof.
  intro H. unfold round_half_even.
  assert (Hfl : (Qfloor q <= n)%Z).
  { rewrite <- (Qfloor_Z n). now apply Qfloor_resp_le. }
  destruct (Z.eq_dec (Qfloor q) n) as [E | Hne].
  - assert (Hfrac : (q - inject_Z (Qfloor q) < 1 # 2)%Q).
    { rewrite E. apply Qle_lt_trans with (y := 0%Q); [| reflexivity].
      apply Qle_minus_iff in H. apply Qle_minus_iff.
      setoid_replace (0 + - (q - inject_Z n))%Q
        with (inject_Z n + - q)%Q by ring.
      exact H. }
    apply Qlt_bool_iff in Hfrac. rewrite Hfrac. lia.
  - repeat match goal with
           | |- context [if ?b then _ else _] => destruct b
           end; lia.
Qed.

Lemma round2_le (q : Q) (n : Z) :
  (q <= inject_Z n)%Q -> (round2 q <= inject_Z n)%Q.
Proof.
  intro H. unfold round2, round2_cents.
  assert (Hc : (round_half_even (q * 100) <= n * 100)%Z).
  { apply round_half_even_le. rewrite inject_Z_mult.
    apply Qmult_le_compat_r; [exact H | discriminate]. }
  unfold Qle. cbn. lia.
Qed.

(** X9.  [calculate_discount_percentage] is never negative; it is 0
    when there is nothing to take off (no positive original price, or a
    current price that is not below it), and it does not exceed 100 for
    a current price that is not negative. *)
Theorem calculate_discount_percentage_range (original_price current_price : Q) :
  (0 <= calculate_discount_percentage original_price current_price)%Q
  /\ ((original_price <= 0)%Q \/ (original_price <= current_price)%Q ->
      calculate_discount_percentage original_price current_price = 0%Q)
  /\ ((0 <= current_price)%Q ->
      (calculate_discount_percentage original_price current_price <= 100)%Q).
Proof.
  unfold calculate_discount_percentage.
  destruct (Qle_bool original_price 0) eqn:E0.
  { cbn [orb]. repeat split; try discriminate; auto. }
  destruct (Qle_bool original_price current_price) eqn:E1.
  { cbn [orb]. repeat split; try discriminate; auto. }
  cbn [orb].
  assert (Hop : (0 < original_price)%Q).
  { apply Qnot_le_lt. intro H. apply Qle_bool_iff in H. congruence. }
  assert (Hlt : (current_price < original_price)%Q).
  { apply Qnot_le_lt. intro H. apply Qle_bool_iff in H. congruence. }
  assert (Hne : ~ (original_price == 0)%Q)
    by (intro E; rewrite E in Hop; discriminate).
  repeat split.
  - apply round2_nonneg.
    apply Qmult_le_0_compat; [| discriminate].
    unfold Qdiv. apply Qmult_le_0_compat.
    + unfold Qminus. apply Qlt_le_weak. now apply Qlt_minus_iff in Hlt.
    + apply Qlt_le_weak. now apply Qinv_lt_0_compat.
  - intros [H | H]; exfalso.
    + apply (Qlt_not_le _ _ Hop H).
    + apply (Qlt_not_le _ _ Hlt H).
  - intro Hc. apply (round2_le _ 100).
    setoid_replace (((original_price - current_price) / original_price) * 100)%Q
      with (100 - 100 * (current_price / original_price))%Q
      by (field; exact Hne).
    apply Qle_minus_iff.
    setoid_replace (inject_Z 100 + - (100 - 100 * (current_price / original_price)))%Q
      with (100 * (current_price / original_price))%Q by ring.
    apply Qmult_le_0_compat; [discriminate |].
    unfold Qdiv. apply Qmult_le_0_compat; [exact Hc |].
    apply Qlt_le_weak. now apply Qinv_lt_0_compat.
Qed.

(** The weight units of the table: their names are lower-case words
    and their factors are above zero. *)
Lemma weight_unit_of_table (unit : str) (factor : Q) :
  lookup unit UNIT_CONVERSIONS_TO_KG = Some factor ->
  truthy unit = true /\ strip unit = unit /\ lower unit = unit
  /\ (0 < factor)%Q.
Proof.
  unfold UNIT_CONVERSIONS_TO_KG. cbn [lookup].
  repeat match goal with
         | |- context [str_eqb ?k unit] =>
             let E := fresh "E" in
             destruct (str_eqb k unit) eqn:E;
             [apply str_eqb_eq in E; subst unit; intro H; injection H as <-;
              repeat split; reflexivity |]
         end.
  discriminate.
Qed.

Lemma volume_unit_of_table (unit : str) (factor : Q) :
  lookup unit UNIT_CONVERSIONS_TO_L = Some factor ->
  truthy unit = true /\ strip unit = unit /\ lower unit = unit
  /\ (0 < factor)%Q /\ lookup unit UNIT_CONVERSIONS_TO_KG = None.
Proof.
  unfold UNIT_CONVERSIONS_TO_L. cbn [lookup].
  repeat match goal with
         | |- context [str_eqb ?k unit] =>
             let E := fresh "E" in
             destruct (str_eqb k unit) eqn:E;
             [apply str_eqb_eq in E; subst unit; intro H; injection H as <-;
              repeat split; reflexivity |]
         end.
  discriminate.
Qed.

Lemma is_zero_true_iff (q : Q) : is_zero q = true <-> (q == 0)%Q.
Proof. unfold is_zero. apply Qeq_bool_iff. Qed.

Lemma positive_not_zero (q : Q) : (0 < q)%Q -> is_zero q = false.
Proof.
  intro H. apply is_zero_false. intro E. rewrite E in H. discriminate.
Qed.

Lemma positive_not_le (q : Q) : (0 < q)%Q -> Qle_bool q 0 = false.
Proof. intro H. now apply Qle_bool_false. Qed.

(** What [calculate_price_per_unit] gives for a unit of one of the two
    tables and a weight above zero. *)
Lemma price_per_known_unit (price weight : Q) (unit : str) (factor : Q) :
  lookup unit UNIT_CONVERSIONS_TO_KG = Some factor
  \/ lookup unit UNIT_CONVERSIONS_TO_L = Some factor ->
  (0 < weight)%Q ->
  calculate_price_per_unit price weight unit
  = Some (round2 (price / (weight * factor))).
Proof.
  intros Hu Hw. unfold calculate_price_per_unit, convert_to_standard_unit.
  rewrite (positive_not_zero _ Hw), (positive_not_le _ Hw). cbn [orb].
  assert (H : truthy unit = true /\ strip unit = unit /\ lower unit = unit
              /\ (0 < factor)%Q
              /\ match lookup unit UNIT_CONVERSIONS_TO_KG with
                 | Some f => Some f
                 | None => lookup unit UNIT_CONVERSIONS_TO_L
                 end = Some factor).
  { destruct Hu as [Hu | Hu].
    - destruct (weight_unit_of_table _ _ Hu) as (H1 & H2 & H3 & H4).
      rewrite Hu. auto.
    - destruct (volume_unit_of_table _ _ Hu) as (H1 & H2 & H3 & H4 & H5).
      rewrite H5. auto. }
  destruct H as (Ht & Hs & Hl & Hf & Hlook).
  rewrite Ht, Hl, Hs. cbn [negb].
  assert (Hpos : (0 < weight * factor)%Q) by now apply Qmult_lt_0_compat.
  destruct (lookup unit UNIT_CONVERSIONS_TO_KG) as [f |].
  - injection Hlook as ->. now rewrite (positive_not_zero _ Hpos).
  - rewrite Hlook. now rewrite (positive_not_zero _ Hpos).
Qed.

(** X10.  For a weight unit of the table, written in any case,
    [calculate_price_per_kg] and [calculate_price_per_unit] give the
    same price; for any other unit, the volume units among them,
    [calculate_price_per_kg] gives nothing. *)
Theorem calculate_price_per_kg_agrees (price : Q) (size unit : str) :
  match lookup (lower unit) UNIT_CONVERSIONS_TO_KG with
  | Some _ =>
      calculate_price_per_kg price size unit
      = match PyParse.float (Re.sub not_size_char [] size) with
        | Ok size_value =>
            calculate_price_per_unit price size_value (lower unit)
        | Raise _ => None
        end
  | None => calculate_price_per_kg price size unit = None
  end.
Proof.
  unfold calculate_price_per_kg.
  destruct (lookup (lower unit) UNIT_CONVERSIONS_TO_KG) as [factor |] eqn:Hu.
  - destruct (PyParse.float _) as [w | e]; [| reflexivity].
    destruct (weight_unit_of_table _ _ Hu) as (_ & _ & _ & Hf).
    rewrite (positive_not_zero _ Hf). cbn [orb].
    destruct (Qle_bool w 0) eqn:Hw.
    + unfold calculate_price_per_unit. rewrite Hw.
      now rewrite orb_true_r.
    + assert (Hpos : (0 < w)%Q).
      { apply Qnot_le_lt. intro H. apply Qle_bool_iff in H. congruence. }
      rewrite (price_per_known_unit price w (lower unit) factor);
        [| now left | exact Hpos].
      assert (Hwf : (0 < w * factor)%Q) by now apply Qmult_lt_0_compat.
      now rewrite (positive_not_zero _ Hwf).
  - destruct (PyParse.float _); reflexivity.
Qed.

(** X11.  Every unit [extract_weight_info] can return is a unit
    [calculate_price_per_unit] knows: for a weight above zero read from
    a text, the price per unit exists, and it is not negative for a
    price that is not. *)
Theorem extracted_weight_has_a_unit_price
    (text : str) (value : Q) (unit : str) (price : Q) :
  extract_weight_info text = Ok (Some value, Some unit) ->
  (0 < value)%Q ->
  exists per_unit,
    calculate_price_per_unit price value unit = Some per_unit
    /\ ((0 <= price)%Q -> (0 <= per_unit)%Q).
Proof.
  intros Hx Hv.
  destruct (extract_weight_info_cases text) as (r & Hr & Hcases).
  rewrite Hx in Hr. injection Hr as <-.
  destruct Hcases as [H | (v & u & H & _ & Hu)]; [discriminate |].
  injection H as <- <-.
  assert (Hf : exists factor,
             (lookup unit UNIT_CONVERSIONS_TO_KG = Some factor
              \/ lookup unit UNIT_CONVERSIONS_TO_L = Some factor)
             /\ (0 < factor)%Q).
  { cbn [map] in Hu.
    repeat (destruct Hu as [<- | Hu];
            [eexists; split; [first [left; reflexivity | right; reflexivity]
                             | reflexivity] |]).
    destruct Hu. }
  destruct Hf as (factor & Hlook & Hf).
  rewrite (price_per_known_unit price value unit factor Hlook Hv).
  eexists. split; [reflexivity |].
  intro Hp. apply round2_nonneg.
  unfold Qdiv. apply Qmult_le_0_compat; [exact Hp |].
  apply Qlt_le_weak, Qinv_lt_0_compat. now apply Qmult_lt_0_compat.
Qed.

Lemma extracted_weight_has_a_unit_price_witness :
  exists per_unit,
    calculate_price_per_unit 30 (5 # 10) (list_ascii_of_string "kg")
    = Some per_unit
    /\ ((0 <= 30)%Q -> (0 <= per_unit)%Q).
Proof.
  apply (extracted_weight_has_a_unit_price
           (list_ascii_of_string "Rice 0.5 kg") (5 # 10)
           (list_ascii_of_string "kg") 30).
  - vm_compute. reflexivity.
  - reflexivity.
Defined.

End PerUnit.

(** ** What a run does to the tables *)

Section Rounds.

Import PyStr PyNum Py Server Server.Session.
Import Server.DataProcessor.

Variable faults : Faults.
Variable now : Z.
Variable store_id : Z.

Lemma process_one_round (sp : ScrapedProduct) (run : Run) :
  process_one faults now store_id sp run
  = (Ok tt,
     {| committed := committed run;
        pending := fst (loop_round faults now store_id
                          (pending run, stats run) sp);
        stats := snd (loop_round faults now store_id
                        (pending run, stats run) sp) |}).
Proof.
  unfold process_one, try_except, bind, in_session, update_stats, modify,
    loop_round.
  cbn [fst snd].
  destruct (_process_single_product faults now store_id sp (pending run))
    as [[r | e] db']; reflexivity.
Qed.

Lemma loop_rounds (unique_products : list ScrapedProduct) (run : Run) :
  for_each unique_products (process_one faults now store_id) run
  = (Ok tt,
     {| committed := committed run;
        pending := fst (fold_left (loop_round faults now store_id)
                          unique_products (pending run, stats run));
        stats := snd (fold_left (loop_round faults now store_id)
                        unique_products (pending run, stats run)) |}).
Proof.
  revert run. induction unique_products as [| sp rest IH]; intro run.
  - destruct run; reflexivity.
  - cbn [for_each fold_left]. unfold bind at 1.
    rewrite process_one_round. rewrite IH. cbn [committed pending stats].
    destruct (loop_round faults now store_id (pending run, stats run) sp);
      reflexivity.
Qed.

(** The whole of [process_scraped_products], round by round. *)
Lemma process_scraped_products_rounds
    (scraped_products : list ScrapedProduct) (db : Db) :
  let unique_products := _remove_duplicates scraped_products in
  let after :=
    fold_left (loop_round faults now store_id) unique_products
      (db, set_duplicates_removed
             (List.length scraped_products - List.length unique_products)
             (initial_stats scraped_products)) in
  process_scraped_products faults now store_id scraped_products db
  = if store_stats_fault faults || commit_fault faults
    then (Ok (add_error (RunError SQLAlchemyError) false (snd after)), db)
    else
      (Ok (snd after),
       match first_index (fun s => Z.eqb (Store.id s) store_id)
               (stores (fst after)) with
       | Some row =>
           {| products := products (fst after);
              prices := prices (fst after);
              price_history := price_history (fst after);
              stores :=
                update_at row
                  (scraped_once now
                     (match errors (snd after) with
                      | [] => false
                      | _ => true
                      end))
                  (stores (fst after)) |}
       | None => fst after
       end).
Proof.
  intros unique_products after.
  unfold process_scraped_products, try_except, reconcile.
  fold unique_products.
  unfold bind at 1. unfold update_stats at 1. unfold modify at 1.
  cbn [committed pending stats].
  unfold bind at 1. rewrite loop_rounds. cbn [committed pending stats].
  fold after.
  unfold bind at 1. unfold get at 1.
  unfold bind at 1. unfold in_session, _update_store_stats.
  cbn [committed pending stats].
  destruct (store_stats_fault faults); cbn [orb].
  - reflexivity.
  - unfold bind at 1. unfold get at 1.
    destruct (first_index _ (stores (fst after))) as [row |];
      unfold commit, on_failure, rollback, update_stats, bind, modify, raise, ret;
      destruct (commit_fault faults); reflexivity.
Qed.

End Rounds.

Section RoundCases.

Import PyStr PyNum Py Server Server.Session.
Import Server.DataProcessor.

Variable faults : Faults.
Variable now : Z.
Variable store_id : Z.

Lemma update_at_twice {A : Type} (i : nat) (f g : A -> A) (l : list A) :
  update_at i f (update_at i g l) = update_at i (fun x => f (g x)) l.
Proof.
  revert i. induction l as [| x l IH]; intros [| i]; cbn; try reflexivity.
  now rewrite IH.
Qed.

(** What one round does, case by case: nothing is written for a record
    that is invalid or whose lookup fails; a record without a match
    adds a product and its price; a record with a match rewrites that
    product's row and adds at most a price and a history entry. *)
Lemma loop_round_cases (sp : ScrapedProduct) (db : Db) (st : Stats) :
  let db' := fst (loop_round faults now store_id (db, st) sp) in
  let st' := snd (loop_round faults now store_id (db, st) sp) in
  stores db' = stores db
  /\ ((db' = db
       /\ (st' = count_result
                   {| result_action := invalid; result_product_id := None;
                      result_price_updated := false |} st
           \/ exists e, st' = add_error (ProductError (name sp) e) true st))
      \/ (_validate_scraped_product sp = true
          /\ find_row store_id sp (products db) = None
          /\ products db'
             = products db ++ [new_product (next_product_id db) store_id sp]
          /\ prices db'
             = prices db ++ [price_row now (next_product_id db) store_id sp]
          /\ price_history db' = price_history db
          /\ st' = count_result
                     {| result_action := created;
                        result_product_id := Some (next_product_id db);
                        result_price_updated := false |} st)
      \/ (exists row product written,
             _validate_scraped_product sp = true
             /\ find_row store_id sp (products db) = Some row
             /\ nth_error (products db) row = Some product
             /\ Product.store_id product = store_id
             /\ (written = merge_fields product sp
                 \/ written = touch now (merge_fields product sp))
             /\ products db' = update_at row (fun _ => written) (products db)
             /\ ((prices db'
                  = prices db
                    ++ [price_row now (Product.id product)
                          (Product.store_id product) sp]
                  /\ (price_history db' = price_history db
                      \/ exists current,
                           current_price_of (Product.id product)
                             (Product.store_id product) db = Some current
                           /\ price_history db'
                              = price_history db ++ [history_row current sp])
                  /\ st' = count_result
                             {| result_action := updated;
                                result_product_id := Some (Product.id product);
                                result_price_updated := true |} st)
                 \/ (prices db' = prices db
                     /\ price_history db' = price_history db
                     /\ (st' = count_result
                                 {| result_action := updated;
                                    result_product_id :=
                                      Some (Product.id product);
                                    result_price_updated := false |} st
                         \/ exists e,
                              st' = add_error (ProductError (name sp) e)
                                      true st))))).
Proof.
  intros db' st'. subst db' st'. unfold loop_round. cbn [fst snd].
  destruct (_validate_scraped_product sp) eqn:Hv.
  2: { rewrite process_invalid by exact Hv. cbn [fst snd].
       split; [reflexivity |]. left. split; [reflexivity | now left]. }
  destruct (record_fault faults sp) eqn:Hf.
  { rewrite process_fault by assumption. cbn [fst snd].
    split; [reflexivity |]. left. split; [reflexivity |]. right. eauto. }
  destruct (find_row store_id sp (products db)) as [row |] eqn:Hfind.
  2: { rewrite process_created by assumption. cbn [fst snd products prices
         price_history stores].
       split; [reflexivity |]. right. left. repeat split; auto. }
  destruct (find_row_in_range store_id sp _ _ Hfind) as (product & Hrow & Hstore).
  rewrite (process_matched faults now store_id sp db row product)
    by assumption.
  rewrite update_existing_product_run. cbv zeta.
  destruct (current_price_of _ _ db) as [current |] eqn:Hcur.
  - destruct (_should_update_price now current sp) as [[|] | e];
      cbn [fst snd products prices price_history stores];
      rewrite ?update_at_twice;
      (split; [reflexivity |]); right; right;
      exists row, product.
    + exists (touch now (merge_fields product sp)).
      repeat split; auto. left. repeat split; auto. right.
      exists current. auto.
    + exists (touch now (merge_fields product sp)).
      repeat split; auto 6.
    + exists (merge_fields product sp).
      repeat split; auto. right. repeat split; auto. right. eauto.
  - cbn [fst snd products prices price_history stores].
    rewrite ?update_at_twice.
    split; [reflexivity |]. right. right.
    exists row, product, (touch now (merge_fields product sp)).
    repeat split; auto 6.
Qed.

End RoundCases.

Section RunAccounts.

Import PyStr PyNum Py Server Server.Session.
Import Server.DataProcessor.

Variable faults : Faults.
Variable now : Z.
Variable store_id : Z.

Lemma dedup_length (products : list ScrapedProduct)
    (acc : list ScrapedProduct * list str) :
  List.length (fst (fold_left dedup_step products acc))
  <= List.length (fst acc) + List.length products.
Proof.
  revert acc. induction products as [| p products IH]; intro acc;
    cbn [fold_left List.length]; [lia |].
  specialize (IH (dedup_step acc p)).
  assert (List.length (fst (dedup_step acc p)) <= S (List.length (fst acc))).
  { unfold dedup_step. destruct acc as [u s]. cbn [fst].
    destruct (existsb _ s); cbn [fst]; [lia |].
    rewrite length_app. cbn. lia. }
  lia.
Qed.

Lemma remove_duplicates_length (products : list ScrapedProduct) :
  List.length (_remove_duplicates products) <= List.length products.
Proof. apply (dedup_length products ([], [])). Qed.

(** The counters and the tables move together in every round. *)
Lemma loop_round_accounts (sp : ScrapedProduct) (db : Db) (st : Stats) :
  let db' := fst (loop_round faults now store_id (db, st) sp) in
  let st' := snd (loop_round faults now store_id (db, st) sp) in
  total_scraped st' = total_scraped st
  /\ duplicates_removed st' = duplicates_removed st
  /\ products_created st' + products_updated st' + invalid_products st'
     = S (products_created st + products_updated st + invalid_products st)
  /\ (prices_added st' + prices_updated st')
     + (products_created st + products_updated st)
     = (prices_added st + prices_updated st)
       + (products_created st' + products_updated st')
  /\ List.length (products db') + products_created st
     = List.length (products db) + products_created st'
  /\ List.length (prices db') + (products_created st + prices_updated st)
     = List.length (prices db) + (products_created st' + prices_updated st')
  /\ List.length (price_history db) <= List.length (price_history db')
  /\ List.length (price_history db') + prices_updated st
     <= List.length (price_history db) + prices_updated st'
  /\ List.length (errors st') + invalid_products st
     <= List.length (errors st) + invalid_products st'
  /\ List.length (errors st) <= List.length (errors st').
Proof.
  pose proof (loop_round_cases faults now store_id sp db st) as H.
  cbv zeta in *.
  destruct (loop_round faults now store_id (db, st) sp) as [db' st'].
  cbn [fst snd] in *.
  destruct H as (_ & [(Hdb & Hst) | [Hc | Hm]]).
  - rewrite Hdb.
    destruct Hst as [-> | (e & ->)];
      cbn [count_result result_action add_error total_scraped
           duplicates_removed products_created products_updated
           invalid_products prices_added prices_updated errors];
      rewrite ?length_app; cbn [List.length]; repeat split; lia.
  - destruct Hc as (_ & _ & Hp & Hpr & Hh & ->).
    rewrite Hp, Hpr, Hh.
    cbn [count_result result_action total_scraped
         duplicates_removed products_created products_updated
         invalid_products prices_added prices_updated errors].
    rewrite !length_app. cbn [List.length]. repeat split; lia.
  - destruct Hm as (row & product & written & _ & _ & _ & _ & _ & Hp & Hrest).
    rewrite Hp, update_at_length.
    destruct Hrest as [(Hpr & Hh & ->) | (Hpr & Hh & Hst)].
    + rewrite Hpr.
      cbn [count_result result_action result_price_updated total_scraped
           duplicates_removed products_created products_updated
           invalid_products prices_added prices_updated errors].
      rewrite !length_app. cbn [List.length].
      destruct Hh as [-> | (current & _ & ->)];
        rewrite ?length_app; cbn [List.length]; repeat split; lia.
    + rewrite Hpr, Hh.
      destruct Hst as [-> | (e & ->)];
        cbn [count_result result_action result_price_updated add_error
             total_scraped duplicates_removed products_created
             products_updated invalid_products prices_added prices_updated
             errors];
        rewrite ?length_app; cbn [List.length]; repeat split; lia.
Qed.

Lemma rounds_account (unique_products : list ScrapedProduct) :
  forall (db : Db) (st : Stats),
    let after :=
      fold_left (loop_round faults now store_id) unique_products (db, st) in
    let db' := fst after in
    let st' := snd after in
    total_scraped st' = total_scraped st
    /\ duplicates_removed st' = duplicates_removed st
    /\ products_created st' + products_updated st' + invalid_products st'
       = List.length unique_products
         + (products_created st + products_updated st + invalid_products st)
    /\ (prices_added st' + prices_updated st')
       + (products_created st + products_updated st)
       = (prices_added st + prices_updated st)
         + (products_created st' + products_updated st')
    /\ List.length (products db') + products_created st
       = List.length (products db) + products_created st'
    /\ List.length (prices db') + (products_created st + prices_updated st)
       = List.length (prices db) + (products_created st' + prices_updated st')
    /\ List.length (price_history db) <= List.length (price_history db')
    /\ List.length (price_history db') + prices_updated st
       <= List.length (price_history db) + prices_updated st'
    /\ List.length (errors st') + invalid_products st
       <= List.length (errors st) + invalid_products st'
    /\ List.length (errors st) <= List.length (errors st').
Proof.
  induction unique_products as [| sp rest IH]; intros db st.
  - cbn. repeat split; lia.
  - cbn [fold_left].
    pose proof (loop_round_accounts sp db st) as H1.
    destruct (loop_round faults now store_id (db, st) sp) as [db1 st1].
    cbn [fst snd] in H1.
    specialize (IH db1 st1). cbv zeta in *.
    destruct (fold_left _ rest (db1, st1)) as [db2 st2].
    cbn [fst snd List.length] in *.
    destruct H1 as (? & ? & ? & ? & ? & ? & ? & ? & ? & ?).
    destruct IH as (? & ? & ? & ? & ? & ? & ? & ? & ? & ?).
    repeat split; lia.
Qed.

End RunAccounts.

Section RunAccountsClaim.

Import PyStr PyNum Py Server Server.Session.
Import Server.DataProcessor.

(** X12.  The statistics of a run add up, and they tell what was
    written: every scraped record is counted once, as a duplicate, a
    created product, an updated product or an invalid record (a record
    whose processing raised counts as invalid); a committed run has
    added as many products as [products_created] and as many prices as
    [products_created + prices_updated], so that [prices_added] also
    counts the updated products for which no price was written; a run
    that failed as a whole has written nothing. *)
Theorem run_statistics_account_for_the_tables
    (faults : Faults) (now store_id : Z)
    (scraped_products : list ScrapedProduct) (db : Db) :
  exists st,
    fst (process_scraped_products faults now store_id scraped_products db)
    = Ok st
    /\ let db' :=
         snd (process_scraped_products faults now store_id
                scraped_products db) in
       total_scraped st = List.length scraped_products
       /\ duplicates_removed st + products_created st + products_updated st
          + invalid_products st = List.length scraped_products
       /\ prices_added st + prices_updated st
          = products_created st + products_updated st
       /\ List.length (errors st)
          <= invalid_products st
             + (if store_stats_fault faults || commit_fault faults
                then 1 else 0)
       /\ if store_stats_fault faults || commit_fault faults
          then db' = db
          else
            List.length (products db')
            = List.length (products db) + products_created st
            /\ List.length (prices db')
               = List.length (prices db)
                 + products_created st + prices_updated st
            /\ List.length (price_history db)
               <= List.length (price_history db')
               <= List.length (price_history db) + prices_updated st.
Proof.
  rewrite process_scraped_products_rounds. cbv zeta.
  pose proof (remove_duplicates_length scraped_products) as Hlen.
  pose proof (rounds_account faults now store_id
                (_remove_duplicates scraped_products) db
                (set_duplicates_removed
                   (List.length scraped_products
                    - List.length (_remove_duplicates scraped_products))
                   (initial_stats scraped_products))) as H.
  cbv zeta in H.
  destruct (fold_left _ _ _) as [db1 st1]. cbn [fst snd] in *.
  cbn [set_duplicates_removed initial_stats total_scraped duplicates_removed
       products_created products_updated invalid_products prices_added
       prices_updated errors List.length] in H.
  destruct H as (Ht & Hd & Hsum & Hpr & Hprod & Hprices & Hh1 & Hh2 & He & _).
  destruct (store_stats_fault faults || commit_fault faults).
  - eexists. split; [reflexivity |]. cbn [fst snd].
    cbn [add_error total_scraped duplicates_removed products_created
         products_updated invalid_products prices_added prices_updated
         errors].
    rewrite length_app. cbn [List.length].
    repeat split; lia.
  - eexists. split; [reflexivity |]. cbn [fst snd].
    assert (Hsame :
              forall d : Db,
                d = match first_index (fun s => Z.eqb (Store.id s) store_id)
                            (stores db1) with
                    | Some row =>
                        {| products := products db1;
                           prices := prices db1;
                           price_history := price_history db1;
                           stores :=
                             update_at row
                               (scraped_once now
                                  (match errors st1 with
                                   | [] => false
                                   | _ => true
                                   end))
                               (stores db1) |}
                    | None => db1
                    end ->
                products d = products db1 /\ prices d = prices db1
                /\ price_history d = price_history db1).
    { intros d ->. destruct (first_index _ _); auto. }
    destruct (Hsame _ eq_refl) as (-> & -> & ->).
    repeat split; lia.
Qed.

End RunAccountsClaim.

Section RunInvariants.

Import PyStr PyNum Py Server Server.Session.
Import Server.DataProcessor.

Lemma same_product_refl (p : Product.t) : same_product p p.
Proof. unfold same_product. repeat split. Qed.

Lemma same_product_trans (p q r : Product.t) :
  same_product p q -> same_product q r -> same_product p r.
Proof.
  unfold same_product. intros H1 H2.
  destruct H1 as (? & ? & ? & ? & ? & ? & ? & ?).
  destruct H2 as (? & ? & ? & ? & ? & ? & ? & ?).
  repeat split; congruence.
Qed.

Lemma same_products_refl (l : list Product.t) : Forall2 same_product l l.
Proof. induction l; constructor; auto using same_product_refl. Qed.

Lemma same_products_trans (l1 l2 l3 : list Product.t) :
  Forall2 same_product l1 l2 -> Forall2 same_product l2 l3 ->
  Forall2 same_product l1 l3.
Proof.
  intro H. revert l3. induction H; intros l3 H3; inversion H3; subst;
    constructor; eauto using same_product_trans.
Qed.

Lemma extends_refl (db : Db) : extends db db.
Proof.
  unfold extends. repeat split.
  - exists (products db), []. split; [now rewrite app_nil_r |].
    apply same_products_refl.
  - exists []. now rewrite app_nil_r.
  - exists []. now rewrite app_nil_r.
Qed.

Lemma extends_trans (a b c : Db) : extends a b -> extends b c -> extends a c.
Proof.
  unfold extends.
  intros ((k1 & a1 & Hp1 & Hk1) & (pr1 & Hpr1) & (h1 & Hh1))
         ((k2 & a2 & Hp2 & Hk2) & (pr2 & Hpr2) & (h2 & Hh2)).
  repeat split.
  - rewrite Hp1 in Hk2. apply Forall2_app_inv_l in Hk2.
    destruct Hk2 as (k2a & k2b & Hka & Hkb & ->).
    exists k2a, (k2b ++ a2). split.
    + rewrite Hp2. now rewrite app_assoc.
    + eapply same_products_trans; eassumption.
  - exists (pr1 ++ pr2). rewrite Hpr2, Hpr1. now rewrite app_assoc.
  - exists (h1 ++ h2). rewrite Hh2, Hh1. now rewrite app_assoc.
Qed.

Lemma same_product_merge (now : Z) (product : Product.t)
    (sp : ScrapedProduct) (written : Product.t) :
  written = merge_fields product sp
  \/ written = touch now (merge_fields product sp) ->
  same_product product written.
Proof.
  intros [-> | ->]; unfold same_product; repeat split.
Qed.

Lemma same_products_update_at (l : list Product.t) (row : nat)
    (product written : Product.t) :
  nth_error l row = Some product ->
  same_product product written ->
  Forall2 same_product l (update_at row (fun _ => written) l).
Proof.
  revert row. induction l as [| x l IH]; intros [| row] Hrow Hs;
    cbn in *; try discriminate.
  - injection Hrow as ->. constructor; [exact Hs | apply same_products_refl].
  - constructor; [apply same_product_refl | now apply IH].
Qed.

Variable faults : Faults.
Variable now : Z.
Variable store_id : Z.

Lemma loop_round_extends (sp : ScrapedProduct) (db : Db) (st : Stats) :
  extends db (fst (loop_round faults now store_id (db, st) sp))
  /\ stores (fst (loop_round faults now store_id (db, st) sp)) = stores db.
Proof.
  pose proof (loop_round_cases faults now store_id sp db st) as H.
  cbv zeta in H.
  destruct (loop_round faults now store_id (db, st) sp) as [db' st'].
  cbn [fst snd] in *.
  destruct H as (Hstores & [(-> & _) | [Hc | Hm]]).
  - split; [apply extends_refl | reflexivity].
  - split; [| exact Hstores].
    destruct Hc as (_ & _ & Hp & Hpr & Hh & _).
    unfold extends. rewrite Hp, Hpr, Hh. repeat split.
    + eexists. eexists. split; [reflexivity | apply same_products_refl].
    + eexists. reflexivity.
    + exists []. now rewrite app_nil_r.
  - split; [| exact Hstores].
    destruct Hm as (row & product & written & _ & _ & Hrow & _ & Hw & Hp
                    & Hrest).
    unfold extends. rewrite Hp. repeat split.
    + exists (update_at row (fun _ => written) (products db)), [].
      split; [now rewrite app_nil_r |].
      eapply same_products_update_at; [exact Hrow |].
      eapply same_product_merge; exact Hw.
    + destruct Hrest as [(-> & _) | (-> & _)].
      * eexists. reflexivity.
      * exists []. now rewrite app_nil_r.
    + destruct Hrest as [(_ & [-> | (c & _ & ->)] & _) | (_ & -> & _)].
      * exists []. now rewrite app_nil_r.
      * eexists. reflexivity.
      * exists []. now rewrite app_nil_r.
Qed.

Lemma rounds_extend (unique_products : list ScrapedProduct) :
  forall (db : Db) (st : Stats),
    extends db
      (fst (fold_left (loop_round faults now store_id) unique_products
              (db, st)))
    /\ stores (fst (fold_left (loop_round faults now store_id)
                      unique_products (db, st)))
       = stores db.
Proof.
  induction unique_products as [| sp rest IH]; intros db st.
  - split; [apply extends_refl | reflexivity].
  - cbn [fold_left].
    destruct (loop_round_extends sp db st) as [H1 H2].
    destruct (loop_round faults now store_id (db, st) sp) as [db1 st1].
    cbn [fst] in *. destruct (IH db1 st1) as [H3 H4].
    split; [eapply extends_trans; eassumption | congruence].
Qed.

End RunInvariants.

Section RunInvariantsClaim.

Import PyStr PyNum Py Server Server.Session.
Import Server.DataProcessor.

(** X13.  A run only adds to the catalog: the products it found stay
    in their rows with their key, name, category, store and flags (it
    fills their empty fields and stamps them), new products come after
    them, the price and history tables keep what they held, and no
    store row but the one of the run's store is touched. *)
Theorem run_only_adds_to_the_catalog
    (faults : Faults) (now store_id : Z)
    (scraped_products : list ScrapedProduct) (db : Db) :
  let db' :=
    snd (process_scraped_products faults now store_id scraped_products db) in
  extends db db'
  /\ List.length (stores db') = List.length (stores db)
  /\ forall row store,
       nth_error (stores db) row = Some store ->
       Store.id store <> store_id ->
       nth_error (stores db') row = Some store.
Proof.
  rewrite process_scraped_products_rounds. cbv zeta.
  match goal with
  | |- context [fold_left ?f ?l (db, ?st)] =>
      destruct (rounds_extend faults now store_id l db st) as [Hext Hst];
      destruct (fold_left f l (db, st)) as [db1 st1]
  end.
  cbn [fst snd] in *.
  destruct (store_stats_fault faults || commit_fault faults); cbn [snd].
  { split; [apply extends_refl | split; [reflexivity | auto]]. }
  destruct (first_index _ (stores db1)) as [row |] eqn:Hrow.
  - split; [| split].
    + destruct Hext as (Hp & Hpr & Hh). unfold extends.
      cbn [products prices price_history]. auto.
    + cbn [stores]. now rewrite update_at_length, Hst.
    + cbn [stores]. intros j store Hj Hid.
      rewrite update_at_other; [now rewrite Hst |].
      intros <-. apply first_index_some in Hrow.
      destruct Hrow as ((x & Hx & Hc) & _).
      rewrite Hst in Hx. rewrite Hj in Hx. injection Hx as <-.
      apply Z.eqb_eq in Hc. contradiction.
  - split; [exact Hext | split; [now rewrite Hst |]].
    intros j store Hj _. now rewrite Hst.
Qed.

End RunInvariantsClaim.

Section GoodOrder.

Import PyStr PyNum Py Server Server.Session.
Import Server.DataProcessor.

Lemma max_id_bound (ids : list Z) (x : Z) :
  In x ids -> (x <= fold_right Z.max 0 ids)%Z.
Proof.
  induction ids as [| y ids IH]; [intros [] |].
  intros [-> | H]; cbn [fold_right]; [lia |].
  specialize (IH H). lia.
Qed.

Lemma next_product_id_fresh (db : Db) :
  ~ In (next_product_id db) (map Product.id (products db)).
Proof.
  unfold next_product_id. intro H. apply max_id_bound in H. lia.
Qed.

Lemma map_update_at_same {B : Type} (f : Product.t -> B)
    (l : list Product.t) (row : nat) (product written : Product.t) :
  nth_error l row = Some product ->
  f written = f product ->
  map f (update_at row (fun _ => written) l) = map f l.
Proof.
  revert row. induction l as [| x l IH]; intros [| row] Hrow Hf;
    cbn in *; try discriminate.
  - injection Hrow as ->. now rewrite Hf.
  - f_equal. now apply IH.
Qed.

Lemma in_update_at (l : list Product.t) (row : nat)
    (product written p : Product.t) :
  nth_error l row = Some product ->
  In p l ->
  In p (update_at row (fun _ => written) l) \/ p = product.
Proof.
  revert row. induction l as [| x l IH]; intros [| row] Hrow Hin;
    cbn in *; try discriminate.
  - injection Hrow as ->. destruct Hin as [-> | Hin]; auto.
  - destruct Hin as [-> | Hin]; auto.
    destruct (IH row Hrow Hin); auto.
Qed.

Lemma written_in_update_at (l : list Product.t) (row : nat)
    (product written : Product.t) :
  nth_error l row = Some product ->
  In written (update_at row (fun _ => written) l).
Proof.
  revert row. induction l as [| x l IH]; intros [| row] Hrow;
    cbn in *; try discriminate.
  - now left.
  - right. now apply IH.
Qed.

Variable faults : Faults.
Variable now : Z.
Variable store_id : Z.

Lemma loop_round_well_formed (sp : ScrapedProduct) (db : Db) (st : Stats) :
  well_formed db ->
  well_formed (fst (loop_round faults now store_id (db, st) sp)).
Proof.
  intros (Hids & Hpos & Href).
  pose proof (loop_round_cases faults now store_id sp db st) as H.
  cbv zeta in H.
  destruct (loop_round faults now store_id (db, st) sp) as [db' st'].
  cbn [fst snd] in *.
  destruct H as (_ & [(-> & _) | [Hc | Hm]]).
  - repeat split; assumption.
  - destruct Hc as (Hv & _ & Hp & Hpr & _ & _).
    unfold well_formed. rewrite Hp, Hpr. repeat split.
    + rewrite map_app. cbn [map new_product Product.id].
      apply NoDup_app; [exact Hids | repeat constructor; intros [] | ].
      intros x Hx [<- | []]. now apply (next_product_id_fresh db).
    + apply Forall_app. split; [exact Hpos |].
      constructor; [| constructor].
      cbn [price_row Price.price]. now apply valid_price_positive.
    + apply Forall_app. split.
      * eapply Forall_impl; [| exact Href].
        intros r (p & Hin & Hid & Hst). exists p. split; [| now split].
        apply in_or_app. now left.
      * constructor; [| constructor].
        exists (new_product (next_product_id db) store_id sp).
        split; [apply in_or_app; right; now left |].
        split; reflexivity.
  - destruct Hm as (row & product & written & Hv & _ & Hrow & _ & Hw & Hp
                    & Hrest).
    assert (Hid : Product.id written = Product.id product)
      by (destruct Hw as [-> | ->]; reflexivity).
    assert (Hst : Product.store_id written = Product.store_id product)
      by (destruct Hw as [-> | ->]; reflexivity).
    assert (Hkeep : forall r,
               (exists p, In p (products db)
                          /\ Product.id p = Price.product_id r
                          /\ Product.store_id p = Price.store_id r) ->
               exists p, In p (products db')
                         /\ Product.id p = Price.product_id r
                         /\ Product.store_id p = Price.store_id r).
    { intros r (p & Hin & Hpid & Hpst). rewrite Hp.
      destruct (in_update_at _ _ _ written _ Hrow Hin) as [H | ->].
      - exists p. auto.
      - exists written. split; [now apply (written_in_update_at _ _ product) |].
        split; congruence. }
    unfold well_formed. repeat split.
    + rewrite Hp. now rewrite (map_update_at_same _ _ _ product).
    + destruct Hrest as [(-> & _) | (-> & _)]; [| exact Hpos].
      apply Forall_app. split; [exact Hpos |].
      constructor; [| constructor].
      cbn [price_row Price.price]. now apply valid_price_positive.
    + destruct Hrest as [(-> & _) | (-> & _)].
      * apply Forall_app. split.
        -- eapply Forall_impl; [| exact Href]. exact Hkeep.
        -- constructor; [| constructor].
           exists written. rewrite Hp.
           split; [now apply (written_in_update_at _ _ product) |].
           split; cbn [price_row Price.product_id Price.store_id];
             assumption.
      * eapply Forall_impl; [| exact Href]. exact Hkeep.
Qed.

Lemma rounds_well_formed (unique_products : list ScrapedProduct) :
  forall (db : Db) (st : Stats),
    well_formed db ->
    well_formed (fst (fold_left (loop_round faults now store_id)
                        unique_products (db, st))).
Proof.
  induction unique_products as [| sp rest IH]; intros db st H; [exact H |].
  cbn [fold_left].
  pose proof (loop_round_well_formed sp db st H) as H1.
  destruct (loop_round faults now store_id (db, st) sp) as [db1 st1].
  now apply IH.
Qed.

End GoodOrder.

Section GoodOrderClaim.

Import PyStr PyNum Py Server Server.Session.
Import Server.DataProcessor.

(** X14.  A run keeps the catalog in good order: after it, the keys of
    the products are still distinct, every stored price is still above
    zero (only validated records are stored, so the division in the
    price gate finds no zero) and still belongs to a product of the
    catalog in that product's store. *)
Theorem run_keeps_the_catalog_in_good_order
    (faults : Faults) (now store_id : Z)
    (scraped_products : list ScrapedProduct) (db : Db) :
  well_formed db ->
  well_formed
    (snd (process_scraped_products faults now store_id scraped_products db)).
Proof.
  intro H. rewrite process_scraped_products_rounds. cbv zeta.
  match goal with
  | |- context [fold_left ?f ?l (db, ?st)] =>
      pose proof (rounds_well_formed faults now store_id l db st H) as H1;
      destruct (fold_left f l (db, st)) as [db1 st1]
  end.
  cbn [fst snd] in *.
  destruct (store_stats_fault faults || commit_fault faults); cbn [snd];
    [exact H |].
  destruct (first_index _ (stores db1)); [| exact H1].
  exact H1.
Qed.

Lemma run_keeps_the_catalog_in_good_order_witness :
  well_formed
    (snd (process_scraped_products no_faults Example.one_hour 1
            [scraped (list_ascii_of_string "Tomato") 21;
             scraped (list_ascii_of_string "Basil") 12]
            (Example.catalog true))).
Proof.
  apply (run_keeps_the_catalog_in_good_order no_faults Example.one_hour 1
           [scraped (list_ascii_of_string "Tomato") 21;
            scraped (list_ascii_of_string "Basil") 12]
           (Example.catalog true)).
  unfold well_formed. cbn. repeat split.
  - repeat constructor. intros [].
  - repeat constructor.
  - constructor; [| constructor].
    exists Example.tomato. repeat split. now left.
Defined.

End GoodOrderClaim.

(** ** Names that look alike *)

Section Similarity.

Import PyStr PyNum Py Server Server.DataProcessor.

Lemma same_elements_length (a b : list str) :
  NoDup a -> NoDup b -> (forall x, In x a <-> In x b) ->
  List.length a = List.length b.
Proof.
  intros Ha Hb H. apply Nat.le_antisymm; apply NoDup_incl_length; auto;
    intros x Hx; now apply H.
Qed.

Lemma word_set_nodup (name : str) : NoDup (word_set name).
Proof. apply NoDup_nodup. Qed.

Lemma inter_length_sym (a b : list str) :
  NoDup a -> NoDup b ->
  List.length (set_inter str_eq_dec a b)
  = List.length (set_inter str_eq_dec b a).
Proof.
  intros Ha Hb. apply same_elements_length;
    try (apply set_inter_nodup; assumption).
  intro x. rewrite !set_inter_iff. tauto.
Qed.

Lemma union_length_sym (a b : list str) :
  NoDup a -> NoDup b ->
  List.length (set_union str_eq_dec a b)
  = List.length (set_union str_eq_dec b a).
Proof.
  intros Ha Hb. apply same_elements_length;
    try (apply set_union_nodup; assumption).
  intro x. rewrite !set_union_iff. tauto.
Qed.

Lemma inter_le_union (a b : list str) :
  NoDup a -> NoDup b ->
  List.length (set_inter str_eq_dec a b)
  <= List.length (set_union str_eq_dec a b).
Proof.
  intros Ha Hb. apply NoDup_incl_length.
  - now apply set_inter_nodup.
  - intros x Hx. apply set_inter_iff in Hx. apply set_union_iff. tauto.
Qed.

Lemma cons_not_nil {A : Type} (x : A) (l : list A) : x :: l <> [].
Proof. discriminate. Qed.

Lemma pos_of_nat_Z (n : nat) : n <> 0 -> Z.pos (Pos.of_nat n) = Z.of_nat n.
Proof.
  intro H. rewrite <- positive_nat_Z, Nat2Pos.id by exact H. reflexivity.
Qed.

Lemma union_not_empty (a b : list str) :
  a <> [] \/ b <> [] -> set_union str_eq_dec a b <> [].
Proof.
  intros H E.
  assert (Hin : forall x, In x a \/ In x b -> False).
  { intros x Hx. apply (set_union_iff str_eq_dec) in Hx.
    rewrite E in Hx. destruct Hx. }
  destruct H as [H | H].
  - destruct a as [| x a]; [congruence |]. apply (Hin x). left. now left.
  - destruct b as [| x b]; [congruence |]. apply (Hin x). right. now left.
Qed.

Lemma inter_self (a : list str) :
  NoDup a -> List.length (set_inter str_eq_dec a a) = List.length a.
Proof.
  intro Ha. apply same_elements_length; auto.
  - now apply set_inter_nodup.
  - intro x. rewrite set_inter_iff. tauto.
Qed.

Lemma union_self (a : list str) :
  NoDup a -> List.length (set_union str_eq_dec a a) = List.length a.
Proof.
  intro Ha. apply same_elements_length; auto.
  - now apply set_union_nodup.
  - intro x. rewrite set_union_iff. tauto.
Qed.

(** X15.  The similarity of two names does not depend on their order,
    lies between 0 and 1, is 0 when one of the names is empty and 1
    for a name that is not empty against itself; so the fuzzy test is
    symmetric too. *)
Theorem calculate_similarity_is_a_symmetric_share (name1 name2 : str) :
  _calculate_similarity name1 name2 = _calculate_similarity name2 name1
  /\ (0 <= _calculate_similarity name1 name2 <= 1)%Q
  /\ (name1 = [] \/ name2 = [] -> _calculate_similarity name1 name2 = 0%Q)
  /\ (name1 <> [] -> (_calculate_similarity name1 name1 == 1)%Q)
  /\ fuzzy_match name1 name2 = fuzzy_match name2 name1.
Proof.
  assert (Hsym : forall a b,
             _calculate_similarity a b = _calculate_similarity b a).
  { intros a b. unfold _calculate_similarity.
    destruct a as [| x a], b as [| y b]; cbn [truthy negb orb];
      try reflexivity.
    pose proof (word_set_nodup (x :: a)) as Ha.
    pose proof (word_set_nodup (y :: b)) as Hb.
    destruct (word_set (x :: a)) as [| w1 ws1] eqn:E1,
             (word_set (y :: b)) as [| w2 ws2] eqn:E2;
      try reflexivity.
    - pose proof (union_length_sym [] (w2 :: ws2) Ha Hb) as Hu.
      pose proof (inter_length_sym [] (w2 :: ws2) Ha Hb) as Hi.
      pose proof (union_not_empty [] (w2 :: ws2)
                    (or_intror (cons_not_nil w2 ws2))) as H1.
      pose proof (union_not_empty (w2 :: ws2) []
                    (or_introl (cons_not_nil w2 ws2))) as H2.
      destruct (set_union str_eq_dec [] (w2 :: ws2)) eqn:U1; [congruence |].
      destruct (set_union str_eq_dec (w2 :: ws2) []) eqn:U2; [congruence |].
      unfold len_ratio. now rewrite Hu, Hi.
    - pose proof (union_length_sym (w1 :: ws1) [] Ha Hb) as Hu.
      pose proof (inter_length_sym (w1 :: ws1) [] Ha Hb) as Hi.
      pose proof (union_not_empty (w1 :: ws1) []
                    (or_introl (cons_not_nil w1 ws1))) as H1.
      pose proof (union_not_empty [] (w1 :: ws1)
                    (or_intror (cons_not_nil w1 ws1))) as H2.
      destruct (set_union str_eq_dec (w1 :: ws1) []) eqn:U1; [congruence |].
      destruct (set_union str_eq_dec [] (w1 :: ws1)) eqn:U2; [congruence |].
      unfold len_ratio. now rewrite Hu, Hi.
    - pose proof (union_length_sym (w1 :: ws1) (w2 :: ws2) Ha Hb) as Hu.
      pose proof (inter_length_sym (w1 :: ws1) (w2 :: ws2) Ha Hb) as Hi.
      pose proof (union_not_empty (w1 :: ws1) (w2 :: ws2)
                    (or_introl (cons_not_nil w1 ws1))) as H1.
      pose proof (union_not_empty (w2 :: ws2) (w1 :: ws1)
                    (or_introl (cons_not_nil w2 ws2))) as H2.
      destruct (set_union str_eq_dec (w1 :: ws1) (w2 :: ws2)) eqn:U1;
        [congruence |].
      destruct (set_union str_eq_dec (w2 :: ws2) (w1 :: ws1)) eqn:U2;
        [congruence |].
      unfold len_ratio. now rewrite Hu, Hi. }
  assert (Hratio : forall i u : list str,
             u <> [] -> List.length i <= List.length u ->
             (0 <= len_ratio i u <= 1)%Q).
  { intros i u Hu Hle. unfold len_ratio, Qle. cbn [Qnum Qden].
    rewrite pos_of_nat_Z by (destruct u; [congruence | discriminate]).
    split; lia. }
  split; [apply Hsym |]. split; [| split; [| split]].
  - unfold _calculate_similarity.
    destruct (negb (truthy name1) || negb (truthy name2));
      [split; discriminate |].
    pose proof (word_set_nodup name1) as Ha.
    pose proof (word_set_nodup name2) as Hb.
    pose proof (inter_le_union _ _ Ha Hb) as Hle.
    destruct (word_set name1) as [| w1 ws1] eqn:E1,
             (word_set name2) as [| w2 ws2] eqn:E2;
      try (split; discriminate).
    + destruct (set_union str_eq_dec [] (w2 :: ws2)) eqn:U;
        [split; discriminate |].
      rewrite <- U in *. apply Hratio; [rewrite U; discriminate | exact Hle].
    + destruct (set_union str_eq_dec (w1 :: ws1) []) eqn:U;
        [split; discriminate |].
      rewrite <- U in *. apply Hratio; [rewrite U; discriminate | exact Hle].
    + destruct (set_union str_eq_dec (w1 :: ws1) (w2 :: ws2)) eqn:U;
        [split; discriminate |].
      rewrite <- U in *. apply Hratio; [rewrite U; discriminate | exact Hle].
  - intros [-> | ->]; unfold _calculate_similarity; cbn [truthy negb orb];
      [reflexivity | now rewrite orb_true_r].
  - intro Hne. unfold _calculate_similarity.
    destruct name1 as [| x a]; [congruence |]. cbn [truthy negb orb].
    pose proof (word_set_nodup (x :: a)) as Ha.
    destruct (word_set (x :: a)) as [| w ws] eqn:E; [reflexivity |].
    pose proof (inter_self _ Ha) as Hi. pose proof (union_self _ Ha) as Hu.
    destruct (set_union str_eq_dec (w :: ws) (w :: ws)) eqn:U;
      [discriminate Hu |].
    unfold len_ratio. rewrite Hi, Hu. unfold Qeq. cbn [Qnum Qden].
    rewrite pos_of_nat_Z by discriminate. lia.
  - unfold fuzzy_match. now rewrite Hsym.
Qed.

End Similarity.

(** ** Looking a record up *)

Section FindMatching.

Import PyStr PyNum Py Server Server.Session Server.DataProcessor.

Lemma first_index_cond {A : Type} (cond : A -> bool) (l : list A) (i : nat) :
  first_index cond l = Some i ->
  exists x, nth_error l i = Some x /\ cond x = true.
Proof. intro H. apply first_index_some in H. apply H. Qed.

(** X16.  [_find_matching_product] reads the catalog without changing
    it and raises only when the database does.  What it returns is a
    product of the store asked for, found by its external id, by its
    exact name or by a name similar enough; a product the record's
    external id points to wins over every other; and it returns nothing
    only if no product of the store matches in any of the three ways. *)
Theorem find_matching_product_stays_in_the_store
    (faults : Faults) (store_id : Z) (sp : ScrapedProduct) (db : Db) :
  record_fault faults sp = false ->
  exists found,
    _find_matching_product faults store_id sp db = (Ok found, db)
    /\ (forall row p,
           found = Some (row, p) ->
           nth_error (products db) row = Some p
           /\ Product.store_id p = store_id
           /\ ((external_id sp <> None
                /\ Product.external_id p = external_id sp)
               \/ Product.name p = name sp
               \/ fuzzy_match (name sp) (Product.name p) = true))
    /\ (forall row,
           PyStr.truthy_opt (external_id sp) = true ->
           first_index (matches_external_id store_id sp) (products db)
           = Some row ->
           exists p, found = Some (row, p))
    /\ (found = None ->
        forall p, In p (products db) -> Product.store_id p = store_id ->
                  Product.name p <> name sp
                  /\ fuzzy_match (name sp) (Product.name p) = false
                  /\ (PyStr.truthy_opt (external_id sp) = true ->
                      Product.external_id p <> external_id sp)).
Proof.
  intro Hf. unfold _find_matching_product. rewrite Hf.
  unfold bind, get.
  assert (Hshape : forall i,
             find_row store_id sp (products db) = Some i ->
             exists p, nth_error (products db) i = Some p
                       /\ Product.store_id p = store_id
                       /\ ((external_id sp <> None
                            /\ Product.external_id p = external_id sp)
                           \/ Product.name p = name sp
                           \/ fuzzy_match (name sp) (Product.name p) = true)).
  { intros i Hi. unfold find_row in Hi.
    assert (Hstore : forall (f : Product.t -> bool) p,
               f p = true ->
               (forall q, f q = true -> same_store store_id q = true) ->
               Product.store_id p = store_id).
    { intros f p Hp Hall. apply Hall in Hp. unfold same_store in Hp.
      now apply Z.eqb_eq. }
    destruct (PyStr.truthy_opt (external_id sp)) eqn:Hext.
    - destruct (first_index (matches_external_id store_id sp) (products db))
        as [j |] eqn:E1.
      + injection Hi as <-. apply first_index_cond in E1.
        destruct E1 as (p & Hp & Hc). exists p. split; [exact Hp |].
        unfold matches_external_id in Hc. apply andb_prop in Hc.
        destruct Hc as [Hs He]. split; [now apply Z.eqb_eq |]. left.
        apply opt_str_eqb_eq in He.
        split; [| exact He].
        intro Hn. rewrite Hn in Hext. discriminate.
      + destruct (first_index (matches_name store_id sp) (products db))
          as [j |] eqn:E2.
        * injection Hi as <-. apply first_index_cond in E2.
          destruct E2 as (p & Hp & Hc). exists p. split; [exact Hp |].
          unfold matches_name in Hc. apply andb_prop in Hc.
          destruct Hc as [Hs Hn]. split; [now apply Z.eqb_eq |].
          right. left. now apply str_eqb_eq.
        * apply first_index_cond in Hi.
          destruct Hi as (p & Hp & Hc). exists p. split; [exact Hp |].
          unfold matches_fuzzy in Hc. apply andb_prop in Hc.
          destruct Hc as [Hs Hn]. split; [now apply Z.eqb_eq |].
          right. right. exact Hn.
    - destruct (first_index (matches_name store_id sp) (products db))
        as [j |] eqn:E2.
      + injection Hi as <-. apply first_index_cond in E2.
        destruct E2 as (p & Hp & Hc). exists p. split; [exact Hp |].
        unfold matches_name in Hc. apply andb_prop in Hc.
        destruct Hc as [Hs Hn]. split; [now apply Z.eqb_eq |].
        right. left. now apply str_eqb_eq.
      + apply first_index_cond in Hi.
        destruct Hi as (p & Hp & Hc). exists p. split; [exact Hp |].
        unfold matches_fuzzy in Hc. apply andb_prop in Hc.
        destruct Hc as [Hs Hn]. split; [now apply Z.eqb_eq |].
        right. right. exact Hn. }
  destruct (find_row store_id sp (products db)) as [i |] eqn:Hfind.
  - destruct (Hshape i eq_refl) as (p & Hp & Hs & Hhow).
    rewrite Hp. exists (Some (i, p)). split; [reflexivity |].
    split; [| split].
    + intros row q E. injection E as <- <-. auto.
    + intros row Hext Hrow. exists p.
      unfold find_row in Hfind. rewrite Hext, Hrow in Hfind.
      now injection Hfind as <-.
    + discriminate.
  - exists None. split; [reflexivity |]. split; [| split].
    + discriminate.
    + intros row Hext Hrow. unfold find_row in Hfind.
      rewrite Hext, Hrow in Hfind. discriminate.
    + intros _ p Hin Hs.
      apply In_nth_error in Hin. destruct Hin as (j & Hj).
      assert (Hsame : same_store store_id p = true)
        by (unfold same_store; now apply Z.eqb_eq).
      unfold find_row in Hfind.
      destruct (first_index (matches_name store_id sp) (products db))
        as [? |] eqn:E2.
      { destruct (PyStr.truthy_opt (external_id sp));
          [destruct (first_index (matches_external_id store_id sp) _) |];
          discriminate. }
      assert (E3 : first_index (matches_fuzzy store_id sp) (products db)
                   = None).
      { destruct (PyStr.truthy_opt (external_id sp));
          [destruct (first_index (matches_external_id store_id sp) _) |];
          [discriminate | exact Hfind | exact Hfind]. }
      pose proof (proj1 (first_index_none _ _) E2 j p Hj) as Hn.
      pose proof (proj1 (first_index_none _ _) E3 j p Hj) as Hz.
      unfold matches_name in Hn. unfold matches_fuzzy in Hz.
      rewrite Hsame in Hn, Hz. cbn [andb] in Hn, Hz.
      split; [| split].
      * intro E. apply str_eqb_eq in E. congruence.
      * exact Hz.
      * intros Hext E.
        rewrite Hext in Hfind.
        destruct (first_index (matches_external_id store_id sp) _)
          as [? |] eqn:E1; [discriminate |].
        pose proof (proj1 (first_index_none _ _) E1 j p Hj) as He.
        unfold matches_external_id in He. rewrite Hsame in He.
        cbn [andb] in He. rewrite E in He.
        destruct (external_id sp) as [x |]; [| discriminate Hext].
        cbn [opt_str_eqb] in He. rewrite str_eqb_refl in He. discriminate.
Qed.

Lemma find_matching_product_stays_in_the_store_witness :
  exists found,
    _find_matching_product no_faults 1
      (scraped (list_ascii_of_string "Tomato") 21) (Example.catalog true)
    = (Ok found, Example.catalog true)
    /\ (forall row p,
           found = Some (row, p) ->
           nth_error (products (Example.catalog true)) row = Some p
           /\ Product.store_id p = 1%Z
           /\ ((external_id (scraped (list_ascii_of_string "Tomato") 21)
                <> None
                /\ Product.external_id p
                   = external_id (scraped (list_ascii_of_string "Tomato") 21))
               \/ Product.name p
                  = name (scraped (list_ascii_of_string "Tomato") 21)
               \/ fuzzy_match
                    (name (scraped (list_ascii_of_string "Tomato") 21))
                    (Product.name p) = true))
    /\ (forall row,
           PyStr.truthy_opt
             (external_id (scraped (list_ascii_of_string "Tomato") 21))
           = true ->
           first_index
             (matches_external_id 1
                (scraped (list_ascii_of_string "Tomato") 21))
             (products (Example.catalog true))
           = Some row ->
           exists p, found = Some (row, p))
    /\ (found = None ->
        forall p, In p (products (Example.catalog true)) ->
                  Product.store_id p = 1%Z ->
                  Product.name p
                  <> name (scraped (list_ascii_of_string "Tomato") 21)
                  /\ fuzzy_match
                       (name (scraped (list_ascii_of_string "Tomato") 21))
                       (Product.name p) = false
                  /\ (PyStr.truthy_opt
                        (external_id
                           (scraped (list_ascii_of_string "Tomato") 21))
                      = true ->
                      Product.external_id p
                      <> external_id
                           (scraped (list_ascii_of_string "Tomato") 21))).
Proof.
  apply (find_matching_product_stays_in_the_store no_faults 1
           (scraped (list_ascii_of_string "Tomato") 21)
           (Example.catalog true)).
  reflexivity.
Defined.

End FindMatching.

(** ** The counters of a store *)

Section StoreStats.

Import PyStr PyNum Py Server Server.Session Server.DataProcessor.

Lemma rate_in_range (total failed : Z) :
  (0 <= failed <= total)%Z -> (0 < total)%Z ->
  (0 <= inject_Z (total - failed) / inject_Z total * 100 <= 100)%Q
  /\ ((inject_Z (total - failed) / inject_Z total * 100 == 100)%Q
      <-> failed = 0%Z).
Proof.
  intros Hf Ht.
  assert (Hpos : (0 < inject_Z total)%Q).
  { change 0%Q with (inject_Z 0). now rewrite <- Zlt_Qlt. }
  assert (Hne : ~ (inject_Z total == 0)%Q).
  { intro E. rewrite E in Hpos. discriminate. }
  assert (E : (inject_Z (total - failed) / inject_Z total * 100
               == 100 - 100 * (inject_Z failed / inject_Z total))%Q).
  { unfold Zminus. rewrite inject_Z_plus, inject_Z_opp. field. exact Hne. }
  assert (H0 : (0 <= inject_Z failed / inject_Z total)%Q).
  { apply Qle_shift_div_l; [exact Hpos |].
    setoid_replace (0 * inject_Z total)%Q with (inject_Z 0) by ring.
    rewrite <- Zle_Qle. lia. }
  assert (H1 : (inject_Z failed / inject_Z total <= 1)%Q).
  { apply Qle_shift_div_r; [exact Hpos |].
    setoid_replace (1 * inject_Z total)%Q with (inject_Z total) by ring.
    rewrite <- Zle_Qle. lia. }
  rewrite E. split; [split |].
  - apply Qle_minus_iff.
    setoid_replace (100 - 100 * (inject_Z failed / inject_Z total) + - 0)%Q
      with ((1 + - (inject_Z failed / inject_Z total)) * 100)%Q by ring.
    apply Qmult_le_0_compat; [| discriminate].
    now apply Qle_minus_iff in H1.
  - apply Qle_minus_iff.
    setoid_replace
      (100 + - (100 - 100 * (inject_Z failed / inject_Z total)))%Q
      with ((inject_Z failed / inject_Z total) * 100)%Q by ring.
    apply Qmult_le_0_compat; [exact H0 | discriminate].
  - split; intro H.
    + assert (Hz : (inject_Z failed / inject_Z total == 0)%Q).
      { assert (H' : (100 * (inject_Z failed / inject_Z total) == 0)%Q).
        { setoid_replace (100 * (inject_Z failed / inject_Z total))%Q
            with (100 - (100 - 100 * (inject_Z failed / inject_Z total)))%Q
            by ring.
          rewrite H. ring. }
        apply Qmult_integral in H'. destruct H' as [H' | H'];
          [discriminate H' | exact H']. }
      assert (Hz' : (inject_Z failed == 0)%Q).
      { setoid_replace (inject_Z failed)
          with (inject_Z failed / inject_Z total * inject_Z total)%Q
          by (field; exact Hne).
        rewrite Hz. ring. }
      apply (proj1 (inject_Z_injective failed 0)). exact Hz'.
    + subst failed. unfold Qdiv. change (inject_Z 0) with 0%Q. ring.
Qed.

(** X17.  For a store whose counters are in order (no more failed
    scrapes than scrapes, none negative), [_update_store_stats] counts
    one more scrape, one more failed scrape exactly when the run
    reported an error, stamps the store, keeps the counters in order
    and sets a success rate between 0 and 100 that is 100 only for a
    store that never failed; the other tables are left alone. *)
Theorem update_store_stats_keeps_the_counters_in_order
    (faults : Faults) (now store_id : Z) (st : Stats) (db : Db)
    (row : nat) (store : Store.t) :
  store_stats_fault faults = false ->
  first_index (fun s => Z.eqb (Store.id s) store_id) (stores db) = Some row ->
  nth_error (stores db) row = Some store ->
  (0 <= Store.failed_scrapes store <= Store.total_scrapes store)%Z ->
  let db' := snd (_update_store_stats faults now store_id st db) in
  let failed := match errors st with [] => 0%Z | _ => 1%Z end in
  fst (_update_store_stats faults now store_id st db) = Ok tt
  /\ products db' = products db
  /\ prices db' = prices db
  /\ price_history db' = price_history db
  /\ exists store',
       nth_error (stores db') row = Some store'
       /\ Store.id store' = Store.id store
       /\ Store.last_scraped store' = Some now
       /\ Store.total_scrapes store' = (Store.total_scrapes store + 1)%Z
       /\ Store.failed_scrapes store'
          = (Store.failed_scrapes store + failed)%Z
       /\ (0 <= Store.failed_scrapes store' <= Store.total_scrapes store')%Z
       /\ (0 <= Store.success_rate store' <= 100)%Q
       /\ ((Store.success_rate store' == 100)%Q
           <-> Store.failed_scrapes store' = 0%Z).
Proof.
  intros Hf Hrow Hstore Hinv db' failed. subst db'.
  unfold _update_store_stats, bind, get, modify. rewrite Hf, Hrow.
  cbn [fst snd products prices price_history stores].
  repeat (split; [reflexivity |]).
  rewrite update_at_same, Hstore. cbn [option_map].
  eexists. split; [reflexivity |].
  unfold scraped_once.
  cbn [Store.id Store.last_scraped Store.total_scrapes Store.failed_scrapes
       Store.success_rate].
  assert (Ht : (Store.total_scrapes store + 1 >? 0)%Z = true).
  { apply Z.gtb_lt. lia. }
  rewrite Ht.
  assert (Hfail :
            (if match errors st with [] => false | _ :: _ => true end
             then (Store.failed_scrapes store + 1)%Z
             else Store.failed_scrapes store)
            = (Store.failed_scrapes store + failed)%Z).
  { unfold failed. destruct (errors st); lia. }
  rewrite Hfail.
  assert (Hrange : (0 <= Store.failed_scrapes store + failed
                    <= Store.total_scrapes store + 1)%Z).
  { unfold failed. destruct (errors st); lia. }
  destruct (rate_in_range (Store.total_scrapes store + 1)
              (Store.failed_scrapes store + failed) Hrange ltac:(lia))
    as [Hr Hiff].
  repeat split; try lia; try apply Hr; apply Hiff.
Qed.

Lemma update_store_stats_keeps_the_counters_in_order_witness :
  let db' :=
    snd (_update_store_stats no_faults Example.one_hour 1
           (initial_stats []) (Example.catalog true)) in
  let failed :=
    match errors (initial_stats []) with [] => 0%Z | _ => 1%Z end in
  fst (_update_store_stats no_faults Example.one_hour 1
         (initial_stats []) (Example.catalog true)) = Ok tt
  /\ products db' = products (Example.catalog true)
  /\ prices db' = prices (Example.catalog true)
  /\ price_history db' = price_history (Example.catalog true)
  /\ exists store',
       nth_error (stores db') 0 = Some store'
       /\ Store.id store' = Store.id Example.store
       /\ Store.last_scraped store' = Some Example.one_hour
       /\ Store.total_scrapes store'
          = (Store.total_scrapes Example.store + 1)%Z
       /\ Store.failed_scrapes store'
          = (Store.failed_scrapes Example.store + failed)%Z
       /\ (0 <= Store.failed_scrapes store' <= Store.total_scrapes store')%Z
       /\ (0 <= Store.success_rate store' <= 100)%Q
       /\ ((Store.success_rate store' == 100)%Q
           <-> Store.failed_scrapes store' = 0%Z).
Proof.
  apply (update_store_stats_keeps_the_counters_in_order no_faults
           Example.one_hour 1 (initial_stats []) (Example.catalog true)
           0 Example.store).
  - reflexivity.
  - reflexivity.
  - reflexivity.
  - cbn. lia.
Defined.

End StoreStats.

(** ** Runs of blanks *)

Section Blanks.

Import PyStr Re.

(** A repetition of [\s] takes all the blanks there are. *)
Lemma star_blanks_greedy (total : nat) (n : nat) :
  forall (prev : option ascii) (t : str),
    List.length t <= n ->
    star_loop (Cls is_space)
      (fun _ rest => Some (total - List.length rest)) n prev t
    = Some (total - List.length (lstrip t)).
Proof.
  induction n as [| n IH]; intros prev t Hn.
  - destruct t; [reflexivity | cbn in Hn; lia].
  - cbn [star_loop]. destruct t as [| c t]; [reflexivity |].
    cbn [run lstrip]. destruct (is_space c); [| reflexivity].
    replace (List.length t <? List.length (c :: t)) with true
      by (symmetry; apply Nat.ltb_lt; cbn; lia).
    rewrite IH by (cbn in Hn; lia). reflexivity.
Qed.

Lemma run_seq {A : Type} (a b : regex) (prev : option ascii) (t : str)
    (k : option ascii -> str -> option A) :
  run (Seq a b) prev t k = run a prev t (fun prev' t' => run b prev' t' k).
Proof. reflexivity. Qed.

Lemma run_cls {A : Type} (p : ascii -> bool) (prev : option ascii)
    (c : ascii) (t : str) (k : option ascii -> str -> option A) :
  run (Cls p) prev (c :: t) k = if p c then k (Some c) t else None.
Proof. reflexivity. Qed.

Lemma match_here_blanks (prev : option ascii) (c : ascii) (t : str) :
  match_here (Plus Re.s) prev (c :: t)
  = if is_space c
    then Some (S (List.length t - List.length (lstrip t)))
    else None.
Proof.
  unfold match_here, Plus, Re.s. rewrite run_seq, run_cls.
  destruct (is_space c); [| reflexivity].
  rewrite run_star. rewrite star_blanks_greedy by lia.
  f_equal. cbn [List.length].
  pose proof (lstrip_split t) as (b & Hb & _).
  apply (f_equal (@List.length ascii)) in Hb. rewrite length_app in Hb. lia.
Qed.

(** Skipping the rest of a match. *)
Lemma sub_from_skip (r : regex) (repl : str) (blanks : str) :
  forall (prev : option ascii) (rest : str),
    sub_from r repl prev (blanks ++ rest) (List.length blanks)
    = sub_from r repl (last_char prev blanks) rest 0.
Proof.
  induction blanks as [| c blanks IH]; intros prev rest.
  - cbn [app List.length]. destruct rest; reflexivity.
  - cbn [app List.length sub_from]. rewrite IH. f_equal.
    unfold last_char. cbn [rev]. destruct (rev blanks); reflexivity.
Qed.

(** How [re.sub(r'\s+', ' ', t)] goes through a text: a run of blanks
    becomes one blank, any other character stays. *)
Lemma sub_blanks_step (prev : option ascii) (c : ascii) (t : str) :
  sub_from (Plus Re.s) (list_ascii_of_string " ") prev (c :: t) 0
  = if is_space c
    then " "%char
         :: sub_from (Plus Re.s) (list_ascii_of_string " ")
              (last_char (Some c)
                 (firstn (List.length t - List.length (lstrip t)) t))
              (lstrip t) 0
    else c :: sub_from (Plus Re.s) (list_ascii_of_string " ") (Some c) t 0.
Proof.
  cbn [sub_from]. rewrite match_here_blanks.
  destruct (is_space c); [| reflexivity].
  cbn [list_ascii_of_string app]. f_equal.
  destruct (lstrip_split t) as (b & Hb & _).
  remember (lstrip t) as u eqn:Eu. clear Eu. subst t.
  rewrite length_app.
  replace (List.length b + List.length u - List.length u)
    with (List.length b) by lia.
  rewrite sub_from_skip. rewrite firstn_app, Nat.sub_diag, firstn_all.
  cbn [firstn]. now rewrite app_nil_r.
Qed.

(** A text that does not start with a blank starts with a word. *)
Lemma first_word (c : ascii) (t : str) :
  is_space c = false ->
  exists word rest,
    c :: t = word ++ rest
    /\ word <> []
    /\ forallb (fun x => negb (is_space x)) word = true
    /\ (rest = [] \/ exists b r, rest = b :: r /\ is_space b = true).
Proof.
  revert c. induction t as [| d t IH]; intros c Hc.
  - exists [c], []. repeat split; [discriminate | cbn; now rewrite Hc | now left].
  - destruct (is_space d) eqn:Hd.
    + exists [c], (d :: t). repeat split;
        [discriminate | cbn; now rewrite Hc | right; eauto].
    + destruct (IH d Hd) as (word & rest & E & _ & Hw & Hr).
      exists (c :: word), rest. rewrite E. repeat split;
        [discriminate | cbn; now rewrite Hc, Hw | exact Hr].
Qed.

Lemma sub_blanks_word (word rest : str) (prev : option ascii) :
  forallb (fun x => negb (is_space x)) word = true ->
  sub_from (Plus Re.s) (list_ascii_of_string " ") prev (word ++ rest) 0
  = word ++ sub_from (Plus Re.s) (list_ascii_of_string " ")
              (last_char prev word) rest 0.
Proof.
  revert prev. induction word as [| c word IH]; intros prev H.
  - reflexivity.
  - cbn in H. apply andb_prop in H. destruct H as [Hc Hw].
    apply negb_true_iff in Hc.
    cbn [app]. rewrite sub_blanks_step, Hc. rewrite IH by exact Hw.
    cbn [app]. do 2 f_equal. 
    unfold last_char. cbn [rev]. destruct (rev word); reflexivity.
Qed.

Lemma lstrip_head (t : str) :
  lstrip t = [] \/ exists c u, lstrip t = c :: u /\ is_space c = false.
Proof.
  induction t as [| c t IH]; [now left |].
  cbn [lstrip]. destruct (is_space c) eqn:E; [exact IH |].
  right. eauto.
Qed.

Lemma lstrip_length (t : str) : List.length (lstrip t) <= List.length t.
Proof.
  destruct (lstrip_split t) as (b & Hb & _).
  apply (f_equal (@List.length ascii)) in Hb. rewrite length_app in Hb. lia.
Qed.

Lemma lstrip_blanks_app (blanks t : str) :
  forallb is_space blanks = true -> lstrip (blanks ++ t) = lstrip t.
Proof.
  induction blanks as [| c b IH]; intro H; [reflexivity |].
  cbn in H. apply andb_prop in H. destruct H as [Hc Hb].
  cbn [app lstrip]. rewrite Hc. now apply IH.
Qed.

Lemma lstrip_all_blanks (blanks : str) :
  forallb is_space blanks = true -> lstrip blanks = [].
Proof.
  intro H. rewrite <- (app_nil_r blanks). now rewrite lstrip_blanks_app.
Qed.

Lemma lstrip_nil_blanks (t : str) :
  lstrip t = [] -> forallb is_space t = true.
Proof.
  intro H. destruct (lstrip_split t) as (b & Hb & Hs).
  rewrite H, app_nil_r in Hb. now subst.
Qed.

(** Whether a text ends with a blank. *)
Lemma ends_blank_app (t u : str) :
  u <> [] ->
  match rev (t ++ u) with c :: _ => is_space c | [] => false end
  = match rev u with c :: _ => is_space c | [] => false end.
Proof.
  intro Hu. rewrite rev_app_distr.
  destruct (rev u) eqn:E; [| reflexivity].
  apply (f_equal (@List.length ascii)) in E. rewrite length_rev in E.
  destruct u; [congruence | discriminate].
Qed.

Lemma all_blanks_end (t : str) :
  t <> [] -> forallb is_space t = true ->
  match rev t with c :: _ => is_space c | [] => false end = true.
Proof.
  intros Hne H. destruct (rev t) as [| c r] eqn:E.
  - apply (f_equal (@List.length ascii)) in E. rewrite length_rev in E.
    destruct t; [congruence | discriminate].
  - rewrite forallb_forall in H. apply H. apply in_rev. rewrite E. now left.
Qed.

Lemma word_end (word : str) :
  forallb (fun x => negb (is_space x)) word = true ->
  match rev word with c :: _ => is_space c | [] => false end = false.
Proof.
  intro H. destruct (rev word) as [| c r] eqn:E; [reflexivity |].
  rewrite forallb_forall in H. apply negb_true_iff. apply H.
  apply in_rev. rewrite E. now left.
Qed.

Lemma split_ws_word_app (word rest : str) :
  word <> [] ->
  forallb (fun x => negb (is_space x)) word = true ->
  (rest = [] \/ exists b r, rest = b :: r /\ is_space b = true) ->
  split_ws (word ++ rest) = word :: split_ws (lstrip rest).
Proof.
  intros Hne Hw Hr. unfold split_ws. rewrite split_ws_aux_word by exact Hw.
  rewrite app_nil_r.
  assert (Hrev : rev word <> []).
  { intro E. apply (f_equal (@List.length ascii)) in E.
    rewrite length_rev in E. destruct word; [congruence | discriminate]. }
  destruct Hr as [-> | (b & r & -> & Hb)].
  - cbn [split_ws_aux lstrip]. destruct (rev word) eqn:E; [congruence |].
    rewrite <- E, rev_involutive. reflexivity.
  - cbn [split_ws_aux lstrip]. rewrite Hb.
    destruct (rev word) eqn:E; [congruence |].
    rewrite <- E, rev_involutive. f_equal.
    destruct (lstrip_split r) as (bl & Hbl & Hs).
    rewrite Hbl at 1. apply (split_ws_blanks_app bl (lstrip r) Hs).
Qed.

(** [re.sub(r'\s+', ' ', t)] on a text that does not start with a
    blank: its words with one blank between them, and one blank at the
    end if the text ends with a blank. *)
Lemma sub_blanks_words (n : nat) :
  forall (t : str) (prev : option ascii),
    List.length t <= n ->
    (t = [] \/ exists c u, t = c :: u /\ is_space c = false) ->
    sub_from (Plus Re.s) (list_ascii_of_string " ") prev t 0
    = join " " (split_ws t)
      ++ (if match rev t with c :: _ => is_space c | [] => false end
          then list_ascii_of_string " " else []).
Proof.
  induction n as [| n IH]; intros t prev Hn Hstart.
  - destruct t; [reflexivity | cbn in Hn; lia].
  - destruct Hstart as [-> | (c & u & -> & Hc)]; [reflexivity |].
    destruct (first_word c u Hc) as (word & rest & E & Hne & Hw & Hr).
    rewrite E in *. rewrite sub_blanks_word by exact Hw.
    rewrite (split_ws_word_app word rest Hne Hw Hr).
    destruct Hr as [-> | (b & r & -> & Hb)].
    + cbn [sub_from lstrip split_ws split_ws_aux join].
      rewrite !app_nil_r. rewrite word_end by exact Hw.
      now rewrite app_nil_r.
    + rewrite sub_blanks_step, Hb.
      assert (Hlen : List.length (lstrip r) <= n).
      { pose proof (lstrip_length r). rewrite length_app in Hn.
        destruct word; [congruence |]. cbn in Hn. lia. }
      rewrite (IH (lstrip r) _ Hlen (lstrip_head r)).
      cbn [lstrip]. rewrite Hb.
      destruct (lstrip r) as [| x v] eqn:El.
      * cbn [split_ws split_ws_aux join rev app].
        rewrite ends_blank_app by discriminate.
        rewrite all_blanks_end; [reflexivity | discriminate |].
        cbn [forallb]. rewrite Hb. now apply lstrip_nil_blanks.
      * assert (Hws : split_ws (x :: v) <> []).
        { destruct (lstrip_head r) as [H | (c' & u' & H & Hc')];
            rewrite El in H; [discriminate |].
          injection H as <- <-.
          destruct (first_word x v Hc') as (w' & r' & E' & Hne' & Hw' & Hr').
          rewrite E'. now rewrite (split_ws_word_app w' r' Hne' Hw' Hr'). }
        destruct (split_ws (x :: v)) as [| w1 ws] eqn:Ews; [congruence |].
        change (join " " (word :: w1 :: ws))
          with (word ++ list_ascii_of_string " " ++ join " " (w1 :: ws)).
        cbn [list_ascii_of_string app]. rewrite <- !app_assoc.
        cbn [app]. do 3 f_equal.
        destruct (lstrip_split r) as (bl & Hbl & _). rewrite El in Hbl.
        rewrite Hbl.
        replace (word ++ b :: bl ++ x :: v)
          with ((word ++ b :: bl) ++ x :: v)
          by (now rewrite <- app_assoc).
        now rewrite ends_blank_app by discriminate.
Qed.

Lemma join_words_ends (words : list str) :
  Forall (fun word => word <> [] /\
                      forallb (fun c => negb (is_space c)) word = true)
         words ->
  join " " words = []
  \/ (exists c u, join " " words = c :: u /\ is_space c = false)
     /\ (exists u c, join " " words = u ++ [c] /\ is_space c = false).
Proof.
  induction 1 as [| word words [Hne Hw] Hall IH]; [now left |].
  right.
  assert (Hfirst : exists c u, word = c :: u /\ is_space c = false).
  { destruct word as [| c u]; [congruence |]. exists c, u.
    cbn in Hw. apply andb_prop in Hw. destruct Hw as [Hc _].
    now apply negb_true_iff in Hc. }
  assert (Hlast : exists u c, word = u ++ [c] /\ is_space c = false).
  { destruct (exists_last Hne) as (u & c & E). exists u, c.
    split; [exact E |]. rewrite forallb_forall in Hw.
    apply negb_true_iff. apply Hw. rewrite E. apply in_or_app. right.
    now left. }
  destruct words as [| w2 ws].
  - cbn [join]. auto.
  - change (join " " (word :: w2 :: ws))
      with (word ++ list_ascii_of_string " " ++ join " " (w2 :: ws)).
    destruct IH as [E | [_ (u & c & E & Hc)]].
    + exfalso. cbn [join] in E. inversion Hall as [| ? ? [Hn2 _] _]; subst.
      destruct ws; [congruence |].
      destruct w2; [congruence | discriminate].
    + split.
      * destruct Hfirst as (c0 & u0 & -> & H0). exists c0. eexists.
        split; [reflexivity | exact H0].
      * exists (word ++ list_ascii_of_string " " ++ u), c. rewrite E.
        split; [now rewrite <- !app_assoc | exact Hc].
Qed.

Lemma strip_padded (lead body trail : str) :
  forallb is_space lead = true ->
  forallb is_space trail = true ->
  body = []
  \/ (exists c u, body = c :: u /\ is_space c = false)
     /\ (exists u c, body = u ++ [c] /\ is_space c = false) ->
  strip (lead ++ body ++ trail) = body.
Proof.
  intros Hl Ht Hb. unfold strip. rewrite lstrip_blanks_app by exact Hl.
  destruct Hb as [-> | [(c & u & E & Hc) (u' & c' & E' & Hc')]].
  - cbn [app]. now rewrite lstrip_all_blanks.
  - assert (H1 : lstrip (body ++ trail) = body ++ trail).
    { rewrite E. cbn [app lstrip]. now rewrite Hc. }
    rewrite H1. unfold rstrip. rewrite rev_app_distr.
    rewrite lstrip_blanks_app.
    + rewrite E'. rewrite rev_app_distr. cbn [rev app lstrip].
      rewrite Hc'. cbn [rev]. now rewrite rev_involutive.
    + rewrite forallb_forall in *. intros x Hx. apply Ht. now apply in_rev.
Qed.

(** Blanks made single, then the ends stripped: the words of the text
    with one blank between them. *)
Lemma collapse_blanks (t : str) :
  strip (Re.sub (Plus Re.s) (list_ascii_of_string " ") t)
  = join " " (split_ws t).
Proof.
  unfold Re.sub.
  assert (Hj := join_words_ends (split_ws t) (split_ws_words t)).
  destruct t as [| c u]; [reflexivity |].
  destruct (is_space c) eqn:Hc.
  - rewrite sub_blanks_step, Hc.
    rewrite (sub_blanks_words (List.length (lstrip u)) (lstrip u) _
               (Nat.le_refl _) (lstrip_head u)).
    assert (Hsame : split_ws (c :: u) = split_ws (lstrip u)).
    { destruct (lstrip_split u) as (bl & Hbl & Hs).
      rewrite Hbl at 1.
      apply (split_ws_blanks_app (c :: bl) (lstrip u)).
      cbn. now rewrite Hc, Hs. }
    rewrite Hsame in *.
    apply (strip_padded [" "%char]); [reflexivity | | exact Hj].
    destruct (match rev (lstrip u) with _ :: _ => _ | [] => _ end);
      reflexivity.
  - rewrite (sub_blanks_words (List.length (c :: u)) (c :: u) _
               (Nat.le_refl _)) by (right; eauto).
    apply (strip_padded []); [reflexivity | | exact Hj].
    destruct (match rev (c :: u) with _ :: _ => _ | [] => _ end);
      reflexivity.
Qed.

End Blanks.

(** ** The normal form of a name *)

Section NormalName.

Import PyStr PyNum Py Re Server Server.DataProcessor.

(** Replacing matches by nothing only takes characters away. *)
Lemma sub_from_delete_incl (r : regex) (t : str) :
  forall (prev : option ascii) (skip : nat) (c : ascii),
    In c (sub_from r [] prev t skip) -> In c t.
Proof.
  induction t as [| x t IH]; intros prev skip c H; [exact H |].
  cbn [sub_from] in H. destruct skip as [| n].
  - destruct (match_here r prev (x :: t)) as [[| n] |];
      cbn [app] in H.
    + destruct H as [<- | H]; [now left | right; eapply IH; exact H].
    + right. eapply IH. exact H.
    + destruct H as [<- | H]; [now left | right; eapply IH; exact H].
  - right. eapply IH. exact H.
Qed.

Lemma join_incl (sep : str) (parts : list str) (c : ascii) :
  In c (join sep parts) ->
  In c sep \/ exists part, In part parts /\ In c part.
Proof.
  induction parts as [| p parts IH]; intro H; [destruct H |].
  destruct parts as [| q parts].
  - right. exists p. split; [now left | exact H].
  - change (join sep (p :: q :: parts))
      with (p ++ sep ++ join sep (q :: parts)) in H.
    rewrite !in_app_iff in H. destruct H as [H | [H | H]].
    + right. exists p. split; [now left | exact H].
    + now left.
    + destruct (IH H) as [Hs | (part & Hp & Hc)]; [now left |].
      right. exists part. split; [now right | exact Hc].
Qed.

Lemma split_ws_aux_incl (t cur word : str) (c : ascii) :
  In word (split_ws_aux cur t) -> In c word -> In c cur \/ In c t.
Proof.
  revert cur. induction t as [| x t IH]; intros cur Hw Hc;
    cbn [split_ws_aux] in Hw.
  - destruct cur as [| y cur']; [destruct Hw |].
    destruct Hw as [<- | []]. left. now apply in_rev.
  - destruct (is_space x).
    + destruct cur as [| y cur'].
      * destruct (IH [] Hw Hc) as [[] | H]. right. now right.
      * destruct Hw as [<- | Hw]; [left; now apply in_rev |].
        destruct (IH [] Hw Hc) as [[] | H]. right. now right.
    + destruct (IH (x :: cur) Hw Hc) as [[<- | H] | H].
      * right. now left.
      * now left.
      * right. now right.
Qed.

Lemma split_ws_incl (t word : str) (c : ascii) :
  In word (split_ws t) -> In c word -> In c t.
Proof.
  intros Hw Hc. destruct (split_ws_aux_incl t [] word c Hw Hc) as [[] | H].
  exact H.
Qed.

Lemma lower_char_not_upper (c : ascii) : is_upper (lower_char c) = false.
Proof.
  unfold lower_char. destruct (is_upper c) eqn:E; [| exact E].
  unfold is_upper, code in *. apply andb_prop in E. destruct E as [E1 E2].
  apply Nat.leb_le in E1. apply Nat.leb_le in E2.
  rewrite nat_ascii_embedding by lia.
  apply andb_false_iff. right. apply Nat.leb_gt. lia.
Qed.

(** X18.  The normalized form of a 7-bit name is in normal form: it
    consists of lower-case letters, digits, underscores and single
    blanks, has no blank at either end, and is made of its own words
    joined by one blank; [clean_text] leaves it as it is. *)
Theorem normalized_name_is_in_normal_form (name : str) :
  isascii name = true ->
  let normalized := _normalize_product_name name in
  normalized = join " " (split_ws normalized)
  /\ strip normalized = normalized
  /\ BaseScraper.clean_text normalized = normalized
  /\ Forall (fun c => (is_word c || Ascii.eqb c " ") && negb (is_upper c)
                      = true) normalized.
Proof.
  intros _. cbv zeta. unfold _normalize_product_name.
  destruct (negb (truthy name)) eqn:Hn.
  { repeat split; constructor. }
  set (body := Re.sub special_char []
                 (Re.sub unit_word []
                    (join " " (split_ws (strip (lower name)))))).
  rewrite collapse_blanks.
  assert (Hwords := split_ws_words body).
  assert (Hsplit : split_ws (join " " (split_ws body)) = split_ws body)
    by (now apply split_ws_join).
  assert (Hclean : BaseScraper.clean_text (join " " (split_ws body))
                   = join " " (split_ws body)).
  { rewrite clean_text_words. now rewrite Hsplit. }
  split; [now rewrite Hsplit |]. split; [| split; [exact Hclean |]].
  - destruct (join_words_ends _ Hwords) as [-> | H]; [reflexivity |].
    pose proof (strip_padded [] (join " " (split_ws body)) []
                  eq_refl eq_refl (or_intror H)) as Hp.
    cbn [app] in Hp. now rewrite app_nil_r in Hp.
  - apply Forall_forall. intros c Hc.
    apply join_incl in Hc. destruct Hc as [[<- | []] | (word & Hw & Hc)];
      [reflexivity |].
    assert (Hbody : In c body) by (eapply split_ws_incl; eassumption).
    assert (Hnb : is_space c = false).
    { rewrite Forall_forall in Hwords. destruct (Hwords word Hw) as [_ Hall].
      rewrite forallb_forall in Hall. apply negb_true_iff. now apply Hall. }
    unfold body, Re.sub, special_char in Hbody.
    rewrite sub_class_filter in Hbody. apply filter_In in Hbody.
    destruct Hbody as [Hin Hkeep]. rewrite negb_involutive in Hkeep.
    rewrite Hnb, orb_false_r in Hkeep. rewrite Hkeep. cbn [orb andb].
    apply negb_true_iff.
    apply sub_from_delete_incl in Hin.
    apply join_incl in Hin.
    destruct Hin as [[<- | []] | (w2 & Hw2 & Hc2)]; [reflexivity |].
    assert (Hl : In c (lower name)).
    { apply strip_incl. eapply split_ws_incl; eassumption. }
    unfold lower in Hl. apply in_map_iff in Hl.
    destruct Hl as (x & <- & _). apply lower_char_not_upper.
Qed.

Lemma normalized_name_is_in_normal_form_witness :
  let normalized := _normalize_product_name " Fresh  TOMATO, 1 kg!" in
  normalized = list_ascii_of_string "fresh tomato 1"
  /\ strip normalized = normalized
  /\ BaseScraper.clean_text normalized = normalized.
Proof.
  destruct (normalized_name_is_in_normal_form " Fresh  TOMATO, 1 kg!" eq_refl)
    as (_ & H2 & H3 & _).
  split; [reflexivity|]. split; [exact H2|exact H3].
Defined.
End NormalName.

(** ** The trend of a price list *)

Section Trend.

Import PyStr PyNum Py Server Server.DataProcessor.

Local Open Scope Q_scope.

Lemma sum_Z_snoc (l : list Z) (x : Z) : sum_Z (l ++ [x]) = (sum_Z l + x)%Z.
Proof. unfold sum_Z. now rewrite fold_left_app. Qed.

Lemma sum_Q_snoc (l : list Q) (x : Q) : sum_Q (l ++ [x]) = sum_Q l + x.
Proof. unfold sum_Q. now rewrite fold_left_app. Qed.

Lemma x_values_length (a b : list Q) :
  List.length a = List.length b -> x_values a = x_values b.
Proof. unfold x_values. now intros ->. Qed.

Lemma sum_x_length (a b : list Q) :
  List.length a = List.length b -> sum_x a = sum_x b.
Proof. intro H. unfold sum_x. now rewrite (x_values_length a b H). Qed.

Lemma x_values_snoc (ys : list Q) (y : Q) :
  x_values (ys ++ [y]) = x_values ys ++ [Z.of_nat (List.length ys)].
Proof.
  unfold x_values. rewrite length_app. cbn [List.length].
  rewrite seq_app, map_app. reflexivity.
Qed.

Lemma x_values_len (ys : list Q) : List.length (x_values ys) = List.length ys.
Proof. unfold x_values. now rewrite length_map, length_seq. Qed.

Lemma sum_x_snoc (ys : list Q) (y : Q) :
  sum_x (ys ++ [y]) = (sum_x ys + Z.of_nat (List.length ys))%Z.
Proof. unfold sum_x. now rewrite x_values_snoc, sum_Z_snoc. Qed.

Lemma sum_x2_snoc (ys : list Q) (y : Q) :
  sum_x2 (ys ++ [y])
  = (sum_x2 ys + Z.of_nat (List.length ys) * Z.of_nat (List.length ys))%Z.
Proof.
  unfold sum_x2. rewrite x_values_snoc, map_app. cbn [map].
  now rewrite sum_Z_snoc.
Qed.

Lemma sum_y_snoc (ys : list Q) (y : Q) : sum_y (ys ++ [y]) = sum_y ys + y.
Proof. apply sum_Q_snoc. Qed.

Lemma combine_snoc {A B : Type} (a : list A) (b : list B) (x : A) (y : B) :
  List.length a = List.length b ->
  combine (a ++ [x]) (b ++ [y]) = combine a b ++ [(x, y)].
Proof.
  revert b. induction a as [| u a IH]; intros [| v b] H;
    try discriminate H; [reflexivity |].
  cbn [app combine]. f_equal. apply IH. now injection H.
Qed.

Lemma sum_xy_snoc (ys : list Q) (y : Q) :
  sum_xy (ys ++ [y])
  = sum_xy ys + inject_Z (Z.of_nat (List.length ys)) * y.
Proof.
  unfold sum_xy. rewrite x_values_snoc.
  rewrite combine_snoc by apply x_values_len.
  rewrite map_app. cbn [map combine fst snd]. now rewrite sum_Q_snoc.
Qed.

(** The sums over the positions in closed form. *)
Lemma sum_x_closed (ys : list Q) :
  (2 * sum_x ys
   = Z.of_nat (List.length ys) * (Z.of_nat (List.length ys) - 1))%Z.
Proof.
  induction ys as [| y ys IH] using rev_ind; [reflexivity |].
  rewrite sum_x_snoc, length_app. cbn [List.length]. lia.
Qed.

Lemma sum_x2_closed (ys : list Q) :
  (6 * sum_x2 ys
   = (Z.of_nat (List.length ys) - 1) * Z.of_nat (List.length ys)
     * (2 * Z.of_nat (List.length ys) - 1))%Z.
Proof.
  induction ys as [| y ys IH] using rev_ind; [reflexivity |].
  rewrite sum_x2_snoc, length_app. cbn [List.length]. nia.
Qed.

Lemma slope_divisor_closed (ys : list Q) :
  let n := Z.of_nat (List.length ys) in
  (12 * slope_divisor ys = n * n * (n - 1) * (n + 1))%Z.
Proof.
  cbv zeta. unfold slope_divisor.
  pose proof (sum_x_closed ys) as H1. pose proof (sum_x2_closed ys) as H2.
  nia.
Qed.

Lemma slope_divisor_pos (ys : list Q) :
  (2 <= List.length ys)%nat -> (0 < slope_divisor ys)%Z.
Proof.
  intro Hn. pose proof (slope_divisor_closed ys) as H. cbv zeta in H.
  assert (0 < Z.of_nat (List.length ys) * Z.of_nat (List.length ys)
              * (Z.of_nat (List.length ys) - 1)
              * (Z.of_nat (List.length ys) + 1))%Z.
  { repeat apply Z.mul_pos_pos; lia. }
  lia.
Qed.

Lemma slope_divisor_length (a b : list Q) :
  List.length a = List.length b -> slope_divisor a = slope_divisor b.
Proof.
  intro H. unfold slope_divisor, sum_x, sum_x2.
  now rewrite (x_values_length a b H), H.
Qed.

(** The trend is read off the sign of the dividend, measured against a
    tenth of the divisor. *)
Lemma trend_of_slope (ys : list Q) :
  (3 <= List.length ys)%nat ->
  let slope := slope_dividend ys / inject_Z (slope_divisor ys) in
  _analyze_price_trend ys
  = if Qlt_bool (1 # 10) slope
    then Ok (list_ascii_of_string "increasing")
    else if Qlt_bool slope (- (1 # 10))
         then Ok (list_ascii_of_string "decreasing")
         else Ok (list_ascii_of_string "stable").
Proof.
  intro Hn. cbv zeta. unfold _analyze_price_trend.
  replace (List.length ys <? 3)%nat with false
    by (symmetry; apply Nat.ltb_ge; exact Hn).
  pose proof (slope_divisor_pos ys ltac:(lia)) as Hpos.
  replace (slope_divisor ys =? 0)%Z with false
    by (symmetry; apply Z.eqb_neq; lia).
  reflexivity.
Qed.

(** Prices that differ by a constant have the same dividend. *)
Lemma sum_y_shift (c : Q) (ys : list Q) :
  sum_y (map (fun y => y + c) ys)
  == sum_y ys + inject_Z (Z.of_nat (List.length ys)) * c.
Proof.
  induction ys as [| y ys IH] using rev_ind.
  - cbn. ring.
  - rewrite map_app. cbn [map]. rewrite !sum_y_snoc, IH, length_app.
    cbn [List.length]. rewrite Nat2Z.inj_add, inject_Z_plus.
    change (inject_Z (Z.of_nat 1)) with 1. ring.
Qed.

Lemma sum_xy_shift (c : Q) (ys : list Q) :
  sum_xy (map (fun y => y + c) ys) == sum_xy ys + inject_Z (sum_x ys) * c.
Proof.
  induction ys as [| y ys IH] using rev_ind.
  - cbn. ring.
  - rewrite map_app. cbn [map]. rewrite !sum_xy_snoc, IH, sum_x_snoc.
    rewrite length_map, inject_Z_plus. ring.
Qed.

Lemma slope_dividend_shift (c : Q) (ys : list Q) :
  slope_dividend (map (fun y => y + c) ys) == slope_dividend ys.
Proof.
  unfold slope_dividend. cbv zeta.
  rewrite (sum_x_length (map (fun y => y + c) ys) ys) by apply length_map.
  rewrite sum_y_shift, sum_xy_shift, length_map. ring.
Qed.

(** Reading the prices backwards changes the sign of the dividend. *)
Lemma sum_y_cons (y : Q) (ys : list Q) : sum_y (y :: ys) == y + sum_y ys.
Proof.
  induction ys as [| z ys IH] using rev_ind.
  - cbn. ring.
  - rewrite app_comm_cons, !sum_y_snoc, IH. ring.
Qed.

Lemma sum_xy_cons (y : Q) (ys : list Q) :
  sum_xy (y :: ys) == sum_xy ys + sum_y ys.
Proof.
  induction ys as [| z ys IH] using rev_ind.
  - cbn. ring.
  - rewrite app_comm_cons, !sum_xy_snoc, sum_y_snoc, IH.
    cbn [List.length]. rewrite Nat2Z.inj_succ. unfold Z.succ.
    rewrite inject_Z_plus. change (inject_Z 1) with 1. ring.
Qed.

Lemma sum_y_rev (ys : list Q) : sum_y (rev ys) == sum_y ys.
Proof.
  induction ys as [| y ys IH]; [reflexivity |].
  cbn [rev]. rewrite sum_y_snoc, sum_y_cons, IH. ring.
Qed.

Lemma sum_xy_rev (ys : list Q) :
  sum_xy (rev ys)
  == (inject_Z (Z.of_nat (List.length ys)) - 1) * sum_y ys - sum_xy ys.
Proof.
  induction ys as [| y ys IH].
  - cbn. ring.
  - cbn [rev]. rewrite sum_xy_snoc, IH, length_rev, sum_y_cons, sum_xy_cons.
    cbn [List.length]. rewrite Nat2Z.inj_succ. unfold Z.succ.
    rewrite inject_Z_plus. change (inject_Z 1) with 1. ring.
Qed.

Lemma slope_dividend_rev (ys : list Q) :
  slope_dividend (rev ys) == - slope_dividend ys.
Proof.
  unfold slope_dividend. cbv zeta.
  rewrite (sum_x_length (rev ys) ys) by apply length_rev.
  rewrite sum_y_rev, sum_xy_rev, length_rev.
  pose proof (sum_x_closed ys) as H.
  assert (Hq : 2 * inject_Z (sum_x ys)
               == inject_Z (Z.of_nat (List.length ys))
                  * (inject_Z (Z.of_nat (List.length ys)) - 1)).
  { change 2 with (inject_Z 2). change 1 with (inject_Z 1).
    unfold Qminus. rewrite <- inject_Z_opp, <- inject_Z_plus,
      <- !inject_Z_mult. now rewrite H. }
  set (n := inject_Z (Z.of_nat (List.length ys))) in *.
  set (sx := inject_Z (sum_x ys)) in *.
  setoid_replace (n * ((n - 1) * sum_y ys - sum_xy ys) - sx * sum_y ys)
    with (- (n * sum_xy ys - sx * sum_y ys)
          + (n * (n - 1) - 2 * sx) * sum_y ys) by ring.
  rewrite Hq. ring.
Qed.

(** Prices that never fall have a dividend that is not negative. *)
Lemma sum_y_bound (y : Q) (ys : list Q) :
  (forall z, In z ys -> z <= y) ->
  sum_y ys <= inject_Z (Z.of_nat (List.length ys)) * y.
Proof.
  induction ys as [| z ys IH] using rev_ind; intro H.
  - cbn. rewrite Qmult_0_l. apply Qle_refl.
  - rewrite sum_y_snoc, length_app. cbn [List.length].
    rewrite Nat2Z.inj_add, inject_Z_plus. change (inject_Z (Z.of_nat 1)) with 1.
    setoid_replace ((inject_Z (Z.of_nat (List.length ys)) + 1) * y)
      with (inject_Z (Z.of_nat (List.length ys)) * y + y) by ring.
    apply Qplus_le_compat.
    + apply IH. intros w Hw. apply H, in_or_app. now left.
    + apply H, in_or_app. right. now left.
Qed.

Lemma below_last (y : Q) (ys : list Q) :
  (forall z, In z ys -> z <= y) ->
  inject_Z (Z.of_nat (List.length ys)) * sum_y ys - sum_xy ys
  <= (inject_Z (Z.of_nat (List.length ys) * Z.of_nat (List.length ys))
      - inject_Z (sum_x ys)) * y.
Proof.
  induction ys as [| z ys IH] using rev_ind; intro H.
  - cbn. setoid_replace ((inject_Z 0 - inject_Z 0) * y) with 0 by ring.
    discriminate.
  - assert (Hys : forall w, In w ys -> w <= y).
    { intros w Hw. apply H, in_or_app. now left. }
    assert (Hz : z <= y) by (apply H, in_or_app; right; now left).
    specialize (IH Hys). pose proof (sum_y_bound y ys Hys) as Hb.
    rewrite sum_y_snoc, sum_xy_snoc, sum_x_snoc, length_app.
    cbn [List.length]. rewrite Nat2Z.inj_add.
    change (Z.of_nat 1) with 1%Z.
    rewrite inject_Z_mult in IH. rewrite inject_Z_mult, !inject_Z_plus.
    change (inject_Z 1) with 1.
    set (m := inject_Z (Z.of_nat (List.length ys))) in *.
    set (sx := inject_Z (sum_x ys)) in *.
    setoid_replace ((m + 1) * (sum_y ys + z) - (sum_xy ys + m * z))
      with ((m * sum_y ys - sum_xy ys) + sum_y ys + z) by ring.
    setoid_replace (((m + 1) * (m + 1) - (sx + m)) * y)
      with ((m * m - sx) * y + m * y + y) by ring.
    repeat apply Qplus_le_compat; assumption.
Qed.

Lemma slope_dividend_snoc (y : Q) (ys : list Q) :
  slope_dividend (ys ++ [y])
  == slope_dividend ys
     + ((inject_Z (Z.of_nat (List.length ys) * Z.of_nat (List.length ys))
         - inject_Z (sum_x ys)) * y
        - (inject_Z (Z.of_nat (List.length ys)) * sum_y ys - sum_xy ys)).
Proof.
  unfold slope_dividend. cbv zeta.
  rewrite sum_y_snoc, sum_xy_snoc, sum_x_snoc, length_app.
  cbn [List.length]. rewrite Nat2Z.inj_add. change (Z.of_nat 1) with 1%Z.
  rewrite !inject_Z_plus, inject_Z_mult. change (inject_Z 1) with 1. ring.
Qed.

(** Prices in rising order, written on the positions. *)
Lemma rising_snoc (y : Q) (ys : list Q) :
  (forall i j, (i <= j < List.length (ys ++ [y]))%nat ->
               nth i (ys ++ [y]) 0 <= nth j (ys ++ [y]) 0) ->
  (forall i j, (i <= j < List.length ys)%nat -> nth i ys 0 <= nth j ys 0)
  /\ (forall z, In z ys -> z <= y).
Proof.
  intro H. split.
  - intros i j Hij. specialize (H i j). rewrite length_app in H.
    rewrite !app_nth1 in H by lia. apply H. lia.
  - intros z Hz. destruct (In_nth ys z 0 Hz) as (i & Hi & <-).
    specialize (H i (List.length ys)). rewrite length_app in H.
    cbn [List.length] in H. rewrite app_nth1 in H by exact Hi.
    rewrite app_nth2, Nat.sub_diag in H by lia. apply H. lia.
Qed.

Lemma rising_dividend (ys : list Q) :
  (forall i j, (i <= j < List.length ys)%nat -> nth i ys 0 <= nth j ys 0) ->
  0 <= slope_dividend ys.
Proof.
  induction ys as [| y ys IH] using rev_ind; intro H.
  - cbn. discriminate.
  - destruct (rising_snoc y ys H) as [Hys Hy].
    rewrite slope_dividend_snoc.
    setoid_replace 0 with (0 + 0) at 1 by ring.
    apply Qplus_le_compat; [now apply IH |].
    apply (proj1 (Qle_minus_iff _ _)). now apply below_last.
Qed.

Lemma slope_nonneg (ys : list Q) :
  (2 <= List.length ys)%nat -> 0 <= slope_dividend ys ->
  0 <= slope_dividend ys / inject_Z (slope_divisor ys).
Proof.
  intros Hn H. pose proof (slope_divisor_pos ys Hn) as Hpos.
  apply Qle_shift_div_l.
  - change 0 with (inject_Z 0). now rewrite <- Zlt_Qlt.
  - now rewrite Qmult_0_l.
Qed.

Lemma slope_rev (ys : list Q) :
  (2 <= List.length ys)%nat ->
  slope_dividend (rev ys) / inject_Z (slope_divisor (rev ys))
  == - (slope_dividend ys / inject_Z (slope_divisor ys)).
Proof.
  intro Hn. pose proof (slope_divisor_pos ys Hn) as Hpos.
  rewrite (slope_divisor_length (rev ys) ys) by apply length_rev.
  rewrite slope_dividend_rev. field.
  intro E. change 0 with (inject_Z 0) in E.
  apply (proj1 (inject_Z_injective _ _)) in E. lia.
Qed.

Lemma slope_shift (c : Q) (ys : list Q) :
  slope_dividend (map (fun y => y + c) ys)
    / inject_Z (slope_divisor (map (fun y => y + c) ys))
  == slope_dividend ys / inject_Z (slope_divisor ys).
Proof.
  rewrite (slope_divisor_length (map (fun y => y + c) ys) ys)
    by apply length_map.
  now rewrite slope_dividend_shift.
Qed.

Lemma constant_sums (c : Q) (ys : list Q) :
  (forall y, In y ys -> y == c) ->
  sum_y ys == inject_Z (Z.of_nat (List.length ys)) * c
  /\ sum_xy ys == inject_Z (sum_x ys) * c.
Proof.
  induction ys as [| y ys IH] using rev_ind; intro H.
  - split; cbn; ring.
  - destruct IH as [IH1 IH2].
    { intros w Hw. apply H, in_or_app. now left. }
    assert (Hy : y == c) by (apply H, in_or_app; right; now left).
    rewrite sum_y_snoc, sum_xy_snoc, sum_x_snoc, length_app.
    cbn [List.length]. rewrite Nat2Z.inj_add, !inject_Z_plus.
    change (inject_Z (Z.of_nat 1)) with 1.
    split; [rewrite IH1 | rewrite IH2]; rewrite Hy; ring.
Qed.

(** The three answers for a list of three prices or more, with what
    they say about the slope. *)
Lemma trend_cases (ys : list Q) :
  (3 <= List.length ys)%nat ->
  let slope := slope_dividend ys / inject_Z (slope_divisor ys) in
  (_analyze_price_trend ys = Ok (list_ascii_of_string "increasing")
   /\ (1 # 10) < slope)
  \/ (_analyze_price_trend ys = Ok (list_ascii_of_string "decreasing")
      /\ slope < - (1 # 10))
  \/ (_analyze_price_trend ys = Ok (list_ascii_of_string "stable")
      /\ - (1 # 10) <= slope <= (1 # 10)).
Proof.
  intro Hn. cbv zeta. rewrite (trend_of_slope ys Hn). cbv zeta.
  destruct (Qlt_bool (1 # 10) _) eqn:E1.
  { left. split; [reflexivity | now apply Qlt_bool_iff]. }
  destruct (Qlt_bool _ (- (1 # 10))) eqn:E2.
  { right. left. split; [reflexivity | now apply Qlt_bool_iff]. }
  right. right. split; [reflexivity |]. split.
  - apply Qnot_lt_le. intro H. apply Qlt_bool_iff in H. congruence.
  - apply Qnot_lt_le. intro H. apply Qlt_bool_iff in H. congruence.
Qed.

Ltac other_trend :=
  match goal with
  | H : Ok _ = Ok _ |- _ => vm_compute in H; discriminate H
  | H : _ = Ok _, H' : _ = Ok _ |- _ =>
      rewrite H in H'; vm_compute in H'; discriminate H'
  end.

Lemma trend_short (ys : list Q) :
  (List.length ys < 3)%nat ->
  _analyze_price_trend ys = Ok (list_ascii_of_string "insufficient_data").
Proof.
  intro H. unfold _analyze_price_trend.
  now replace (List.length ys <? 3)%nat with true
    by (symmetry; apply Nat.ltb_lt; exact H).
Qed.

(** X19.  [_analyze_price_trend] never divides by zero: it always
    returns one of its four answers, and [insufficient_data] exactly for
    fewer than three prices.  Prices that are all the same are
    [stable]; and when the slope of the prices is not within a
    millionth of either threshold, reading the prices backwards turns
    [increasing] into [decreasing] and back, and keeps [stable]. *)
Theorem analyze_price_trend_reads_the_slope (prices : list Q) :
  (exists trend,
      _analyze_price_trend prices = Ok trend
      /\ In trend (map list_ascii_of_string
                     ["insufficient_data"; "increasing"; "decreasing";
                      "stable"]%string))
  /\ (_analyze_price_trend prices
      = Ok (list_ascii_of_string "insufficient_data")
      <-> (List.length prices < 3)%nat)
  /\ (forall c,
         (3 <= List.length prices)%nat ->
         (forall y, In y prices -> y == c) ->
         _analyze_price_trend prices = Ok (list_ascii_of_string "stable"))
  /\ (let slope :=
        slope_dividend prices / inject_Z (slope_divisor prices) in
      (3 <= List.length prices)%nat ->
      (1 # 1000000) <= Qabs (slope - (1 # 10)) ->
      (1 # 1000000) <= Qabs (slope + (1 # 10)) ->
      (_analyze_price_trend (rev prices)
       = Ok (list_ascii_of_string "increasing")
       <-> _analyze_price_trend prices
           = Ok (list_ascii_of_string "decreasing"))
      /\ (_analyze_price_trend (rev prices)
          = Ok (list_ascii_of_string "decreasing")
          <-> _analyze_price_trend prices
              = Ok (list_ascii_of_string "increasing"))
      /\ (_analyze_price_trend (rev prices)
          = Ok (list_ascii_of_string "stable")
          <-> _analyze_price_trend prices
              = Ok (list_ascii_of_string "stable"))).
Proof.
  destruct (Nat.lt_ge_cases (List.length prices) 3) as [Hn | Hn].
  - pose proof (trend_short prices Hn) as E.
    split; [eexists; split; [exact E | now left] |].
    split; [tauto |].
    split; [intros; lia |].
    cbv zeta. intros; lia.
  - assert (Hr : (3 <= List.length (rev prices))%nat)
      by now rewrite length_rev.
    pose proof (trend_cases prices Hn) as Hc.
    pose proof (trend_cases (rev prices) Hr) as Hcr.
    cbv zeta in Hc, Hcr. rewrite (slope_rev prices) in Hcr by lia.
    cbv zeta.
    set (slope := slope_dividend prices / inject_Z (slope_divisor prices))
      in *.
    assert (Hneg1 : forall a, - a < - (1 # 10) <-> (1 # 10) < a).
    { intro a. split; intro H.
      - apply Qopp_lt_compat in H. now rewrite !Qopp_involutive in H.
      - now apply Qopp_lt_compat. }
    assert (Hneg2 : forall a, (1 # 10) < - a <-> a < - (1 # 10)).
    { intro a. split; intro H.
      - apply Qopp_lt_compat in H. now rewrite Qopp_involutive in H.
      - apply Qopp_lt_compat in H. now rewrite Qopp_involutive in H. }
    split.
    { destruct Hc as [[E _] | [[E _] | [E _]]]; eexists;
        (split; [exact E |]); cbn; tauto. }
    split.
    { split; intro H; [| lia].
      destruct Hc as [[E _] | [[E _] | [E _]]]; other_trend. }
    split.
    { intros c _ Hall. destruct (constant_sums c prices Hall) as [Hy Hxy].
      assert (Hz : slope == 0).
      { unfold slope, slope_dividend. cbv zeta. rewrite Hy, Hxy.
        unfold Qdiv.
        setoid_replace
          (inject_Z (Z.of_nat (List.length prices))
           * (inject_Z (sum_x prices) * c)
           - inject_Z (sum_x prices)
             * (inject_Z (Z.of_nat (List.length prices)) * c))
          with 0 by ring.
        ring. }
      destruct Hc as [[E H] | [[E H] | [E H]]]; [| | exact E];
        rewrite Hz in H; discriminate H. }
    intros _ _ _.
    assert (Hlt : forall a b c : Q, a < b -> b < c -> a < c)
      by (intros; eapply Qlt_trans; eassumption).
    assert (Hno : forall a, (1 # 10) < a -> a < - (1 # 10) -> False).
    { intros a H1 H2. pose proof (Hlt _ _ _ H1 H2) as H. discriminate H. }
    assert (Hle1 : forall a, a <= (1 # 10) -> (1 # 10) < a -> False)
      by (intros a H1 H2; exact (Qlt_not_le _ _ H2 H1)).
    assert (Hle2 : forall a, - (1 # 10) <= a -> a < - (1 # 10) -> False)
      by (intros a H1 H2; exact (Qlt_not_le _ _ H2 H1)).
    destruct Hcr as [[Er Hsr] | [[Er Hsr] | [Er [Hsr1 Hsr2]]]];
      [apply Hneg2 in Hsr | apply Hneg1 in Hsr |];
      destruct Hc as [[E Hs] | [[E Hs] | [E [Hs1 Hs2]]]];
      try (exfalso; eauto; fail);
      try (repeat split; intro; solve [assumption | other_trend]).
    + exfalso. apply (Hle1 slope); [| exact Hs].
      apply Qopp_le_compat in Hsr1. now rewrite !Qopp_involutive in Hsr1.
    + exfalso. apply (Hle2 slope); [| exact Hs].
      apply Qopp_le_compat in Hsr2. now rewrite Qopp_involutive in Hsr2.
Qed.

Lemma analyze_price_trend_reads_the_slope_witness :
  _analyze_price_trend (rev [10; 10.5; 11])
  = Ok (list_ascii_of_string "decreasing")
  <-> _analyze_price_trend [10; 10.5; 11]
      = Ok (list_ascii_of_string "increasing").
Proof.
  destruct (analyze_price_trend_reads_the_slope [10; 10.5; 11])
    as (_ & _ & _ & H).
  cbv zeta in H.
  destruct H as (_ & H & _).
  - cbn. lia.
  - vm_compute. discriminate.
  - vm_compute. discriminate.
  - exact H.
Defined.
(** X20.  The answer follows the prices: when no price is below an
    earlier one the trend is never [decreasing], and read backwards
    (so that no price is above an earlier one) it is never
    [increasing]. *)
Theorem analyze_price_trend_follows_the_prices (prices : list Q) :
  (forall i j, (i <= j < List.length prices)%nat ->
               nth i prices 0 <= nth j prices 0) ->
  _analyze_price_trend prices <> Ok (list_ascii_of_string "decreasing")
  /\ _analyze_price_trend (rev prices)
     <> Ok (list_ascii_of_string "increasing").
Proof.
  intro Hrise. pose proof (rising_dividend prices Hrise) as Hd.
  destruct (Nat.lt_ge_cases (List.length prices) 3) as [Hn | Hn].
  - split; rewrite trend_short by (rewrite ?length_rev; exact Hn);
      intro H; vm_compute in H; discriminate H.
  - pose proof (slope_nonneg prices ltac:(lia) Hd) as Hs.
    assert (Hr : (3 <= List.length (rev prices))%nat)
      by now rewrite length_rev.
    split; intro H.
    + destruct (trend_cases prices Hn) as [[E _] | [[_ Hlt] | [E _]]];
        try other_trend.
      apply (Qlt_not_le _ _ Hlt). eapply Qle_trans; [| exact Hs].
      discriminate.
    + destruct (trend_cases (rev prices) Hr) as [[_ Hlt] | [[E _] | [E _]]];
        try other_trend.
      rewrite (slope_rev prices) in Hlt by lia.
      apply (Qlt_not_le _ _ Hlt). apply Qle_trans with 0; [| discriminate].
      apply Qopp_le_compat in Hs. exact Hs.
Qed.

Lemma analyze_price_trend_follows_the_prices_witness :
  _analyze_price_trend [1; 2; 3] <> Ok (list_ascii_of_string "decreasing")
  /\ _analyze_price_trend (rev [1; 2; 3])
     <> Ok (list_ascii_of_string "increasing").
Proof.
  apply (analyze_price_trend_follows_the_prices [1; 2; 3]).
  intros i j [Hij Hj]. cbn [List.length] in Hj.
  destruct j as [| [| [| j]]]; [| | | lia];
    destruct i as [| [| [| i]]]; try lia; cbn; discriminate.
Defined.

End Trend.

(** ** The tracked products of the backend *)

Section Tracked.

Import PyStr Py Backend.BaseScraper.

Lemma startswith_split (p t : str) :
  startswith p t = true -> exists rest, t = p ++ rest.
Proof.
  revert t. induction p as [| a p IH]; intros t H.
  - now exists t.
  - destruct t as [| b t]; [discriminate H |]. cbn in H.
    apply andb_prop in H. destruct H as [E H].
    apply Ascii.eqb_eq in E. subst b.
    destruct (IH t H) as (rest & ->). now exists rest.
Qed.

Lemma contains_split (p t : str) :
  contains p t = true -> exists before behind, t = before ++ p ++ behind.
Proof.
  induction t as [| c t IH]; intro H; cbn [contains] in H;
    apply orb_true_iff in H; destruct H as [H | H]; try discriminate H.
  - apply startswith_split in H. destruct H as (rest & ->).
    now exists [], rest.
  - apply startswith_split in H. destruct H as (rest & ->).
    now exists [], rest.
  - destruct (IH H) as (before & behind & ->).
    now exists (c :: before), behind.
Qed.

(** A text that holds a keyword holds every piece of that keyword. *)
Lemma contains_trans (a b t : str) :
  contains a b = true -> contains b t = true -> contains a t = true.
Proof.
  intros Hab Hbt.
  destruct (contains_split a b Hab) as (b1 & b2 & ->).
  destruct (contains_split _ t Hbt) as (t1 & t2 & ->).
  replace (t1 ++ (b1 ++ a ++ b2) ++ t2) with ((t1 ++ b1) ++ a ++ (b2 ++ t2))
    by (now rewrite <- !app_assoc).
  apply contains_app.
Qed.

(** A product is hidden by an earlier one when each of its keywords
    holds a keyword of the earlier one. *)
Lemma has_keyword_hidden (text : str) (earlier later : tracked) :
  forallb (fun keyword : string =>
             existsb (fun k : string => contains (lower k) (lower keyword))
                     (keywords earlier))
          (keywords later) = true ->
  has_keyword text later = true -> has_keyword text earlier = true.
Proof.
  intros Hall H. unfold has_keyword in *.
  apply existsb_exists in H. destruct H as (keyword & Hin & Hk).
  rewrite forallb_forall in Hall. specialize (Hall keyword Hin).
  apply existsb_exists in Hall. destruct Hall as (k & Hkin & Hkk).
  apply existsb_exists. exists k. split; [exact Hkin |].
  eapply contains_trans; eassumption.
Qed.

Lemma find_first {A : Type} (f : A -> bool) (l : list A) (x : A) :
  find f l = Some x ->
  exists before behind,
    l = before ++ x :: behind /\ f x = true
    /\ forallb (fun y => negb (f y)) before = true.
Proof.
  induction l as [| y l IH]; intro H; [discriminate H |].
  cbn [find] in H. destruct (f y) eqn:E.
  - injection H as ->. now exists [], l.
  - destruct (IH H) as (before & behind & -> & Hx & Hb).
    exists (y :: before), behind. cbn. now rewrite E, Hb.
Qed.

Lemma find_none_iff {A : Type} (f : A -> bool) (l : list A) :
  find f l = None <-> forall x, In x l -> f x = false.
Proof.
  split; [apply find_none |].
  induction l as [| y l IH]; intro H; [reflexivity |].
  cbn [find]. rewrite (H y) by now left.
  apply IH. intros x Hx. apply H. now right.
Qed.

Ltac hidden_by Hh l :=
  match l with
  | ?e :: ?rest =>
      first [ solve [ apply (Hh e);
                      [ repeat (first [left; reflexivity | right])
                      | vm_compute; reflexivity ] ]
            | hidden_by Hh rest ]
  end.

(** X21.  [match_product] returns the first tracked product one of
    whose keywords occurs in the text, lower-cased, and [None] exactly
    when no keyword of any tracked product does.  Of the products of
    [_load_products_list] it never returns [Cherry Tomatoes] nor
    [Italian Arugula], whose keywords all hold a keyword of an earlier
    product; every other product is returned for its first keyword. *)
Theorem match_product_finds_the_first_keyword (product_text : str) :
  (forall product,
      match_product _load_products_list product_text = Some product ->
      (exists before behind,
          _load_products_list = before ++ product :: behind
          /\ forall earlier keyword,
               In earlier before -> In keyword (keywords earlier) ->
               contains (lower keyword) (lower product_text) = false)
      /\ (exists keyword : string,
             In keyword (keywords product)
             /\ contains (lower keyword) (lower product_text) = true)
      /\ tracked_name product <> "Cherry Tomatoes"%string
      /\ tracked_name product <> "Italian Arugula"%string)
  /\ (match_product _load_products_list product_text = None
      <-> forall product (keyword : string),
            In product _load_products_list ->
            In keyword (keywords product) ->
            contains (lower keyword) (lower product_text) = false)
  /\ (forall product,
         In product _load_products_list ->
         tracked_name product <> "Cherry Tomatoes"%string ->
         tracked_name product <> "Italian Arugula"%string ->
         exists keyword : string,
           hd_error (keywords product) = Some keyword
           /\ match_product _load_products_list keyword = Some product).
Proof.
  split; [| split].
  - intros product H. unfold match_product in H.
    pose proof (find_first _ _ _ H) as (before & behind & Hl & Hk & Hb).
    split; [| split].
    + exists before, behind. split; [exact Hl |].
      intros earlier keyword He Hkw.
      rewrite forallb_forall in Hb. specialize (Hb earlier He).
      apply negb_true_iff in Hb. unfold has_keyword in Hb.
      destruct (contains (lower keyword) (lower product_text)) eqn:E;
        [| reflexivity].
      rewrite <- Hb. symmetry. apply existsb_exists. now exists keyword.
    + unfold has_keyword in Hk. apply existsb_exists in Hk.
      destruct Hk as (keyword & Hin & Hc). now exists keyword.
    + assert (Hhide : forall earlier,
                 In earlier before ->
                 forallb (fun keyword : string =>
                            existsb (fun k : string =>
                                       contains (lower k) (lower keyword))
                                    (keywords earlier))
                         (keywords product) = true -> False).
      { intros earlier He Hall.
        pose proof (has_keyword_hidden _ earlier product Hall Hk) as Ht.
        rewrite forallb_forall in Hb. specialize (Hb earlier He).
        rewrite Ht in Hb. discriminate Hb. }
      clear H Hk Hb.
      unfold _load_products_list in Hl.
      repeat (destruct before as [| ? before];
              [injection Hl as <- _;
               try (split; intro E; vm_compute in E; discriminate E)
              | injection Hl as <- Hl]);
        try (destruct before; discriminate Hl).
      all: exfalso.
      all: match goal with
           | Hh : forall earlier, In earlier ?l -> _ |- _ => hidden_by Hh l
           end.
  - unfold match_product. rewrite find_none_iff. unfold has_keyword.
    split; intro H.
    + intros product keyword Hp Hk.
      specialize (H product Hp).
      destruct (contains (lower keyword) (lower product_text)) eqn:E;
        [| reflexivity].
      rewrite <- H. symmetry. apply existsb_exists. now exists keyword.
    + intros product Hp.
      destruct (existsb _ (keywords product)) eqn:E; [| reflexivity].
      apply existsb_exists in E. destruct E as (keyword & Hk & Hc).
      now rewrite (H product keyword Hp Hk) in Hc.
  - intros product Hin Hn1 Hn2. unfold _load_products_list in Hin.
    cbn [In] in Hin.
    repeat (destruct Hin as [<- | Hin];
            [first [ exfalso; apply Hn1; reflexivity
                   | exfalso; apply Hn2; reflexivity
                   | eexists; split; [reflexivity | vm_compute; reflexivity] ]
            |]).
    destruct Hin.
Qed.

End Tracked.

(** ** Sizes and prices per kilogram of the Rabbit scraper *)

Section Sizes.

Import PyStr PyNum PyParse Py Re.

Lemma last_char_cons (prev : option ascii) (c : ascii) (t : str) :
  last_char prev (c :: t) = last_char (Some c) t.
Proof. unfold last_char. cbn [rev]. destruct (rev t); reflexivity. Qed.

(** A literal matches where the text starts with it. *)
Lemma run_lit {A : Type} (u : str) :
  forall (prev : option ascii) (t : str)
         (k : option ascii -> str -> option A),
    run (Lit u) prev t k
    = if startswith u t
      then k (last_char prev u) (skipn (List.length u) t)
      else None.
Proof.
  induction u as [| c u IH]; intros prev t k; [reflexivity |].
  destruct u as [| c' u'].
  - cbn [Lit run startswith]. destruct t as [| x t]; [reflexivity |].
    rewrite (Ascii.eqb_sym c x). destruct (Ascii.eqb x c) eqn:E;
      [| reflexivity].
    apply Ascii.eqb_eq in E. subst x. reflexivity.
  - change (Lit (c :: c' :: u')) with (Seq (Chr c) (Lit (c' :: u'))).
    rewrite run_seq. cbn [run]. destruct t as [| x t]; [reflexivity |].
    change (startswith (c :: c' :: u') (x :: t))
      with (Ascii.eqb c x && startswith (c' :: u') t).
    rewrite (Ascii.eqb_sym c x).
    destruct (Ascii.eqb x c) eqn:E; [| reflexivity].
    apply Ascii.eqb_eq in E. subst x.
    rewrite IH, (last_char_cons prev c (c' :: u')). reflexivity.
Qed.

(** Among literals, with nothing after them that can fail, the first
    one the text starts with is the one taken. *)
Lemma run_first_literal {A : Type} (us : list str) (prev : option ascii)
    (t : str) (k : option ascii -> str -> option A) (x : A) :
  (forall p r, k p r <> None) ->
  run (AltOf (map Lit us)) prev t k = Some x ->
  exists u,
    find (fun u => startswith u t) us = Some u
    /\ k (last_char prev u) (skipn (List.length u) t) = Some x.
Proof.
  intro Hk. induction us as [| u us IH]; intro H.
  - cbn in H. destruct t; discriminate H.
  - destruct us as [| u' us'].
    + cbn [map AltOf] in H. rewrite run_lit in H. cbn [find].
      destruct (startswith u t); [| discriminate H]. now exists u.
    + change (AltOf (map Lit (u :: u' :: us')))
        with (Alt (Lit u) (AltOf (map Lit (u' :: us')))) in H.
      cbn [run] in H. rewrite run_lit in H. cbn [find].
      destruct (startswith u t).
      * destruct (k (last_char prev u) (skipn (List.length u) t)) eqn:E.
        -- injection H as ->. now exists u.
        -- now apply Hk in E.
      * now apply IH.
Qed.

Lemma find_prefix_split (us : list str) (t u : str) :
  find (fun u => startswith u t) us = Some u ->
  In u us /\ exists rest, t = u ++ rest.
Proof.
  intro H. apply find_some in H. destruct H as [Hin H].
  split; [exact Hin | now apply startswith_split].
Qed.

Lemma skipn_consumed (u rest : str) : skipn (List.length u) (u ++ rest) = rest.
Proof. induction u as [| c u IH]; [reflexivity | exact IH]. Qed.

(** Where a search finds its match. *)
Lemma search_groups_from_here (ps : pieces) (anchored : bool) (t : str) :
  forall (prev : option ascii) (groups : list str),
    search_groups_from ps anchored prev t = Some groups ->
    exists before rest,
      t = before ++ rest
      /\ match_groups ps anchored (last_char prev before) rest = Some groups.
Proof.
  induction t as [| c t IH]; intros prev groups H;
    cbn [search_groups_from] in H.
  - destruct (match_groups ps anchored prev []) eqn:E; [| discriminate H].
    injection H as ->. now exists [], [].
  - destruct (match_groups ps anchored prev (c :: t)) eqn:E.
    + injection H as ->. now exists [], (c :: t).
    + destruct (IH _ _ H) as (before & rest & -> & Hm).
      exists (c :: before), rest. split; [reflexivity |].
      now rewrite last_char_cons.
Qed.

(** A number, blanks, then the first unit name the text goes on with. *)
Lemma number_then_unit (number_pattern : regex) (names : list string)
    (text : str) (groups : list str) :
  search_groups
    [(true, number_pattern); (false, Star Re.s);
     (true, Server.BaseScraper.units names)] false text = Some groups ->
  exists before number blanks unit rest prev prev',
    text = before ++ number ++ blanks ++ unit ++ rest
    /\ groups = [number; unit]
    /\ accepts number_pattern prev number (blanks ++ unit ++ rest) prev'
    /\ forallb is_space blanks = true
    /\ find (fun u => startswith u (unit ++ rest))
            (map list_ascii_of_string names) = Some unit.
Proof.
  intro H. apply search_groups_from_here in H.
  destruct H as (before & rest0 & -> & H).
  unfold match_groups in H. cbn [run_pieces andb app] in H.
  apply run_sound in H. destruct H as (number & rest1 & mid & -> & Hn & H).
  apply run_sound in H. destruct H as (blanks & rest2 & mid2 & -> & Hb & H).
  unfold Server.BaseScraper.units in H.
  rewrite <- (map_map list_ascii_of_string Lit names) in H.
  apply run_first_literal in H; [| discriminate].
  destruct H as (unit & Hfind & H).
  destruct (find_prefix_split _ _ _ Hfind) as [_ (rest & ->)].
  injection H as <-.
  rewrite skipn_consumed, !firstn_consumed.
  exists before, number, blanks, unit, rest, (last_char None before), mid.
  repeat split; try assumption.
  now apply accepts_star_cls in Hb.
Qed.

Lemma startswith_longer (c : ascii) (u t : str) :
  startswith [c] t = false -> startswith (c :: u) t = false.
Proof.
  destruct t as [| x t]; [reflexivity |]. cbn [startswith].
  rewrite andb_true_r. now intros ->.
Qed.

(** [_parse_size] reads a number with a unit that is kg, g or kilo (the
    names gm and gram stand behind g and are never taken), or a whole
    number of pieces. *)
Lemma parse_size_cases (text : str) :
  exists size unit,
    Backend.RabbitScraper._parse_size text = Ok (size, unit)
    /\ ((size = [] /\ unit = [])
        \/ ((exists prev rest prev',
                accepts Server.BaseScraper.quantity prev size rest prev')
            /\ In unit (map list_ascii_of_string ["kg"; "g"; "kilo"]))
        \/ (size <> [] /\ forallb is_digit size = true
            /\ In unit (map list_ascii_of_string ["piece"; "pcs"]))).
Proof.
  unfold Backend.RabbitScraper._parse_size, Backend.RabbitScraper.size_patterns.
  cbn [Backend.RabbitScraper.first_size].
  destruct (search_groups _ false (lower text)) as [groups |] eqn:E1.
  { apply number_then_unit in E1.
    destruct E1 as (before & number & blanks & unit & rest & prev & prev'
                    & _ & -> & Hn & _ & Hfind).
    exists number, unit. split; [reflexivity |]. right. left.
    split; [now exists prev, (blanks ++ unit ++ rest), prev' |].
    cbn [map find] in Hfind.
    destruct (startswith (list_ascii_of_string "kg") (unit ++ rest));
      [injection Hfind as <-; now left |].
    destruct (startswith (list_ascii_of_string "g") (unit ++ rest)) eqn:Eg;
      [injection Hfind as <-; right; now left |].
    rewrite (startswith_longer "g" (list_ascii_of_string "m")) in Hfind
      by exact Eg.
    destruct (startswith (list_ascii_of_string "kilo") (unit ++ rest));
      [injection Hfind as <-; right; right; now left |].
    rewrite (startswith_longer "g" (list_ascii_of_string "ram")) in Hfind
      by exact Eg.
    discriminate Hfind. }
  match goal with
  | |- context [search_groups ?p false (lower text)] =>
      destruct (search_groups p false (lower text)) as [groups |] eqn:E2
  end.
  { apply number_then_unit in E2.
    destruct E2 as (before & number & blanks & unit & rest & prev & prev'
                    & _ & -> & Hn & _ & Hfind).
    exists number, unit. split; [reflexivity |]. right. right.
    apply accepts_plus_cls in Hn. destruct Hn as [Hne Hd].
    split; [exact Hne |]. split; [exact Hd |].
    apply find_some in Hfind. apply Hfind. }
  exists [], []. split; [reflexivity |]. now left.
Qed.

(** A repetition of a class takes all the characters of the class
    there are, when what follows can go on from there. *)
Lemma star_cls_greedy {A : Type} (p : ascii -> bool)
    (k : option ascii -> str -> option A) (rest : str) :
  match rest with [] => true | c :: _ => negb (p c) end = true ->
  forall (n : nat) (t : str) (prev : option ascii),
    forallb p t = true ->
    List.length (t ++ rest) <= n ->
    k (last_char prev t) rest <> None ->
    star_loop (Cls p) k n prev (t ++ rest) = k (last_char prev t) rest.
Proof.
  intros Hrest n. induction n as [| n IH]; intros t prev Hp Hn Hk.
  - destruct t; [| cbn in Hn; lia]. reflexivity.
  - destruct t as [| c t].
    + cbn [app star_loop]. destruct rest as [| x rest]; [reflexivity |].
      rewrite run_cls. apply negb_true_iff in Hrest. now rewrite Hrest.
    + cbn [forallb] in Hp. apply andb_prop in Hp. destruct Hp as [Hc Ht].
      cbn [app star_loop]. rewrite run_cls, Hc.
      replace (List.length (t ++ rest) <? List.length (c :: t ++ rest))
        with true by (symmetry; apply Nat.ltb_lt; cbn; lia).
      rewrite last_char_cons in *.
      rewrite IH by (try assumption; cbn in Hn; lia).
      destruct (k (last_char (Some c) t) rest); [reflexivity | congruence].
Qed.

Lemma plus_cls_greedy {A : Type} (p : ascii -> bool)
    (k : option ascii -> str -> option A) (t rest : str)
    (prev : option ascii) :
  match rest with [] => true | c :: _ => negb (p c) end = true ->
  t <> [] -> forallb p t = true ->
  k (last_char prev t) rest <> None ->
  run (Plus (Cls p)) prev (t ++ rest) k = k (last_char prev t) rest.
Proof.
  intros Hrest Hne Hp Hk. destruct t as [| c t]; [congruence |].
  cbn [forallb] in Hp. apply andb_prop in Hp. destruct Hp as [Hc Ht].
  unfold Plus. rewrite run_seq. cbn [app]. rewrite run_cls, Hc, run_star.
  rewrite last_char_cons in *.
  now apply star_cls_greedy.
Qed.

Lemma last_char_app (prev : option ascii) (a : str) (c : ascii) (b : str) :
  last_char prev (a ++ c :: b) = last_char (Some c) b.
Proof.
  unfold last_char. rewrite rev_app_distr. cbn [rev].
  destruct (rev b); reflexivity.
Qed.

(** On a number the pattern [\d+(?:\.\d+)?] matches all of it. *)
Lemma run_quantity_whole {A : Type} (k : option ascii -> str -> option A)
    (number : str) (prev : option ascii) :
  (number <> [] /\ forallb is_digit number = true)
  \/ (exists ip fp, number = ip ++ "."%char :: fp
                    /\ ip <> [] /\ fp <> []
                    /\ forallb is_digit ip = true
                    /\ forallb is_digit fp = true) ->
  k (last_char prev number) [] <> None ->
  run Server.BaseScraper.quantity prev number k
  = k (last_char prev number) [].
Proof.
  intros [[Hne Hd] | (ip & fp & -> & Hi & Hf & Hdi & Hdf)] Hk;
    unfold Server.BaseScraper.quantity, Re.d; rewrite run_seq.
  - rewrite <- (app_nil_r number) at 1.
    rewrite plus_cls_greedy; try assumption; reflexivity.
  - rewrite last_char_app in Hk.
    assert (Hfrac : run (Seq (Chr ".") (Plus (Cls is_digit)))
                      (last_char prev ip) ("."%char :: fp) k
                    = k (last_char (Some "."%char) fp) []).
    { rewrite run_seq. cbn [run]. rewrite Ascii.eqb_refl.
      rewrite <- (app_nil_r fp) at 1.
      now rewrite plus_cls_greedy. }
    rewrite plus_cls_greedy; try assumption; try reflexivity.
    + unfold Opt.
      change (run (Alt (Seq (Chr ".") (Plus (Cls is_digit))) Eps)
                (last_char prev ip) ("."%char :: fp) k)
        with (match run (Seq (Chr ".") (Plus (Cls is_digit)))
                      (last_char prev ip) ("."%char :: fp) k with
              | Some x => Some x
              | None => run Eps (last_char prev ip) ("."%char :: fp) k
              end).
      rewrite Hfrac, last_char_app.
      destruct (k (last_char (Some "."%char) fp) []); [reflexivity | congruence].
    + unfold Opt.
      change (run (Alt (Seq (Chr ".") (Plus (Cls is_digit))) Eps)
                (last_char prev ip) ("."%char :: fp) k)
        with (match run (Seq (Chr ".") (Plus (Cls is_digit)))
                      (last_char prev ip) ("."%char :: fp) k with
              | Some x => Some x
              | None => run Eps (last_char prev ip) ("."%char :: fp) k
              end).
      rewrite Hfrac.
      destruct (k (last_char (Some "."%char) fp) []); [discriminate | congruence].
Qed.

Lemma search_size_whole (number : str) :
  (number <> [] /\ forallb is_digit number = true)
  \/ (exists ip fp, number = ip ++ "."%char :: fp
                    /\ ip <> [] /\ fp <> []
                    /\ forallb is_digit ip = true
                    /\ forallb is_digit fp = true) ->
  search_groups Backend.BaseScraper.size_pattern false number = Some [number].
Proof.
  intro H.
  assert (Hm : match_groups Backend.BaseScraper.size_pattern false None number
               = Some [number]).
  { unfold match_groups, Backend.BaseScraper.size_pattern.
    cbn [run_pieces andb app].
    rewrite run_quantity_whole by (try exact H; discriminate).
    cbn [List.length]. rewrite Nat.sub_0_r, firstn_all. reflexivity. }
  unfold search_groups. destruct number; cbn [search_groups_from];
    now rewrite Hm.
Qed.

Lemma quantity_decimal (prev : option ascii) (t rest : str)
    (prev' : option ascii) :
  accepts Server.BaseScraper.quantity prev t rest prev' ->
  exists q, PyParse.Decimal t = Ok q /\ (0 <= q)%Q.
Proof.
  intro H. destruct (quantity_float _ _ _ _ H) as (q & Hq & Hpos).
  exists q. split; [| exact Hpos].
  unfold PyParse.float in Hq. unfold PyParse.Decimal.
  destruct (decimal_literal t); [| discriminate Hq].
  injection Hq as ->. reflexivity.
Qed.

(** The backend's [clean_price] gives a price that is not negative. *)
Lemma backend_clean_price_nonneg (price_text : str) :
  exists q, Backend.BaseScraper.clean_price price_text = Ok q /\ (0 <= q)%Q.
Proof.
  unfold Backend.BaseScraper.clean_price, PyParse.Decimal.
  match goal with
  | |- context [decimal_literal ?a] =>
      destruct (decimal_literal a) as [x |] eqn:Ex;
      [assert (Hchars : Forall (fun c => Server.BaseScraper.price_char c = true) a) |]
  end.
  - apply backend_decimal_arg_chars.
    apply replace_char_Forall; [repeat constructor |].
    apply cleaned_price_chars.
  - cbn. exists x. split; [reflexivity |].
    eapply decimal_literal_nonneg; eauto.
    now apply price_char_not_minus.
  - cbn. exists 0%Q. split; [reflexivity | apply Qle_refl].
Qed.

(** [calculate_price_per_kg] on a size that is a number. *)
Lemma calculate_price_per_kg_of_number (price : Q) (size unit : str) (q : Q) :
  search_groups Backend.BaseScraper.size_pattern false size = Some [size] ->
  PyParse.Decimal size = Ok q ->
  Backend.BaseScraper.calculate_price_per_kg price size unit
  = Ok (if Backend.BaseScraper.one_of (lower unit) ["kg"; "كجم"; "كيلو"]
        then (if is_zero q then None else Some (price / q)%Q)
        else if Backend.BaseScraper.one_of (lower unit)
                  ["g"; "جم"; "جرام"; "gram"]
        then (if is_zero (q / 1000)%Q then None
              else Some (price / (q / 1000))%Q)
        else if Backend.BaseScraper.one_of (lower unit) ["lb"; "pound"]
        then (if is_zero (q * 0.453592)%Q then None
              else Some (price / (q * 0.453592))%Q)
        else None).
Proof.
  intros Hs Hd. unfold Backend.BaseScraper.calculate_price_per_kg.
  rewrite Hs. cbn [bind]. rewrite Hd. cbn [bind].
  unfold Backend.BaseScraper.decimal_div.
  change (is_zero 1000) with false. cbn [bind].
  repeat match goal with
         | |- context [if ?b then _ else _] => destruct b
         end; reflexivity.
Qed.

Lemma is_zero_false_pos (q : Q) :
  (0 <= q)%Q -> is_zero q = false -> (0 < q)%Q.
Proof.
  intros Hq Hz. apply Qle_lteq in Hq. destruct Hq as [H | H]; [exact H |].
  unfold is_zero in Hz. symmetry in H. apply Qeq_bool_iff in H. congruence.
Qed.

Lemma is_zero_thousandth (q : Q) : is_zero (q / 1000)%Q = is_zero q.
Proof.
  unfold is_zero. destruct (Qeq_bool q 0) eqn:E.
  - apply Qeq_bool_iff in E. apply Qeq_bool_iff. rewrite E. reflexivity.
  - destruct (Qeq_bool (q / 1000) 0) eqn:E'; [| reflexivity].
    apply Qeq_bool_iff in E'. apply Qeq_bool_neq in E. exfalso. apply E.
    setoid_replace q with (q / 1000 * 1000)%Q by (field; discriminate).
    rewrite E'. reflexivity.
Qed.

Lemma quantity_shape (prev : option ascii) (t rest : str)
    (prev' : option ascii) :
  accepts Server.BaseScraper.quantity prev t rest prev' -> t <> [].
Proof.
  intro H. apply accepts_quantity in H.
  destruct H as [[H _] | (ip & fp & -> & Hi & _)]; [exact H |].
  destruct ip; [congruence | discriminate].
Qed.

Ltac eval_one_of :=
  repeat match goal with
         | |- context [Backend.BaseScraper.one_of ?a ?l] =>
             let b := eval vm_compute in (Backend.BaseScraper.one_of a l) in
             change (Backend.BaseScraper.one_of a l) with b
         end.

Lemma price_per_kg_of_kg (price : Q) (size : str) (q : Q) :
  search_groups Backend.BaseScraper.size_pattern false size = Some [size] ->
  PyParse.Decimal size = Ok q ->
  Backend.BaseScraper.calculate_price_per_kg price size
    (list_ascii_of_string "kg")
  = Ok (if is_zero q then None else Some (price / q)%Q).
Proof.
  intros Hs Hq. rewrite (calculate_price_per_kg_of_number _ _ _ q Hs Hq).
  eval_one_of. reflexivity.
Qed.

Lemma price_per_kg_of_g (price : Q) (size : str) (q : Q) :
  search_groups Backend.BaseScraper.size_pattern false size = Some [size] ->
  PyParse.Decimal size = Ok q ->
  Backend.BaseScraper.calculate_price_per_kg price size
    (list_ascii_of_string "g")
  = Ok (if is_zero q then None else Some (price / (q / 1000))%Q).
Proof.
  intros Hs Hq. rewrite (calculate_price_per_kg_of_number _ _ _ q Hs Hq).
  eval_one_of. cbv iota. now rewrite is_zero_thousandth.
Qed.

(** No price per kilogram for a unit the function does not know. *)
Lemma price_per_kg_other_unit (price : Q) (size unit : str) :
  Backend.BaseScraper.one_of (lower unit) ["kg"; "كجم"; "كيلو"] = false ->
  Backend.BaseScraper.one_of (lower unit) ["g"; "جم"; "جرام"; "gram"] = false ->
  Backend.BaseScraper.one_of (lower unit) ["lb"; "pound"] = false ->
  Backend.BaseScraper.calculate_price_per_kg price size unit = Ok None.
Proof.
  intros H1 H2 H3. unfold Backend.BaseScraper.calculate_price_per_kg.
  rewrite H1, H2, H3.
  destruct (search_groups _ false size) as [[| g groups] |];
    try reflexivity.
  cbn [bind]. destruct (PyParse.Decimal g); cbn [bind try_except];
    [| reflexivity].
  match goal with
  | |- context [if ?b then _ else _] => destruct b
  end; reflexivity.
Qed.

(** What [_extract_product_data] does with the size it read. *)
Lemma parsed_size_price (price : Q) (text : str) :
  exists size unit per_kg,
    Backend.RabbitScraper._parse_size text = Ok (size, unit)
    /\ (if truthy size && truthy unit
        then Backend.BaseScraper.calculate_price_per_kg price size unit
        else Ok None) = Ok per_kg
    /\ In unit (map list_ascii_of_string
                  [""; "kg"; "g"; "kilo"; "piece"; "pcs"])
    /\ (size = [] <-> unit = [])
    /\ (In unit (map list_ascii_of_string ["kilo"; "piece"; "pcs"]) ->
        per_kg = None)
    /\ (forall value,
           per_kg = Some value ->
           exists size_value,
             PyParse.Decimal size = Ok size_value
             /\ (0 < size_value)%Q
             /\ ((unit = list_ascii_of_string "kg"
                  /\ value = (price / size_value)%Q)
                 \/ (unit = list_ascii_of_string "g"
                     /\ value = (price / (size_value / 1000))%Q))).
Proof.
  destruct (parse_size_cases text)
    as (size & unit & Hp & [[-> ->] | [[(prev & rest & prev' & Hacc) Hu]
                                      | (Hne & Hd & Hu)]]).
  - exists [], [], None. cbn. repeat split; auto; discriminate.
  - pose proof (quantity_shape _ _ _ _ Hacc) as Hne.
    destruct (quantity_decimal _ _ _ _ Hacc) as (q & Hq & Hpos).
    pose proof (search_size_whole size (accepts_quantity _ _ _ _ Hacc)) as Hs.
    assert (Ht : truthy size = true)
      by (destruct size; [congruence | reflexivity]).
    exists size, unit. rewrite Ht. cbn [andb].
    destruct Hu as [<- | [<- | [<- | []]]]; cbn [truthy list_ascii_of_string].
    + eexists. split; [exact Hp |].
      split; [exact (price_per_kg_of_kg price size q Hs Hq) |].
      split; [cbn; tauto |]. split; [split; intro; congruence |].
      split; [intros [E | [E | [E | []]]]; discriminate E |].
      intros value Hv.
      destruct (is_zero q) eqn:Ez; [discriminate Hv |]. injection Hv as <-.
      exists q. split; [exact Hq |].
      split; [now apply is_zero_false_pos |]. now left.
    + eexists. split; [exact Hp |].
      split; [exact (price_per_kg_of_g price size q Hs Hq) |].
      split; [cbn; tauto |]. split; [split; intro; congruence |].
      split; [intros [E | [E | [E | []]]]; discriminate E |].
      intros value Hv.
      destruct (is_zero q) eqn:Ez; [discriminate Hv |]. injection Hv as <-.
      exists q. split; [exact Hq |].
      split; [now apply is_zero_false_pos |]. now right.
    + exists None. split; [exact Hp |].
      split; [now apply price_per_kg_other_unit |].
      split; [cbn; tauto |]. split; [split; intro; congruence |].
      split; [reflexivity |]. discriminate.
  - assert (Ht : truthy size = true)
      by (destruct size; [congruence | reflexivity]).
    exists size, unit, None. rewrite Ht. cbn [andb].
    destruct Hu as [<- | [<- | []]]; cbn [truthy list_ascii_of_string];
      (split; [exact Hp |]);
      (split; [now apply price_per_kg_other_unit |]);
      (split; [cbn; tauto |]); (split; [split; intro; congruence |]);
      (split; [reflexivity | discriminate]).
Qed.


Lemma quotient_nonneg (a b : Q) : (0 <= a)%Q -> (0 < b)%Q -> (0 <= a / b)%Q.
Proof.
  intros Ha Hb. apply Qle_shift_div_l; [exact Hb |]. now rewrite Qmult_0_l.
Qed.

(** X22.  The Rabbit scraper reads a product whenever the element has
    a name that is not blank, and nothing raises.  The size it keeps
    has one of the units kg, g, kilo, piece, pcs (a size written with
    gm or gram is kept as g) or is empty; a price per kilogram is set
    only for kg and g and for a size above zero, and is then the price
    divided by the size in kilograms; a size in kilo, piece or pcs gets
    none. *)
Theorem rabbit_price_per_kg_needs_kg_or_g
    (e : Backend.RabbitScraper.element) :
  (Backend.RabbitScraper._extract_product_data e = None
   <-> match Backend.RabbitScraper.product_name e with
       | Some t => strip t = []
       | None => True
       end)
  /\ forall product,
       Backend.RabbitScraper._extract_product_data e = Some product ->
       (exists t, Backend.RabbitScraper.product_name e = Some t
                  /\ Backend.BaseScraper.name product = strip t)
       /\ Backend.BaseScraper.name product <> []
       /\ (0 <= Backend.BaseScraper.price product)%Q
       /\ Backend.BaseScraper.is_available product
          = negb (Backend.RabbitScraper.out_of_stock_label e)
       /\ In (Backend.BaseScraper.pack_unit product)
             (map list_ascii_of_string
                [""; "kg"; "g"; "kilo"; "piece"; "pcs"])
       /\ (Backend.BaseScraper.pack_size product = []
           <-> Backend.BaseScraper.pack_unit product = [])
       /\ (In (Backend.BaseScraper.pack_unit product)
              (map list_ascii_of_string ["kilo"; "piece"; "pcs"]) ->
           Backend.BaseScraper.price_per_kg product = None)
       /\ (forall per_kg,
              Backend.BaseScraper.price_per_kg product = Some per_kg ->
              (0 <= per_kg)%Q
              /\ exists size_value,
                   PyParse.Decimal (Backend.BaseScraper.pack_size product)
                   = Ok size_value
                   /\ (0 < size_value)%Q
                   /\ ((Backend.BaseScraper.pack_unit product
                        = list_ascii_of_string "kg"
                        /\ per_kg
                           = (Backend.BaseScraper.price product
                              / size_value)%Q)
                       \/ (Backend.BaseScraper.pack_unit product
                           = list_ascii_of_string "g"
                           /\ per_kg
                              = (Backend.BaseScraper.price product
                                 / (size_value / 1000))%Q))).
Proof.
  unfold Backend.RabbitScraper._extract_product_data.
  destruct (Backend.RabbitScraper.product_name e) as [t |].
  2: { cbn. split; [tauto | discriminate]. }
  destruct (strip t) as [| c name] eqn:En.
  { cbn. split; [tauto | discriminate]. }
  cbn [truthy negb].
  assert (Hprice : exists q,
             match Backend.RabbitScraper.price_element e with
             | Some price_text => Backend.BaseScraper.clean_price price_text
             | None => Ok (Backend.BaseScraper.price
                             Backend.BaseScraper.new_ProductData)
             end = Ok q /\ (0 <= q)%Q).
  { destruct (Backend.RabbitScraper.price_element e) as [pt |].
    - apply backend_clean_price_nonneg.
    - exists 0%Q. split; [reflexivity | apply Qle_refl]. }
  destruct Hprice as (q & -> & Hq). cbn [bind].
  assert (Hsize : exists size unit per_kg,
             match Backend.RabbitScraper.product_weight e with
             | Some size_text => Backend.RabbitScraper._parse_size size_text
             | None => Ok ([], [])
             end = Ok (size, unit)
             /\ (if truthy size && truthy unit
                 then Backend.BaseScraper.calculate_price_per_kg q size unit
                 else Ok None) = Ok per_kg
             /\ In unit (map list_ascii_of_string
                           [""; "kg"; "g"; "kilo"; "piece"; "pcs"])
             /\ (size = [] <-> unit = [])
             /\ (In unit (map list_ascii_of_string ["kilo"; "piece"; "pcs"]) ->
                 per_kg = None)
             /\ (forall value,
                    per_kg = Some value ->
                    exists size_value,
                      PyParse.Decimal size = Ok size_value
                      /\ (0 < size_value)%Q
                      /\ ((unit = list_ascii_of_string "kg"
                           /\ value = (q / size_value)%Q)
                          \/ (unit = list_ascii_of_string "g"
                              /\ value = (q / (size_value / 1000))%Q)))).
  { destruct (Backend.RabbitScraper.product_weight e) as [st |].
    - apply parsed_size_price.
    - exists [], [], None. cbn. repeat split; auto; discriminate. }
  destruct Hsize as (size & unit & per_kg & Hs & Hk & Hu & Hiff & Hno & Hval).
  change (Backend.BaseScraper.pack_size Backend.BaseScraper.new_ProductData)
    with (@nil ascii).
  change (Backend.BaseScraper.pack_unit Backend.BaseScraper.new_ProductData)
    with (@nil ascii).
  rewrite Hs. cbn [bind fst snd].
  change (Backend.BaseScraper.price_per_kg Backend.BaseScraper.new_ProductData)
    with (@None Q).
  rewrite Hk. cbn [bind try_except].
  split; [split; [discriminate | intro H; discriminate H] |].
  intros product H. injection H as <-.
  cbn [Backend.BaseScraper.name Backend.BaseScraper.price
       Backend.BaseScraper.pack_size Backend.BaseScraper.pack_unit
       Backend.BaseScraper.price_per_kg Backend.BaseScraper.is_available].
  split; [now exists t |]. split; [discriminate |].
  split; [exact Hq |]. split; [reflexivity |].
  split; [exact Hu |]. split; [exact Hiff |]. split; [exact Hno |].
  intros value Hv. destruct (Hval value Hv) as (sv & Hd & Hpos & Hcase).
  split; [| now exists sv].
  destruct Hcase as [[_ ->] | [_ ->]]; apply quotient_nonneg; try assumption.
  apply Qlt_shift_div_l; [reflexivity |]. now rewrite Qmult_0_l.
Qed.

End Sizes.

(** ** The two text cleaners *)

Section Cleaners.

Import PyStr.

(** X23.  The backend's [_clean_text], which replaces every run of
    blanks by one blank and strips the ends, and the server's
    [clean_text], which splits the text on blanks and joins the words,
    give the same text for every input; so the backend's cleaner too
    keeps the words and changes nothing when applied twice. *)
Theorem backend_and_server_clean_text_agree (text : str) :
  Backend.DataProcessor._clean_text text = Server.BaseScraper.clean_text text
  /\ split_ws (Backend.DataProcessor._clean_text text) = split_ws text
  /\ Backend.DataProcessor._clean_text
       (Backend.DataProcessor._clean_text text)
     = Backend.DataProcessor._clean_text text.
Proof.
  assert (H : forall t, Backend.DataProcessor._clean_text t
                        = join " " (split_ws t)).
  { intro t. unfold Backend.DataProcessor._clean_text.
    apply collapse_blanks. }
  assert (Hw : split_ws (join " " (split_ws text)) = split_ws text)
    by (apply split_ws_join, split_ws_words).
  split; [| split].
  - rewrite H. symmetry. apply clean_text_words.
  - now rewrite H.
  - now rewrite !H, Hw.
Qed.

End Cleaners.

(** ** The range of the confidence *)

Section Ratio.

Import PyStr Difflib.

Lemma common_prefix_le (a b : str) :
  common_prefix a b <= List.length a /\ common_prefix a b <= List.length b.
Proof.
  revert b. induction a as [| x a IH]; intros [| y b]; cbn; try lia.
  destruct (Ascii.eqb x y); [| lia]. destruct (IH b). lia.
Qed.

Lemma scan_b_in_range (a_rest b : str) :
  forall (j : nat) (best : nat * nat),
    scan_b a_rest b j best = best
    \/ (j <= fst (scan_b a_rest b j best)
        /\ fst (scan_b a_rest b j best) + snd (scan_b a_rest b j best)
           <= j + List.length b
        /\ snd (scan_b a_rest b j best) <= List.length a_rest).
Proof.
  induction b as [| y b IH]; intros j best; [now left |].
  cbn [scan_b].
  set (k := common_prefix a_rest (y :: b)).
  destruct (IH (S j) (if snd best <? k then (j, k) else best)) as [E | H].
  - rewrite E. destruct (snd best <? k); [| now left].
    right. cbn [fst snd List.length].
    destruct (common_prefix_le a_rest (y :: b)) as [H1 H2].
    fold k in H1, H2. cbn [List.length] in H2. lia.
  - right. cbn [List.length]. lia.
Qed.

Lemma scan_b_from_zero (a_rest b : str) :
  fst (scan_b a_rest b 0 (0, 0)) + snd (scan_b a_rest b 0 (0, 0))
  <= List.length b
  /\ snd (scan_b a_rest b 0 (0, 0)) <= List.length a_rest.
Proof.
  destruct (scan_b_in_range a_rest b 0 (0, 0)) as [E | H].
  - rewrite E. cbn. lia.
  - lia.
Qed.

Lemma scan_a_blocks (a b : str) :
  forall (i : nat) (best : nat * nat * nat),
    scan_a a b i best = best
    \/ (let '(i', j', k') := scan_a a b i best in
        i <= i' /\ i' + k' <= i + List.length a /\ j' + k' <= List.length b).
Proof.
  induction a as [| x a IH]; intros i best; [now left |].
  cbn [scan_a].
  destruct (scan_b (x :: a) b 0 (0, 0)) as [j k] eqn:Eb.
  pose proof (scan_b_from_zero (x :: a) b) as [H1 H2].
  rewrite Eb in H1, H2. cbn [fst snd] in H1, H2.
  destruct (IH (S i) (if snd best <? k then (i, j, k) else best))
    as [E | H].
  - rewrite E. destruct (snd best <? k); [| now left].
    right. lia.
  - right. destruct (scan_a a b (S i) _) as [[i' j'] k'].
    cbn [List.length]. lia.
Qed.

Lemma find_longest_match_block (a b : str) :
  let '(i, j, k) := find_longest_match a b in
  i + k <= List.length a /\ j + k <= List.length b.
Proof.
  unfold find_longest_match.
  destruct (scan_a_blocks a b 0 (0, 0, 0)) as [E | H].
  - rewrite E. lia.
  - destruct (scan_a a b 0 (0, 0, 0)) as [[i j] k]. lia.
Qed.

Lemma matching_size_le (fuel : nat) :
  forall (a b : str) (m : nat),
    matching_size fuel a b = Some m ->
    m <= List.length a /\ m <= List.length b.
Proof.
  induction fuel as [| fuel IH]; intros a b m H; [discriminate H |].
  cbn [matching_size] in H.
  pose proof (find_longest_match_block a b) as Hb.
  destruct (find_longest_match a b) as [[i j] k].
  destruct (k =? 0); [injection H as <-; lia |].
  destruct (matching_size fuel (firstn i a) (firstn j b)) as [before |] eqn:E1;
    [| discriminate H].
  destruct (matching_size fuel (skipn (i + k) a) (skipn (j + k) b))
    as [behind |] eqn:E2; [| discriminate H].
  injection H as <-.
  apply IH in E1. apply IH in E2.
  rewrite !length_firstn in E1. rewrite !length_skipn in E2. lia.
Qed.

Lemma matches_le (a b : str) :
  matches a b <= List.length a /\ matches a b <= List.length b.
Proof.
  pose proof (matches_spec a b) as H. now apply matching_size_le in H.
Qed.

(** The ratio of [SequenceMatcher] lies between 0 and 1. *)
Lemma ratio_range (a b : str) : (0 <= ratio a b <= 1)%Q.
Proof.
  unfold ratio. destruct (List.length a + List.length b) as [| n] eqn:E.
  - split; discriminate.
  - rewrite Qred_correct. pose proof (matches_le a b) as [H1 H2].
    unfold Qle. cbn [Qnum Qden].
    rewrite pos_of_nat_Z by discriminate. split; lia.
Qed.

End Ratio.

Section ConfidenceParts.

Import PyStr PyNum Py Server.CategoryClassifier Server.CategoryClassifier.Tables.

Variable arabic_keywords : ProductCategory -> list (str * Q).
Variable set_iter : list str -> list str.

Local Open Scope Q_scope.

Lemma category_eqb_eq (a b : ProductCategory) :
  category_eqb a b = true <-> a = b.
Proof.
  unfold category_eqb. destruct (category_eq_dec a b); split;
    intro H; congruence.
Qed.

Lemma lookup_in {V : Type} (key : str) (table : list (string * V)) (v : V) :
  lookup key table = Some v -> In v (map snd table).
Proof.
  induction table as [| [k w] table IH]; intro H; [discriminate H |].
  cbn [lookup] in H. destruct (str_eqb (list_ascii_of_string k) key).
  - injection H as ->. now left.
  - right. now apply IH.
Qed.

Lemma best_item_in (first : ProductCategory * Q) (rest : scores) :
  In (best_item first rest) (first :: rest).
Proof.
  unfold best_item. revert first.
  induction rest as [| y rest IH]; intro first; [now left |].
  cbn [fold_left].
  destruct (IH (if Qlt_bool (snd first) (snd y) then y else first))
    as [E | H].
  - rewrite <- E. destruct (Qlt_bool (snd first) (snd y));
      [right; now left | now left].
  - right. now right.
Qed.

Lemma insert_desc_in (x y : ProductCategory * Q) (sorted : scores) :
  In y (insert_desc x sorted) -> y = x \/ In y sorted.
Proof.
  induction sorted as [| z sorted IH]; cbn [insert_desc]; intro H.
  - destruct H as [<- | []]. now left.
  - destruct (Qlt_bool (snd z) (snd x)).
    + destruct H as [<- | H]; [now left | now right].
    + destruct H as [<- | H]; [right; now left |].
      destruct (IH H) as [-> | Hin]; [now left | right; now right].
Qed.

Lemma sorted_desc_in (y : ProductCategory * Q) (sc : scores) :
  In y (sorted_desc sc) -> In y sc.
Proof.
  unfold sorted_desc.
  assert (H : forall acc,
             In y (fold_left (fun acc x => insert_desc x acc) sc acc) ->
             In y acc \/ In y sc).
  { induction sc as [| x sc IH]; intros acc Hin; [now left |].
    cbn [fold_left] in Hin. destruct (IH _ Hin) as [Ha | Hs].
    - apply insert_desc_in in Ha. destruct Ha as [-> | Ha];
        [right; now left | now left].
    - right. now right. }
  intro Hin. destruct (H [] Hin) as [[] | Hs]. exact Hs.
Qed.

(** Scores that are sums of gains above zero stay below the sum of all
    gains. *)
Lemma add_score_gains (P : ProductCategory -> Prop) (bound x : Q)
    (category : ProductCategory) (sc : scores) :
  0 <= bound ->
  (forall c v, In (c, v) sc -> P c /\ 0 < v /\ v <= bound) ->
  P category -> 0 < x ->
  forall c v, In (c, v) (add_score category x sc) ->
              P c /\ 0 < v /\ v <= bound + x.
Proof.
  intros Hb Hsc Hp Hx.
  induction sc as [| [c0 v0] sc IH]; intros c v Hin.
  - cbn in Hin. destruct Hin as [E | []]. injection E as <- <-.
    split; [exact Hp |]. split.
    + now rewrite Qplus_0_l.
    + apply Qplus_le_compat; [exact Hb | apply Qle_refl].
  - cbn [add_score] in Hin.
    destruct (Hsc c0 v0 (or_introl eq_refl)) as (Hp0 & Hpos0 & Hle0).
    destruct (category_eqb c0 category).
    + destruct Hin as [E | Hin].
      * injection E as <- <-. split; [exact Hp0 |]. split.
        -- rewrite <- (Qplus_0_l 0). apply Qplus_lt_le_compat;
             [exact Hpos0 | now apply Qlt_le_weak].
        -- apply Qplus_le_compat; [exact Hle0 | apply Qle_refl].
      * destruct (Hsc c v (or_intror Hin)) as (H1 & H2 & H3).
        split; [exact H1 |]. split; [exact H2 |].
        rewrite <- (Qplus_0_r v). apply Qplus_le_compat;
          [exact H3 | now apply Qlt_le_weak].
    + destruct Hin as [E | Hin].
      * injection E as <- <-. split; [exact Hp0 |]. split; [exact Hpos0 |].
        rewrite <- (Qplus_0_r v0). apply Qplus_le_compat;
          [exact Hle0 | now apply Qlt_le_weak].
      * apply IH; [| exact Hin].
        intros c' v' H'. apply Hsc. now right.
Qed.

(** One of the four steps that fill [candidates]: a gain of at most
    [share] is added, or nothing. *)
Lemma candidates_step (P : ProductCategory -> Prop) (bound share : Q)
    (test : bool) (category : ProductCategory) (x : Q) (sc : scores) :
  0 <= bound -> 0 <= share ->
  (forall c v, In (c, v) sc -> P c /\ 0 < v /\ v <= bound) ->
  (test = true -> P category /\ 0 < x /\ x <= share) ->
  forall c v,
    In (c, v) (if test then add_score category x sc else sc) ->
    P c /\ 0 < v /\ v <= bound + share.
Proof.
  intros Hb Hs Hsc Ht c v Hin. destruct test.
  - destruct (Ht eq_refl) as (Hp & Hx & Hle).
    destruct (add_score_gains P bound x category sc Hb Hsc Hp Hx c v Hin)
      as (H1 & H2 & H3).
    split; [exact H1 |]. split; [exact H2 |].
    eapply Qle_trans; [exact H3 |].
    apply Qplus_le_compat; [apply Qle_refl | exact Hle].
  - destruct (Hsc c v Hin) as (H1 & H2 & H3).
    split; [exact H1 |]. split; [exact H2 |].
    rewrite <- (Qplus_0_r v). now apply Qplus_le_compat.
Qed.

Lemma add_score_fst (category : ProductCategory) (x : Q) (sc : scores)
    (c : ProductCategory) (v : Q) :
  In (c, v) (add_score category x sc) ->
  c = category \/ exists v', In (c, v') sc.
Proof.
  induction sc as [| [c0 v0] sc IH]; cbn [add_score]; intro H.
  - destruct H as [E | []]. injection E as <- _. now left.
  - destruct (category_eqb c0 category) eqn:Ec.
    + destruct H as [E | H].
      * injection E as <- _. right. exists v0. now left.
      * right. exists v. now right.
    + destruct H as [E | H].
      * injection E as <- <-. right. exists v0. now left.
      * destruct (IH H) as [-> | (v' & Hv)]; [now left |].
        right. exists v'. now right.
Qed.

(** The partial matches of a brand against the table. *)
Lemma brand_partial_range (brand : str)
    (table : list (string * ProductCategory)) :
  Forall (fun e : string * ProductCategory => snd e <> UNKNOWN) table ->
  let '(c, conf) :=
    (fix partial (table : list (string * ProductCategory)) :=
       match table with
       | [] => (UNKNOWN, 0%Q)
       | (known, category) :: rest =>
           let known_brand := list_ascii_of_string known in
           if contains known_brand brand || contains brand known_brand
           then
             let similarity := Difflib.ratio brand known_brand in
             if Qlt_bool 0.8 similarity
             then (category, (0.8 * similarity)%Q)
             else partial rest
           else partial rest
       end) table in
  (c = UNKNOWN /\ conf = 0) \/ (c <> UNKNOWN /\ 0 < conf /\ conf <= 0.8).
Proof.
  induction 1 as [| [known category] table Hc _ IH].
  - left. now split.
  - cbn [snd] in Hc. cbv zeta.
    destruct (contains (list_ascii_of_string known) brand
              || contains brand (list_ascii_of_string known));
      [| exact IH].
    destruct (Qlt_bool 0.8 (Difflib.ratio brand (list_ascii_of_string known)))
      eqn:Er; [| exact IH].
    right. apply Qlt_bool_iff in Er.
    pose proof (ratio_range brand (list_ascii_of_string known)) as [_ Hle].
    split; [exact Hc |]. split.
    + apply Qlt_trans with (0.8 * 0.8); [reflexivity |].
      apply Qmult_lt_l; [reflexivity | exact Er].
    + setoid_replace 0.8 with (0.8 * 1) at 2 by ring.
      apply Qmult_le_l; [reflexivity | exact Hle].
Qed.

Lemma brands_known :
  Forall (fun e : string * ProductCategory => snd e <> UNKNOWN)
         brand_categories.
Proof. unfold brand_categories. repeat constructor; discriminate. Qed.

Lemma store_categories_known :
  Forall (fun e : string * ProductCategory => snd e <> UNKNOWN)
         category_mappings.
Proof. unfold category_mappings. repeat constructor; discriminate. Qed.

Lemma lookup_known {V : Type} (P : V -> Prop) (key : str)
    (table : list (string * V)) (v : V) :
  Forall (fun e => P (snd e)) table -> lookup key table = Some v -> P v.
Proof.
  intros Hall H. apply lookup_in in H. rewrite Forall_forall in Hall.
  apply in_map_iff in H. destruct H as (e & <- & He). now apply Hall.
Qed.

(** What the brand table says. *)
Lemma classify_by_brand_range (brand : str) :
  let '(c, conf) := _classify_by_brand brand in
  (lookup (lower (strip brand)) brand_categories = Some c /\ conf = 0.9
   /\ c <> UNKNOWN)
  \/ (lookup (lower (strip brand)) brand_categories = None
      /\ ((c = UNKNOWN /\ conf = 0)
          \/ (c <> UNKNOWN /\ 0 < conf /\ conf <= 0.8))).
Proof.
  unfold _classify_by_brand. cbv zeta.
  destruct (lookup (lower (strip brand)) brand_categories) as [c |] eqn:E.
  - left. split; [reflexivity |]. split; [reflexivity |].
    exact (lookup_known (fun c => c <> UNKNOWN) _ _ _ brands_known E).
  - pose proof (brand_partial_range (lower (strip brand)) brand_categories
                  brands_known) as H.
    cbv zeta in H.
    match goal with
    | |- let '(c, conf) := ?r in _ => destruct r as [c conf]
    end.
    right. split; [reflexivity | exact H].
Qed.

Lemma store_partial_range (store_category : str)
    (table : list (string * ProductCategory)) :
  Forall (fun e : string * ProductCategory => snd e <> UNKNOWN) table ->
  let '(c, conf) :=
    (fix partial (table : list (string * ProductCategory)) :=
       match table with
       | [] => (UNKNOWN, 0%Q)
       | (category_name, product_category) :: rest =>
           let category_name := list_ascii_of_string category_name in
           if contains category_name store_category
              || contains store_category category_name
           then (product_category, 0.7%Q)
           else partial rest
       end) table in
  (c = UNKNOWN /\ conf = 0) \/ (c <> UNKNOWN /\ conf = 0.7).
Proof.
  induction 1 as [| [known category] table Hc _ IH].
  - left. now split.
  - cbn [snd] in Hc. cbv zeta.
    destruct (contains (list_ascii_of_string known) store_category
              || contains store_category (list_ascii_of_string known));
      [| exact IH].
    right. now split.
Qed.

(** What the store's own category says. *)
Lemma classify_by_store_category_range (store_category : str) :
  let '(c, conf) := _classify_by_store_category store_category in
  (lookup (lower (strip store_category)) category_mappings = Some c
   /\ conf = 0.8 /\ c <> UNKNOWN)
  \/ (lookup (lower (strip store_category)) category_mappings = None
      /\ ((c = UNKNOWN /\ conf = 0) \/ (c <> UNKNOWN /\ conf = 0.7))).
Proof.
  unfold _classify_by_store_category. cbv zeta.
  destruct (lookup (lower (strip store_category)) category_mappings)
    as [c |] eqn:E.
  - left. split; [reflexivity |]. split; [reflexivity |].
    exact (lookup_known (fun c => c <> UNKNOWN) _ _ _
             store_categories_known E).
  - pose proof (store_partial_range (lower (strip store_category))
                  category_mappings store_categories_known) as H.
    cbv zeta in H.
    match goal with
    | |- let '(c, conf) := ?r in _ => destruct r as [c conf]
    end.
    right. split; [reflexivity | exact H].
Qed.

(** The categories that get a score are those of the tables. *)
Lemma score_keywords_fst (text : str) (words : list str)
    (category : ProductCategory) (keywords : list (str * Q)) :
  forall sc sc',
    score_keywords text words category keywords sc = Ok sc' ->
    forall c v, In (c, v) sc' -> c = category \/ exists v', In (c, v') sc.
Proof.
  induction keywords as [| [keyword weight] keywords IH]; intros sc sc' H c v Hin.
  - injection H as <-. right. now exists v.
  - cbn [score_keywords] in H.
    destruct (keyword_gain text words keyword weight) as [gain | e];
      [| discriminate H].
    cbn [bind] in H. destruct (IH _ _ H c v Hin) as [-> | (v' & Hv)];
      [now left |].
    destruct gain as [x |]; [| right; now exists v'].
    apply add_score_fst in Hv. exact Hv.
Qed.

Lemma score_categories_fst (text : str) (words : list str)
    (table : list (ProductCategory * list (str * Q))) :
  forall sc sc',
    score_categories text words table sc = Ok sc' ->
    forall c v, In (c, v) sc' ->
                In c (map fst table) \/ exists v', In (c, v') sc.
Proof.
  induction table as [| [category keywords] table IH]; intros sc sc' H c v Hin.
  - injection H as <-. right. now exists v.
  - cbn [score_categories] in H.
    destruct (score_keywords text words category keywords sc) as [sc1 | e] eqn:E;
      [| discriminate H].
    cbn [bind] in H. destruct (IH _ _ H c v Hin) as [Ht | (v' & Hv)].
    + left. now right.
    + destruct (score_keywords_fst _ _ _ _ _ _ E c v' Hv) as [-> | Hsc];
        [left; now left | now right].
Qed.

(** A keyword result that counts is at most 1 and names a category. *)
Lemma classify_by_keywords_range (text : str) (c : ProductCategory)
    (conf : Q) :
  _classify_by_keywords arabic_keywords set_iter text = Ok (c, conf) ->
  0.3 < conf -> conf <= 1 /\ c <> UNKNOWN.
Proof.
  unfold _classify_by_keywords. cbv zeta.
  destruct (score_categories _ _ (category_keywords arabic_keywords) [])
    as [sc | e] eqn:E; [| discriminate].
  cbn [bind]. intros H Hconf.
  assert (Hcat : forall c v, In (c, v) sc -> c <> UNKNOWN).
  { intros c' v' Hin.
    destruct (score_categories_fst _ _ _ _ _ E c' v' Hin) as [Ht | (? & [])].
    cbn in Ht. intuition (subst; discriminate). }
  destruct sc as [| [c0 v0] rest].
  { injection H as <- <-. discriminate Hconf. }
  pose proof (qmax_spec v0 (map snd rest)) as [_ Hmax].
  set (max_score := qmax v0 (map snd rest)) in *.
  assert (Hval : forall c v, In (c, v) ((c0, v0) :: rest) -> v <= max_score).
  { intros c' v' Hin. apply Hmax.
    change (v0 :: map snd rest) with (map snd ((c0, v0) :: rest)).
    apply in_map_iff. exists (c', v'). split; [reflexivity | exact Hin]. }
  destruct (Qlt_bool 0 max_score) eqn:Epos.
  - apply Qlt_bool_iff in Epos. cbn [map fst snd] in H.
    injection H as H.
    pose proof (best_item_in (c0, v0 / max_score)
                  (map (fun cv => (fst cv, snd cv / max_score)) rest)) as Hin.
    rewrite H in Hin.
    change ((c0, v0 / max_score)
            :: map (fun cv => (fst cv, snd cv / max_score)) rest)
      with (map (fun cv : ProductCategory * Q =>
                   (fst cv, snd cv / max_score)) ((c0, v0) :: rest)) in Hin.
    apply in_map_iff in Hin. destruct Hin as ([c' v'] & Heq & Hin).
    cbn [fst snd] in Heq. injection Heq as <- <-.
    split; [| now apply (Hcat c' v')].
    apply Qle_shift_div_r; [exact Epos |]. rewrite Qmult_1_l.
    now apply (Hval c' v').
  - injection H as H.
    pose proof (best_item_in (c0, v0) rest) as Hin. rewrite H in Hin.
    exfalso. assert (Hle : conf <= max_score) by now apply (Hval c conf).
    assert (Hnp : ~ 0 < max_score).
    { intro Hp. apply Qlt_bool_iff in Hp. congruence. }
    apply Hnp. apply Qlt_le_trans with conf; [| exact Hle].
    apply Qlt_trans with 0.3; [reflexivity | exact Hconf].
Qed.

Lemma Qmin_le_r (a b : Q) : Qmin a b <= b.
Proof.
  unfold Qmin. destruct (Qle_bool a b) eqn:E; [| apply Qle_refl].
  now apply Qle_bool_iff.
Qed.

Lemma patterns_fst (text : str)
    (table : list (ProductCategory * list Re.regex)) :
  forall sc c v,
    In (c, v)
       (fold_left
          (fun sc entry =>
             fold_left
               (fun sc pattern =>
                  match List.length
                          (Re.findall (Re.ignorecase pattern) text) with
                  | O => sc
                  | n => add_score (fst entry)
                           (inject_Z (Z.of_nat n) * 0.5) sc
                  end)
               (snd entry) sc)
          table sc) ->
    In c (map fst table) \/ exists v', In (c, v') sc.
Proof.
  induction table as [| [category patterns] table IH]; intros sc c v Hin.
  - right. now exists v.
  - cbn [fold_left fst snd] in Hin.
    destruct (IH _ c v Hin) as [Ht | (v' & Hv)]; [left; now right |].
    clear Hin IH. revert sc v' Hv.
    induction patterns as [| pattern patterns IHp]; intros sc v' Hv.
    + right. now exists v'.
    + cbn [fold_left] in Hv.
      destruct (IHp _ _ Hv) as [Ht | (v'' & Hv'')]; [now left |].
      destruct (List.length (Re.findall (Re.ignorecase pattern) text));
        [right; now exists v'' |].
      apply add_score_fst in Hv''. destruct Hv'' as [-> | Hsc];
        [left; now left | now right].
Qed.

(** A pattern result is at most 1 and, when it counts, names a
    category. *)
Lemma classify_by_patterns_range (text : str) :
  snd (_classify_by_patterns text) <= 1
  /\ (0.3 < snd (_classify_by_patterns text) ->
      fst (_classify_by_patterns text) <> UNKNOWN).
Proof.
  unfold _classify_by_patterns. cbv zeta.
  match goal with
  | |- context [fold_left ?f unit_patterns []] =>
      pose proof (patterns_fst text unit_patterns []) as Hcat;
      destruct (fold_left f unit_patterns []) as [| [c0 v0] rest]
  end.
  { cbn. split; [discriminate | intro H; discriminate H]. }
  set (max_score := qmax v0 (map snd rest)).
  pose proof (best_item_in
                (c0, Qmin (v0 / max_score) 1.0)
                (map (fun cv => (fst cv, Qmin (snd cv / max_score) 1.0)) rest))
    as Hin.
  cbn [map fst snd].
  destruct (best_item _ _) as [c conf]. cbn [fst snd].
  change ((c0, Qmin (v0 / max_score) 1.0)
          :: map (fun cv => (fst cv, Qmin (snd cv / max_score) 1.0)) rest)
    with (map (fun cv : ProductCategory * Q =>
                 (fst cv, Qmin (snd cv / max_score) 1.0))
              ((c0, v0) :: rest)) in Hin.
  apply in_map_iff in Hin. destruct Hin as ([c' v'] & Heq & Hin).
  cbn [fst snd] in Heq. injection Heq as <- <-.
  split; [apply Qle_trans with 1.0; [apply Qmin_le_r | discriminate] |].
  intros _. destruct (Hcat c' v' Hin) as [Ht | (? & [])].
  cbn in Ht. repeat (destruct Ht as [<- | Ht]; [discriminate |]).
  destruct Ht.
Qed.

(** A context result is at most 0.6 and, when above zero, names a
    category. *)
Lemma classify_by_context_range (name text : str) :
  snd (_classify_by_context name text) <= 0.6
  /\ (0 < snd (_classify_by_context name text) ->
      fst (_classify_by_context name text) <> UNKNOWN).
Proof.
  unfold _classify_by_context. cbv zeta.
  repeat match goal with
         | |- context [Re.search ?p text] =>
             let b := fresh "b" in
             generalize (Re.search p text); intro b
         end.
  destruct b, b0, b1, b2, b3, b4; vm_compute;
    (split; [discriminate | intro H; discriminate]).
Qed.

End ConfidenceParts.
